(* ===== verification/_CoqProject ===== *)
-Q . S2P
Prelude.v
Crates.v
Sample.v
Extension.v
Connection.v
CManager.v
Messages.v
Proxy.v
Handler.v
Setup.v
ManagerInv.v
NatTable.v
Manager.v
SampleManager.v
ManagerProps.v
Ports.v
Packets.v
Translate.v
Steady.v
StateMachine.v
Reach.v
Counters.v
Pipeline.v
Safety.v
SampleEngine.v
Closing.v
Calm.v
PipelineProps.v
StateProps.v
TranslateProps.v
Wiring.v
SetupProps.v
Runs.v
Report.v
ReportProps.v
Main.v
MainProps.v
