(* ===== verification/Prelude.v ===== *)
(** * ProxyEngine: a verification development

    ProxyEngine is a TCP proxy with delayed binding. It answers a client's
    handshake itself, selects the target server when the first payload packet
    arrives, opens a second connection to that server, and from then on
    translates the packets of both directions. Each core runs one pipeline: a
    closure called with every packet, which owns a table of connections, a timer
    wheel and counters and shares nothing with other pipelines. The program is
    sequential within a pipeline, so the model is a function of the pipeline's
    state and one packet.

    ** Parts of the program and files of the development

    - [src/src/cmanager.rs], [Extension]: the server-side record of a connection,
      seven states with time stamps. [Extension.v].
    - [src/src/cmanager.rs], [ProxyConnection] and [DetailedConnection]: the state
      of one connection, and its entry in a record store shared by reference.
      [Connection.v]; the stores live in the [World], a handle is a number.
    - [src/src/cmanager.rs], [ConnectionManager]: the table of connections by
      proxy port, the queue of free ports, the map from client sockets to ports,
      releases, timeouts, the fetching of records. [CManager.v].
    - [src/src/nftcp.rs], lines 125-151 and 224-418: the packet allocator and the
      functions that rewrite packets ([client_syn_received], [client_to_server],
      [server_to_client], [select_server], [server_synack_received]). [Proxy.v].
    - [src/src/nftcp.rs], lines 422-836: the main closure with its filters, its
      two TCP state machines and the timer tick. [Handler.v]; the branches of the
      long if-chains are definitions of their own ([client_fin], [server_ack],
      ..), composed in the order of the code.
    - [src/src/lib.rs]: the configuration, the types of the two functions of the
      embedding program, the loop over the ports of a core. [src/src/nftcp.rs],
      lines 45-216 and 838-862: the setup of one pipeline, what its closure
      captures and the tasks around it. [src/src/bin.rs], lines 141-185: the server
      list and the closures of the program. [Setup.v]; the messages to and from
      the run time (netfcts) are in [Messages.v].
    - [src/src/bin.rs], lines 118-290: [main], with the installation on the cores,
      the requests to the pipelines and the loop over the replies. [Main.v], as a
      sequence of actions. Lines 47-116, the evaluation of the records (the counts,
      the text of the file, the lines logged, [Display] of [Extension]): [Report.v].
    - the crates netfcts and e2d2, which are not in the repository: [Crates.v]
      has their types and operations as type classes, and separate classes for
      the laws that the theorems use; [Sample.v] has concrete instances that
      satisfy all of these laws, on which the witnesses run.

    ** How they interact

    [delayed_binding] (the closure) filters a packet, and hands it to
    [timer_tick] or [tcp_packet]. The latter asks the manager for the connection
    of the packet, lends it to [client_tcp] or [server_tcp] ([with_con]: the
    connection is read out of the table, the handler runs on a context [Ctx] of
    that connection and the pipeline's other state, and the connection is
    written back), and then releases the port the handler asks to release. The
    handlers call the packet functions; these call the two closures of the
    embedding program. Packets are handles into a packet memory ([PacketMem]);
    a clone is a second handle to the same buffer, so what is written through
    one is read through the other ([same_buf]).

    [main] starts the run time and has [setup_pipes_delayed_proxy] called on each
    core; that goes through the ports and runs [setup_delayed_proxy], whose calls
    on the scheduler are recorded as data ([SchedCall]): the closure with its
    first state, and the streams that feed it and send its groups on. Later
    [main] talks to the pipelines only by messages, which a timer tick reads
    ([timer_tick]) and answers. [Runs.v] puts the closure back together with its
    surroundings: a run alternates calls with what the others may do in between.

    ** Conventions

    Code that can fail runs in the monad [M S]: from a state to a result and a
    state, or to a [panic] (index out of bounds, overflow, division by zero,
    failed assertion, [unwrap] of [None]). A machine integer is a [Z]; explicitly
    wrapping operations are taken modulo [2^w], plain ones go through [arith],
    which panics or wraps as the build profile ([Profile]) says. [wp m E Q s]:
    run from [s], [m] either returns a result and a state in [Q] or panics with a
    panic in [E]; with [E := no_panic] it returns, with [any_panic] a panic is
    tolerated.

    The one loop of the code that is not structural is the tick loop of
    [release_timeouts]; it has fuel, and [None] is the result when it runs out.
    The laws of the wheel give a measure ([wheel_lag], the number of entries that
    are due) that each round of the loop decreases; more fuel than that measure
    is enough, and the theorems say so.

    ** What the theorems show

    - Manager ([ManagerInv.v], [NatTable.v], [Manager.v], [ManagerProps.v],
      [Ports.v]): the invariant [cm_inv] ties the table, the queue and the map together; the
      manager refines a NAT table (a partial bijection of sockets and ports with a
      FIFO queue of free ports), with the exact effect of allocation, release and
      timeouts; lookups agree; ports are conserved over every sequence of
      operations from [cm_new] on ([cm_step]). Two cases in which the code
      breaks its own assertions are theorems too: the client address 0.0.0.0, and
      fetching the records while connections are recorded.
    - Packet functions ([Packets.v], [Translate.v], [TranslateProps.v]): the exact
      headers, payload and connection after each of them; the two directions are
      inverse on sequence and acknowledgement numbers; the handshake with the
      server joins the handshake with the client.
    - State machine ([Steady.v], [StateMachine.v], [Reach.v], [Counters.v],
      [Closing.v], [StateProps.v]): the handlers implement a table of events; over
      every sequence of packets they handle ([packet_step]), the pairs of states
      a connection can reach and the balance of the counters; that a connection
      can always be closed by packets built from what it has stored
      ([closes_within]).
    - Pipeline ([Pipeline.v], [PipelineProps.v]): the invariant [engine_inv] of the
      whole state is kept by every call of the closure; the pipeline refines
      independent sessions, one per port, that move along the state machine; a
      requested release never fails; a packet touches no connection but its own.
    - Absence of panics ([Safety.v], [Calm.v], [PipelineProps.v]): a call on a calm
      pipeline returns and leaves it calm if the outside serves the packet; both
      conditions are predicates of the state ([calm], [serves]).
    - Setup ([Wiring.v], [SetupProps.v]): the setup installs a closure in its
      invariant for each port with both queues; the calls on the scheduler and the
      messages to the run time; each group leaves by the port it should and the
      pipelines of a core keep apart, given what the code's comments say of the
      operators of e2d2 ([FlowLaws]); what the selection closures select; the
      server list.
    - Runs ([Runs.v]): the closures of the program are as the pipeline's theorems
      assume; the composition of setup and pipeline: after the setup with the closures
      of the program, every run stays calm and follows the sessions, and the next
      served call returns.
    - Main program ([ReportProps.v], [MainProps.v]): the actions of [main] in order;
      the loop over the replies ends and holds the latest data of every pipeline;
      the evaluation of the records is total and writes the right file and counts.
    - Records ([Extension.v]): what is pushed is what is shown; capacity and
      precision.

    [SampleManager.v] and [SampleEngine.v] hold the concrete managers and
    pipelines the witnesses use.

    ** What is not modelled

    Log messages of the pipelines and of the setup, and those of [debug!] (with the
    panics their arguments could raise; what [main] and the report print and log
    is modelled), the profiling feature, the destructors of packets and
    the reference counts they change, borrow flags of the record stores (no borrow
    is held across another), the overflow of counters, [GLOBAL_MANAGER_COUNT] (it
    is only logged), what e2d2's operators do with the packets (an interface with
    laws), the run time of netfcts and the operating system (arguments of [main]),
    and the tests. Threads do not interleave in the model: a pipeline shares
    nothing with others but messages and packet buffers, and what those may do
    between two calls is the relation [env_step].

    With detailed records on, the theorems about the state machine and the
    pipeline tolerate panics, since the record of a connection can overflow
    ([Extension.v]); without them [delayed_binding_total] excludes every panic,
    under conditions it states. *)
From Stdlib Require Import ZArith Lia ssreflect.
From stdpp Require Export base numbers gmap list.

#[global] Set Default Goal Selector "!".
Open Scope Z_scope.

(** ** Panics and results

    Every way the modelled code can stop: an index out of bounds, an
    arithmetic overflow in a build with overflow checks, a division by zero, a
    failed [assert!], an [unwrap]/[expect] on [None] (or on an [Err]), a [panic!]. *)
Inductive panic : Type :=
| OutOfBounds
| Overflow
| DivByZero
| AssertFailed
| UnwrapNone
| PanicCall.

#[export] Instance panic_eq_dec : EqDecision panic.
Proof. solve_decision. Defined.

Inductive res (A : Type) : Type :=
| Ok (a : A)
| Panic (e : panic).
Arguments Ok {A} a.
Arguments Panic {A} e.

#[export] Instance res_ret : MRet res := λ A a, Ok a.
#[export] Instance res_bind : MBind res := λ A B f m,
  match m with Ok a => f a | Panic e => Panic e end.

(** ** State and panic

    [M S A]: code that reads and writes a state [S], returns an [A], and may
    panic. A panic ends the pipeline thread, so it carries no state. *)
Definition M (S A : Type) : Type := S → res (A * S).

#[export] Instance M_ret {S} : MRet (M S) := λ A a s, Ok (a, s).
#[export] Instance M_bind {S} : MBind (M S) := λ A B f m s,
  match m s with Ok (a, s') => f a s' | Panic e => Panic e end.

Section monad_ops.
Context {S : Type}.

Definition gets {A} (f : S → A) : M S A := λ s, Ok (f s, s).
Definition modify (f : S → S) : M S unit := λ s, Ok (tt, f s).
Definition lift {A} (r : res A) : M S A := λ s,
  match r with Ok a => Ok (a, s) | Panic e => Panic e end.

(** [assert!(b)] *)
Definition assert_ (b : bool) : M S unit := λ s,
  if b then Ok (tt, s) else Panic AssertFailed.

(** [if b { m }] *)
Definition when (b : bool) (m : M S unit) : M S unit := if b then m else mret tt.
End monad_ops.

(** [o.unwrap()] and [o.expect(..)] *)
Definition unwrap {A} (o : option A) : res A :=
  match o with Some a => Ok a | None => Panic UnwrapNone end.

(** Code that acts on the part [T] of a state [S]: [g] reads the part, [u]
    writes it back. *)
Definition zoom {S T A} (g : S → T) (u : T → S → S) (m : M T A) : M S A := λ s,
  match m (g s) with Ok (a, t) => Ok (a, u t s) | Panic e => Panic e end.

(** ** Machine integers

    A w-bit unsigned integer is a [Z] in [0 .. 2^w-1]. The explicitly wrapping
    operations of the code are taken modulo [2^w]; the plain ones go through
    [arith], which panics or wraps as the build profile says. *)
Definition wrap (w z : Z) : Z := z mod 2 ^ w.
Definition wrapping_add32 (a b : Z) : Z := wrap 32 (a + b).
Definition wrapping_sub32 (a b : Z) : Z := wrap 32 (a - b).

(** [x as i32] *)
Definition as_i32 (z : Z) : Z :=
  let m := wrap 32 z in if m <? 2 ^ 31 then m else m - 2 ^ 32.
(** [!m] on a [u16] *)
Definition not16 (m : Z) : Z := Z.lxor m 65535.

(** Whether the crate is built with overflow checks ([debug]) or not ([release]). *)
Class Profile : Type := overflow_checks : bool.

Definition arith `{Profile} (w z : Z) : res Z :=
  if (0 <=? z) && (z <? 2 ^ w) then Ok z
  else if overflow_checks then Panic Overflow else Ok (wrap w z).

Definition arith_i32 `{Profile} (z : Z) : res Z :=
  if (- 2 ^ 31 <=? z) && (z <? 2 ^ 31) then Ok z
  else if overflow_checks then Panic Overflow else Ok (as_i32 z).

(** ** Indexing: Rust panics out of range *)
Definition index {A} (l : list A) (i : Z) : res A :=
  if 0 <=? i then match l !! Z.to_nat i with Some a => Ok a | None => Panic OutOfBounds end
  else Panic OutOfBounds.

Definition index_set {A} (l : list A) (i : Z) (a : A) : res (list A) :=
  if (0 <=? i) && (i <? Z.of_nat (length l)) then Ok (<[Z.to_nat i := a]> l)
  else Panic OutOfBounds.

(** ** Functional record update: [r <| f := v |>]

    A record declares its eta expansion once ([Eta]); the setter of a
    projection is derived from it. *)
Class Eta (R : Type) := eta : R → R.
Class Setter {R A : Type} (proj : R → A) := set_field : (A → A) → R → R.
Arguments set_field {R A} proj {_} _ _.

Ltac derive_setter :=
  lazymatch goal with
  | |- @Setter ?R ?A ?proj =>
      unfold Setter;
      let g := fresh "g" in
      let r := fresh "r" in
      intros g r;
      let body := eval hnf in (@eta R _ r) in
      let pat := eval pattern (proj r) in body in
      lazymatch pat with
      | ?k _ => let t := eval cbv beta in (k (g (proj r))) in exact t
      end
  end.
#[export] Hint Extern 1 (Setter _) => derive_setter : typeclass_instances.

Notation "r <| f := v |>" := (set_field f (λ _, v) r)
  (at level 1, left associativity, f at level 11, v at level 200,
   format "r  <| f  :=  v |>").

(** ** Weakest preconditions

    [wp m E Q s]: from [s], [m] either returns a result satisfying [Q] or
    panics as [E] allows. With [no_panic] for [E] this is total correctness,
    with [any_panic] partial correctness. *)
Definition wp {S A} (m : M S A) (E : panic → Prop) (Q : A → S → Prop) (s : S) : Prop :=
  match m s with Ok (a, s') => Q a s' | Panic e => E e end.

Definition wpr {A} (r : res A) (E : panic → Prop) (Q : A → Prop) : Prop :=
  match r with Ok a => Q a | Panic e => E e end.

Definition no_panic : panic → Prop := λ _, False.
Definition any_panic : panic → Prop := λ _, True.

(** ** Lemmas *)

Section wp_rules.
Context {S : Type} (E : panic → Prop).

Lemma wp_ret {A} (a : A) Q (s : S) : Q a s → wp (mret a) E Q s.
Proof. done. Qed.

Lemma wp_bind {A B} (m : M S A) (f : A → M S B) Q s :
  wp m E (λ a s', wp (f a) E Q s') s → wp (m ≫= f) E Q s.
Proof. rw /wp /mbind /M_bind. by destruct (m s) as [[a s']|e]. Qed.

Lemma wp_bind_inv {A B} (m : M S A) (f : A → M S B) Q s :
  wp (m ≫= f) E Q s → wp m E (λ a s', wp (f a) E Q s') s.
Proof. rw /wp /mbind /M_bind. by destruct (m s) as [[a s']|e]. Qed.

Lemma wp_gets {A} (f : S → A) Q s : Q (f s) s → wp (gets f) E Q s.
Proof. done. Qed.

Lemma wp_modify (f : S → S) Q s : Q tt (f s) → wp (modify f) E Q s.
Proof. done. Qed.

Lemma wp_lift {A} (r : res A) (Q : A → S → Prop) s : wpr r E (λ a, Q a s) → wp (lift r) E Q s.
Proof. rw /wp /wpr /lift. by destruct r. Qed.

Lemma wp_lift_any {A} (r : res A) (Q : A → S → Prop) s :
  (∀ e, E e) → (∀ a, Q a s) → wp (lift r) E Q s.
Proof. rw /wp /lift. destruct r; eauto. Qed.

Lemma wp_assert b (Q : unit → S → Prop) s :
  (b = true → Q tt s) → (b = false → E AssertFailed) → wp (assert_ b) E Q s.
Proof. rw /wp /assert_. destruct b; eauto. Qed.

Lemma wp_when b (m : M S unit) Q s :
  (b = true → wp m E Q s) → (b = false → Q tt s) → wp (when b m) E Q s.
Proof. rw /when. destruct b; [eauto|]. intros _ H. by apply H. Qed.

Lemma wp_zoom {T A} (g : S → T) (u : T → S → S) (m : M T A) Q s :
  wp m E (λ a t, Q a (u t s)) (g s) → wp (zoom g u m) E Q s.
Proof. rw /wp /zoom. by destruct (m (g s)) as [[a t]|e]. Qed.

Lemma wp_mono {A} (m : M S A) (P Q : A → S → Prop) s :
  (∀ a s', P a s' → Q a s') → wp m E P s → wp m E Q s.
Proof. rw /wp. destruct (m s) as [[a s']|e]; eauto. Qed.

(** [wp] against the equation of a run *)
Lemma wp_run {A} (m : M S A) Q s :
  (∀ a s', m s = Ok (a, s') → Q a s') → (∀ e, m s = Panic e → E e) → wp m E Q s.
Proof. rw /wp. destruct (m s) as [[a s']|e]; eauto. Qed.

(** Nothing is known of the run. *)
Lemma wp_havoc {A} (m : M S A) Q s : (∀ a s', Q a s') → (∀ e, E e) → wp m E Q s.
Proof. rw /wp. destruct (m s) as [[a s']|e]; eauto. Qed.

Lemma wp_run_eq {A} (m : M S A) Q s a s' : m s = Ok (a, s') → Q a s' → wp m E Q s.
Proof. rw /wp. by intros ->. Qed.

Lemma wp_elim {A} (m : M S A) Q s a s' : wp m E Q s → m s = Ok (a, s') → Q a s'.
Proof. rw /wp. intros H Hr. by rw Hr in H. Qed.
End wp_rules.

(** Two results of a run, one of which tolerates panics *)
Lemma wp_conj {S A} (m : M S A) E (P Q R : A → S → Prop) s :
  wp m E P s → wp m any_panic Q s → (∀ a s', P a s' → Q a s' → R a s') → wp m E R s.
Proof. rw /wp. destruct (m s) as [[a s']|]; eauto. Qed.

Lemma wp_total {S A} (m : M S A) Q s :
  wp m no_panic Q s → ∃ a s', m s = Ok (a, s') ∧ Q a s'.
Proof. rw /wp. destruct (m s) as [[a s']|e]; [eauto|done]. Qed.

Lemma wp_panics {S A} (m : M S A) e0 s :
  wp m (λ e, e = e0) (λ _ _, False) s → m s = Panic e0.
Proof. rw /wp. by destruct (m s) as [[a s']|e]; [|intros ->]. Qed.

(** The state after a run, and the run, by evaluating its result alone *)
Definition final {S A} (m : M S A) (s : S) : S :=
  match m s with Ok (_, s') => s' | Panic _ => s end.
Lemma final_run {S A} (m : M S A) s a :
  match m s with Ok (a', _) => a' = a | Panic _ => False end → m s = Ok (a, final m s).
Proof. rw /final. by destruct (m s) as [[a' s']|]; [intros ->|]. Qed.

Lemma wpr_mono {A} (r : res A) E (P Q : A → Prop) :
  (∀ a, P a → Q a) → wpr r E P → wpr r E Q.
Proof. destruct r; cbn; eauto. Qed.

Lemma wpr_bind {A B} (r : res A) (f : A → res B) E Q :
  wpr r E (λ a, wpr (f a) E Q) → wpr (r ≫= f) E Q.
Proof. by destruct r. Qed.

(** *** Machine integers *)

Lemma wrap_range w z : 0 ≤ w → 0 ≤ wrap w z < 2 ^ w.
Proof. intros. apply Z.mod_pos_bound. lia. Qed.

Lemma wrap_small w z : 0 ≤ z < 2 ^ w → wrap w z = z.
Proof. intros. by apply Z.mod_small. Qed.

Lemma wrapping_add32_range a b : 0 ≤ wrapping_add32 a b < 2 ^ 32.
Proof. by apply wrap_range. Qed.

Lemma wrapping_sub32_range a b : 0 ≤ wrapping_sub32 a b < 2 ^ 32.
Proof. by apply wrap_range. Qed.

Lemma wrapping_add_sub a b : 0 ≤ a < 2 ^ 32 → wrapping_sub32 (wrapping_add32 a b) b = a.
Proof.
  intros. rw /wrapping_sub32 /wrapping_add32 /wrap Zminus_mod_idemp_l.
  replace (a + b - b) with a by lia. by apply Z.mod_small.
Qed.

Lemma wrapping_sub_add a b : 0 ≤ a < 2 ^ 32 → wrapping_add32 (wrapping_sub32 a b) b = a.
Proof.
  intros. rw /wrapping_sub32 /wrapping_add32 /wrap Zplus_mod_idemp_l.
  replace (a - b + b) with a by lia. by apply Z.mod_small.
Qed.

Lemma arith_ok `{Profile} w z : 0 ≤ z < 2 ^ w → arith w z = Ok z.
Proof. intros. rw /arith. by rw (proj2 (Z.leb_le _ _)) ?(proj2 (Z.ltb_lt _ _)); try lia. Qed.

Lemma arith_i32_ok `{Profile} z : - 2 ^ 31 ≤ z < 2 ^ 31 → arith_i32 z = Ok z.
Proof.
  intros. rw /arith_i32. by rw (proj2 (Z.leb_le _ _)) ?(proj2 (Z.ltb_lt _ _)); try lia.
Qed.

Lemma not16_sub m : 0 ≤ m < 65536 → not16 m = 65535 - m.
Proof.
  intros. rw /not16.
  enough (Z.lxor m 65535 + m = 65535) by lia.
  rw Z.add_nocarry_lxor; last by rw (Z.lxor_comm m) Z.lxor_assoc Z.lxor_nilpotent Z.lxor_0_r.
  apply Z.bits_inj'. intros n Hn.
  rw Z.land_spec Z.lxor_spec Z.bits_0.
  replace 65535 with (Z.ones 16) by done.
  destruct (decide (n < 16)).
  - rw Z.ones_spec_low; [lia|by destruct (Z.testbit m n)].
  - rw Z.ones_spec_high; [lia|].
    rw -(Z.mod_small m (2 ^ 16)); [lia|].
    by rw Z.mod_pow2_bits_high; [lia|].
Qed.

(** *** Indexing *)

Lemma index_Some {A} (l : list A) i a :
  index l i = Ok a ↔ 0 ≤ i ∧ l !! Z.to_nat i = Some a.
Proof.
  rw /index. destruct (Z.leb_spec 0 i); [|split; [done|lia]].
  destruct (l !! Z.to_nat i); split; [intros [= ->]|intros [_ [= ->]]|done|intros [_ ?]]; done.
Qed.

Lemma index_in_range {A} (l : list A) i :
  0 ≤ i < Z.of_nat (length l) → ∃ a, index l i = Ok a ∧ l !! Z.to_nat i = Some a.
Proof.
  intros. destruct (lookup_lt_is_Some_2 l (Z.to_nat i)) as [a Ha]; [lia|].
  exists a. rw index_Some. split; [split; [lia|done]|done].
Qed.

Lemma index_set_ok {A} (l : list A) i a :
  0 ≤ i < Z.of_nat (length l) → index_set l i a = Ok (<[Z.to_nat i := a]> l).
Proof.
  intros. rw /index_set. by rw (proj2 (Z.leb_le _ _)) ?(proj2 (Z.ltb_lt _ _)); try lia.
Qed.

Lemma index_set_inv {A} (l l' : list A) i a :
  index_set l i a = Ok l' → 0 ≤ i < Z.of_nat (length l) ∧ l' = <[Z.to_nat i := a]> l.
Proof.
  rw /index_set. destruct (Z.leb_spec 0 i), (Z.ltb_spec i (Z.of_nat (length l))); by intros [= <-].
Qed.

Lemma filter_none {A} (P : A → Prop) `{!∀ x, Decision (P x)} (l : list A) :
  (∀ x, x ∈ l → ¬ P x) → filter P l = [].
Proof.
  induction l as [|x l IH]; intros Hn; [done|].
  rw filter_cons_False; [apply Hn; left|]. apply IH. intros y Hy. apply Hn. by right.
Qed.

(** ** Automation *)

(** [res_case]: split a hypothesis on the runs a bind of results was made of. *)
Lemma res_bind_Ok {A B} (r : res A) (f : A → res B) b :
  (r ≫= f) = Ok b → ∃ a, r = Ok a ∧ f a = Ok b.
Proof. destruct r; naive_solver. Qed.

Ltac wp_step :=
  lazymatch goal with
  | |- wp (mret _) _ _ _ => apply wp_ret
  | |- wp (_ ≫= _) _ _ _ => apply wp_bind
  | |- wp (gets _) _ _ _ => apply wp_gets
  | |- wp (modify _) _ _ _ => apply wp_modify
  | |- wp (lift (Ok _)) _ _ _ => apply wp_ret
  | |- wp (lift _) _ _ _ => apply wp_lift
  | |- wp (when _ _) _ _ _ => apply wp_when; intros ?
  | |- wp (assert_ _) _ _ _ => apply wp_assert; intros ?
  | |- wp (zoom _ _ _) _ _ _ => apply wp_zoom
  end.
