(* ===== verification/Crates.v ===== *)
(** * The external crates, as interfaces

    [netfcts] (TCP states, records, timer wheel, packet helpers) and [e2d2]
    (packets, headers, port queues) are not part of the repository. Each is a
    type class of the types and operations the code under [src/] uses, and a
    second class of the laws it relies on. Nothing here is a definition of
    their code; [Sample.v] gives small concrete instances. *)
From Stdlib Require Import ZArith Lia.
From stdpp Require Import strings sorting.
From S2P Require Import Prelude.

(** ** netfcts::tcp_common *)
Class TcpCommon : Type := {
  TcpState : Type;
  #[global] TcpState_eq_dec :: EqDecision TcpState;
  Listen : TcpState; SynSent : TcpState; SynReceived : TcpState;
  Established : TcpState; CloseWait : TcpState; LastAck : TcpState;
  FinWait1 : TcpState; FinWait2 : TcpState; Closing : TcpState;
  Closed : TcpState;
  state_as_u8 : TcpState → Z;          (** [s as u8] *)
  state_from_u8 : Z → TcpState;        (** [TcpState::from] *)
  state_leb : TcpState → TcpState → bool;  (** the [PartialOrd] of the enum *)

  ReleaseCause : Type;
  #[global] ReleaseCause_eq_dec :: EqDecision ReleaseCause;
  Unknown : ReleaseCause; Timeout : ReleaseCause; PassiveClose : ReleaseCause;
  ActiveClose : ReleaseCause; ActiveRst : ReleaseCause;
  cause_as_u8 : ReleaseCause → Z;
  cause_from_u8 : Z → ReleaseCause;

  TcpStatistics : Type;
  #[global] TcpStatistics_eq_dec :: EqDecision TcpStatistics;
  RecvSyn : TcpStatistics; SentSyn : TcpStatistics;
  RecvSynAck : TcpStatistics; SentSynAck : TcpStatistics;
  RecvSynAck2 : TcpStatistics; SentSynAck2 : TcpStatistics;
  RecvFin : TcpStatistics; SentFin : TcpStatistics;
  RecvFinPssv : TcpStatistics; SentFinPssv : TcpStatistics;
  RecvAck4Fin : TcpStatistics; SentAck4Fin : TcpStatistics;
  RecvPayload : TcpStatistics; SentPayload : TcpStatistics;
  RecvRst : TcpStatistics; Unexpected : TcpStatistics;

  TcpCounter : Type;
  counter_new : TcpCounter;
  counter_get : TcpCounter → TcpStatistics → Z;   (** [c[k]] *)
  counter_incr : TcpStatistics → TcpCounter → TcpCounter;  (** [c[k] += 1] *)

  TIME_STAMP_REDUCTION_FACTOR : Z;
}.

Definition state_ltb `{TcpCommon} (s t : TcpState) : bool := negb (state_leb t s).

Definition state_geb `{TcpCommon} (s t : TcpState) : bool := state_leb t s.

(** The laws of the state enum the code relies on: [as u8] and [from] are
    inverse, and the order of the states puts the handshake states first and
    the closing states last. [LastAck] lies below [FinWait1]: the client-side
    handler reaches its final-ACK branch (nftcp.rs 647) only then, which is
    what tests/client_syn_fin.rs expects. *)
Class StateLaws `{TC : TcpCommon} : Prop := {
  state_u8_range s : 0 ≤ state_as_u8 s < 256;
  state_from_as s : state_from_u8 (state_as_u8 s) = s;
  state_leb_refl s : state_leb s s = true;
  state_leb_trans s t u :
    state_leb s t = true → state_leb t u = true → state_leb s u = true;
  state_leb_antisym s t : state_leb s t = true → state_leb t s = true → s = t;
  state_leb_total s t : state_leb s t = true ∨ state_leb t s = true;
  states_distinct :
    NoDup [Listen; SynReceived; SynSent; Established; CloseWait; LastAck; FinWait1;
           Closing; FinWait2; Closed];
  Listen_SynReceived : state_ltb Listen SynReceived = true;
  SynReceived_Established : state_ltb SynReceived Established = true;
  SynSent_Established : state_ltb SynSent Established = true;
  Established_CloseWait : state_ltb Established CloseWait = true;
  Established_LastAck : state_ltb Established LastAck = true;
  LastAck_FinWait1 : state_ltb LastAck FinWait1 = true;
  FinWait1_FinWait2 : state_ltb FinWait1 FinWait2 = true;
  FinWait1_Closing : state_ltb FinWait1 Closing = true;
  FinWait2_Closed : state_ltb FinWait2 Closed = true;
  Closing_Closed : state_ltb Closing Closed = true;
  CloseWait_Closed : state_ltb CloseWait Closed = true;
}.

Class CauseLaws `{TC : TcpCommon} : Prop := {
  cause_u8_range c : 0 ≤ cause_as_u8 c < 256;
  cause_from_as c : cause_from_u8 (cause_as_u8 c) = c;
}.

Class CounterLaws `{TC : TcpCommon} : Prop := {
  counter_get_new k : counter_get counter_new k = 0;
  counter_get_incr k j c :
    counter_get (counter_incr k c) j = counter_get c j + (if decide (k = j) then 1 else 0);
  statistics_distinct :
    NoDup [RecvSyn; SentSyn; RecvSynAck; SentSynAck; RecvSynAck2; SentSynAck2;
           RecvFin; SentFin; RecvFinPssv; SentFinPssv; RecvAck4Fin; SentAck4Fin;
           RecvPayload; SentPayload; RecvRst; Unexpected];
}.

Class FactorLaws `{TC : TcpCommon} : Prop := {
  factor_pos : 0 < TIME_STAMP_REDUCTION_FACTOR;
}.

(** ** netfcts::conrecord and netfcts::recstore

    A client-side [ConRecord] and a server-side record [E] share a slot of a
    [Store64 E]: [get]/[get_mut] reach the first, [get_1]/[get_mut_1] the
    second. A [&mut] into the store is a read and a write back. Methods of
    [ConRecord] that read the time stamp counter get a reading. *)
Class Storable (E : Type) : Type := storable_new : E.

Class RecordCrate `{TC : TcpCommon} : Type := {
  ConRecord : Type;
  cr_init_client : Z → Z → option (Z * Z) → ConRecord → ConRecord;
  cr_push_state : Z → TcpState → ConRecord → res ConRecord;
  cr_set_release_cause : ReleaseCause → ConRecord → ConRecord;
  cr_base_stamp : ConRecord → Z;
  cr_states : ConRecord → list TcpState;

  Store64 : Type → Type;
  store_with_capacity {E} `{!Storable E} : Z → Store64 E;
  store_get_next_slot {E} : Store64 E → res (Z * Store64 E);
  store_get {E} : Store64 E → Z → res ConRecord;
  store_put {E} : Z → ConRecord → Store64 E → Store64 E;
  store_get_1 {E} : Store64 E → Z → res E;
  store_put_1 {E} : Z → E → Store64 E → Store64 E;
}.

Class StoreLaws `{RC : RecordCrate} : Prop := {
  store_get_put {E} i j r0 r (s : Store64 E) :
    store_get s i = Ok r0 →
    store_get (store_put i r s) j = if decide (i = j) then Ok r else store_get s j;
  store_get_1_put {E} i j r (s : Store64 E) :
    store_get_1 (store_put i r s) j = store_get_1 s j;
  store_get_1_put_1 {E} i j e0 e (s : Store64 E) :
    store_get_1 s i = Ok e0 →
    store_get_1 (store_put_1 i e s) j = if decide (i = j) then Ok e else store_get_1 s j;
  store_get_put_1 {E} i j e (s : Store64 E) :
    store_get (store_put_1 i e s) j = store_get s j;
}.

(** ** netfcts::timer_wheel, instantiated at [u16] *)
Class WheelCrate : Type := {
  TimerWheel : Type;
  wheel_new : Z → Z → Z → TimerWheel;
  wheel_resolution : TimerWheel → Z;
  wheel_get_max_timeout_cycles : TimerWheel → Z;
  wheel_schedule : Z → Z → TimerWheel → (Z * Z) * TimerWheel;
  wheel_replace : Z * Z → Z → TimerWheel → option Z * TimerWheel;
  wheel_tick : Z → TimerWheel → (option (list Z) * bool) * TimerWheel;
}.

(** What is scheduled where ([wheel_entry]), and how long a tick loop can go on
    ([wheel_lag]). *)
Class WheelLaws `{WC : WheelCrate} : Type := {
  wheel_entry : TimerWheel → Z * Z → option Z;
  wheel_lag : Z → TimerWheel → nat;
  wheel_replace_old idx v w : (wheel_replace idx v w).1 = wheel_entry w idx;
  wheel_replace_entry idx v w idx' :
    wheel_entry (wheel_replace idx v w).2 idx' =
      if decide (idx = idx') then (λ _, v) <$> wheel_entry w idx else wheel_entry w idx';
  wheel_schedule_fresh d p w : wheel_entry w (wheel_schedule d p w).1 = None;
  wheel_schedule_entry d p w idx :
    wheel_entry (wheel_schedule d p w).2 idx =
      if decide ((wheel_schedule d p w).1 = idx) then Some p else wheel_entry w idx;
  wheel_tick_entry now w idx :
    wheel_entry (wheel_tick now w).2 idx = wheel_entry w idx ∨
    wheel_entry (wheel_tick now w).2 idx = None ∧
    ∃ p l, wheel_entry w idx = Some p ∧ (wheel_tick now w).1.1 = Some l ∧ p ∈ l;
  wheel_tick_drained now w l p :
    (wheel_tick now w).1.1 = Some l → p ∈ l → ∃ idx, wheel_entry w idx = Some p;
  wheel_tick_lag now w :
    (wheel_tick now w).1.2 = true →
    (wheel_lag now (wheel_tick now w).2 < wheel_lag now w)%nat;
  wheel_max_nonneg w : 0 ≤ wheel_get_max_timeout_cycles w;
}.

(** ** e2d2: addresses, headers, packets, port queues; netfcts packet helpers *)

Inductive tcp_field := SrcPort | DstPort | SeqNum | AckNum.
Inductive tcp_bit := SYN | ACK | FIN | RST | PSH.
Inductive ip_field := IpSrc | IpDst.
Inductive mac_field := MacSrc | MacDst.

#[export] Instance tcp_field_eq_dec : EqDecision tcp_field.
Proof. solve_decision. Defined.
#[export] Instance tcp_bit_eq_dec : EqDecision tcp_bit.
Proof. solve_decision. Defined.
#[export] Instance ip_field_eq_dec : EqDecision ip_field.
Proof. solve_decision. Defined.
#[export] Instance mac_field_eq_dec : EqDecision mac_field.
Proof. solve_decision. Defined.

(** Headers are read and written field by field through accessor methods. *)
Class HeaderCrate : Type := {
  MacAddress : Type;
  #[global] MacAddress_eq_dec :: EqDecision MacAddress;
  mac_default : MacAddress;
  is_multicast : MacAddress → bool;
  is_broadcast : MacAddress → bool;

  MacHeader : Type;
  mac_get : mac_field → MacHeader → MacAddress;
  mac_set : mac_field → MacAddress → MacHeader → MacHeader;
  mac_etype : MacHeader → Z;

  IpHeader : Type;
  ip_get : ip_field → IpHeader → Z;
  ip_set : ip_field → Z → IpHeader → IpHeader;
  ip_protocol : IpHeader → Z;
  ip_trim_length_by : Z → IpHeader → IpHeader;

  TcpHeader : Type;
  tcp_get : tcp_field → TcpHeader → Z;
  tcp_set : tcp_field → Z → TcpHeader → TcpHeader;
  tcp_flag : tcp_bit → TcpHeader → bool;
  tcp_set_flag : tcp_bit → bool → TcpHeader → TcpHeader;

  PortQueue : Type;
  tcp_dst_port_mask : PortQueue → Z;  (** [port.get_tcp_dst_port_mask()] *)
}.

(** Layer-2/3/4 coordinates of a network node ([netfcts::tcp_common::L234Data],
    built field by field in bin.rs). *)
Record L234Data `{HeaderCrate} : Type := mkL234 {
  mac : MacAddress;
  l234_ip : Z;
  l234_port : Z;
  server_id : list Z;
  l234_index : Z;
}.
Arguments mkL234 {_} _ _ _ _ _.

(** A [Pdu] is a handle to a message buffer; a clone is a second handle to the
    same buffer. [PacketMem] holds all buffers and header stacks. *)
Class PacketCrate `{HC : HeaderCrate} : Type := {
  Pdu : Type;
  PacketMem : Type;
  mac_of : PacketMem → Pdu → MacHeader;
  ip_of : PacketMem → Pdu → IpHeader;
  tcp_of : PacketMem → Pdu → TcpHeader;
  mac_write : Pdu → MacHeader → PacketMem → PacketMem;
  ip_write : Pdu → IpHeader → PacketMem → PacketMem;
  tcp_write : Pdu → TcpHeader → PacketMem → PacketMem;
  payload_of : PacketMem → Pdu → list Z;         (** [get_payload(2)] *)
  payload_write : Pdu → list Z → PacketMem → PacketMem;
  get_tailroom : PacketMem → Pdu → Z;
  data_len : PacketMem → Pdu → Z;
  add_padding : Z → Pdu → PacketMem → PacketMem;
  pdu_refcnt : PacketMem → Pdu → Z;
  pdu_clone : Pdu → PacketMem → Pdu * PacketMem;
  pdu_replace : Pdu → Pdu → Pdu * Pdu;           (** [old = p.replace(new)]: (p, old) *)
  dereference_mbuf : Pdu → PacketMem → PacketMem;
  push_mac : MacHeader → Pdu → PacketMem → bool * PacketMem;
  push_ip : IpHeader → Pdu → PacketMem → bool * PacketMem;
  push_tcp : TcpHeader → Pdu → PacketMem → bool * PacketMem;
  replace_tcp : TcpHeader → Pdu → PacketMem → PacketMem;
  set_tcp_ipv4_checksum_tx_offload : Pdu → PacketMem → PacketMem;
  new_pdu_array : PacketMem → option (list Pdu) * PacketMem;

  tcp_payload_size : PacketMem → Pdu → Z;
  set_header : L234Data → Z → Pdu → MacAddress → Z → PacketMem → PacketMem;
  remove_tcp_options : Pdu → PacketMem → PacketMem;
  make_reply_packet : Pdu → Z → PacketMem → PacketMem;
  prepare_checksum_and_ttl : Pdu → PacketMem → PacketMem;
  private_etype : Z → bool;
  PRIVATE_ETYPE_PACKET : Z;
  PRIVATE_ETYPE_TIMER : Z;
}.

(** Width in bits of a TCP header field *)
Definition tcp_width (f : tcp_field) : Z :=
  match f with SrcPort | DstPort => 16 | SeqNum | AckNum => 32 end.

(** Accessors of a header: what was set is read back, other fields stay. *)
Class HeaderLaws `{HC : HeaderCrate} : Prop := {
  mac_get_set f g v h : mac_get f (mac_set g v h) = if decide (f = g) then v else mac_get f h;
  ip_get_set f g v h :
    0 ≤ v < 2 ^ 32 → ip_get f (ip_set g v h) = if decide (f = g) then v else ip_get f h;
  ip_get_trim f n h : ip_get f (ip_trim_length_by n h) = ip_get f h;
  tcp_get_range f h : 0 ≤ tcp_get f h < 2 ^ tcp_width f;
  tcp_get_set f g v h :
    0 ≤ v < 2 ^ tcp_width g → tcp_get f (tcp_set g v h) = if decide (f = g) then v else tcp_get f h;
  tcp_get_set_flag f b v h : tcp_get f (tcp_set_flag b v h) = tcp_get f h;
  tcp_flag_set b f v h : tcp_flag b (tcp_set f v h) = tcp_flag b h;
  tcp_flag_set_flag b d v h : tcp_flag b (tcp_set_flag d v h) = if decide (b = d) then v else tcp_flag b h;
}.

(** Two states of the packet memory that agree on the fields the proxy reads
    and writes in the headers of [p]; and on its payload too. *)
Record same_headers `{PacketCrate} (m m' : PacketMem) (p : Pdu) : Prop := {
  same_mac f : mac_get f (mac_of m' p) = mac_get f (mac_of m p);
  same_ip f : ip_get f (ip_of m' p) = ip_get f (ip_of m p);
  same_tcp f : tcp_get f (tcp_of m' p) = tcp_get f (tcp_of m p);
  same_flag b : tcp_flag b (tcp_of m' p) = tcp_flag b (tcp_of m p);
}.
Record same_packet `{PacketCrate} (m m' : PacketMem) (p : Pdu) : Prop := {
  same_hdrs :> same_headers m m' p;
  same_payload : payload_of m' p = payload_of m p;
}.

(** [same_buf p q]: [p] and [q] are handles to one message buffer, so a write
    through one is read through the other. *)
Class PacketLaws `{PC : PacketCrate} : Type := {
  same_buf : Pdu → Pdu → Prop;
  #[global] same_buf_equiv :: Equivalence same_buf;
  mac_of_same m p q : same_buf p q → mac_of m p = mac_of m q;
  ip_of_same m p q : same_buf p q → ip_of m p = ip_of m q;
  tcp_of_same m p q : same_buf p q → tcp_of m p = tcp_of m q;
  payload_of_same m p q : same_buf p q → payload_of m p = payload_of m q;

  mac_of_write p h m : mac_of (mac_write p h m) p = h;
  ip_of_mac_write p h m q : ip_of (mac_write p h m) q = ip_of m q;
  tcp_of_mac_write p h m q : tcp_of (mac_write p h m) q = tcp_of m q;
  payload_of_mac_write p h m q : payload_of (mac_write p h m) q = payload_of m q;
  mac_of_ip_write p h m q : mac_of (ip_write p h m) q = mac_of m q;
  ip_of_write p h m : ip_of (ip_write p h m) p = h;
  tcp_of_ip_write p h m q : tcp_of (ip_write p h m) q = tcp_of m q;
  payload_of_ip_write p h m q : payload_of (ip_write p h m) q = payload_of m q;
  mac_of_tcp_write p h m q : mac_of (tcp_write p h m) q = mac_of m q;
  ip_of_tcp_write p h m q : ip_of (tcp_write p h m) q = ip_of m q;
  tcp_of_write p h m : tcp_of (tcp_write p h m) p = h;
  payload_of_tcp_write p h m q : payload_of (tcp_write p h m) q = payload_of m q;
  write_other p q hm hi ht pl m :
    ¬ same_buf p q →
    same_packet m (mac_write p hm m) q ∧ same_packet m (ip_write p hi m) q ∧
    same_packet m (tcp_write p ht m) q ∧ same_packet m (payload_write p pl m) q;
  payload_write_hdr p l m q :
    mac_of (payload_write p l m) q = mac_of m q ∧ ip_of (payload_write p l m) q = ip_of m q ∧
    tcp_of (payload_write p l m) q = tcp_of m q;
  payload_of_write p l m : payload_of (payload_write p l m) p = l;

  payload_size m p : tcp_payload_size m p = Z.of_nat (length (payload_of m p));

  clone_same_buf p m : same_buf (pdu_clone p m).1 p;
  clone_packets p m q : same_packet m (pdu_clone p m).2 q;
  replace_moves p q : pdu_replace p q = (q, p);
  dereference_packets p m q : same_packet m (dereference_mbuf p m) q;
  padding_packets n p m q : same_headers m (add_padding n p m) q;
  padding_payload n p m q : payload_of m q `prefix_of` payload_of (add_padding n p m) q;
  padding_other n p m q : ¬ same_buf p q → same_packet m (add_padding n p m) q;
  offload_packets p m q : same_packet m (set_tcp_ipv4_checksum_tx_offload p m) q;

  checksum_packets p m q : same_packet m (prepare_checksum_and_ttl p m) q;
  options_packets p m q : same_packet m (remove_tcp_options p m) q;

  (** [make_reply_packet(p, inc)]: the packet goes back where it came from and
      acknowledges [inc] sequence numbers. *)
  reply_mac p inc m :
    mac_get MacDst (mac_of (make_reply_packet p inc m) p) = mac_get MacSrc (mac_of m p) ∧
    mac_get MacSrc (mac_of (make_reply_packet p inc m) p) = mac_get MacDst (mac_of m p);
  reply_ip p inc m :
    ip_get IpDst (ip_of (make_reply_packet p inc m) p) = ip_get IpSrc (ip_of m p) ∧
    ip_get IpSrc (ip_of (make_reply_packet p inc m) p) = ip_get IpDst (ip_of m p);
  reply_ports p inc m :
    tcp_get DstPort (tcp_of (make_reply_packet p inc m) p) = tcp_get SrcPort (tcp_of m p) ∧
    tcp_get SrcPort (tcp_of (make_reply_packet p inc m) p) = tcp_get DstPort (tcp_of m p);
  reply_ack p inc m :
    tcp_get AckNum (tcp_of (make_reply_packet p inc m) p) =
      wrapping_add32 (tcp_get SeqNum (tcp_of m p)) inc ∧
    tcp_flag ACK (tcp_of (make_reply_packet p inc m) p) = true;
  reply_flags p inc m b :
    b ≠ ACK → tcp_flag b (tcp_of (make_reply_packet p inc m) p) = tcp_flag b (tcp_of m p);
  reply_other p inc m q : ¬ same_buf p q → same_packet m (make_reply_packet p inc m) q;

  (** [set_header(server, port, p, mac, ip)]: from the proxy's address and
      [port] to the server. *)
  set_header_mac srv pt p a ip m :
    mac_get MacDst (mac_of (set_header srv pt p a ip m) p) = mac srv ∧
    mac_get MacSrc (mac_of (set_header srv pt p a ip m) p) = a;
  set_header_ip srv pt p a ip m :
    ip_get IpDst (ip_of (set_header srv pt p a ip m) p) = l234_ip srv ∧
    ip_get IpSrc (ip_of (set_header srv pt p a ip m) p) = ip;
  set_header_ports srv pt p a ip m :
    0 ≤ l234_port srv < 2 ^ 16 → 0 ≤ pt < 2 ^ 16 →
    tcp_get DstPort (tcp_of (set_header srv pt p a ip m) p) = l234_port srv ∧
    tcp_get SrcPort (tcp_of (set_header srv pt p a ip m) p) = pt;
  set_header_tcp srv pt p a ip m f :
    f = SeqNum ∨ f = AckNum →
    tcp_get f (tcp_of (set_header srv pt p a ip m) p) = tcp_get f (tcp_of m p);
  set_header_flag srv pt p a ip m b :
    tcp_flag b (tcp_of (set_header srv pt p a ip m) p) = tcp_flag b (tcp_of m p);
  set_header_payload srv pt p a ip m q :
    payload_of (set_header srv pt p a ip m) q = payload_of m q;
  set_header_other srv pt p a ip m q : ¬ same_buf p q → same_packet m (set_header srv pt p a ip m) q;

  (** Headers are pushed onto, or replaced in, the packet they are given to. *)
  push_mac_spec h p m :
    mac_of (push_mac h p m).2 p = h ∧
    ∀ q, ¬ same_buf p q → same_packet m (push_mac h p m).2 q;
  push_ip_spec h p m :
    mac_of (push_ip h p m).2 p = mac_of m p ∧ ip_of (push_ip h p m).2 p = h ∧
    ∀ q, ¬ same_buf p q → same_packet m (push_ip h p m).2 q;
  push_tcp_spec h p m :
    mac_of (push_tcp h p m).2 p = mac_of m p ∧ ip_of (push_tcp h p m).2 p = ip_of m p ∧
    tcp_of (push_tcp h p m).2 p = h ∧
    ∀ q, ¬ same_buf p q → same_packet m (push_tcp h p m).2 q;
  replace_tcp_spec h p m :
    mac_of (replace_tcp h p m) p = mac_of m p ∧ ip_of (replace_tcp h p m) p = ip_of m p ∧
    tcp_of (replace_tcp h p m) p = h ∧ payload_of (replace_tcp h p m) p = payload_of m p ∧
    ∀ q, ¬ same_buf p q → same_packet m (replace_tcp h p m) q;
}.

(** The reference count of a message buffer: cloning a handle adds one,
    [dereference_mbuf] takes one, nothing else changes it. *)
Class RefcntLaws `{PL : PacketLaws} : Prop := {
  refcnt_same m p q : same_buf p q → pdu_refcnt m p = pdu_refcnt m q;
  refcnt_clone p m q : same_buf p q → pdu_refcnt (pdu_clone p m).2 q = pdu_refcnt m q + 1;
  refcnt_clone_other p m q : ¬ same_buf p q → pdu_refcnt (pdu_clone p m).2 q = pdu_refcnt m q;
  refcnt_dereference p m q : same_buf p q → pdu_refcnt (dereference_mbuf p m) q = pdu_refcnt m q - 1;
  refcnt_dereference_other p m q : ¬ same_buf p q → pdu_refcnt (dereference_mbuf p m) q = pdu_refcnt m q;
  refcnt_mac_write p h m q : pdu_refcnt (mac_write p h m) q = pdu_refcnt m q;
  refcnt_ip_write p h m q : pdu_refcnt (ip_write p h m) q = pdu_refcnt m q;
  refcnt_tcp_write p h m q : pdu_refcnt (tcp_write p h m) q = pdu_refcnt m q;
  refcnt_payload_write p l m q : pdu_refcnt (payload_write p l m) q = pdu_refcnt m q;
  refcnt_padding n p m q : pdu_refcnt (add_padding n p m) q = pdu_refcnt m q;
  refcnt_offload p m q : pdu_refcnt (set_tcp_ipv4_checksum_tx_offload p m) q = pdu_refcnt m q;
  refcnt_checksum p m q : pdu_refcnt (prepare_checksum_and_ttl p m) q = pdu_refcnt m q;
  refcnt_options p m q : pdu_refcnt (remove_tcp_options p m) q = pdu_refcnt m q;
  refcnt_reply p inc m q : pdu_refcnt (make_reply_packet p inc m) q = pdu_refcnt m q;
  refcnt_set_header srv pt p a ip m q : pdu_refcnt (set_header srv pt p a ip m) q = pdu_refcnt m q;
  refcnt_push_mac h p m q : pdu_refcnt (push_mac h p m).2 q = pdu_refcnt m q;
  refcnt_push_ip h p m q : pdu_refcnt (push_ip h p m).2 q = pdu_refcnt m q;
  refcnt_push_tcp h p m q : pdu_refcnt (push_tcp h p m).2 q = pdu_refcnt m q;
  refcnt_replace_tcp h p m q : pdu_refcnt (replace_tcp h p m) q = pdu_refcnt m q;
}.

(** ** [_rdtsc()] : the [n]-th reading of the time stamp counter *)
Class Clock : Type := tsc_reading : nat → Z.

(** ** e2d2::interface and netfcts: ports, flows, and what a core is given *)
Class PortCrate `{HC : HeaderCrate} : Type := {
  PmdPort : Type;
  kni_name : PmdPort → option string;
  is_native_kni : PmdPort → bool;
  csum_offload_of : PmdPort → bool;       (** [port.csum_offload()] *)
  net_spec : PmdPort → option (option L234Data);
    (** [net_spec()], and what [L234Data::try_from] makes of it *)
  port_of : PortQueue → PmdPort;          (** the field [port] *)
  port_id : PortQueue → Z;
  rxq : PortQueue → Z;
  PortQueueTxBuffered : Type;
  port_queue : PortQueueTxBuffered → PortQueue;

  physical_ports_for_core : Z → gmap string PmdPort → list PmdPort;
  new_port_queues_for_core :
    Z → PmdPort → option PmdPort → option PortQueueTxBuffered * option PortQueue;

  FlowDirector : Type;
  get_flow : FlowDirector → Z → Z * Z;    (** the flow's [ip] and [port] *)
  Timeouts : Type;
  default_or_some : option Timeouts → Timeouts;
  established : Timeouts → option Z;      (** the field, in milliseconds *)
}.

(** ** Reading the records of a store ([conrecord], [recstore], [separator]) *)
Class ReportCrate `{RC : RecordCrate} : Type := {
  cr_release_cause : ConRecord → ReleaseCause;
  cr_last_state : ConRecord → TcpState;
  cr_sock : ConRecord → Z * Z;
  cr_get_first_stamp : ConRecord → option Z;
  cr_get_last_stamp : ConRecord → option Z;
  cr_display : ConRecord → string;        (** [format!("{}", c)] *)

  store_len {E} : Store64 E → Z;
  store_iter_0 {E} : Store64 E → list ConRecord;
  store_iter_1 {E} : Store64 E → list E;
  store_iter {E} : Store64 E → list (ConRecord * E);
  store_sort_0_by {E} : (ConRecord → ConRecord → comparison) → Store64 E → Store64 E;

  state_debug : TcpState → string;        (** [format!("{:?}", s)] *)
  cause_debug : ReleaseCause → string;
  separated_string : Z → string;
}.

Class ReportLaws `{RP : ReportCrate} : Prop := {
  store_len_iter {E} (s : Store64 E) : store_len s = Z.of_nat (length (store_iter s));
  store_iter_fst {E} (s : Store64 E) : (store_iter s).*1 = store_iter_0 s;
  store_iter_snd {E} (s : Store64 E) : (store_iter s).*2 = store_iter_1 s;
  store_sort_perm {E} f (s : Store64 E) : store_iter_0 (store_sort_0_by f s) ≡ₚ store_iter_0 s;
  store_sort_perm_1 {E} f (s : Store64 E) : store_iter_1 (store_sort_0_by f s) ≡ₚ store_iter_1 s;
  cr_stamp_range r v :
    cr_get_first_stamp r = Some v ∨ cr_get_last_stamp r = Some v → 0 ≤ v < 2 ^ 64;
  (** [sort_by]: ascending in the key compared *)
  store_sort_key {E} (key : ConRecord → Z) (s : Store64 E) :
    Sorted (λ a b, key a ≤ key b) (store_iter_0 (store_sort_0_by (λ a b, key a ?= key b) s));
}.
