(* ===== verification/Sample.v ===== *)
(** * Concrete instances of the crate interfaces

    Small executable instances that satisfy every law of [Crates.v]. The
    witnesses evaluate the model on them. They are examples of what the crates
    promise, not models of the crates' code. *)
From Stdlib Require Import ZArith Lia.
From stdpp Require Import strings sorting pretty.
From S2P Require Import Prelude Crates.

Module Sample.

(** A build with overflow checks; a counter that advances by 4096 a reading *)
#[export] Instance debug : Profile := true.
#[export] Instance clock : Clock := λ n, 1000000 + 4096 * Z.of_nat n.

Inductive state :=
| sListen | sSynReceived | sSynSent | sEstablished | sCloseWait | sLastAck
| sFinWait1 | sClosing | sFinWait2 | sClosed.
#[export] Instance state_eq_dec : EqDecision state.
Proof. solve_decision. Defined.

Definition state_u8 (s : state) : Z :=
  match s with
  | sListen => 0 | sSynReceived => 1 | sSynSent => 2 | sEstablished => 3
  | sCloseWait => 4 | sLastAck => 5 | sFinWait1 => 6 | sClosing => 7
  | sFinWait2 => 8 | sClosed => 9
  end.
Definition state_of_u8 (b : Z) : state :=
  match b with
  | 0 => sListen | 1 => sSynReceived | 2 => sSynSent | 3 => sEstablished
  | 4 => sCloseWait | 5 => sLastAck | 6 => sFinWait1 | 7 => sClosing
  | 8 => sFinWait2 | _ => sClosed
  end.

Inductive cause := cUnknown | cTimeout | cPassiveClose | cActiveClose | cActiveRst.
#[export] Instance cause_eq_dec : EqDecision cause.
Proof. solve_decision. Defined.
Definition cause_u8 (c : cause) : Z :=
  match c with
  | cUnknown => 0 | cTimeout => 1 | cPassiveClose => 2 | cActiveClose => 3 | cActiveRst => 4
  end.
Definition cause_of_u8 (b : Z) : cause :=
  match b with
  | 1 => cTimeout | 2 => cPassiveClose | 3 => cActiveClose | 4 => cActiveRst | _ => cUnknown
  end.

Inductive stat :=
| tRecvSyn | tSentSyn | tRecvSynAck | tSentSynAck | tRecvSynAck2 | tSentSynAck2
| tRecvFin | tSentFin | tRecvFinPssv | tSentFinPssv | tRecvAck4Fin | tSentAck4Fin
| tRecvPayload | tSentPayload | tRecvRst | tUnexpected.
#[export] Instance stat_eq_dec : EqDecision stat.
Proof. solve_decision. Defined.

Definition stat_index (k : stat) : nat :=
  match k with
  | tRecvSyn => 0 | tSentSyn => 1 | tRecvSynAck => 2 | tSentSynAck => 3 | tRecvSynAck2 => 4
  | tSentSynAck2 => 5 | tRecvFin => 6 | tSentFin => 7 | tRecvFinPssv => 8 | tSentFinPssv => 9
  | tRecvAck4Fin => 10 | tSentAck4Fin => 11 | tRecvPayload => 12 | tSentPayload => 13
  | tRecvRst => 14 | tUnexpected => 15
  end%nat.
#[export] Instance stat_index_inj : Inj (=) (=) stat_index.
Proof. by intros [] []. Qed.

#[export] Instance tcp : TcpCommon := {|
  TcpState := state;
  Listen := sListen; SynSent := sSynSent; SynReceived := sSynReceived;
  Established := sEstablished; CloseWait := sCloseWait; LastAck := sLastAck;
  FinWait1 := sFinWait1; FinWait2 := sFinWait2; Closing := sClosing; Closed := sClosed;
  state_as_u8 := state_u8; state_from_u8 := state_of_u8;
  state_leb := λ s t, state_u8 s <=? state_u8 t;
  ReleaseCause := cause;
  Unknown := cUnknown; Timeout := cTimeout; PassiveClose := cPassiveClose;
  ActiveClose := cActiveClose; ActiveRst := cActiveRst;
  cause_as_u8 := cause_u8; cause_from_u8 := cause_of_u8;
  TcpStatistics := stat;
  RecvSyn := tRecvSyn; SentSyn := tSentSyn; RecvSynAck := tRecvSynAck;
  SentSynAck := tSentSynAck; RecvSynAck2 := tRecvSynAck2; SentSynAck2 := tSentSynAck2;
  RecvFin := tRecvFin; SentFin := tSentFin; RecvFinPssv := tRecvFinPssv;
  SentFinPssv := tSentFinPssv; RecvAck4Fin := tRecvAck4Fin; SentAck4Fin := tSentAck4Fin;
  RecvPayload := tRecvPayload; SentPayload := tSentPayload; RecvRst := tRecvRst;
  Unexpected := tUnexpected;
  TcpCounter := gmap nat Z;
  counter_new := ∅;
  counter_get := λ c k, default 0 (c !! stat_index k);
  counter_incr := λ k c, <[stat_index k := default 0 (c !! stat_index k) + 1]> c;
  TIME_STAMP_REDUCTION_FACTOR := 1024;
|}.

#[export] Instance state_laws : StateLaws.
Proof.
  split; cbn; try done.
  - by intros [].
  - by intros [].
  - intros s. lia.
  - intros s t u. lia.
  - intros [] []; cbn; intros; try done; lia.
  - intros s t. lia.
  - apply (bool_decide_unpack _). by vm_compute.
Qed.
#[export] Instance cause_laws : CauseLaws.
Proof. split; by intros []. Qed.
#[export] Instance counter_laws : CounterLaws.
Proof.
  split; cbn.
  - done.
  - intros k j c. destruct (decide (k = j)) as [<-|Hne].
    + by rewrite lookup_insert_eq.
    + rewrite lookup_insert_ne by (by intros ?%stat_index_inj). lia.
  - apply (bool_decide_unpack _). by vm_compute.
Qed.
#[export] Instance factor_laws : FactorLaws.
Proof. split. by cbn. Qed.

(** Records: a store is the list of its used slots. *)
Record conrec := ConRec { base : Z; cstates : list state; ccause : cause }.
Record rstore (E : Type) := RStore { cap : Z; blank : E; slots : list (conrec * E) }.
Arguments RStore {E}. Arguments cap {E}. Arguments blank {E}. Arguments slots {E}.

Definition sindex {E} (s : rstore E) (i : Z) : res (conrec * E) := index (slots s) i.
Definition supd {E} (f : conrec * E → conrec * E) (i : Z) (s : rstore E) : rstore E :=
  RStore (cap s) (blank s) (if 0 <=? i then alter f (Z.to_nat i) (slots s) else slots s).

#[export] Instance records : RecordCrate := {|
  ConRecord := conrec;
  cr_init_client := λ now _ _ _, ConRec now [sClosed] cUnknown;
  cr_push_state := λ _ s r, Ok (ConRec (base r) (cstates r ++ [s]) (ccause r));
  cr_set_release_cause := λ c r, ConRec (base r) (cstates r) c;
  cr_base_stamp := base;
  cr_states := cstates;
  Store64 := rstore;
  store_with_capacity := λ E new n, RStore n new [];
  store_get_next_slot := λ E s,
    if Z.of_nat (length (slots s)) <? cap s
    then Ok (Z.of_nat (length (slots s)),
             RStore (cap s) (blank s) (slots s ++ [(ConRec 0 [] cUnknown, blank s)]))
    else Panic OutOfBounds;
  store_get := λ E s i, r ← sindex s i; Ok r.1;
  store_put := λ E i r s, supd (λ x, (r, x.2)) i s;
  store_get_1 := λ E s i, r ← sindex s i; Ok r.2;
  store_put_1 := λ E i e s, supd (λ x, (x.1, e)) i s;
|}.

Lemma sindex_supd {E} f i j (s : rstore E) :
  sindex (supd f i s) j = if decide (i = j) then r ← sindex s j; Ok (f r) else sindex s j.
Proof.
  unfold sindex, supd, index. cbn.
  destruct (Z.leb_spec 0 j).
  - destruct (Z.leb_spec 0 i).
    + destruct (decide (i = j)) as [->|].
      * rewrite list_lookup_alter. rewrite decide_True by done.
        by destruct (slots s !! Z.to_nat j).
      * rewrite list_lookup_alter_ne by lia. done.
    + by rewrite decide_False by lia.
  - by destruct (decide (i = j)).
Qed.

#[export] Instance store_laws : StoreLaws.
Proof.
  split; intros E i j; cbn.
  - intros r0 r s H. rewrite sindex_supd. destruct (decide (i = j)) as [->|]; [|done].
    by destruct (sindex s j).
  - intros r s. rewrite sindex_supd. destruct (decide (i = j)) as [->|]; [|done].
    by destruct (sindex s j).
  - intros r0 r s H. rewrite sindex_supd. destruct (decide (i = j)) as [->|]; [|done].
    by destruct (sindex s j).
  - intros r s. rewrite sindex_supd. destruct (decide (i = j)) as [->|]; [|done].
    by destruct (sindex s j).
Qed.

(** Reading the records. The client's port is taken from the base stamp. *)
Definition sort_slots {E} (f : conrec → conrec → comparison) (s : rstore E) : rstore E :=
  RStore (cap s) (blank s) (merge_sort (λ x y, f x.1 y.1 ≠ Gt) (slots s)).

#[export] Instance reports : ReportCrate := {|
  cr_release_cause := ccause;
  cr_last_state := λ r, List.last (cstates r) sListen;
  cr_sock := λ r, (3232235777, base r mod 65536);
  cr_get_first_stamp := λ r, if cstates r is [] then None else Some (base r mod 2 ^ 63);
  cr_get_last_stamp := λ r,
    if cstates r is [] then None else Some ((base r mod 2 ^ 63) + Z.of_nat (length (cstates r)) mod 2 ^ 63);
  cr_display := λ _, "(Client)"%string;
  store_len := λ E s, Z.of_nat (length (slots s));
  store_iter_0 := λ E s, (slots s).*1;
  store_iter_1 := λ E s, (slots s).*2;
  store_iter := λ E s, slots s;
  store_sort_0_by := λ E, sort_slots;
  state_debug := λ s, pretty (state_u8 s);
  cause_debug := λ c, pretty (cause_u8 c);
  separated_string := λ z, pretty z;
|}.

#[export] Instance report_laws : ReportLaws.
Proof.
  split; cbn; try done.
  - intros E f s. by rewrite merge_sort_Permutation.
  - intros E f s. by rewrite merge_sort_Permutation.
  - intros r v. pose proof (Z.mod_pos_bound (base r) (2 ^ 63) eq_refl).
    pose proof (Z.mod_pos_bound (Z.of_nat (length (cstates r))) (2 ^ 63) eq_refl).
    destruct (cstates r); intros [Hv|Hv]; try done; injection Hv as <-; cbn [length] in *; lia.
  - intros E key s. cbn. set (R := λ x y : conrec * E, (key x.1 ?= key y.1) ≠ Gt).
    assert (Total R) as Ht.
    { intros x y. unfold R. rewrite (Z.compare_antisym (key x.1)).
      destruct (key x.1 ?= key y.1); cbn; [left|left|right]; done. }
    pose proof (Sorted_merge_sort R (slots s)) as Hs. unfold R in Hs at 1.
    induction Hs as [|x l Hl IH Hx]; cbn; [constructor|]. constructor; [done|].
    destruct Hx as [|y l' Hxy]; cbn; constructor.
    destruct (Z.compare_spec (key x.1) (key y.1)); [lia|lia|done].
Qed.

(** The timer wheel: entries with their due time; a tick takes out one due
    entry and tells whether another is due. *)
Definition due (now : Z) (w : gmap (Z * Z) (Z * Z)) : gmap (Z * Z) (Z * Z) :=
  filter (λ kv, kv.2.1 ≤ now) w.

Definition wtick (now : Z) (w : gmap (Z * Z) (Z * Z)) :
    (option (list Z) * bool) * gmap (Z * Z) (Z * Z) :=
  match map_to_list (due now w) with
  | [] => (None, false, w)
  | (k, v) :: rest => (Some [v.2], negb (bool_decide (rest = [])), delete k w)
  end.

#[export] Instance wheel : WheelCrate := {|
  TimerWheel := gmap (Z * Z) (Z * Z);
  wheel_new := λ _ _ _, ∅;
  wheel_resolution := λ _, 10;
  wheel_get_max_timeout_cycles := λ _, 10000;
  wheel_schedule := λ d p w, let k := fresh (dom w) in (k, <[k := (d, p)]> w);
  wheel_replace := λ k v w, (snd <$> w !! k, alter (λ e, (e.1, v)) k w);
  wheel_tick := wtick;
|}.

#[export] Instance wheel_laws : WheelLaws.
Proof.
  refine (@Build_WheelLaws wheel
    (λ (w : gmap (Z * Z) (Z * Z)) k, snd <$> w !! k)
    (λ now w, size (due now w)) _ _ _ _ _ _ _ _); cbn.
  - done.
  - intros k v w k'. rewrite lookup_alter. destruct (decide (k = k')) as [->|]; [|done].
    by destruct (w !! k').
  - intros d p w. apply fmap_None, not_elem_of_dom, is_fresh.
  - intros d p w k. rewrite lookup_insert. by destruct (decide _).
  - intros now w k. unfold wtick.
    destruct (map_to_list (due now w)) as [|[k' v] rest] eqn:Hd; cbn; [by left|].
    destruct (decide (k' = k)) as [->|Hne]; [right|left; by rewrite lookup_delete_ne].
    rewrite lookup_delete_eq. split; [done|]. exists v.2, [v.2].
    assert (due now w !! k = Some v) as Hl.
    { apply elem_of_map_to_list. rewrite Hd. left. }
    apply map_lookup_filter_Some in Hl as [-> _].
    split; [done|]. split; [done|]. left.
  - intros now w l p. unfold wtick.
    destruct (map_to_list (due now w)) as [|[k v] rest] eqn:Hd; [done|]. cbn.
    intros [= <-] ->%list_elem_of_singleton. exists k.
    assert (due now w !! k = Some v) as Hl.
    { apply elem_of_map_to_list. rewrite Hd. left. }
    by apply map_lookup_filter_Some in Hl as [-> _].
  - intros now w. unfold wtick.
    destruct (map_to_list (due now w)) as [|[k v] rest] eqn:Hd; [done|]. cbn. intros _.
    assert (due now w !! k = Some v) as Hl.
    { apply elem_of_map_to_list. rewrite Hd. left. }
    unfold due. rewrite map_filter_delete. fold (due now w).
    rewrite map_size_delete_Some by done.
    enough (size (due now w) ≠ 0%nat) by lia.
    intros Hz%map_size_empty_iff. by rewrite Hz in Hl.
  - done.
Defined.

(** Packets: a handle is the number of its buffer. *)
Record machdr := MacHdr { m_src : Z; m_dst : Z; m_etype : Z }.
Record iphdr := IpHdr { i_src : Z; i_dst : Z; i_proto : Z; i_len : Z }.
Record tcphdr := TcpHdr {
  t_src : Z; t_dst : Z; t_seq : Z; t_ack : Z;
  b_syn : bool; b_ack : bool; b_fin : bool; b_rst : bool; b_psh : bool }.

Definition w16 (z : Z) := z mod 65536.
Definition w32 (z : Z) := z mod 4294967296.

#[export] Instance headers : HeaderCrate := {|
  MacAddress := Z; mac_default := 0;
  is_multicast := λ a, Z.testbit a 40; is_broadcast := λ a, a =? 281474976710655;
  MacHeader := machdr;
  mac_get := λ f h, match f with MacSrc => m_src h | MacDst => m_dst h end;
  mac_set := λ f v h, match f with
    | MacSrc => MacHdr v (m_dst h) (m_etype h) | MacDst => MacHdr (m_src h) v (m_etype h) end;
  mac_etype := m_etype;
  IpHeader := iphdr;
  ip_get := λ f h, match f with IpSrc => i_src h | IpDst => i_dst h end;
  ip_set := λ f v h, match f with
    | IpSrc => IpHdr v (i_dst h) (i_proto h) (i_len h)
    | IpDst => IpHdr (i_src h) v (i_proto h) (i_len h) end;
  ip_protocol := i_proto;
  ip_trim_length_by := λ n h, IpHdr (i_src h) (i_dst h) (i_proto h) (i_len h - n);
  TcpHeader := tcphdr;
  tcp_get := λ f h, match f with
    | SrcPort => w16 (t_src h) | DstPort => w16 (t_dst h)
    | SeqNum => w32 (t_seq h) | AckNum => w32 (t_ack h) end;
  tcp_set := λ f v h, let 'TcpHdr s d q a b1 b2 b3 b4 b5 := h in match f with
    | SrcPort => TcpHdr v d q a b1 b2 b3 b4 b5 | DstPort => TcpHdr s v q a b1 b2 b3 b4 b5
    | SeqNum => TcpHdr s d v a b1 b2 b3 b4 b5 | AckNum => TcpHdr s d q v b1 b2 b3 b4 b5 end;
  tcp_flag := λ b h, match b with
    | SYN => b_syn h | ACK => b_ack h | FIN => b_fin h | RST => b_rst h | PSH => b_psh h end;
  tcp_set_flag := λ b v h, let 'TcpHdr s d q a b1 b2 b3 b4 b5 := h in match b with
    | SYN => TcpHdr s d q a v b2 b3 b4 b5 | ACK => TcpHdr s d q a b1 v b3 b4 b5
    | FIN => TcpHdr s d q a b1 b2 v b4 b5 | RST => TcpHdr s d q a b1 b2 b3 v b5
    | PSH => TcpHdr s d q a b1 b2 b3 b4 v end;
  PortQueue := Z; tcp_dst_port_mask := λ q, q;
|}.

#[export] Instance header_laws : HeaderLaws.
Proof.
  split; cbn.
  - by intros [] [] v [].
  - by intros [] [] v [].
  - by intros [] n [].
  - intros [] h; cbn; apply Z.mod_pos_bound; lia.
  - intros [] [] v [] Hv; cbn in *; try done; by apply Z.mod_small.
  - by intros [] [] v [].
  - by intros [] [] v [].
  - by intros [] [] v [].
Qed.

Record buf := Buf { b_mac : machdr; b_ip : iphdr; b_tcp : tcphdr; b_pl : list Z; b_ref : Z; b_pad : Z }.
Definition buf0 : buf :=
  Buf (MacHdr 0 0 0) (IpHdr 0 0 0 0) (TcpHdr 0 0 0 0 false false false false false) [] 1 0.
(** The buffers, and the number of the next one the allocator gives out *)
Record pmem := PMem { bufs : gmap Z buf; next_buf : Z }.

Definition bget (m : pmem) (p : Z) : buf := default buf0 (bufs m !! p).
Definition bset (p : Z) (b : buf) (m : pmem) : pmem := PMem (<[p := b]> (bufs m)) (next_buf m).
Definition bmod (f : buf → buf) (p : Z) (m : pmem) : pmem := bset p (f (bget m p)) m.

Definition set_mac (h : machdr) (b : buf) := Buf h (b_ip b) (b_tcp b) (b_pl b) (b_ref b) (b_pad b).
Definition set_ip (h : iphdr) (b : buf) := Buf (b_mac b) h (b_tcp b) (b_pl b) (b_ref b) (b_pad b).
Definition set_tcp (h : tcphdr) (b : buf) := Buf (b_mac b) (b_ip b) h (b_pl b) (b_ref b) (b_pad b).
Definition set_pl (l : list Z) (b : buf) := Buf (b_mac b) (b_ip b) (b_tcp b) l (b_ref b) (b_pad b).
Definition set_ref (d : Z) (b : buf) := Buf (b_mac b) (b_ip b) (b_tcp b) (b_pl b) (b_ref b + d) (b_pad b).
Definition set_pad (n : Z) (b : buf) := Buf (b_mac b) (b_ip b) (b_tcp b) (b_pl b) (b_ref b) (b_pad b + n).

Definition reply (inc : Z) (b : buf) : buf :=
  let t := b_tcp b in
  Buf (MacHdr (m_dst (b_mac b)) (m_src (b_mac b)) (m_etype (b_mac b)))
      (IpHdr (i_dst (b_ip b)) (i_src (b_ip b)) (i_proto (b_ip b)) (i_len (b_ip b)))
      (TcpHdr (t_dst t) (t_src t) (t_seq t) (wrapping_add32 (w32 (t_seq t)) inc)
         (b_syn t) true (b_fin t) (b_rst t) (b_psh t)) (b_pl b) (b_ref b) (b_pad b).

Definition address (srv : L234Data) (pt : Z) (a : Z) (ip : Z) (b : buf) : buf :=
  let t := b_tcp b in
  Buf (MacHdr a (mac srv) (m_etype (b_mac b)))
      (IpHdr ip (l234_ip srv) (i_proto (b_ip b)) (i_len (b_ip b)))
      (TcpHdr pt (l234_port srv) (t_seq t) (t_ack t)
         (b_syn t) (b_ack t) (b_fin t) (b_rst t) (b_psh t)) (b_pl b) (b_ref b) (b_pad b).

#[export] Instance packets : PacketCrate := {|
  Pdu := Z; PacketMem := pmem;
  mac_of := λ m p, b_mac (bget m p); ip_of := λ m p, b_ip (bget m p);
  tcp_of := λ m p, b_tcp (bget m p);
  mac_write := λ p h, bmod (set_mac h) p; ip_write := λ p h, bmod (set_ip h) p;
  tcp_write := λ p h, bmod (set_tcp h) p;
  payload_of := λ m p, b_pl (bget m p);
  payload_write := λ p l, bmod (set_pl l) p;
  get_tailroom := λ _ _, 128;
  data_len := λ m p, 54 + Z.of_nat (length (b_pl (bget m p))) + b_pad (bget m p);
  add_padding := λ n, bmod (set_pad n);
  pdu_refcnt := λ m p, b_ref (bget m p);
  pdu_clone := λ p m, (p, bmod (set_ref 1) p m);
  pdu_replace := λ p q, (q, p);
  dereference_mbuf := bmod (set_ref (-1));
  push_mac := λ h p m, (true, bmod (set_mac h) p m);
  push_ip := λ h p m, (true, bmod (set_ip h) p m);
  push_tcp := λ h p m, (true, bmod (set_tcp h) p m);
  replace_tcp := λ h p, bmod (set_tcp h) p;
  set_tcp_ipv4_checksum_tx_offload := λ _ m, m;
  new_pdu_array := λ m, (Some [next_buf m; next_buf m + 1], PMem (bufs m) (next_buf m + 2));
  tcp_payload_size := λ m p, Z.of_nat (length (b_pl (bget m p)));
  set_header := λ srv pt p a ip, bmod (address srv pt a ip) p;
  remove_tcp_options := λ _ m, m;
  make_reply_packet := λ p inc, bmod (reply inc) p;
  prepare_checksum_and_ttl := λ _ m, m;
  private_etype := λ e, e =? 40000;
  PRIVATE_ETYPE_PACKET := 40001; PRIVATE_ETYPE_TIMER := 40000;
|}.

Lemma bget_bmod f p m q : bget (bmod f p m) q = if decide (p = q) then f (bget m q) else bget m q.
Proof.
  unfold bmod, bset, bget. cbn. rewrite lookup_insert.
  by destruct (decide (p = q)) as [->|].
Qed.

Lemma bget_bmod_ne f p m q : p ≠ q → bget (bmod f p m) q = bget m q.
Proof. intros. by rewrite bget_bmod, decide_False. Qed.

(** Close the laws that compare one field before and after an operation. *)
Ltac packet_law :=
  intros; repeat split; intros; cbn in *;
  rewrite ?bget_bmod; repeat case_decide; subst; cbn; try done.

#[export] Instance packet_laws : PacketLaws.
Proof.
  refine {| same_buf := λ p q, p = q |}; cbn.
  all: try by packet_law.
  - packet_law. by apply Z.mod_mod.
  - intros p inc m [] ?; packet_law.
  - packet_law; by apply Z.mod_small.
  - intros srv pt p a ip m f [-> | ->]; packet_law.
Defined.

#[export] Instance refcnt_laws : RefcntLaws.
Proof. split; cbn; intros; subst; cbn in *; rewrite ?bget_bmod; repeat case_decide; subst; cbn; try done; lia. Qed.

(** Ports: the NIC is port 1 with the queue 65532 (four ports), its kernel
    interface port 2 with the queue 0. *)
#[export] Instance ports : PortCrate := {|
  PmdPort := Z;
  kni_name := λ p, if p =? 1 then Some "kni"%string else None;
  is_native_kni := λ p, p =? 2;
  csum_offload_of := λ _, true;
  net_spec := λ p, if p =? 2 then Some (Some (mkL234 187 167772162 0 [] 0)) else None;
  port_of := λ q, if q =? 65532 then 1 else 2;
  port_id := λ q, if q =? 65532 then 1 else 2;
  rxq := λ _, 0;
  PortQueueTxBuffered := Z; port_queue := λ q, q;
  physical_ports_for_core := λ _ m, filter (λ p, p = 1) (map_to_list m).*2;
  new_port_queues_for_core := λ _ p k,
    if p =? 1 then (Some 65532, (λ _, 0) <$> k) else (None, None);
  FlowDirector := Z * Z; get_flow := λ d _, d;
  Timeouts := option Z; default_or_some := default (Some 200); established := id;
|}.
End Sample.
