(* ===== verification/Extension.v ===== *)
(** * The server-side connection record (cmanager.rs, [Extension])

    Seven slots of TCP states with their time stamps, a count of the used
    slots and a release cause. Writing an eighth state is an out-of-bounds
    access. *)
From Stdlib Require Import ZArith Lia ssreflect.
From S2P Require Import Prelude Crates Sample.
#[local] Open Scope general_if_scope.

Section extension.
Context `{TC : TcpCommon} `{PF : Profile}.

(** [struct Extension] *)
Record Extension : Type := mkExtension {
  s_stamps : list Z;      (* [u32; 7] *)
  s_state : list Z;       (* [u8; 7] *)
  s_state_count : Z;      (* u8 *)
  s_release_cause : Z;    (* u8 *)
}.

#[global] Instance eta_Extension : Eta Extension := λ r,
  mkExtension (s_stamps r) (s_state r) (s_state_count r) (s_release_cause r).

(** [impl Storable for Extension] *)
#[global] Instance extension_new : Storable Extension := {|
  s_stamps := replicate 7 0;
  s_state := replicate 7 (state_as_u8 Listen);
  s_state_count := 0;
  s_release_cause := cause_as_u8 Unknown;
|}.

(** The loop [for i in 0..n { result[i + 1] = TcpState::from(s_state[i]) }]. *)
Fixpoint states_loop (e : Extension) (i : Z) (n : nat) (result : list TcpState) : res (list TcpState) :=
  match n with
  | O => Ok result
  | S n' =>
      b ← index (s_state e) i;
      result' ← index_set result (i + 1) (state_from_u8 b);
      states_loop e (i + 1) n' result'
  end.

Definition states (e : Extension) : res (list TcpState) :=
  states_loop e 0 (Z.to_nat (s_state_count e))
    (replicate (Z.to_nat (s_state_count e + 1)) Listen).

(** [push_state], with [tsc] the time stamp counter it reads *)
Definition push_state (tsc : Z) (state : TcpState) (base_stamp : Z) (e : Extension) : res Extension :=
  st ← index_set (s_state e) (s_state_count e) (state_as_u8 state);
  diff ← arith 64 (tsc - base_stamp);
  stamps ← index_set (s_stamps e) (s_state_count e)
    (wrap 32 (diff / TIME_STAMP_REDUCTION_FACTOR));
  count ← arith 8 (s_state_count e + 1);
  Ok (e <| s_state := st |> <| s_stamps := stamps |> <| s_state_count := count |>).

Definition release_cause (e : Extension) : ReleaseCause := cause_from_u8 (s_release_cause e).

Definition ext_set_release_cause (cause : ReleaseCause) (e : Extension) : Extension :=
  e <| s_release_cause := cause_as_u8 cause |>.

Definition ext_init (e : Extension) : Extension := e <| s_state_count := 0 |>.

Definition last_state (e : Extension) : res TcpState :=
  if s_state_count e =? 0 then Ok Listen
  else b ← index (s_state e) (s_state_count e - 1); Ok (state_from_u8 b).

Definition get_last_stamp (e : Extension) : res (option Z) :=
  if s_state_count e =? 0 then Ok None
  else
    s ← index (s_stamps e) (s_state_count e - 1);
    t ← arith 64 (s * TIME_STAMP_REDUCTION_FACTOR);
    Ok (Some t).

Definition get_first_stamp (e : Extension) : res (option Z) :=
  if 0 <? s_state_count e then
    s ← index (s_stamps e) 0;
    t ← arith 64 (s * TIME_STAMP_REDUCTION_FACTOR);
    Ok (Some t)
  else Ok None.

(** [s_stamps[0..count]] panics when [count] exceeds the array *)
Definition deltas_to_base_stamp (e : Extension) : res (list Z) :=
  if 1 <=? s_state_count e then
    if s_state_count e <=? Z.of_nat (length (s_stamps e))
    then Ok (take (Z.to_nat (s_state_count e)) (s_stamps e))
    else Panic OutOfBounds
  else Ok [].

(** Both arrays have their seven slots and the count does not exceed them. *)
Record ext_wf (e : Extension) : Prop := {
  wf_stamps : length (s_stamps e) = 7%nat;
  wf_state : length (s_state e) = 7%nat;
  wf_count : 0 ≤ s_state_count e ≤ 7;
}.

(** Pushing a sequence of states, each with its reading of the counter *)
Fixpoint push_all (base_stamp : Z) (l : list (Z * TcpState)) (e : Extension) : res Extension :=
  match l with
  | [] => Ok e
  | (tsc, s) :: l' => e' ← push_state tsc s base_stamp e; push_all base_stamp l' e'
  end.
End extension.

(** ** Lemmas *)
Section extension_lemmas.
Context `{TC : TcpCommon} `{PF : Profile}.

(** The states the record shows, as a list expression *)
Definition shown (e : Extension) : list TcpState :=
  Listen :: (state_from_u8 <$> take (Z.to_nat (s_state_count e)) (s_state e)).

Lemma states_loop_eq e n : ∀ i result,
  0 ≤ i → length result = (Z.to_nat i + n + 1)%nat →
  (Z.to_nat i + n ≤ length (s_state e))%nat →
  states_loop e i n result =
    Ok (take (Z.to_nat i + 1) result ++
        (state_from_u8 <$> take n (drop (Z.to_nat i) (s_state e)))).
Proof.
  induction n as [|n IH]; intros i result Hi Hlen Hb; cbn [states_loop].
  { rw take_ge; [lia|]. by rw /= app_nil_r. }
  destruct (index_in_range (s_state e) i) as (b & -> & Hb'); [lia|].
  cbn. rw index_set_ok; [lia|]. cbn.
  rw IH; [lia|rw length_insert; lia|lia|].
  replace (Z.to_nat (i + 1)) with (S (Z.to_nat i)) by lia.
  replace (S (Z.to_nat i) + 1)%nat with (S (S (Z.to_nat i))) by lia.
  replace (Z.to_nat i + 1)%nat with (S (Z.to_nat i)) by lia.
  rw (drop_S _ b (Z.to_nat i)) //. cbn [take fmap list_fmap]. f_equal.
  rw (take_S_r _ (S (Z.to_nat i)) (state_from_u8 b)).
  - apply list_lookup_insert_eq. lia.
  - by rw take_insert_ge; [lia|]; rw -app_assoc.
Qed.

Lemma states_eq e : ext_wf e → states e = Ok (shown e).
Proof.
  intros [_ Hl Hc]. rw /states states_loop_eq; [done|rw length_replicate; lia|lia|].
  rw /shown drop_0 take_replicate.
  by replace (Z.to_nat 0 + 1)%nat with 1%nat by lia;
     replace (1 `min` Z.to_nat (s_state_count e + 1))%nat with 1%nat by lia.
Qed.

(** Below seven states, with a counter that has not run backwards, a push
    succeeds and writes exactly the two slots. *)
Lemma push_state_eq tsc s bs e :
  ext_wf e → s_state_count e < 7 → 0 ≤ tsc - bs < 2 ^ 64 →
  push_state tsc s bs e = Ok {|
    s_stamps := <[Z.to_nat (s_state_count e) :=
                    wrap 32 ((tsc - bs) / TIME_STAMP_REDUCTION_FACTOR)]> (s_stamps e);
    s_state := <[Z.to_nat (s_state_count e) := state_as_u8 s]> (s_state e);
    s_state_count := s_state_count e + 1;
    s_release_cause := s_release_cause e |}.
Proof.
  intros [Hs Ht Hc] Hlt Htsc. rw /push_state.
  rw index_set_ok; [lia|]. cbn -[Z.pow].
  rw (arith_ok 64); [lia|]. cbn -[Z.pow].
  rw index_set_ok; [lia|]. cbn -[Z.pow].
  rw (arith_ok 8); [lia|]. done.
Qed.

(** What a successful push says of the record before and after it *)
Lemma push_state_inv tsc s bs e e' :
  ext_wf e → push_state tsc s bs e = Ok e' →
  s_state_count e < 7 ∧ length (s_stamps e') = 7%nat ∧
  s_state e' = <[Z.to_nat (s_state_count e) := state_as_u8 s]> (s_state e) ∧
  s_state_count e' = s_state_count e + 1 ∧ s_release_cause e' = s_release_cause e.
Proof.
  intros [Hs Ht Hc]. rw /push_state.
  intros (st & [Hr ->]%index_set_inv & (d & Hd & (sp & [_ ->]%index_set_inv & H)%res_bind_Ok)%res_bind_Ok)%res_bind_Ok.
  rw (arith_ok 8) in H; [lia|]. injection H as <-. cbn. rw length_insert.
  split_and!; done || lia.
Qed.

Lemma push_state_wf tsc s bs e e' :
  ext_wf e → push_state tsc s bs e = Ok e' → ext_wf e'.
Proof.
  intros Hw Hp. destruct (push_state_inv _ _ _ _ _ Hw Hp) as (? & ? & Hst & ? & _).
  destruct Hw. split; [done| |lia]. by rw Hst length_insert.
Qed.

Lemma push_state_shown `{!StateLaws} tsc s bs e e' :
  ext_wf e → push_state tsc s bs e = Ok e' → shown e' = shown e ++ [s].
Proof.
  intros Hw Hp. destruct (push_state_inv _ _ _ _ _ Hw Hp) as (? & ? & Hst & Hc & _).
  destruct Hw. rw /shown Hst Hc.
  replace (Z.to_nat (s_state_count e + 1)) with (S (Z.to_nat (s_state_count e))) by lia.
  rw (take_S_r _ _ (state_as_u8 s)); [apply list_lookup_insert_eq; lia|].
  by rw take_insert_ge; [lia|]; rw fmap_app /= state_from_as.
Qed.

Lemma push_state_full tsc s bs e :
  ext_wf e → s_state_count e = 7 → push_state tsc s bs e = Panic OutOfBounds.
Proof. intros [_ Ht _] H7. by rw /push_state /index_set H7 Ht. Qed.

Lemma extension_new_wf : ext_wf (storable_new (E:=Extension)).
Proof. by split. Qed.

Lemma ext_init_wf e : ext_wf e → ext_wf (ext_init e).
Proof. intros []. by split. Qed.

Lemma push_all_shown `{!StateLaws} bs l : ∀ e,
  ext_wf e → s_state_count e + Z.of_nat (length l) ≤ 7 →
  Forall (λ p, 0 ≤ p.1 - bs < 2 ^ 64) l →
  ∃ e', push_all bs l e = Ok e' ∧ ext_wf e' ∧ shown e' = shown e ++ (snd <$> l).
Proof.
  induction l as [|[tsc s] l IH]; intros e Hw Hc Hl; cbn [push_all length] in *.
  { exists e. by rw app_nil_r. }
  inversion_clear Hl as [|? ? Ht Hl'].
  pose proof (push_state_eq tsc s bs e Hw ltac:(lia) Ht) as Hp. rw Hp.
  pose proof (push_state_wf _ _ _ _ _ Hw Hp) as Hw'.
  pose proof (push_state_shown _ _ _ _ _ Hw Hp) as Hs'.
  destruct (IH _ Hw') as (e' & He' & Hwe' & Hse'); [cbn; lia|done|].
  exists e'. split; [done|]. split; [done|]. by rw Hse' Hs' -app_assoc.
Qed.

Lemma last_state_shown e : ext_wf e → last_state e = Ok (List.last (shown e) Listen).
Proof.
  intros [_ Ht Hc]. rw /last_state /shown.
  destruct (Z.eqb_spec (s_state_count e) 0) as [-> |Hn]; [done|].
  destruct (index_in_range (s_state e) (s_state_count e - 1)) as (b & -> & Hb); [lia|].
  replace (Z.to_nat (s_state_count e)) with (S (Z.to_nat (s_state_count e - 1))) by lia.
  rw (take_S_r _ _ b) // fmap_app app_comm_cons. by rw List.last_last.
Qed.
End extension_lemmas.

(** ** Properties *)
Section extension_properties.
Context `{TC : TcpCommon} `{PF : Profile} `{SL : !StateLaws} `{FL : !FactorLaws}.

(** C32. Record round trip: after [init], pushing up to seven states (with time
    stamps not before the base stamp) never panics, and [states] then shows
    [Listen] followed by exactly the pushed states, [last_state] the last. *)
Theorem push_all_roundtrip bs l e :
  ext_wf e → (length l ≤ 7)%nat → Forall (λ p, 0 ≤ p.1 - bs < 2 ^ 64) l →
  ∃ e', push_all bs l (ext_init e) = Ok e' ∧ ext_wf e' ∧
    states e' = Ok (Listen :: (snd <$> l)) ∧
    last_state e' = Ok (List.last (snd <$> l) Listen).
Proof.
  intros Hw Hl Ht.
  destruct (push_all_shown bs l (ext_init e)) as (e' & Hp & Hw' & Hs);
    [by apply ext_init_wf|cbn; lia|done|].
  exists e'. rw states_eq // last_state_shown // Hs. cbn.
  split_and!; [done..|]. by destruct (snd <$> l).
Qed.

(** C33. Capacity: on a well-formed record a push succeeds exactly when fewer
    than seven states are stored; with seven it is an out-of-bounds panic,
    whatever the state and the time. *)
Theorem push_state_capacity tsc s bs e :
  ext_wf e → 0 ≤ tsc - bs < 2 ^ 64 →
  (∃ e', push_state tsc s bs e = Ok e' ∧ ext_wf e') ∧ s_state_count e < 7 ∨
  push_state tsc s bs e = Panic OutOfBounds ∧ s_state_count e = 7.
Proof.
  intros Hw Ht. pose proof (wf_count _ Hw).
  destruct (decide (s_state_count e = 7)); [right; split; [by apply push_state_full|done]|left].
  split; [|lia]. pose proof (push_state_eq tsc s bs e Hw ltac:(lia) Ht) as Hp.
  eexists. split; [exact Hp|exact (push_state_wf _ _ _ _ _ Hw Hp)].
Qed.

(** C34. Time stamps: the stamp read back after a push is the elapsed number of
    cycles up to the resolution of the reduced stamps, as long as the reduced
    value fits 32 bits. *)
Theorem last_stamp_precision tsc s bs e e' :
  ext_wf e → push_state tsc s bs e = Ok e' →
  0 ≤ tsc - bs < 2 ^ 64 → tsc - bs < 2 ^ 32 * TIME_STAMP_REDUCTION_FACTOR →
  ∃ t, get_last_stamp e' = Ok (Some t) ∧
    t ≤ tsc - bs < t + TIME_STAMP_REDUCTION_FACTOR.
Proof.
  intros Hw Hp Ht Hb. pose proof factor_pos as HF.
  destruct (push_state_inv _ _ _ _ _ Hw Hp) as (Hlt & _).
  rw push_state_eq // in Hp. injection Hp as <-. destruct Hw as [Hs _ Hc].
  set (F := TIME_STAMP_REDUCTION_FACTOR) in *.
  set (q := (tsc - bs) / F).
  assert (0 ≤ q < 2 ^ 32) by (split; [apply Z.div_pos|apply Z.div_lt_upper_bound]; lia).
  assert (q * F ≤ tsc - bs < q * F + F).
  { pose proof (Z.mod_pos_bound (tsc - bs) F HF). pose proof (Z.div_mod (tsc - bs) F). lia. }
  exists (q * F). split; [|done].
  rw /get_last_stamp. cbn -[Z.pow Z.eqb Z.sub].
  destruct (Z.eqb_spec (s_state_count e + 1) 0); [lia|].
  replace (s_state_count e + 1 - 1) with (s_state_count e) by lia.
  rw (proj2 (index_Some _ _ (wrap 32 q))).
  { split; [lia|]. apply list_lookup_insert_eq. lia. }
  cbn -[Z.pow]. rw wrap_small; [lia|]. rw arith_ok; [lia|]. done.
Qed.
End extension_properties.

(** ** Witnesses *)
Import Sample.
Lemma push_all_roundtrip_witness : ∃ e',
  push_all 5000 [(6000, Established); (9000, FinWait1)]
    (ext_init (storable_new (E:=Extension))) = Ok e' ∧
  ext_wf e' ∧ states e' = Ok [Listen; Established; FinWait1] ∧ last_state e' = Ok FinWait1.
Proof.
  apply (push_all_roundtrip 5000 [(6000, Established); (9000, FinWait1)]
           (storable_new (E:=Extension))).
  - apply extension_new_wf.
  - cbn. lia.
  - repeat constructor; cbn; lia.
Defined.

Lemma push_state_capacity_witness :
  (∃ e', push_state 10 Closed 0 (storable_new (E:=Extension)) = Ok e' ∧ ext_wf e') ∧ 0 < 7 ∨
  push_state 10 Closed 0 (storable_new (E:=Extension)) = Panic OutOfBounds ∧ 0 = 7.
Proof.
  refine (push_state_capacity 10 Closed 0 (storable_new (E:=Extension)) extension_new_wf _).
  lia.
Defined.

Lemma last_stamp_precision_witness :
  ∃ e' t, push_state 10000 Closed 0 (storable_new (E:=Extension)) = Ok e' ∧
    get_last_stamp e' = Ok (Some t) ∧ t ≤ 10000 < t + 1024.
Proof.
  eexists. edestruct (last_stamp_precision 10000 Closed 0 (storable_new (E:=Extension)))
    as (t & Ht & Hb); [apply extension_new_wf|reflexivity|lia|cbn; lia|].
  exists t. split; [reflexivity|]. split; [exact Ht|exact Hb].
Defined.
