(* ===== verification/Connection.v ===== *)
(** * Connections (cmanager.rs, [ProxyConnection] and [DetailedConnection])

    A connection lives in the manager's table. With detailed records it also
    holds a slot of a record store shared through an [Rc]: the store is found
    in [World] under the handle the connection keeps. *)
From Stdlib Require Import ZArith Lia ssreflect.
From S2P Require Import Prelude Crates Extension.
#[local] Open Scope general_if_scope.

Section connection.
Context `{TC : TcpCommon} `{PF : Profile} `{RC : !RecordCrate} `{HC : HeaderCrate}
  `{PC : !PacketCrate} `{CL : Clock}.

Definition ProxyRecStore : Type := Store64 Extension.

(** What lies behind references: the [Rc]-shared record stores by handle, the
    next fresh handle, the number of time stamps read so far, and the packet
    memory. *)
Record World : Type := mkWorld {
  w_stores : gmap nat ProxyRecStore;
  w_next_store : nat;
  w_clock : nat;
  w_mem : PacketMem;
}.
#[global] Instance eta_World : Eta World := λ r,
  mkWorld (w_stores r) (w_next_store r) (w_clock r) (w_mem r).

(** [unsafe { _rdtsc() }] *)
Definition rdtsc : M World Z := λ w,
  Ok (tsc_reading (w_clock w), w <| w_clock := S (w_clock w) |>).

(** [Rc::new(RefCell::new(store))] *)
Definition rc_new (s : ProxyRecStore) : M World nat := λ w,
  Ok (w_next_store w,
      w <| w_stores := <[w_next_store w := s]> (w_stores w) |>
        <| w_next_store := S (w_next_store w) |>).

(** [store.borrow()] / [store.borrow_mut()]: a handle is live as long as
    somebody holds it. *)
Definition borrow (id : nat) : M World ProxyRecStore := λ w,
  match w_stores w !! id with Some s => Ok (s, w) | None => Panic UnwrapNone end.
Definition borrow_put (id : nat) (s : ProxyRecStore) : M World unit :=
  modify (λ w, w <| w_stores := <[id := s]> (w_stores w) |>).

(** [struct DetailedConnection] *)
Record DetailedConnection : Type := mkDetailed {
  con_rec : option Z;
  store : option nat;
}.

(** [fn store(&self)] and [fn con_rec(&self)] *)
Definition dc_store (d : DetailedConnection) : res nat := unwrap (store d).
Definition dc_con_rec (d : DetailedConnection) : res Z := unwrap (con_rec d).

Definition dc_new (id : nat) : M World DetailedConnection :=
  s ← borrow id;
  '(i, s') ← lift (store_get_next_slot s);
  borrow_put id s';;
  mret {| con_rec := Some i; store := Some id |}.

Definition dc_re_new (id : nat) (d : DetailedConnection) : M World DetailedConnection :=
  s ← borrow id;
  '(i, s') ← lift (store_get_next_slot s);
  borrow_put id s';;
  mret {| con_rec := Some i; store := Some id |}.

(** Read and write back the client-side, resp. server-side record. *)
Definition dc_get (d : DetailedConnection) : M World ConRecord :=
  id ← lift (dc_store d); s ← borrow id; i ← lift (dc_con_rec d); lift (store_get s i).
Definition dc_get_1 (d : DetailedConnection) : M World Extension :=
  id ← lift (dc_store d); s ← borrow id; i ← lift (dc_con_rec d); lift (store_get_1 s i).
Definition dc_put (d : DetailedConnection) (r : ConRecord) : M World unit :=
  id ← lift (dc_store d); s ← borrow id; i ← lift (dc_con_rec d);
  borrow_put id (store_put i r s).
Definition dc_put_1 (d : DetailedConnection) (e : Extension) : M World unit :=
  id ← lift (dc_store d); s ← borrow id; i ← lift (dc_con_rec d);
  borrow_put id (store_put_1 i e s).

Definition dc_initialize (client_sock : Z * Z) (proxy_sport : Z) (d : DetailedConnection) : M World unit :=
  r ← dc_get d; tsc ← rdtsc;
  dc_put d (cr_init_client tsc proxy_sport (Some client_sock) r).

Definition dc_set_release_cause (cause : ReleaseCause) (d : DetailedConnection) : M World unit :=
  r ← dc_get d; dc_put d (cr_set_release_cause cause r).

Definition dc_c_states (d : DetailedConnection) : M World (list TcpState) :=
  r ← dc_get d; mret (cr_states r).

Definition dc_s_states (d : DetailedConnection) : M World (list TcpState) :=
  e ← dc_get_1 d; lift (states e).

Definition dc_s_push_state (state : TcpState) (d : DetailedConnection) : M World unit :=
  r ← dc_get d;
  let base_stamp := cr_base_stamp r in
  e ← dc_get_1 d; tsc ← rdtsc;
  e' ← lift (push_state tsc state base_stamp e);
  dc_put_1 d e'.

Definition dc_c_push_state (state : TcpState) (d : DetailedConnection) : M World unit :=
  r ← dc_get d; tsc ← rdtsc;
  r' ← lift (cr_push_state tsc state r);
  dc_put d r'.

Definition dc_s_init (d : DetailedConnection) : M World unit :=
  e ← dc_get_1 d; dc_put_1 d (ext_init e).

Definition dc_s_set_release_cause (cause : ReleaseCause) (d : DetailedConnection) : M World unit :=
  e ← dc_get_1 d; dc_put_1 d (ext_set_release_cause cause e).

Definition dc_release (d : DetailedConnection) : DetailedConnection :=
  {| con_rec := None; store := None |}.

(** [struct ProxyConnection]. The union [Seqn] is its 32 bits: [f_seqn] and
    [ack_for_fin_p2c] are two names for [seqn]. *)
Record ProxyConnection : Type := mkProxyConnection {
  payload_packet : option Pdu;
  detailed_c : option DetailedConnection;
  client_mac : MacAddress;
  client_port : Z;          (* u16 *)
  client_ip : Z;            (* u32 *)
  c_seqn : Z;               (* u32 *)
  ackn_p2s : Z;             (* u32 *)
  ackn_p2c : Z;             (* u32 *)
  seqn : Z;                 (* union of two u32 *)
  c2s_inserted_bytes : Z;   (* i32 *)
  seqn_fin_p2s : Z;         (* u32 *)
  proxy_port : Z;           (* u16 *)
  wheel_slot_and_index : Z * Z;
  client_state_u8 : Z;      (* u8, field client_state *)
  server_state_u8 : Z;      (* u8, field server_state *)
  server_index_u8 : Z;      (* u8, field server_index *)
}.
#[global] Instance eta_ProxyConnection : Eta ProxyConnection := λ r,
  mkProxyConnection (payload_packet r) (detailed_c r) (client_mac r) (client_port r)
    (client_ip r) (c_seqn r) (ackn_p2s r) (ackn_p2c r) (seqn r) (c2s_inserted_bytes r)
    (seqn_fin_p2s r) (proxy_port r) (wheel_slot_and_index r) (client_state_u8 r)
    (server_state_u8 r) (server_index_u8 r).

Definition f_seqn (c : ProxyConnection) : Z := seqn c.
Definition ack_for_fin_p2c (c : ProxyConnection) : Z := seqn c.

Definition pc_new : ProxyConnection := {|
  payload_packet := None; detailed_c := None; client_mac := mac_default;
  c_seqn := 0; ackn_p2s := 0; ackn_p2c := 0; c2s_inserted_bytes := 0;
  wheel_slot_and_index := (0, 0); seqn := 0; seqn_fin_p2s := 0;
  client_ip := 0; client_port := 0; proxy_port := 0; server_index_u8 := 0;
  client_state_u8 := state_as_u8 Closed; server_state_u8 := state_as_u8 Listen;
|}.

Definition pc_initialize (client_sock : Z * Z) (port : Z) (c : ProxyConnection) : ProxyConnection := {|
  payload_packet := None; detailed_c := detailed_c c; client_mac := mac_default;
  c_seqn := 0; seqn := 0; ackn_p2s := 0; ackn_p2c := 0; c2s_inserted_bytes := 0;
  seqn_fin_p2s := 0; wheel_slot_and_index := (0, 0);
  client_ip := client_sock.1; client_port := client_sock.2; proxy_port := port;
  server_index_u8 := 0;
  client_state_u8 := state_as_u8 Closed; server_state_u8 := state_as_u8 Listen;
|}.

Definition pc_initialize_with_details (client_sock : Z * Z) (port : Z) (id : nat)
    (c : ProxyConnection) : M World ProxyConnection :=
  let c := pc_initialize client_sock port c in
  d ← match detailed_c c with
      | None => dc_new id
      | Some d => dc_re_new id d
      end;
  dc_initialize client_sock port d;;
  mret (c <| detailed_c := Some d |>).

Definition port (c : ProxyConnection) : Z := proxy_port c.
Definition in_use (c : ProxyConnection) : bool := negb (proxy_port c =? 0).

Definition pc_release (c : ProxyConnection) : ProxyConnection :=
  let c := c <| proxy_port := 0 |> in
  match detailed_c c with
  | Some d => c <| detailed_c := Some (dc_release d) |>
  | None => c
  end.

Definition server_index (c : ProxyConnection) : Z := server_index_u8 c.
Definition set_server_index (index : Z) (c : ProxyConnection) : ProxyConnection :=
  c <| server_index_u8 := index |>.

Definition sock (c : ProxyConnection) : option (Z * Z) :=
  if client_ip c =? 0 then None else Some (client_ip c, client_port c).
Definition set_sock (s : Z * Z) (c : ProxyConnection) : ProxyConnection :=
  c <| client_ip := s.1 |> <| client_port := s.2 |>.

Definition client_state (c : ProxyConnection) : TcpState := state_from_u8 (client_state_u8 c).
Definition server_state (c : ProxyConnection) : TcpState := state_from_u8 (server_state_u8 c).

(** [if self.detailed_c.is_some() { ... }] *)
Definition if_detailed (f : DetailedConnection → M World unit) (c : ProxyConnection) : M World unit :=
  match detailed_c c with Some d => f d | None => mret tt end.

Definition c_push_state (state : TcpState) (c : ProxyConnection) : M World ProxyConnection :=
  if_detailed (dc_c_push_state state) c;;
  mret (c <| client_state_u8 := state_as_u8 state |>).

Definition s_push_state (state : TcpState) (c : ProxyConnection) : M World ProxyConnection :=
  if_detailed (dc_s_push_state state) c;;
  mret (c <| server_state_u8 := state_as_u8 state |>).

Definition s_set_release_cause (cause : ReleaseCause) (c : ProxyConnection) : M World ProxyConnection :=
  if_detailed (dc_s_set_release_cause cause) c;; mret c.

Definition s_init (c : ProxyConnection) : M World ProxyConnection :=
  if_detailed dc_s_init c;; mret c.

Definition set_release_cause (cause : ReleaseCause) (c : ProxyConnection) : M World ProxyConnection :=
  if_detailed (dc_set_release_cause cause) c;; mret c.

Definition s_states (c : ProxyConnection) : M World (list TcpState) :=
  match detailed_c c with Some d => dc_s_states d | None => mret [] end.

Definition c_states (c : ProxyConnection) : M World (list TcpState) :=
  match detailed_c c with Some d => dc_c_states d | None => mret [] end.
End connection.

(** ** Lemmas: record keeping leaves packets and the other fields alone *)
Create HintDb keeps_mem.

Section connection_lemmas.
Context `{TC : TcpCommon} `{PF : Profile} `{RC : !RecordCrate} `{HC : HeaderCrate}
  `{PC : !PacketCrate} `{CL : Clock}.

(** [m] does not touch the packet memory. *)
Definition keeps_mem {A} (m : M World A) : Prop :=
  ∀ w a w', m w = Ok (a, w') → w_mem w' = w_mem w.

Lemma keeps_ret {A} (a : A) : keeps_mem (mret a).
Proof. by intros w b w' [= <- <-]. Qed.

Lemma keeps_bind {A B} (m : M World A) (f : A → M World B) :
  keeps_mem m → (∀ a, keeps_mem (f a)) → keeps_mem (m ≫= f).
Proof.
  intros Hm Hf w b w'. rw /mbind /M_bind.
  destruct (m w) as [[a w1]|e] eqn:E; [|done]. intros H.
  by rw (Hf _ _ _ _ H) (Hm _ _ _ E).
Qed.

Lemma keeps_lift {A} (r : res A) : keeps_mem (lift r).
Proof. intros w b w'. rw /lift. by destruct r; intros [= <- <-]. Qed.

Lemma keeps_rdtsc : keeps_mem rdtsc.
Proof. by intros w b w' [= <- <-]. Qed.

Lemma keeps_borrow id : keeps_mem (borrow id).
Proof. intros w b w'. rw /borrow. by destruct (w_stores w !! id); intros [= <- <-]. Qed.

Lemma keeps_borrow_put id s : keeps_mem (borrow_put id s).
Proof. by intros w b w' [= <- <-]. Qed.

Lemma keeps_rc_new s : keeps_mem (rc_new s).
Proof. by intros w b w' [= <- <-]. Qed.
End connection_lemmas.

#[export] Hint Resolve keeps_ret keeps_lift keeps_rdtsc keeps_borrow keeps_borrow_put keeps_rc_new
  : keeps_mem.
#[export] Hint Extern 2 (keeps_mem (_ ≫= _)) =>
  apply keeps_bind; [|intros ?] : keeps_mem.
#[export] Hint Extern 3 (keeps_mem (let '(_, _) := ?x in _)) => destruct x : keeps_mem.
#[export] Hint Extern 3 (keeps_mem (match ?x with _ => _ end)) => destruct x : keeps_mem.

Section detailed_lemmas.
Context `{TC : TcpCommon} `{PF : Profile} `{RC : !RecordCrate} `{HC : HeaderCrate}
  `{PC : !PacketCrate} `{CL : Clock}.

Lemma keeps_dc_get d : keeps_mem (dc_get d).
Proof. rw /dc_get. auto with keeps_mem. Qed.
Lemma keeps_dc_get_1 d : keeps_mem (dc_get_1 d).
Proof. rw /dc_get_1. auto with keeps_mem. Qed.
Lemma keeps_dc_put d r : keeps_mem (dc_put d r).
Proof. rw /dc_put. auto with keeps_mem. Qed.
Lemma keeps_dc_put_1 d r : keeps_mem (dc_put_1 d r).
Proof. rw /dc_put_1. auto with keeps_mem. Qed.
End detailed_lemmas.

#[export] Hint Resolve keeps_dc_get keeps_dc_get_1 keeps_dc_put keeps_dc_put_1 : keeps_mem.

Section push_lemmas.
Context `{TC : TcpCommon} `{PF : Profile} `{RC : !RecordCrate} `{HC : HeaderCrate}
  `{PC : !PacketCrate} `{CL : Clock}.

(** Either the connection keeps no detailed record, so that record keeping
    cannot panic, or every panic is tolerated. *)
Definition quiet (E : panic → Prop) (c : ProxyConnection) : Prop :=
  detailed_c c = None ∨ ∀ e, E e.

Lemma wp_keeps {A} (m : M World A) (E : panic → Prop) Q w :
  keeps_mem m → (∀ e, E e) → (∀ a w', w_mem w' = w_mem w → Q a w') → wp m E Q w.
Proof. intros Hm HE HQ. apply wp_run; [|done]. intros a w' H. apply HQ. by eapply Hm, H. Qed.

Lemma wp_if_detailed f c E Q w :
  (∀ d, keeps_mem (f d)) → quiet E c → (∀ w', w_mem w' = w_mem w → Q tt w') →
  wp (if_detailed f c) E Q w.
Proof.
  intros Hf Hq HQ. rw /if_detailed. destruct (detailed_c c) as [d|] eqn:Hd; [|by apply HQ].
  destruct Hq as [Hq|HE]; [by rw Hd in Hq|]. apply wp_keeps; [done..|]. by intros [].
Qed.

Lemma wp_c_push_state st c E Q w :
  quiet E c →
  (∀ w', w_mem w' = w_mem w → Q (c <| client_state_u8 := state_as_u8 st |>) w') →
  wp (c_push_state st c) E Q w.
Proof.
  intros Hq HQ. apply wp_bind, wp_if_detailed; [|done|by intros; apply HQ].
  intros d. rw /dc_c_push_state. auto with keeps_mem.
Qed.

Lemma wp_s_push_state st c E Q w :
  quiet E c →
  (∀ w', w_mem w' = w_mem w → Q (c <| server_state_u8 := state_as_u8 st |>) w') →
  wp (s_push_state st c) E Q w.
Proof.
  intros Hq HQ. apply wp_bind, wp_if_detailed; [|done|by intros; apply HQ].
  intros d. rw /dc_s_push_state. auto 10 with keeps_mem.
Qed.

Lemma wp_set_release_cause ca c E Q w :
  quiet E c → (∀ w', w_mem w' = w_mem w → Q c w') → wp (set_release_cause ca c) E Q w.
Proof.
  intros Hq HQ. apply wp_bind, wp_if_detailed; [|done|by intros; apply HQ].
  intros d. rw /dc_set_release_cause. auto with keeps_mem.
Qed.

Lemma wp_s_set_release_cause ca c E Q w :
  quiet E c → (∀ w', w_mem w' = w_mem w → Q c w') → wp (s_set_release_cause ca c) E Q w.
Proof.
  intros Hq HQ. apply wp_bind, wp_if_detailed; [|done|by intros; apply HQ].
  intros d. rw /dc_s_set_release_cause. auto with keeps_mem.
Qed.

Lemma wp_s_init c E Q w :
  quiet E c → (∀ w', w_mem w' = w_mem w → Q c w') → wp (s_init c) E Q w.
Proof.
  intros Hq HQ. apply wp_bind, wp_if_detailed; [|done|by intros; apply HQ].
  intros d. rw /dc_s_init. auto with keeps_mem.
Qed.

Lemma wp_pc_initialize_with_details s p id c E Q w :
  (∀ e, E e) →
  (∀ d w', w_mem w' = w_mem w → Q ((pc_initialize s p c) <| detailed_c := Some d |>) w') →
  wp (pc_initialize_with_details s p id c) E Q w.
Proof.
  intros HE HQ. rw /pc_initialize_with_details. apply wp_bind, wp_keeps; [|done|].
  { destruct (detailed_c _); rw /dc_re_new /dc_new; auto 10 with keeps_mem. }
  intros d w1 H1. apply wp_bind, wp_keeps; [|done|].
  { rw /dc_initialize. auto 10 with keeps_mem. }
  intros [] w2 H2. apply HQ. by rw H2.
Qed.

Lemma pc_release_in_use c : in_use (pc_release c) = false.
Proof. rw /pc_release /in_use. by destruct (detailed_c _). Qed.

Lemma pc_release_none c : detailed_c c = None → pc_release c = c <| proxy_port := 0 |>.
Proof. rw /pc_release /=. by intros ->. Qed.

Lemma sock_Some c : client_ip c ≠ 0 → sock c = Some (client_ip c, client_port c).
Proof. intros. rw /sock. by destruct (Z.eqb_spec (client_ip c) 0). Qed.
End push_lemmas.
