(* ===== verification/CManager.v ===== *)
(** * The connection manager (cmanager.rs, [ConnectionManager])

    The table of connections of one pipeline, indexed by proxy port; the queue
    of free ports; the map from client sockets to ports. *)
From Stdlib Require Import ZArith Lia.
From S2P Require Import Prelude Crates Extension Connection.

Section cmanager.
Context `{TC : TcpCommon} `{PF : Profile} `{RC : !RecordCrate} `{HC : HeaderCrate}
  `{PC : !PacketCrate} `{CL : Clock} `{WC : WheelCrate}.

(** [struct ConnectionManager]; [record_store] is the handle of the [Rc]. *)
Record ConnectionManager : Type := mkCM {
  record_store : nat;
  sock2port : gmap (Z * Z) Z;
  free_ports : list Z;
  port2con : list ProxyConnection;
  pci : PortQueue;
  tcp_port_base : Z;   (* u16 *)
  cm_ip : Z;           (* u32 *)
  detailed_records : bool;
}.
#[global] Instance eta_CM : Eta ConnectionManager := λ r,
  mkCM (record_store r) (sock2port r) (free_ports r) (port2con r) (pci r)
    (tcp_port_base r) (cm_ip r) (detailed_records r).

(** The manager, the world behind its references, and the timer wheel its
    caller passes in. *)
Record CmState : Type := mkCmState {
  cm : ConnectionManager;
  cm_world : World;
  cm_wheel : TimerWheel;
}.
#[global] Instance eta_CmState : Eta CmState := λ r,
  mkCmState (cm r) (cm_world r) (cm_wheel r).

Definition MAX_RECORDS : Z := 262143.

Definition on_world {A} (m : M World A) : M CmState A :=
  zoom cm_world (λ w s, s <| cm_world := w |>) m.
Definition on_cm (f : ConnectionManager → ConnectionManager) : M CmState unit :=
  modify (λ s, s <| cm := f (cm s) |>).

(** [shuffle_ports] of netfcts is a parameter of [new]. *)
Definition cm_new (shuffle_ports : Z → Z → list Z) (q : PortQueue) (l4flow_ip l4flow_port : Z)
    (detailed : bool) : M World ConnectionManager :=
  let ip := l4flow_ip in
  let base := l4flow_port in
  let port_mask := tcp_dst_port_mask q in
  max_tcp_port ← lift (arith 16 (base + not16 port_mask));
  store ← rc_new (store_with_capacity MAX_RECORDS);
  hi ← lift (arith 16 (max_tcp_port - 1));
  let free := shuffle_ports (if base =? 0 then 1 else base) hi in
  let cm := {|
    record_store := store; sock2port := ∅; free_ports := free; port2con := [];
    pci := q; tcp_port_base := base; cm_ip := ip; detailed_records := detailed;
  |} in
  let cm := cm <| port2con := replicate (Z.to_nat (not16 port_mask + 1)) pc_new |> in
  let cm := cm <| free_ports := free_ports cm ++ [max_tcp_port] |> in
  mret cm.

(** [self.port2con[(p - self.tcp_port_base) as usize]] *)
Definition slot (m : ConnectionManager) (p : Z) : res Z := arith 16 (p - tcp_port_base m).
Definition get_mut_con (p : Z) (m : ConnectionManager) : res ProxyConnection :=
  i ← slot m p; index (port2con m) i.
(** writing through the [&mut] that [get_mut_con] returns *)
Definition put_con (p : Z) (c : ProxyConnection) (m : ConnectionManager) : res ConnectionManager :=
  i ← slot m p; l ← index_set (port2con m) i c; Ok (m <| port2con := l |>).

Definition owns_tcp_port (m : ConnectionManager) (tcp_port : Z) : bool :=
  Z.land tcp_port (tcp_dst_port_mask (pci m)) =? tcp_port_base m.

(** The getters return the port under which the table holds the connection
    they borrow. *)
Definition get_mut_by_port (p : Z) (m : ConnectionManager) : res (option Z) :=
  if owns_tcp_port m p then
    c ← get_mut_con p m;
    Ok (if in_use c then Some p else None)
  else Ok None.

Definition get_mut_by_sock (s : Z * Z) (m : ConnectionManager) : res (option Z) :=
  match sock2port m !! s with
  | Some p => c ← get_mut_con p m; Ok (Some p)
  | None => Ok None
  end.

Definition lookup_con (p : Z) : M CmState ProxyConnection :=
  m ← gets cm; lift (get_mut_con p m).
Definition store_con (p : Z) (c : ProxyConnection) : M CmState unit :=
  m ← gets cm; m' ← lift (put_con p c m); on_cm (λ _, m').

Definition get_mut_or_insert (s : Z * Z) : M CmState (option Z) :=
  m ← gets cm;
  match sock2port m !! s with
  | Some p =>
      cc ← lookup_con p;
      assert_ (in_use cc);;
      mret (Some p)
  | None =>
      match free_ports m with
      | p :: rest =>
          on_cm (λ m, m <| free_ports := rest |>);;
          cc ← lookup_con p;
          assert_ (negb (in_use cc));;
          cc' ← (if detailed_records m
                 then on_world (pc_initialize_with_details s p (record_store m) cc)
                 else mret (pc_initialize s p cc));
          store_con p cc';;
          on_cm (λ m, m <| sock2port := <[s := p]> (sock2port m) |>);;
          mret (Some p)
      | [] => mret None
      end
  end.

Definition replace_in_wheel (idx : Z * Z) (v : Z) : M CmState (option Z) := λ s,
  Ok ((wheel_replace idx v (cm_wheel s)).1,
      s <| cm_wheel := (wheel_replace idx v (cm_wheel s)).2 |>).

Definition release_port (p : Z) : M CmState unit :=
  c ← lookup_con p;
  when (in_use c) (
    on_cm (λ m, m <| free_ports := free_ports m ++ [p] |>);;
    assert_ (p =? port c);;
    old ← replace_in_wheel (wheel_slot_and_index c) 0;
    match old with Some o => assert_ (o =? p) | None => mret tt end;;
    match sock c with
    | Some s =>
        m ← gets cm;
        on_cm (λ m, m <| sock2port := delete s (sock2port m) |>);;
        match sock2port m !! s with Some p' => assert_ (p' =? port c) | None => mret tt end
    | None => mret tt
    end;;
    store_con p (pc_release c)).

Definition timeout (p : Z) : M CmState unit :=
  m ← gets cm;
  o ← lift (get_mut_by_port p m);
  match o with
  | None => mret tt
  | Some q =>
      c ← lookup_con q;
      c ← on_world (set_release_cause Timeout c);
      c ← on_world (c_push_state Closed c);
      let s := sock c in
      store_con q (pc_release c);;
      on_cm (λ m, m <| free_ports := free_ports m ++ [p] |>);;
      match s with
      | Some s => on_cm (λ m, m <| sock2port := delete s (sock2port m) |>)
      | None => mret tt
      end
  end.

(** The drain loop of one tick: every entry but the overwritten ones (0). *)
Fixpoint drain_loop (l : list Z) : M CmState unit :=
  match l with
  | [] => mret tt
  | p :: l' => when (negb (p =? 0)) (timeout p);; drain_loop l'
  end.

Definition tick (now : Z) : M CmState (option (list Z) * bool) := λ s,
  Ok ((wheel_tick now (cm_wheel s)).1, s <| cm_wheel := (wheel_tick now (cm_wheel s)).2 |>).

(** [loop { match wheel.tick(now) { .. if !more { break } } }]; [None] when
    [fuel] iterations were not enough. *)
Fixpoint release_timeouts (fuel : nat) (now : Z) : M CmState (option unit) :=
  match fuel with
  | O => mret None
  | S fuel' =>
      '(d, more) ← tick now;
      match d with Some drain => drain_loop drain | None => mret tt end;;
      if (more : bool) then release_timeouts fuel' now else mret (Some tt)
  end.

(** References to a store held by connections of the table *)
Definition holds_store (id : nat) (c : ProxyConnection) : bool :=
  match detailed_c c with
  | Some d => bool_decide (store d = Some id)
  | None => false
  end.
(** [Rc::strong_count] of a store the manager has moved out of its field: the
    moved handle and those of the connections *)
Definition strong_count (id : nat) (m : ConnectionManager) : nat :=
  S (length (filter (λ c, holds_store id c = true) (port2con m))).

Definition fetch_c_records : M CmState (option ProxyRecStore) :=
  new_store ← on_world (rc_new (store_with_capacity MAX_RECORDS));
  m ← gets cm;
  let old_store := record_store m in
  on_cm (λ m, m <| record_store := new_store |>);;
  m ← gets cm;
  when (1 <? Z.of_nat (strong_count old_store m))
    (on_cm (λ m, m <| port2con := pc_release <$> port2con m |>));;
  m ← gets cm;
  (** [Rc::try_unwrap] succeeds when the moved handle is the only one left *)
  if Z.of_nat (strong_count old_store m) =? 1
  then s ← on_world (borrow old_store); mret (Some s)
  else mret None.
End cmanager.
