(* ===== verification/Messages.v ===== *)
(** * Messages between the pipelines and the main thread (netfcts::comm)

    The enumerations are of netfcts; the constructors are those the code under
    [src/] sends and receives, with the fields it fills in or reads. *)
From Stdlib Require Import ZArith Lia.
From S2P Require Import Prelude Crates Extension Connection.

(** [PipelineId], built in nftcp.rs 81-85 *)
Record PipelineId : Type := mkPipelineId {
  pl_core : Z;
  pl_port_id : Z;
  pl_rxq : Z;
}.
#[export] Instance PipelineId_eq_dec : EqDecision PipelineId.
Proof. solve_decision. Defined.
#[export] Instance PipelineId_countable : Countable PipelineId.
Proof.
  apply (inj_countable' (λ i, (pl_core i, pl_port_id i, pl_rxq i))
    (λ t, mkPipelineId t.1.1 t.1.2 t.2)). by intros [].
Defined.

Inductive TaskType : Type := TickGenerator | Pipe2Kni | Pipe2Pci | BypassPipe.

(** A task is named by the number of its uuid, in the order they are drawn. *)
Definition Uuid : Type := nat.

Section messages.
Context `{TC : TcpCommon} `{RC : !RecordCrate}.

(** To a pipeline ([FetchCounter], [FetchCRecords]) and to the main thread (the
    others) *)
Inductive MessageTo : Type :=
| FetchCounter
| FetchCRecords
| CounterTo (id : PipelineId) (c s : TcpCounter)
| CRecordsTo (id : PipelineId) (r : option ProxyRecStore)
| OtherMessageTo.

(** From a pipeline (the first four) and from the main thread, the [Fetch..From]
    being the [MessageFrom::Fetch..] of the code. A [Channel] carries the sender
    of the pipeline's own channel. *)
Inductive MessageFrom : Type :=
| Channel (id : PipelineId)
| Task (id : PipelineId) (u : Uuid) (t : TaskType)
| Counter (id : PipelineId) (c s : TcpCounter)
| CRecords (id : PipelineId) (r : option ProxyRecStore)
| StartEngine
| PrintPerformance (cores : list Z)
| FetchCounterFrom
| FetchCRecordsFrom
| Exit.
End messages.
