(* ===== verification/Proxy.v ===== *)
(** * The packet functions of the proxy (nftcp.rs, 125-152 and 224-418)

    The inner functions of the closure of [setup_delayed_proxy], acting on the
    packet and the connection they borrow. *)
From Stdlib Require Import ZArith Lia.
From S2P Require Import Prelude Crates Extension Connection CManager Messages.

Section proxy.
Context `{TC : TcpCommon} `{PF : Profile} `{RC : !RecordCrate} `{HC : HeaderCrate}
  `{PC : !PacketCrate} `{CL : Clock} `{WC : WheelCrate}.

Definition MIN_FRAME_SIZE : Z := 60.

(** The closures of the embedding program: [FnSelectServer] and [FnPayload].
    The second gets the payload slice and its tail room. *)
Definition FnSelectServer : Type := ProxyConnection → M World ProxyConnection.
Definition FnPayload : Type := ProxyConnection → list Z → Z → M World (ProxyConnection * list Z).

(** What the closure captures and does not change. *)
Record Config : Type := mkConfig {
  me : L234Data;                  (* me.l234 *)
  me_ip_s : Z;                    (* me.ip_s *)
  servers : list L234Data;
  pipeline_ip : Z;
  tcp_min_port : Z;
  csum_offload : bool;
  timeouts_established : option Z;
  cpu_clock : Z;
  wheel_tick_reduction_factor : Z;
  pipeline_id : PipelineId;
  f_select_server : FnSelectServer;
  f_process_payload_c_s : FnPayload;
}.

(** The state a packet handler works on while it borrows one connection: the
    rest of the pipeline's state ([x_..]), the connection, the packet, the
    group to return and the port to release. *)
Record Ctx : Type := mkCtx {
  x_world : World;
  x_wheel : TimerWheel;
  x_counter_c : TcpCounter;
  x_counter_s : TcpCounter;
  x_alloc : option (list Pdu);     (* PduAllocator.pdu_batch *)
  x_queue : list Pdu;              (* packets handed to the producer, in order *)
  x_con : ProxyConnection;
  x_pdu : Pdu;
  x_group : Z;
  x_release : option Z;
}.
#[global] Instance eta_Ctx : Eta Ctx := λ r,
  mkCtx (x_world r) (x_wheel r) (x_counter_c r) (x_counter_s r) (x_alloc r) (x_queue r)
    (x_con r) (x_pdu r) (x_group r) (x_release r).

Definition PX := M Ctx.

(** Access to the parts of the context *)
Definition on_x_world {A} (m : M World A) : PX A :=
  zoom x_world (λ w x, x <| x_world := w |>) m.
Definition on_mem (f : PacketMem → PacketMem) : PX unit :=
  modify (λ x, x <| x_world := (x_world x) <| w_mem := f (w_mem (x_world x)) |> |>).
Definition mem : PX PacketMem := gets (λ x, w_mem (x_world x)).
Definition con {A} (f : ProxyConnection → A) : PX A := gets (λ x, f (x_con x)).
Definition on_con (f : ProxyConnection → ProxyConnection) : PX unit :=
  modify (λ x, x <| x_con := f (x_con x) |>).
(** a method call on the borrowed connection *)
Definition con_do (f : ProxyConnection → M World ProxyConnection) : PX unit :=
  c ← gets x_con; c' ← on_x_world (f c); on_con (λ _, c').
Definition tcp_hdr (p : Pdu) : PX TcpHeader := m ← mem; mret (tcp_of m p).
Definition on_mac (p : Pdu) (f : MacHeader → MacHeader) : PX unit :=
  on_mem (λ m, mac_write p (f (mac_of m p)) m).
Definition on_ip (p : Pdu) (f : IpHeader → IpHeader) : PX unit :=
  on_mem (λ m, ip_write p (f (ip_of m p)) m).
Definition on_tcp (p : Pdu) (f : TcpHeader → TcpHeader) : PX unit :=
  on_mem (λ m, tcp_write p (f (tcp_of m p)) m).
Definition count_c (k : TcpStatistics) : PX unit :=
  modify (λ x, x <| x_counter_c := counter_incr k (x_counter_c x) |>).
Definition count_s (k : TcpStatistics) : PX unit :=
  modify (λ x, x <| x_counter_s := counter_incr k (x_counter_s x) |>).
Definition set_group (g : Z) : PX unit := modify (λ x, x <| x_group := g |>).
Definition set_release (p : Z) : PX unit := modify (λ x, x <| x_release := Some p |>).
Definition enqueue_one (p : Pdu) : PX unit := modify (λ x, x <| x_queue := x_queue x ++ [p] |>).

(** [PduAllocator::get_pdu]; [Vec::pop] takes from the end *)
Definition pop_pdu (l : list Pdu) : PX (option Pdu) :=
  match reverse l with
  | p :: rest => modify (λ x, x <| x_alloc := Some (reverse rest) |>);; mret (Some p)
  | [] => mret None
  end.
Definition refill : PX (option (list Pdu)) :=
  m ← mem;
  let '(b, m') := new_pdu_array m in
  on_mem (λ _, m');;
  modify (λ x, x <| x_alloc := b |>);;
  mret b.
Definition get_pdu : PX (option Pdu) :=
  batch ← gets x_alloc;
  match batch with
  | Some [] =>
      b ← refill;
      match b with Some l => pop_pdu l | None => mret None end
  | Some l => pop_pdu l
  | None => mret None
  end.

Definition client_syn_received (p : Pdu) : PX unit :=
  m ← mem;
  on_con (λ c, c <| client_mac := mac_get MacSrc (mac_of m p) |>);;
  on_mem (remove_tcp_options p);;
  on_mem (make_reply_packet p 1);;
  tsc ← on_x_world rdtsc;
  on_con (λ c, c <| c_seqn := wrap 32 (Z.shiftl tsc 8) |>);;
  s ← con c_seqn;
  on_tcp p (tcp_set SeqNum s);;
  t ← tcp_hdr p;
  on_con (λ c, c <| ackn_p2c := tcp_get AckNum t |>);;
  on_mem (prepare_checksum_and_ttl p).

(** [if c2s_inserted_bytes >= 0 { n.wrapping_add(bytes as u32) } else
    { n.wrapping_sub((-bytes) as u32) }], and its mirror image. *)
Definition shift_seqn (inserted n : Z) : res Z :=
  if 0 <=? inserted then Ok (wrapping_add32 n (wrap 32 inserted))
  else neg ← arith_i32 (- inserted); Ok (wrapping_sub32 n (wrap 32 neg)).
Definition unshift_ackn (inserted n : Z) : res Z :=
  if 0 <=? inserted then Ok (wrapping_sub32 n (wrap 32 inserted))
  else neg ← arith_i32 (- inserted); Ok (wrapping_add32 n (wrap 32 neg)).

Definition client_to_server (cfg : Config) (p : Pdu) : PX unit :=
  m ← mem;
  when (0 <? tcp_payload_size m p) (
    let tailroom := get_tailroom m p in
    c ← gets x_con;
    '(c', pl) ← on_x_world (f_process_payload_c_s cfg c (payload_of m p) tailroom);
    on_con (λ _, c');;
    on_mem (payload_write p pl));;
  i ← con server_index;
  server ← lift (index (servers cfg) i);
  pt ← con port;
  on_mem (set_header server pt p (mac (me cfg)) (me_ip_s cfg));;
  tcp ← tcp_hdr p;
  let oldackn := tcp_get AckNum tcp in
  delta ← con c_seqn;
  let newackn := wrapping_sub32 oldackn delta in
  let oldseqn := tcp_get SeqNum tcp in
  ins ← con c2s_inserted_bytes;
  newseqn ← lift (shift_seqn ins oldseqn);
  when (negb (ins =? 0)) (on_tcp p (tcp_set SeqNum newseqn));;
  on_tcp p (tcp_set AckNum newackn);;
  on_con (λ c, c <| ackn_p2s := newackn |>);;
  tcp ← tcp_hdr p;
  when (tcp_flag FIN tcp) (on_con (λ c, c <| seqn_fin_p2s := newseqn |>));;
  on_mem (prepare_checksum_and_ttl p).

Definition server_to_client (cfg : Config) (p : Pdu) : PX unit :=
  so ← con sock;
  s ← lift (unwrap so);
  cmac ← con client_mac;
  on_mac p (mac_set MacDst cmac);;
  on_mac p (mac_set MacSrc (mac (me cfg)));;
  on_ip p (ip_set IpDst s.1);;
  on_ip p (ip_set IpSrc (l234_ip (me cfg)));;
  on_tcp p (tcp_set SrcPort (l234_port (me cfg)));;
  on_tcp p (tcp_set DstPort s.2);;
  tcp ← tcp_hdr p;
  let oldseqn := tcp_get SeqNum tcp in
  delta ← con c_seqn;
  let newseqn := wrapping_add32 oldseqn delta in
  let oldackn := tcp_get AckNum tcp in
  ins ← con c2s_inserted_bytes;
  newackn ← lift (unshift_ackn ins oldackn);
  when (negb (ins =? 0)) (on_tcp p (tcp_set AckNum newackn));;
  on_tcp p (tcp_set SeqNum newseqn);;
  on_con (λ c, c <| ackn_p2c := newackn |>);;
  tcp ← tcp_hdr p;
  when (tcp_flag FIN tcp) (
    m ← mem;
    len ← lift (arith 32 (wrap 32 (tcp_payload_size m p) + 1));
    on_con (λ c, c <| seqn := wrapping_add32 newseqn len |>));;
  on_mem (prepare_checksum_and_ttl p).

(** After this function the packet of the context is the SYN packet. *)
Definition select_server (cfg : Config) (syn : Pdu) : PX unit :=
  p ← gets x_pdu;
  m ← mem;
  let '(p_clone, m') := pdu_clone p m in
  on_mem (λ _, m');;
  m ← mem;
  let payload_sz := tcp_payload_size m p_clone in
  on_con (λ c, c <| payload_packet := Some p_clone |>);;
  con_do (f_select_server cfg);;
  po ← con payload_packet;
  pp ← lift (unwrap po);
  m ← mem;
  ins ← lift (arith_i32 (as_i32 (tcp_payload_size m pp) - as_i32 payload_sz));
  on_con (λ c, c <| c2s_inserted_bytes := ins |>);;
  i ← con server_index;
  server ← lift (index (servers cfg) i);
  pt ← con port;
  on_mem (set_header server pt p (mac (me cfg)) (me_ip_s cfg));;
  m ← mem;
  let '(ok, m') := push_mac (mac_of m p) syn m in
  on_mem (λ _, m');;
  assert_ ok;;
  let '(p_new, old_p) := pdu_replace p syn in
  modify (λ x, x <| x_pdu := p_new |>);;
  on_mem (dereference_mbuf old_p);;
  m ← mem;
  let ip := ip_of m old_p in
  let tcp := tcp_of m old_p in
  p ← gets x_pdu;
  let '(ok, m') := push_ip ip p m in
  on_mem (λ _, m');;
  assert_ ok;;
  m ← mem;
  let '(ok, m') := push_tcp tcp p m in
  on_mem (λ _, m');;
  assert_ ok;;
  on_ip p (ip_trim_length_by (wrap 16 payload_sz));;
  tcp ← tcp_hdr p;
  on_con (λ c, c <| seqn := wrapping_sub32 (tcp_get SeqNum tcp) 1 |>);;
  s ← con f_seqn;
  on_tcp p (tcp_set SeqNum s);;
  on_tcp p (tcp_set_flag SYN true);;
  on_tcp p (tcp_set AckNum 0);;
  on_tcp p (tcp_set_flag ACK false);;
  on_tcp p (tcp_set_flag PSH false);;
  on_mem (prepare_checksum_and_ttl p).

Definition server_synack_received (p : Pdu) : PX unit :=
  tcp ← tcp_hdr p;
  on_con (λ c, c <| c_seqn := wrapping_sub32 (c_seqn c) (tcp_get SeqNum tcp) |>);;
  on_mem (remove_tcp_options p);;
  on_mem (make_reply_packet p 1);;
  on_tcp p (tcp_set_flag SYN false);;
  on_con (λ c, c <| seqn := wrapping_add32 (f_seqn c) 1 |>);;
  s ← con f_seqn;
  on_tcp p (tcp_set SeqNum s);;
  on_mem (prepare_checksum_and_ttl p);;
  m ← mem;
  let '(p_clone, m') := pdu_clone p m in
  on_mem (λ _, m');;
  enqueue_one p_clone;;
  po ← con payload_packet;
  match po with
  | Some pp =>
      on_con (λ c, c <| payload_packet := None |>);;
      ack ← tcp_hdr p;
      on_mem (replace_tcp ack pp);;
      on_tcp pp (tcp_set_flag PSH true);;
      m ← mem;
      when (data_len m pp <? MIN_FRAME_SIZE)
        (on_mem (add_padding (MIN_FRAME_SIZE - data_len m pp) pp));;
      on_mem (prepare_checksum_and_ttl pp);;
      tcp ← tcp_hdr p;
      on_con (λ c, c <| ackn_p2s := tcp_get AckNum tcp |>);;
      m ← mem;
      assert_ (pdu_refcnt m pp =? 1);;
      enqueue_one pp
  | None => mret tt
  end.
End proxy.
