(* ===== verification/Handler.v ===== *)
(** * The main closure of the pipeline (nftcp.rs, 219-836)

    One call handles one packet: it filters, dispatches to the timer, to the
    client-side or to the server-side TCP handler, and returns the group of the
    packet: 0 drop, 1 send to the PCI port, 2 send to the kernel interface. *)
From Stdlib Require Import ZArith Lia.
From S2P Require Import Prelude Crates Extension Connection CManager Messages Proxy.

Section handler.
Context `{TC : TcpCommon} `{PF : Profile} `{RC : !RecordCrate} `{HC : HeaderCrate}
  `{PC : !PacketCrate} `{CL : Clock} `{WC : WheelCrate}.

Definition is_state (s t : TcpState) : bool := bool_decide (s = t).

(** nftcp.rs 552-568: the packet carries SYN *)
Definition client_syn (cfg : Config) (old_c_state : TcpState) : PX unit :=
  when (is_state old_c_state Closed) (
    p ← gets x_pdu;
    client_syn_received p;;
    con_do (c_push_state SynSent);;
    count_c RecvSyn;; count_c SentSynAck;;
    t ← lift (unwrap (timeouts_established cfg));
    prod ← lift (arith 64 (t * cpu_clock cfg));
    pt ← con port;
    w ← gets x_wheel;
    let '(idx, w') := wheel_schedule (prod / 1000) pt w in
    modify (λ x, x <| x_wheel := w' |>);;
    on_con (λ c, c <| wheel_slot_and_index := idx |>);;
    set_group 1).

(** nftcp.rs 601-614: the server connection is not established yet, the proxy
    itself answers the client's FIN *)
Definition client_early_fin : PX unit :=
  p ← gets x_pdu;
  on_mem (make_reply_packet p 1);;
  on_tcp p (tcp_set_flag ACK true);;
  on_con (λ c, c <| c_seqn := wrapping_add32 (c_seqn c) 1 |>);;
  s ← con c_seqn;
  on_tcp p (tcp_set SeqNum s);;
  on_mem (prepare_checksum_and_ttl p);;
  con_do (s_push_state LastAck);;
  con_do (s_set_release_cause PassiveClose);;
  count_c SentFinPssv;; count_c SentAck4Fin;;
  on_con (λ c, c <| seqn := wrapping_add32 (c_seqn c) 1 |>).

(** nftcp.rs 573-619: FIN from the client *)
Definition client_fin (tcp : TcpHeader) (old_c_state old_s_state : TcpState) : PX unit :=
  if state_geb old_s_state FinWait1 then
    afin ← con ack_for_fin_p2c;
    (if tcp_flag ACK tcp && (tcp_get AckNum tcp =? afin) then
       count_c RecvFinPssv;; count_s SentFinPssv;;
       count_c RecvAck4Fin;; count_s SentAck4Fin;;
       con_do (set_release_cause PassiveClose);;
       con_do (c_push_state LastAck)
     else
       count_c RecvFin;; count_s SentFin;;
       con_do (set_release_cause ActiveClose);;
       con_do (c_push_state Closing);;
       if is_state old_s_state FinWait1 then con_do (s_push_state Closing)
       else if is_state old_s_state FinWait2 then con_do (s_push_state Closed)
       else mret tt);;
    set_group 1
  else
    con_do (set_release_cause ActiveClose);;
    count_c RecvFin;;
    con_do (c_push_state FinWait1);;
    (if state_ltb old_s_state Established then client_early_fin else count_s SentFin);;
    set_group 1.

(** nftcp.rs 626-646: ACK from the client for the FIN of the server *)
Definition client_ack_of_fin (old_c_state old_s_state : TcpState) : PX unit :=
  (if is_state old_s_state FinWait1 then con_do (s_push_state FinWait2)
   else if is_state old_s_state Closing then con_do (s_push_state Closed)
   else mret tt);;
  (if is_state old_c_state Established then con_do (c_push_state CloseWait)
   else if is_state old_c_state FinWait1 then con_do (c_push_state Closing)
   else if is_state old_c_state FinWait2 then con_do (c_push_state Closed)
   else mret tt);;
  count_c RecvAck4Fin;; count_s SentAck4Fin.

(** nftcp.rs 659-670: the first payload packet of the client *)
Definition client_first_payload (cfg : Config) : PX unit :=
  o ← get_pdu;
  syn ← lift (unwrap o);
  select_server cfg syn;;
  con_do s_init;;
  con_do (s_push_state SynReceived);;
  count_c RecvPayload;; count_s SentSyn;;
  set_group 1.

(** nftcp.rs 620-625 *)
Definition client_rst : PX unit :=
  count_c RecvRst;;
  con_do (c_push_state Closed);;
  con_do (set_release_cause ActiveRst);;
  pt ← con port; set_release pt.

(** nftcp.rs 547-686: the client-side state machine *)
Definition client_machine (cfg : Config) (tcp : TcpHeader) (old_c_state old_s_state : TcpState) : PX unit :=
  apc ← con ackn_p2c;
  afin ← con ack_for_fin_p2c;
  if negb (is_state old_c_state Closed) && (tcp_get SeqNum tcp <? apc) then mret tt
  else if tcp_flag SYN tcp then client_syn cfg old_c_state
  else if tcp_flag ACK tcp && is_state old_c_state SynSent then
    con_do (c_push_state Established);; count_c RecvSynAck2
  else if tcp_flag FIN tcp then client_fin tcp old_c_state old_s_state
  else if tcp_flag RST tcp then client_rst
  else if tcp_flag ACK tcp && (tcp_get AckNum tcp =? afin) && state_geb old_s_state FinWait1 then
    client_ack_of_fin old_c_state old_s_state
  else if is_state old_s_state LastAck && tcp_flag ACK tcp && (tcp_get AckNum tcp =? afin) then
    con_do (s_push_state Closed);; con_do (c_push_state Closed);;
    count_c RecvAck4Fin;; count_s SentAck4Fin
  else if is_state old_c_state Established && is_state old_s_state Listen then
    client_first_payload cfg
  else if state_ltb old_s_state SynReceived || state_ltb old_c_state Established then
    count_c Unexpected;; set_group 2
  else mret tt.

(** nftcp.rs 688-690 and 793-795 *)
Definition release_if_closed : PX unit :=
  cs ← con client_state; ss ← con server_state;
  when (is_state cs Closed && is_state ss Closed) (pt ← con port; set_release pt).

(** nftcp.rs 544-699: a client packet that has a connection *)
Definition client_tcp (cfg : Config) (tcp : TcpHeader) : PX unit :=
  old_s_state ← con server_state;
  old_c_state ← con client_state;
  client_machine cfg tcp old_c_state old_s_state;;
  release_if_closed;;
  when (state_geb old_s_state Established && state_ltb old_s_state Closed
        && state_geb old_c_state Established)
    (p ← gets x_pdu; client_to_server cfg p;; set_group 1).

(** nftcp.rs 715-727: SYN-ACK from the server *)
Definition server_synack (old_s_state : TcpState) : PX unit :=
  count_s RecvSynAck;;
  if is_state old_s_state SynReceived then
    con_do (s_push_state Established);;
    p ← gets x_pdu;
    server_synack_received p;;
    count_s SentSynAck2;; count_s SentPayload;;
    set_group 0
  else set_group 0.

(** nftcp.rs 730-765: FIN from the server *)
Definition server_fin (tcp : TcpHeader) (old_c_state : TcpState) : PX unit :=
  if state_geb old_c_state FinWait1 then
    fin ← con seqn_fin_p2s;
    if tcp_flag ACK tcp && (tcp_get AckNum tcp =? wrapping_add32 fin 1) then
      count_s RecvFinPssv;; count_c SentFinPssv;;
      count_s RecvAck4Fin;; count_c SentAck4Fin;;
      con_do (s_set_release_cause PassiveClose);;
      con_do (s_push_state LastAck)
    else
      count_s RecvFin;; count_c SentFin;;
      con_do (s_set_release_cause ActiveClose);;
      con_do (s_push_state Closing);;
      if is_state old_c_state FinWait1 then con_do (c_push_state Closing)
      else if is_state old_c_state FinWait2 then con_do (c_push_state Closed)
      else mret tt
  else
    con_do (s_push_state FinWait1);;
    con_do (s_set_release_cause ActiveClose);;
    count_s RecvFin;; count_c SentFin.

(** nftcp.rs 766-787: ACK from the server while the client is closing *)
Definition server_ack (tcp : TcpHeader) (old_c_state : TcpState) : PX unit :=
  fin ← con seqn_fin_p2s;
  when (tcp_get AckNum tcp =? wrapping_add32 fin 1) (
    (if is_state old_c_state LastAck then
       con_do (c_push_state Closed);; con_do (s_push_state Closed)
     else if is_state old_c_state FinWait1 then con_do (c_push_state FinWait2)
     else if is_state old_c_state Closing then con_do (c_push_state Closed)
     else mret tt);;
    count_s RecvAck4Fin;; count_c SentAck4Fin).

(** nftcp.rs 715-791: the server-side state machine; returns [b_unexpected] *)
Definition server_machine (tcp : TcpHeader) (old_c_state old_s_state : TcpState) : PX bool :=
  if tcp_flag ACK tcp && tcp_flag SYN tcp then server_synack old_s_state;; mret false
  else if tcp_flag FIN tcp then server_fin tcp old_c_state;; mret false
  else if state_geb old_c_state LastAck && tcp_flag ACK tcp then
    server_ack tcp old_c_state;; mret false
  else mret true.

(** nftcp.rs 710-819: a server packet that has a connection *)
Definition server_tcp (cfg : Config) (tcp : TcpHeader) : PX unit :=
  old_s_state ← con server_state;
  old_c_state ← con client_state;
  b_unexpected ← server_machine tcp old_c_state old_s_state;
  release_if_closed;;
  if state_geb old_s_state Established && state_geb old_c_state Established
     && state_ltb old_c_state Closed
  then p ← gets x_pdu; server_to_client cfg p;; set_group 1
  else when b_unexpected (set_group 2).

(** ** The pipeline's state *)
Record Engine : Type := mkEngine {
  e_cms : CmState;              (* cm, the world, wheel *)
  e_counter_c : TcpCounter;
  e_counter_s : TcpCounter;
  e_alloc : option (list Pdu);  (* packet_allocator *)
  e_queue : list Pdu;           (* what producer has been given *)
  e_ticks : Z;                  (* u64 *)
  e_rx : list MessageTo;        (* messages waiting in rx *)
  e_tx : list MessageFrom;      (* messages sent on tx *)
  e_tx_open : bool;             (* the receiver of tx is alive *)
}.
#[global] Instance eta_Engine : Eta Engine := λ r,
  mkEngine (e_cms r) (e_counter_c r) (e_counter_s r) (e_alloc r) (e_queue r) (e_ticks r)
    (e_rx r) (e_tx r) (e_tx_open r).

Definition on_cms {A} (m : M CmState A) : M Engine A :=
  zoom e_cms (λ c e, e <| e_cms := c |>) m.
Definition e_mem (e : Engine) : PacketMem := w_mem (cm_world (e_cms e)).
Definition on_e_mem (f : PacketMem → PacketMem) : M Engine unit :=
  on_cms (on_world (modify (λ w, w <| w_mem := f (w_mem w) |>))).

(** Borrow the connection [c] of the table for the handling of [p]. *)
Definition ctx_of (e : Engine) (c : ProxyConnection) (p : Pdu) : Ctx := {|
  x_world := cm_world (e_cms e); x_wheel := cm_wheel (e_cms e);
  x_counter_c := e_counter_c e; x_counter_s := e_counter_s e;
  x_alloc := e_alloc e; x_queue := e_queue e;
  x_con := c; x_pdu := p; x_group := 0; x_release := None;
|}.
Definition absorb (x : Ctx) (e : Engine) : Engine := {|
  e_cms := {| cm := cm (e_cms e); cm_world := x_world x; cm_wheel := x_wheel x |};
  e_counter_c := x_counter_c x; e_counter_s := x_counter_s x;
  e_alloc := x_alloc x; e_queue := x_queue x;
  e_ticks := e_ticks e; e_rx := e_rx e; e_tx := e_tx e; e_tx_open := e_tx_open e;
|}.
Definition with_con (pt : Z) (p : Pdu) (m : PX unit) : M Engine Ctx :=
  c ← on_cms (lookup_con pt);
  e ← gets id;
  '(_, x) ← lift (m (ctx_of e c p));
  modify (absorb x);;
  on_cms (store_con pt (x_con x));;
  mret x.

(** [tx.send(..).unwrap()] *)
Definition send (msg : MessageFrom) : M Engine unit :=
  e ← gets id;
  lift (if e_tx_open e then Ok tt else Panic UnwrapNone);;
  modify (λ e, e <| e_tx := e_tx e ++ [msg] |>).

Definition try_recv : M Engine (option MessageTo) :=
  e ← gets id;
  match e_rx e with
  | msg :: rest => modify (λ e, e <| e_rx := rest |>);; mret (Some msg)
  | [] => mret None
  end.

(** nftcp.rs 473-508: a tick of the generator *)
Definition timer_tick (fuel : nat) (cfg : Config) : M Engine (option unit) :=
  e ← gets id;
  t ← lift (arith 64 (e_ticks e + 1));
  modify (λ e, e <| e_ticks := t |>);;
  msg ← try_recv;
  match msg with
  | Some FetchCounter =>
      e ← gets id; send (Counter (pipeline_id cfg) (e_counter_c e) (e_counter_s e))
  | Some FetchCRecords =>
      r ← on_cms fetch_c_records; send (CRecords (pipeline_id cfg) r)
  | _ => mret tt
  end;;
  lift (if wheel_tick_reduction_factor cfg =? 0 then Panic DivByZero else Ok tt);;
  if t mod wheel_tick_reduction_factor cfg =? 0 then
    on_cms (now ← on_world rdtsc; release_timeouts fuel now)
  else mret (Some tt).

(** nftcp.rs 519-827: the packet is TCP; the packet, its group, and the port
    to release *)
Definition tcp_packet (cfg : Config) (p : Pdu) : M Engine (Pdu * Z * option Z) :=
  e ← gets id;
  let tcp := tcp_of (e_mem e) p in
  let src_sock := (ip_get IpSrc (ip_of (e_mem e) p), tcp_get SrcPort tcp) in
  if tcp_get DstPort tcp =? l234_port (me cfg) then
    opt_c ← (if tcp_flag SYN tcp then on_cms (get_mut_or_insert src_sock)
             else on_cms (m ← gets cm; lift (get_mut_by_sock src_sock m)));
    match opt_c with
    | None => mret (p, 0, None)
    | Some pt =>
        x ← with_con pt p (client_tcp cfg tcp);
        mret (x_pdu x, x_group x, x_release x)
    end
  else
    opt_c ← on_cms (m ← gets cm; lift (get_mut_by_port (tcp_get DstPort tcp) m));
    match opt_c with
    | None => mret (p, 2, None)
    | Some pt =>
        x ← with_con pt p (server_tcp cfg tcp);
        mret (x_pdu x, x_group x, x_release x)
    end.

(** nftcp.rs 425-449: the early returns on layer 2 and 3 *)
Definition l2_l3_filter (cfg : Config) (m : PacketMem) (p : Pdu) : option Z :=
  let mac_header := mac_of m p in
  let dst := mac_get MacDst mac_header in
  if private_etype (mac_etype mac_header) then None
  else if negb (bool_decide (dst = mac (me cfg))) && negb (is_multicast dst) && negb (is_broadcast dst)
  then Some 0
  else if negb (mac_etype mac_header =? 2048) then Some 2
  else
    let ip_header := ip_of m p in
    if negb (ip_protocol ip_header =? 6)
       || negb (ip_get IpDst ip_header =? pipeline_ip cfg)
          && negb (ip_get IpDst ip_header =? l234_ip (me cfg))
    then Some 2 else None.

(** nftcp.rs 457-460 *)
Definition port_filter (cfg : Config) (m : PacketMem) (p : Pdu) : bool :=
  negb (private_etype (mac_etype (mac_of m p)))
  && negb (tcp_get DstPort (tcp_of m p) =? l234_port (me cfg))
  && (tcp_get DstPort (tcp_of m p) <? tcp_min_port cfg).

(** The closure: the packet the [&mut Pdu] holds at the end, and its group. *)
Definition delayed_binding (fuel : nat) (cfg : Config) (p : Pdu) : M Engine (option (Pdu * Z)) :=
  e ← gets id;
  match l2_l3_filter cfg (e_mem e) p with
  | Some g => mret (Some (p, g))
  | None =>
      when (csum_offload cfg) (on_e_mem (set_tcp_ipv4_checksum_tx_offload p));;
      e ← gets id;
      if port_filter cfg (e_mem e) p then mret (Some (p, 2))
      else
        let ethertype := mac_etype (mac_of (e_mem e) p) in
        if ethertype =? PRIVATE_ETYPE_PACKET then mret (Some (p, 0))
        else if ethertype =? PRIVATE_ETYPE_TIMER then
          o ← timer_tick fuel cfg; mret ((λ _, (p, 0)) <$> o)
        else
          '(p', group_index, release_connection) ← tcp_packet cfg p;
          match release_connection with
          | Some sport => on_cms (release_port sport)
          | None => mret tt
          end;;
          mret (Some (p', group_index))
  end.
End handler.
