(* ===== verification/Setup.v ===== *)
(** * Setting up the pipelines (lib.rs, nftcp.rs 45-216 and 838-862, bin.rs 141-185)

    [setup_pipes_delayed_proxy] goes through the ports of a core and sets up a
    pipeline for each: [setup_delayed_proxy] builds what the closure of
    [Handler.v] captures, installs it with the tasks around it in the scheduler,
    and announces the tasks to the run time. [servers_of], [f_by_payload] and
    [f_round_robbin] are what the program [bin.rs] passes to it. *)
From Stdlib Require Import ZArith Lia.
From stdpp Require Import strings.
From S2P Require Import Prelude Crates Extension Connection CManager Messages Proxy Handler.
#[local] Open Scope string_scope.
#[local] Open Scope list_scope.
#[local] Open Scope Z_scope.
#[local] Set Warnings "-register-all".

Section setup.
Context `{TC : TcpCommon} `{PF : Profile} `{RC : !RecordCrate} `{HC : HeaderCrate}
  `{PC : !PacketCrate} `{CL : Clock} `{WC : WheelCrate} `{DC : !PortCrate}.

Definition TIMER_WHEEL_RESOLUTION_MS : Z := 10.
Definition TIMER_WHEEL_SLOTS : Z := 1002.
Definition TIMER_WHEEL_SLOT_CAPACITY : Z := 2500.

(** ** lib.rs: the configuration *)
(** [TargetConfig]; the interface's name is a string of bytes *)
Record TargetConfig : Type := mkTarget {
  tc_id : list Z;
  tc_ip : Z;
  tc_mac : option MacAddress;
  tc_linux_if : option (list Z);
  tc_port : Z;
}.

Inductive ProxyMode : Type := DelayedV0 | Delayed.
#[global] Instance ProxyMode_eq_dec : EqDecision ProxyMode.
Proof. solve_decision. Defined.

Record EngineConfig : Type := mkEngineConfig {
  ec_timeouts : option Timeouts;
  ec_port : Z;
  ec_detailed_records : option bool;
  ec_mode : option ProxyMode;
}.

Record Configuration : Type := mkConfiguration {
  targets : list TargetConfig;
  engine : EngineConfig;
  test_size : option Z;
}.

(** The fields of netfcts' [RunConfiguration] the code reads; whether the
    receiver of its [remote_sender] is alive *)
Record RunConfiguration : Type := mkRunConfiguration {
  flowdirector_map : gmap Z FlowDirector;
  engine_configuration : Configuration;
  system_cpu_clock : Z;
  remote_open : bool;
}.

(** ** What is installed in the scheduler

    The operators of e2d2 are not modelled: the code's calls to them are
    recorded. A [Stream] is an expression of calls, a queue pair the number it
    was created with. *)
Inductive Stream : Type :=
| ReceivePci (q : PortQueueTxBuffered)        (* ReceiveBatch::new(pci) *)
| ReceiveKni (q : PortQueue)                  (* ReceiveBatch::new(kni) *)
| Consumer (queue : nat)
| SetUrgent (s : Stream)
| MergeAuto (ss : list Stream)                (* merge_auto(.., LongestQueue) *)
| GetGroup (groups : Uuid) (i : Z)            (* l4groups.get_group(i).unwrap() *)
| DropAll (s : Stream).                       (* .drop() *)

Inductive TaskBody : Type :=
| SendPci (s : Stream) (q : PortQueueTxBuffered)   (* s.send(pci) *)
| SendKni (s : Stream) (q : PortQueue)             (* s.send(kni) *)
| GenerateTicks (queue : nat) (target : L234Data) (length : Z)
| KniHandleRequest (port : PmdPort) (last_tick : Z).

(** A closure that has been installed: what it captures, given the world it
    shares with the other pipelines of its thread *)
Record Closure : Type := mkClosure {
  cl_config : Config;
  cl_engine : World → Engine;
}.

Inductive SchedCall : Type :=
| AddRunnable (u : Uuid) (name : string) (t : TaskBody) (ready : bool)
| InstallTask (name : string) (t : TaskBody) (u : Uuid)
| GroupBy (n : Z) (f : Closure) (name : string) (s : Stream) (u : Uuid).

(** The world of the thread, the calls on its scheduler, the messages sent to
    the run time, and the numbers of the next uuid and queue pair *)
Record Install : Type := mkInstall {
  in_world : World;
  in_sched : list SchedCall;
  in_sent : list MessageFrom;
  in_uuids : nat;
  in_queues : nat;
}.
#[global] Instance eta_Install : Eta Install := λ r,
  mkInstall (in_world r) (in_sched r) (in_sent r) (in_uuids r) (in_queues r).

Definition on_in_world {A} (m : M World A) : M Install A :=
  zoom in_world (λ w i, i <| in_world := w |>) m.
Definition new_v4 : M Install Uuid :=
  i ← gets id;
  modify (λ i, i <| in_uuids := S (in_uuids i) |>);;
  mret (in_uuids i).
Definition new_mpsc_queue_pair : M Install nat :=
  i ← gets id;
  modify (λ i, i <| in_queues := S (in_queues i) |>);;
  mret (in_queues i).
Definition sched (c : SchedCall) : M Install unit :=
  modify (λ i, i <| in_sched := in_sched i ++ [c] |>).
Definition add_runnable (u : Uuid) (name : string) (t : TaskBody) (ready : bool) : M Install unit :=
  sched (AddRunnable u name t ready).
(** [tasks::install_task] returns the uuid it gave to the task. *)
Definition install_task (name : string) (t : TaskBody) : M Install Uuid :=
  u ← new_v4;
  sched (InstallTask name t u);;
  mret u.
(** [tx.send(..).unwrap()] *)
Definition tx_send (cfg : RunConfiguration) (msg : MessageFrom) : M Install unit :=
  lift (if remote_open cfg then Ok tt else Panic UnwrapNone);;
  modify (λ i, i <| in_sent := in_sent i ++ [msg] |>).

(** ** nftcp.rs 45-216 and 838-862: one pipeline *)

(** nftcp.rs 98-108 *)
Definition clamp_timeout (wheel : TimerWheel) (established : option Z) : option Z :=
  match established with
  | Some timeout =>
      if wheel_get_max_timeout_cycles wheel <? timeout
      then Some (wheel_get_max_timeout_cycles wheel) else established
  | None => established
  end.

(** nftcp.rs 91-96 *)
Definition new_wheel (cpu_clock : Z) : res TimerWheel :=
  prod ← arith 64 (cpu_clock * TIMER_WHEEL_RESOLUTION_MS);
  Ok (wheel_new TIMER_WHEEL_SLOTS (prod / 1000) TIMER_WHEEL_SLOT_CAPACITY).

(** [PduAllocator::new()] *)
Definition allocator_new : M Install (option (list Pdu)) :=
  i ← gets id;
  let '(pdu_batch, m) := new_pdu_array (w_mem (in_world i)) in
  on_in_world (modify (λ w, w <| w_mem := m |>));;
  mret pdu_batch.

(** nftcp.rs 838-862: the closure and the tasks that send its groups on *)
Definition install_outputs (run_configuration : RunConfiguration) (pci : PortQueueTxBuffered)
    (kni : PortQueue) (pipeline_id : PipelineId) (delayed_binding_closure : Closure)
    (l2_input_stream : Stream) (consumer : nat) (uuid_l4groupby : Uuid) : M Install unit :=
  let tx_send := tx_send run_configuration in
  sched (GroupBy 3 delayed_binding_closure "L4-Groups" l2_input_stream uuid_l4groupby);;
  let pipe2kni := SendKni (GetGroup uuid_l4groupby 2) kni in
  let l4pciflow := GetGroup uuid_l4groupby 1 in
  let l4dumpflow := DropAll (GetGroup uuid_l4groupby 0) in
  let pipe2pci := SendPci (MergeAuto [l4pciflow; l4dumpflow]) pci in
  uuid_pipe2kni ← install_task "Pipe2Kni" pipe2kni;
  tx_send (Task pipeline_id uuid_pipe2kni Pipe2Kni);;
  uuid_pipe2pci ← install_task "Pipe2Pci" pipe2pci;
  tx_send (Task pipeline_id uuid_pipe2pci Pipe2Pci);;
  uuid_consumer ← install_task "BypassPipe" (SendPci (Consumer consumer) pci);
  tx_send (Task pipeline_id uuid_consumer BypassPipe).

(** [shuffle_ports] and [tick_length], the length in cycles of a tick of the
    generator created with the given one, are of netfcts. *)
Definition setup_delayed_proxy (shuffle_ports : Z → Z → list Z) (tick_length : Z → Z) (core : Z)
    (pci : PortQueueTxBuffered) (kni : PortQueue) (run_configuration : RunConfiguration)
    (servers : list L234Data) (f_select_server : FnSelectServer)
    (f_process_payload_c_s : FnPayload) : M Install unit :=
  let q := port_queue pci in
  director ← lift (unwrap (flowdirector_map run_configuration !! port_id q));
  let l4flow_for_this_core := get_flow director (rxq q) in
  spec ← lift (unwrap (net_spec (port_of kni)));
  n ← lift (unwrap spec);
  let engine_config := engine (engine_configuration run_configuration) in
  let me := mkL234 (mac n) (l234_ip n) (ec_port engine_config) (server_id n) (l234_index n) in
  let cpu_clock := system_cpu_clock run_configuration in
  let pipeline_id := mkPipelineId (wrap 16 core) (wrap 16 (port_id q)) (rxq q) in
  let tx_send := tx_send run_configuration in
  let detailed_records := default false (ec_detailed_records engine_config) in
  cm ← on_in_world (cm_new shuffle_ports q l4flow_for_this_core.1 l4flow_for_this_core.2 detailed_records);
  let timeouts := default_or_some (ec_timeouts engine_config) in
  wheel ← lift (new_wheel cpu_clock);
  let timeouts_established := clamp_timeout wheel (established timeouts) in
  bypass ← new_mpsc_queue_pair;
  tx_send (Channel pipeline_id);;
  uuid ← new_v4;
  add_runnable uuid "Kni2Pci" (SendPci (ReceiveKni kni) pci) true;;
  pdu_batch ← allocator_new;
  timerticks ← new_mpsc_queue_pair;
  let length := tick_length (cpu_clock / 100) in
  assert_ (length <=? wheel_resolution wheel);;
  lift (if length =? 0 then Panic DivByZero else Ok tt);;
  uuid_tick_generator ← install_task "TickGenerator" (GenerateTicks timerticks me (cpu_clock / 100));
  tx_send (Task pipeline_id uuid_tick_generator TickGenerator);;
  let l2_input_stream := MergeAuto [SetUrgent (Consumer timerticks); ReceivePci pci] in
  uuid_l4groupby ← new_v4;
  let closure := {|
    cl_config := {|
      me := me; me_ip_s := l4flow_for_this_core.1; servers := servers;
      pipeline_ip := cm_ip cm; tcp_min_port := tcp_port_base cm;
      csum_offload := csum_offload_of (port_of q); timeouts_established := timeouts_established;
      cpu_clock := cpu_clock; wheel_tick_reduction_factor := wheel_resolution wheel / length;
      pipeline_id := pipeline_id; f_select_server := f_select_server;
      f_process_payload_c_s := f_process_payload_c_s |};
    cl_engine w := {|
      e_cms := mkCmState cm w wheel; e_counter_c := counter_new; e_counter_s := counter_new;
      e_alloc := pdu_batch; e_queue := []; e_ticks := 0; e_rx := []; e_tx := [];
      e_tx_open := true |} |} in
  install_outputs run_configuration pci kni pipeline_id closure l2_input_stream bypass uuid_l4groupby.

(** ** lib.rs 82-156: the pipelines of a core *)
Definition setup_port (shuffle_ports : Z → Z → list Z) (tick_length : Z → Z) (core : Z)
    (pmd_ports : gmap string PmdPort) (run_configuration : RunConfiguration)
    (servers : list L234Data) (f_select_server : FnSelectServer)
    (f_process_payload_c_s : FnPayload) (pmd_port : PmdPort) : M Install unit :=
  let kni_port := name ← kni_name pmd_port; pmd_ports !! name in
  let '(pci, kni) := new_port_queues_for_core core pmd_port kni_port in
  uuid ← new_v4;
  match pci, kni with
  | Some pci, Some kni =>
      when (is_native_kni (port_of kni) && (rxq (port_queue pci) =? 0))
        (add_runnable uuid "KniHandleRequest" (KniHandleRequest (port_of kni) 0) true);;
      setup_delayed_proxy shuffle_ports tick_length core pci kni run_configuration servers
        f_select_server f_process_payload_c_s
  | _, _ => mret tt
  end.

Fixpoint setup_ports (setup : PmdPort → M Install unit) (ports : list PmdPort) : M Install unit :=
  match ports with
  | [] => mret tt
  | pmd_port :: rest => setup pmd_port;; setup_ports setup rest
  end.
Definition setup_pipes_delayed_proxy (shuffle_ports : Z → Z → list Z) (tick_length : Z → Z)
    (core : Z) (pmd_ports : gmap string PmdPort) (run_configuration : RunConfiguration)
    (servers : list L234Data) (f_select_server : FnSelectServer)
    (f_process_payload_c_s : FnPayload) : M Install unit :=
  setup_ports (setup_port shuffle_ports tick_length core pmd_ports run_configuration servers
    f_select_server f_process_payload_c_s) (physical_ports_for_core core pmd_ports).

(** ** bin.rs *)

Definition server_of (get_mac_from_ifname : list Z → option MacAddress) (i : Z)
    (srv_cfg : TargetConfig) : res L234Data :=
  mac ← match tc_mac srv_cfg with
        | Some m => Ok m
        | None => name ← unwrap (tc_linux_if srv_cfg); unwrap (get_mac_from_ifname name)
        end;
  Ok (mkL234 mac (tc_ip srv_cfg) (tc_port srv_cfg) (tc_id srv_cfg) i).

(** [targets.iter().enumerate().map(..).collect()] *)
Fixpoint servers_from (get_mac_from_ifname : list Z → option MacAddress) (i : Z)
    (targets : list TargetConfig) : res (list L234Data) :=
  match targets with
  | [] => Ok []
  | t :: ts =>
      s ← server_of get_mac_from_ifname i t;
      l ← servers_from get_mac_from_ifname (i + 1) ts;
      Ok (s :: l)
  end.
Definition servers_of (get_mac_from_ifname : list Z → option MacAddress)
    (targets : list TargetConfig) : res (list L234Data) :=
  servers_from get_mac_from_ifname 0 targets.

(** The loop over the enumerated servers, with its [break] *)
Fixpoint select_loop (reply_socket : Z * Z) (i : Z) (l : list L234Data) (c : ProxyConnection) :
    ProxyConnection :=
  match l with
  | [] => c
  | l234 :: rest =>
      if (l234_port l234 =? reply_socket.2) && (l234_ip l234 =? reply_socket.1)
      then set_server_index (wrap 8 i) c
      else select_loop reply_socket (i + 1) rest c
  end.

(** [bincode::deserialize::<CData>] is a parameter: of the payload, the
    [reply_socket] if it can be read. *)
Definition f_by_payload (deserialize : list Z → option (Z * Z)) (l234data : list L234Data) :
    FnSelectServer := λ c,
  pp ← lift (unwrap (payload_packet c));
  w ← gets id;
  reply_socket ← lift (unwrap (deserialize (payload_of (w_mem w) pp)));
  mret (select_loop reply_socket 0 l234data c).

(** The closure's captured [last_server : u8] is its state. *)
Definition f_round_robbin (no_servers : Z) (c : ProxyConnection) : M Z ProxyConnection :=
  last_server ← gets id;
  n ← lift (arith 64 (no_servers - 1));
  next ← lift (if last_server <? n then arith 8 (last_server + 1) else Ok 0);
  modify (λ _, next);;
  mret (set_server_index next c).

Definition main_process_payload_c_s : FnPayload := λ _c _payload _tailroom,
  mret (_c, _payload).
End setup.
