(* ===== verification/ManagerInv.v ===== *)
(** * The connection manager: invariant, operations, conservation of ports

    [cm_inv] ties the three structures of the manager together: a port is free
    or carries an in-use connection, never both; a socket is mapped to the port
    of the one in-use connection that has it. *)
From Stdlib Require Import ZArith Lia ssreflect.
From S2P Require Import Prelude Crates Sample Extension Connection CManager.
#[local] Open Scope general_if_scope.

Section manager.
Context `{TC : TcpCommon} `{PF : Profile} `{RC : !RecordCrate} `{HC : HeaderCrate}
  `{PC : !PacketCrate} `{CL : Clock} `{WC : WheelCrate}.

Implicit Types (m : ConnectionManager) (c : ProxyConnection) (s : Z * Z) (p : Z).

(** ** The table seen by port *)

Definition con_at m p : option ProxyConnection :=
  if tcp_port_base m <=? p then port2con m !! Z.to_nat (p - tcp_port_base m) else None.
Definition set_con p c m : ConnectionManager :=
  m <| port2con := <[Z.to_nat (p - tcp_port_base m) := c]> (port2con m) |>.
Definition sock_of c : Z * Z := (client_ip c, client_port c).

(** The ports of the manager are [base .. base + 2^k - 1], [base] being a
    multiple of [2^k] and the mask its complement. *)
Record range_ok m : Prop := {
  range_mask : ∃ k, 0 ≤ k ≤ 16 ∧ tcp_dst_port_mask (pci m) = 65536 - 2 ^ k ∧
    tcp_port_base m mod 2 ^ k = 0 ∧ Z.of_nat (length (port2con m)) = 2 ^ k;
  range_base : 0 ≤ tcp_port_base m < 65536;
}.

Record cm_inv m : Prop := {
  inv_range : range_ok m;
  inv_free_nodup : NoDup (free_ports m);
  inv_free p : p ∈ free_ports m → p ≠ 0 ∧ ∃ c, con_at m p = Some c ∧ in_use c = false;
  inv_used p c : con_at m p = Some c → in_use c = true →
    proxy_port c = p ∧ client_ip c ≠ 0 ∧ sock2port m !! sock_of c = Some p;
  inv_map s p : sock2port m !! s = Some p →
    ∃ c, con_at m p = Some c ∧ in_use c = true ∧ sock_of c = s;
  inv_part p c : con_at m p = Some c → p ≠ 0 → in_use c = false → p ∈ free_ports m;
}.

(** No connection of the manager has a detailed record. *)
Definition no_details m : Prop :=
  detailed_records m = false ∧ ∀ p c, con_at m p = Some c → detailed_c c = None.

(** *** Access by port *)

Lemma aligned_bound base k :
  0 ≤ k ≤ 16 → 0 ≤ base < 65536 → base mod 2 ^ k = 0 → base + 2 ^ k ≤ 65536.
Proof.
  intros Hk Hr Hb. assert (0 < 2 ^ k) by lia.
  assert (65536 = 2 ^ k * 2 ^ (16 - k)) as Hp by
    (rw -Z.pow_add_r; [lia..|]; by replace (k + (16 - k)) with 16 by lia).
  pose proof (Z.div_mod base (2 ^ k) ltac:(lia)) as Hd. rw Hb in Hd.
  set (A := 2 ^ k) in *. set (B := 2 ^ (16 - k)) in *. set (d := base / A) in *.
  assert (d < B) by nia. nia.
Qed.

Lemma range_bound m : range_ok m → tcp_port_base m + Z.of_nat (length (port2con m)) ≤ 65536.
Proof. intros [(k & Hk & _ & Hb & ->) Hr]. by apply aligned_bound. Qed.

Lemma con_at_valid m p c :
  con_at m p = Some c →
  tcp_port_base m ≤ p < tcp_port_base m + Z.of_nat (length (port2con m)).
Proof.
  rw /con_at. destruct (Z.leb_spec (tcp_port_base m) p); [|done].
  intros ?%lookup_lt_Some. lia.
Qed.

Lemma con_at_Some m p :
  tcp_port_base m ≤ p < tcp_port_base m + Z.of_nat (length (port2con m)) →
  ∃ c, con_at m p = Some c.
Proof.
  intros. rw /con_at. destruct (Z.leb_spec (tcp_port_base m) p); [|lia].
  destruct (lookup_lt_is_Some_2 (port2con m) (Z.to_nat (p - tcp_port_base m))) as [c Hc];
    [lia|by exists c].
Qed.

Lemma con_at_set_eq m p c c0 : con_at m p = Some c0 → con_at (set_con p c m) p = Some c.
Proof.
  rw /con_at /set_con /=. destruct (Z.leb_spec (tcp_port_base m) p); [|done].
  intros. apply list_lookup_insert_eq. eauto using lookup_lt_Some.
Qed.

Lemma con_at_set_ne m p q c : tcp_port_base m ≤ p → p ≠ q → con_at (set_con p c m) q = con_at m q.
Proof.
  intros. rw /con_at /set_con /=. destruct (Z.leb_spec (tcp_port_base m) q); [|done].
  apply list_lookup_insert_ne. lia.
Qed.

Lemma con_at_set m p q c c0 :
  con_at m p = Some c0 →
  con_at (set_con p c m) q = if decide (p = q) then Some c else con_at m q.
Proof.
  intros H. destruct (decide (p = q)) as [<-|].
  - eauto using con_at_set_eq.
  - apply con_at_set_ne; [|done]. apply con_at_valid in H. lia.
Qed.

Lemma get_mut_con_eq m p c : range_ok m → con_at m p = Some c → get_mut_con p m = Ok c.
Proof.
  intros Hr Hc. pose proof (con_at_valid _ _ _ Hc). pose proof (range_bound _ Hr).
  destruct Hr as [_ Hb]. rw /get_mut_con /slot arith_ok; [lia|]. cbn.
  apply index_Some. split; [lia|]. move: Hc. rw /con_at. by destruct (Z.leb_spec (tcp_port_base m) p).
Qed.

Lemma put_con_eq m p c c0 : range_ok m → con_at m p = Some c0 → put_con p c m = Ok (set_con p c m).
Proof.
  intros Hr Hc. pose proof (con_at_valid _ _ _ Hc). pose proof (range_bound _ Hr).
  destruct Hr as [_ Hb]. rw /put_con /slot arith_ok; [lia|]. cbn.
  by rw index_set_ok; [lia|].
Qed.

Lemma set_con_range m p c : range_ok m → range_ok (set_con p c m).
Proof. intros [Hm Hb]. split; [|done]. cbn. by rw length_insert. Qed.

Lemma range_free m l : range_ok m → range_ok (m <| free_ports := l |>).
Proof. by intros [? ?]; split. Qed.

Lemma range_map m t : range_ok m → range_ok (m <| sock2port := t |>).
Proof. by intros [? ?]; split. Qed.

Lemma wp_lookup_con E p c (Q : ProxyConnection → CmState → Prop) (s : CmState) :
  range_ok (cm s) → con_at (cm s) p = Some c → Q c s → wp (lookup_con p) E Q s.
Proof. intros Hr Hc HQ. rw /wp /lookup_con /mbind /M_bind /=. by rw (get_mut_con_eq _ _ _ Hr Hc). Qed.

Lemma wp_store_con E p c c0 (Q : unit → CmState → Prop) (s : CmState) :
  range_ok (cm s) → con_at (cm s) p = Some c0 →
  Q tt (s <| cm := set_con p c (cm s) |>) → wp (store_con p c) E Q s.
Proof. intros Hr Hc HQ. rw /wp /store_con /mbind /M_bind /=. by rw (put_con_eq _ _ _ _ Hr Hc). Qed.

(** ** The three ways the manager changes *)

(** A connection stays in use, under its port and socket. *)
Lemma inv_touch m p c0 c :
  cm_inv m → con_at m p = Some c0 → in_use c = in_use c0 →
  (in_use c0 = true → proxy_port c = proxy_port c0 ∧ sock_of c = sock_of c0) →
  cm_inv (set_con p c m).
Proof.
  intros [Hr Hn Hf Hu Hm Hp] Hc Huse Hsame.
  pose proof (λ q, con_at_set m p q c c0 Hc) as Hset.
  split.
  - by apply set_con_range.
  - done.
  - intros q Hq. destruct (Hf q Hq) as (? & cq & Hcq & Huq). split; [done|].
    rw Hset. destruct (decide (p = q)) as [<-|]; [|by exists cq].
    exists c. simplify_eq. by rw Huse.
  - intros q cq. rw Hset. destruct (decide (p = q)) as [<-|]; [|apply Hu].
    intros [= <-] Hin. rw Huse in Hin. destruct (Hsame Hin) as [-> Hsk].
    destruct (Hu p c0 Hc Hin) as (? & ? & ?). rw Hsk.
    split_and!; [done| |done]. by injection Hsk as -> _.
  - intros s q Hs. destruct (Hm s q Hs) as (cq & Hcq & Huq & Hsq). rw Hset.
    destruct (decide (p = q)) as [<-|]; [|by exists cq].
    exists c. simplify_eq. split_and!; [done|by rw Huse|]. by destruct (Hsame Huq).
  - intros q cq. rw Hset. destruct (decide (p = q)) as [<-|]; [|apply Hp].
    intros [= <-] ?. rw Huse. by apply Hp.
Qed.

(** The port at the head of the free queue is given to a new socket. *)
Lemma inv_alloc m p rest c0 c s :
  cm_inv m → free_ports m = p :: rest → con_at m p = Some c0 →
  sock2port m !! s = None → s.1 ≠ 0 →
  proxy_port c = p → sock_of c = s →
  cm_inv ((set_con p c (m <| free_ports := rest |>)) <| sock2port := <[s := p]> (sock2port m) |>).
Proof.
  intros [Hr Hn Hf Hu Hm Hp] Hfree Hc Hs Hs0 Hport Hsock.
  pose proof (λ q, con_at_set m p q c c0 Hc) as Hset.
  destruct (Hf p) as (Hp0 & c0' & Hc' & Huse); [rw Hfree; left|]. simplify_eq.
  rw Hfree in Hn. apply NoDup_cons in Hn as [Hnin Hn].
  set (p := proxy_port c) in *.
  assert (in_use c = true) as Hin by (rw /in_use -/p; lia).
  set (m' := _ <| sock2port := _ |>).
  assert (∀ q, con_at m' q = if decide (p = q) then Some c else con_at m q) as Hat by exact Hset.
  split.
  - by destruct Hr as [Hm' Hb]; split; [cbn; rw length_insert|].
  - done.
  - intros q Hq. change (q ∈ rest) in Hq. rw Hat. destruct (decide (p = q)) as [<-|]; [done|].
    apply Hf. rw Hfree. by right.
  - intros q cq. rw Hat. destruct (decide (p = q)) as [<-|Hne].
    + intros [= <-] _. split; [done|]. split; [done|]. apply lookup_insert_eq.
    + intros Hcq Huq. destruct (Hu q cq Hcq Huq) as (? & ? & Hsq). split_and!; [done..|].
      cbn. rw lookup_insert_ne; [|done]. intros Heq. by rw Heq Hsq in Hs.
  - intros s' q. cbn. rw lookup_insert. rw Hat. destruct (decide (sock_of c = s')) as [<-|].
    + intros [= <-]. exists c. by rw decide_True.
    + intros Hq. destruct (Hm s' q Hq) as (cq & Hcq & Huq & Hsq).
      destruct (decide (p = q)) as [<-|]; [|by exists cq]. simplify_eq. by rw Huq in Huse.
  - intros q cq. rw Hat. destruct (decide (p = q)) as [<-|].
    + intros [= <-] _. by rw Hin.
    + intros Hcq Hq0 Huq. specialize (Hp q cq Hcq Hq0 Huq). rw Hfree in Hp.
      by apply elem_of_cons in Hp as [-> |].
Qed.

(** The port of an in-use connection is put at the end of the free queue. *)
Lemma inv_dealloc m p c0 c :
  cm_inv m → con_at m p = Some c0 → in_use c0 = true → in_use c = false →
  cm_inv ((set_con p c (m <| free_ports := free_ports m ++ [p] |>))
            <| sock2port := delete (sock_of c0) (sock2port m) |>).
Proof.
  intros [Hr Hn Hf Hu Hm Hp] Hc Hin Hout.
  pose proof (λ q, con_at_set m p q c c0 Hc) as Hset.
  destruct (Hu p c0 Hc Hin) as (Hport & Hip & Hsp).
  set (m' := _ <| sock2port := _ |>).
  assert (∀ q, con_at m' q = if decide (p = q) then Some c else con_at m q) as Hat by exact Hset.
  assert (p ≠ 0) as Hp0 by (rw -Hport; move: Hin; rw /in_use; lia).
  split.
  - by destruct Hr as [Hm' Hb]; split; [cbn; rw length_insert|].
  - cbn. apply NoDup_app. split_and!; [done| |apply NoDup_singleton].
    intros q Hq ->%list_elem_of_singleton. destruct (Hf p Hq) as (_ & c' & Hc' & Hu').
    by simplify_eq; rw Hin in Hu'.
  - intros q [Hq|<-%list_elem_of_singleton]%elem_of_app; rw Hat.
    + destruct (Hf q Hq) as (? & cq & Hcq & Huq). split; [done|].
      destruct (decide (p = q)) as [<-|]; [by exists c|by exists cq].
    + split; [done|]. exists c. by rw decide_True.
  - intros q cq. rw Hat. destruct (decide (p = q)) as [<-|Hne]; [by intros [= <-]; rw Hout|].
    intros Hcq Huq. destruct (Hu q cq Hcq Huq) as (? & ? & Hsq). split_and!; [done..|].
    cbn. rw lookup_delete_ne; [|done]. intros Heq. rw -Heq Hsp in Hsq. by injection Hsq.
  - intros s' q. cbn. rw lookup_delete. destruct (decide (sock_of c0 = s')) as [|Hne]; [done|].
    intros Hq. destruct (Hm s' q Hq) as (cq & Hcq & Huq & Hsq). rw Hat.
    destruct (decide (p = q)) as [<-|]; [|by exists cq]. by simplify_eq.
  - intros q cq. rw Hat. cbn. rw elem_of_app list_elem_of_singleton.
    destruct (decide (p = q)) as [<-|]; [by right|]. intros. left. eauto.
Qed.
(** The manager [new] builds *)
Lemma cm_new_eq shuffle q ip base detailed w k :
  0 ≤ k ≤ 16 → 0 ≤ base < 65536 → base mod 2 ^ k = 0 → 0 < base + 2 ^ k - 1 →
  tcp_dst_port_mask q = 65536 - 2 ^ k →
  cm_new shuffle q ip base detailed w = Ok (
    {| record_store := w_next_store w; sock2port := ∅;
       free_ports := shuffle (if base =? 0 then 1 else base) (base + 2 ^ k - 2) ++ [base + 2 ^ k - 1];
       port2con := replicate (Z.to_nat (2 ^ k)) pc_new; pci := q; tcp_port_base := base;
       cm_ip := ip; detailed_records := detailed |},
    w <| w_stores := <[w_next_store w := store_with_capacity MAX_RECORDS]> (w_stores w) |>
      <| w_next_store := S (w_next_store w) |>).
Proof.
  intros Hk Hb Hmod Hpos Hmask.
  assert (0 < 2 ^ k) by lia.
  assert (2 ^ k ≤ 2 ^ 16) by (apply Z.pow_le_mono_r; lia).
  assert (not16 (65536 - 2 ^ k) = 2 ^ k - 1) as Hnot by (rw not16_sub; lia).
  pose proof (aligned_bound base k Hk Hb Hmod).
  rw /cm_new /mbind /M_bind /lift /= Hmask Hnot.
  rw (arith_ok 16 (base + (2 ^ k - 1))); [lia|]. cbn.
  rw (arith_ok 16); [lia|]. cbn.
  replace (base + (2 ^ k - 1) - 1) with (base + 2 ^ k - 2) by lia.
  replace (2 ^ k - 1 + 1) with (2 ^ k) by lia.
  by replace (base + (2 ^ k - 1)) with (base + 2 ^ k - 1) by lia.
Qed.

Lemma cm_new_inv_of st q ip base detailed l k :
  0 ≤ k ≤ 16 → 0 ≤ base < 65536 → base mod 2 ^ k = 0 → 0 < base + 2 ^ k - 1 →
  tcp_dst_port_mask q = 65536 - 2 ^ k →
  l ≡ₚ seqZ (if base =? 0 then 1 else base) (base + 2 ^ k - 1 - (if base =? 0 then 1 else base)) →
  cm_inv {| record_store := st; sock2port := ∅; free_ports := l ++ [base + 2 ^ k - 1];
    port2con := replicate (Z.to_nat (2 ^ k)) pc_new; pci := q; tcp_port_base := base;
    cm_ip := ip; detailed_records := detailed |}.
Proof.
  intros Hk Hb Hmod Hpos Hmask Hl. set (m := {| record_store := st |}).
  set (lo := if base =? 0 then 1 else base) in *.
  assert (0 < lo ∧ base ≤ lo ∧ lo ≤ base + 1 ∧ (lo = base ∨ base = 0)) as Hlo.
  { unfold lo. destruct (Z.eqb_spec base 0); lia. }
  assert (0 < 2 ^ k) by lia.
  assert (∀ p, p ∈ free_ports m ↔ p ≠ 0 ∧ base ≤ p < base + 2 ^ k) as Hfree.
  { intros p. cbn. rw elem_of_app list_elem_of_singleton Hl elem_of_seqZ. lia. }
  assert (∀ p c, con_at m p = Some c → c = pc_new) as Hnew.
  { intros p c. rw /con_at /=. destruct (base <=? p); [|done]. by intros [-> _]%lookup_replicate. }
  assert (range_ok m) as Hr.
  { split; [|done]. exists k. cbn. rw length_replicate Z2Nat.id; [lia|done]. }
  split.
  - done.
  - cbn. apply NoDup_app. split_and!; [rw Hl; apply NoDup_seqZ| |apply NoDup_singleton].
    intros p Hp ->%list_elem_of_singleton. rw Hl elem_of_seqZ in Hp. lia.
  - intros p [Hp0 Hp]%Hfree. split; [done|].
    destruct (con_at_Some m p) as [c Hc]; [cbn; rw length_replicate; lia|].
    exists c. split; [done|]. by rw (Hnew _ _ Hc).
  - intros p c Hc Hin. by rw (Hnew _ _ Hc) in Hin.
  - done.
  - intros p c Hc Hp0 _. apply Hfree. apply con_at_valid in Hc. move: Hc. cbn.
    rw length_replicate. lia.
Qed.
End manager.
