(* ===== verification/NatTable.v ===== *)
(** * Specification of the connection manager: a NAT table

    What the pipeline needs from the manager: a partial bijection between
    client sockets and proxy ports, with a queue of free ports. [abs] reads the
    table off a manager; [Manager.v] proves that the operations of the manager
    implement those of the table. *)
From Stdlib Require Import ZArith Lia ssreflect.
From S2P Require Import Prelude Crates Extension Connection CManager ManagerInv.
#[local] Open Scope general_if_scope.

Record nat_table : Type := mkNat {
  nt_map : gmap (Z * Z) Z;
  nt_free : list Z;
}.

(** The port of [s], allocated if needed and possible *)
Definition nt_alloc (s : Z * Z) (t : nat_table) : option Z * nat_table :=
  match nt_map t !! s with
  | Some p => (Some p, t)
  | None =>
      match nt_free t with
      | p :: rest => (Some p, mkNat (<[s := p]> (nt_map t)) rest)
      | [] => (None, t)
      end
  end.

Definition nt_owner (p : Z) (t : nat_table) : option (Z * Z) :=
  fst <$> head (filter (λ kv, kv.2 = p) (map_to_list (nt_map t))).

Definition nt_release (p : Z) (t : nat_table) : nat_table :=
  match nt_owner p t with
  | Some s => mkNat (delete s (nt_map t)) (nt_free t ++ [p])
  | None => t
  end.

Record nt_wf (t : nat_table) : Prop := {
  nt_inj s1 s2 p : nt_map t !! s1 = Some p → nt_map t !! s2 = Some p → s1 = s2;
  nt_nodup : NoDup (nt_free t);
  nt_disj s p : nt_map t !! s = Some p → p ∉ nt_free t;
}.

Lemma nt_owner_elem t s p :
  (s, p) ∈ filter (λ kv, kv.2 = p) (map_to_list (nt_map t)) ↔ nt_map t !! s = Some p.
Proof. rw list_elem_of_filter elem_of_map_to_list. by split; [intros []|]. Qed.

Lemma nt_owner_inv t s p : nt_owner p t = Some s → nt_map t !! s = Some p.
Proof.
  rw /nt_owner. destruct (filter _ _) as [|[s' p'] l] eqn:Hf; [done|]. cbn. intros [= ->].
  assert ((s, p') ∈ filter (λ kv, kv.2 = p) (map_to_list (nt_map t))) as Hin by (rw Hf; left).
  pose proof Hin as [Hp _]%list_elem_of_filter. cbn in Hp. subst p'. by apply nt_owner_elem.
Qed.

Lemma nt_owner_None t p : (∀ s, nt_map t !! s ≠ Some p) → nt_owner p t = None.
Proof.
  intros H. destruct (nt_owner p t) as [s|] eqn:Ho; [|done].
  by apply nt_owner_inv, H in Ho.
Qed.

Lemma nt_owner_Some t s p : nt_wf t → nt_map t !! s = Some p → nt_owner p t = Some s.
Proof.
  intros [Hinj _ _] Hs. destruct (nt_owner p t) as [s'|] eqn:Ho.
  - f_equal. apply nt_owner_inv in Ho. eauto.
  - move: Ho. rw /nt_owner. destruct (filter _ _) eqn:Hf; [|done].
    apply nt_owner_elem in Hs. rw Hf in Hs. by apply elem_of_nil in Hs.
Qed.

(** A table operation keeps the bijection; a released port can be had again. *)
Lemma nt_alloc_wf s t : nt_wf t → nt_wf (nt_alloc s t).2.
Proof.
  intros [Hi Hn Hd]. rw /nt_alloc.
  destruct (nt_map t !! s) as [p|] eqn:Hs; [done|].
  destruct (nt_free t) as [|p rest] eqn:Hf; [by split; rw ?Hf|].
  apply NoDup_cons in Hn as [Hnin Hn].
  assert (∀ s' , nt_map t !! s' ≠ Some p) as Hp by (intros s' H; destruct (Hd s' p H); left).
  split; cbn.
  - intros s1 s2 q. rw !lookup_insert.
    destruct (decide (s = s1)) as [<-|], (decide (s = s2)) as [<-|]; [done| | |apply Hi].
    + intros [= <-] Hq. by destruct (Hp s2).
    + intros Hq [= <-]. by destruct (Hp s1).
  - done.
  - intros s' q. rw lookup_insert. destruct (decide (s = s')) as [<-|]; [by intros [= <-]|].
    intros Hq Hin. destruct (Hd s' q Hq). by right.
Qed.

Lemma nt_release_wf p t : nt_wf t → nt_wf (nt_release p t).
Proof.
  intros Hw. rw /nt_release. destruct (nt_owner p t) as [s|] eqn:Ho; [|done].
  apply nt_owner_inv in Ho as Hs.
  destruct Hw as [Hi Hn Hd]. split; cbn.
  - intros s1 s2 q. rw !lookup_delete.
    destruct (decide (s = s1)), (decide (s = s2)); [done..|]. apply Hi.
  - apply NoDup_app. split_and!; [done| |apply NoDup_singleton].
    intros q Hq ->%list_elem_of_singleton. by destruct (Hd s p Hs).
  - intros s' q. rw lookup_delete. destruct (decide (s = s')) as [|Hne]; [done|].
    intros Hq [Hin | ->%list_elem_of_singleton]%elem_of_app; [by destruct (Hd s' q Hq)|].
    by apply Hne, (Hi s s' p).
Qed.

Section abstraction.
Context `{TC : TcpCommon} `{PF : Profile} `{RC : !RecordCrate} `{HC : HeaderCrate}
  `{PC : !PacketCrate} `{CL : Clock} `{WC : WheelCrate}.

Definition abs (m : ConnectionManager) : nat_table := mkNat (sock2port m) (free_ports m).

Lemma abs_wf m : cm_inv m → nt_wf (abs m).
Proof.
  intros [_ Hn Hf Hu Hm _]. split; cbn; [|done|].
  - intros s1 s2 p (c1 & Hc1 & _ & <-)%Hm (c2 & Hc2 & _ & <-)%Hm. by simplify_eq.
  - intros s p (c & Hc & Huse & _)%Hm Hin. destruct (Hf p Hin) as (_ & c' & Hc' & Hu').
    simplify_eq. by rw Huse in Hu'.
Qed.

Lemma abs_owner m p c :
  cm_inv m → con_at m p = Some c → in_use c = true → nt_owner p (abs m) = Some (sock_of c).
Proof. intros Hi Hc Hin. apply nt_owner_Some; [by apply abs_wf|]. by apply (inv_used _ Hi p c). Qed.

Lemma abs_no_owner m p c :
  cm_inv m → con_at m p = Some c → in_use c = false → nt_owner p (abs m) = None.
Proof.
  intros Hi Hc Hin. apply nt_owner_None. intros s Hs.
  destruct (inv_map _ Hi s p Hs) as (c' & Hc' & Hu & _). simplify_eq. by rw Hin in Hu.
Qed.
End abstraction.
