(* ===== verification/Manager.v ===== *)
(** * The connection manager implements the NAT table

    Functional behaviour of every operation of [ConnectionManager], the
    preservation of [cm_inv], and the refinement of [NatTable.v]. *)
From Stdlib Require Import ZArith Lia ssreflect.
From S2P Require Import Prelude Crates Sample Extension Connection CManager ManagerInv.
From S2P Require Import NatTable.
#[local] Open Scope general_if_scope.

Section manager_ops.
Context `{TC : TcpCommon} `{PF : Profile} `{RC : !RecordCrate} `{HC : HeaderCrate}
  `{PC : !PacketCrate} `{CL : Clock} `{WC : WheelCrate}.

Implicit Types (m : ConnectionManager) (c : ProxyConnection) (s : Z * Z) (p : Z) (st : CmState).

(** No detailed records, or every panic tolerated *)
Definition quiet_cm (E : panic → Prop) m : Prop := no_details m ∨ ∀ e, E e.

Lemma quiet_con E m p c : quiet_cm E m → con_at m p = Some c → quiet E c.
Proof. intros [[_ Hd]|HE] Hc; [left; eauto|by right]. Qed.

Lemma no_details_set m p c c0 :
  no_details m → con_at m p = Some c0 → detailed_c c = None → no_details (set_con p c m).
Proof.
  intros [Hr Hd] Hc Hn. split; [done|]. intros q cq. rw (con_at_set _ _ _ _ _ Hc).
  destruct (decide (p = q)); [by intros [= <-]|apply Hd].
Qed.

Lemma no_details_release c : detailed_c c = None → detailed_c (pc_release c) = None.
Proof. intros H. by rw pc_release_none. Qed.

(** The manager after each change *)
Definition allocated p rest c s m : ConnectionManager :=
  (set_con p c (m <| free_ports := rest |>)) <| sock2port := <[s := p]> (sock2port m) |>.
Definition deallocated p c0 c m : ConnectionManager :=
  (set_con p c (m <| free_ports := free_ports m ++ [p] |>))
    <| sock2port := delete (sock_of c0) (sock2port m) |>.

Lemma wp_get_mut_or_insert E s st (Q : option Z → CmState → Prop) :
  cm_inv (cm st) → quiet_cm E (cm st) →
  (∀ p, sock2port (cm st) !! s = Some p → Q (Some p) st) →
  (sock2port (cm st) !! s = None → free_ports (cm st) = [] → Q None st) →
  (∀ p rest c0 d w',
    sock2port (cm st) !! s = None → free_ports (cm st) = p :: rest →
    con_at (cm st) p = Some c0 → w_mem w' = w_mem (cm_world st) →
    (detailed_c c0 = None → detailed_records (cm st) = false → d = None) →
    Q (Some p) {| cm := allocated p rest ((pc_initialize s p c0) <| detailed_c := d |>) s (cm st);
                  cm_world := w'; cm_wheel := cm_wheel st |}) →
  wp (get_mut_or_insert s) E Q st.
Proof.
  intros Hi Hq Hold Hnone Hnew. rw /get_mut_or_insert. apply wp_bind, wp_gets.
  pose proof (inv_range _ Hi) as Hr.
  destruct (sock2port (cm st) !! s) as [p|] eqn:Hs.
  { destruct (inv_map _ Hi s p Hs) as (c & Hc & Hu & _).
    apply wp_bind, (wp_lookup_con _ _ c); [done..|].
    apply wp_bind, wp_assert; [|by rw Hu]. intros _. by apply wp_ret, Hold. }
  destruct (free_ports (cm st)) as [|p rest] eqn:Hf; [by apply wp_ret, Hnone|].
  destruct (inv_free _ Hi p) as (Hp0 & c0 & Hc & Hu); [rw Hf; left|].
  apply wp_bind, wp_modify, wp_bind, (wp_lookup_con _ _ c0); [by apply range_free|exact Hc|].
  apply wp_bind, wp_assert; [|by rw Hu]. intros _. apply wp_bind.
  assert (∀ c' w',
    Q (Some p) {| cm := allocated p rest c' s (cm st); cm_world := w'; cm_wheel := cm_wheel st |} →
    wp (store_con p c';; on_cm (λ m, m <| sock2port := <[s := p]> (sock2port m) |>);; mret (Some p))
      E Q {| cm := (cm st) <| free_ports := rest |>; cm_world := w'; cm_wheel := cm_wheel st |}) as Hstore.
  { intros c' w' H. apply wp_bind, (wp_store_con _ _ _ c0); [by apply range_free|exact Hc|].
    apply wp_bind, wp_modify, wp_ret. exact H. }
  destruct (detailed_records (cm st)) eqn:Hd.
  - destruct Hq as [[Hq _]|HE]; [by rw Hq in Hd|].
    apply wp_zoom, wp_pc_initialize_with_details; [done|]. intros d w' Hw.
    by apply Hstore, Hnew.
  - apply wp_ret, Hstore.
    assert (pc_initialize s p c0 = (pc_initialize s p c0) <| detailed_c := detailed_c c0 |>) as -> by done.
    by apply Hnew.
Qed.

(** A socket mapped to a connection that is not in use: [assert!(cc.in_use())] *)
Lemma wp_get_mut_or_insert_stale E s p c st (Q : option Z → CmState → Prop) :
  range_ok (cm st) → sock2port (cm st) !! s = Some p → con_at (cm st) p = Some c →
  in_use c = false → E AssertFailed → wp (get_mut_or_insert s) E Q st.
Proof.
  intros Hr Hs Hc Hu HE. apply wp_bind, wp_gets. rw Hs.
  apply wp_bind, (wp_lookup_con _ _ c); [done..|]. apply wp_bind, wp_assert; [by rw Hu|done].
Qed.

Lemma allocated_inv p rest c0 d s m :
  cm_inv m → free_ports m = p :: rest → con_at m p = Some c0 →
  sock2port m !! s = None → s.1 ≠ 0 →
  cm_inv (allocated p rest ((pc_initialize s p c0) <| detailed_c := d |>) s m).
Proof. intros. eapply inv_alloc; [done..|]. by destruct s. Qed.

Lemma allocated_abs p rest c s m :
  sock2port m !! s = None → free_ports m = p :: rest →
  abs (allocated p rest c s m) = (nt_alloc s (abs m)).2 ∧ (nt_alloc s (abs m)).1 = Some p.
Proof. intros Hs Hf. by rw /nt_alloc /abs /= Hs Hf. Qed.

Lemma wp_replace_in_wheel E idx v (Q : option Z → CmState → Prop) st :
  Q (wheel_replace idx v (cm_wheel st)).1
    (st <| cm_wheel := (wheel_replace idx v (cm_wheel st)).2 |>) →
  wp (replace_in_wheel idx v) E Q st.
Proof. done. Qed.

(** Releasing a port that is in use: the wheel entry of the connection, if it
    has one, must be its own, or else the assertion fails. *)
Lemma wp_release_port_used E p c st (Q : unit → CmState → Prop) :
  cm_inv (cm st) → con_at (cm st) p = Some c → in_use c = true →
  (∀ o, (wheel_replace (wheel_slot_and_index c) 0 (cm_wheel st)).1 = Some o → o = p ∨ E AssertFailed) →
  Q tt {| cm := deallocated p c (pc_release c) (cm st); cm_world := cm_world st;
          cm_wheel := (wheel_replace (wheel_slot_and_index c) 0 (cm_wheel st)).2 |} →
  wp (release_port p) E Q st.
Proof.
  intros Hi Hc Hin Hw HQ. pose proof (inv_range _ Hi) as Hr.
  destruct (inv_used _ Hi p c Hc Hin) as (Hp & Hip & Hs).
  apply wp_bind, (wp_lookup_con _ _ c); [done..|].
  rw Hin. cbn [when]. apply wp_bind, wp_modify, wp_bind.
  apply wp_assert; [|by rw /port Hp Z.eqb_refl]. intros _.
  apply wp_bind, wp_replace_in_wheel, wp_bind.
  assert (∀ Q', Q' tt (st <| cm := (cm st) <| free_ports := free_ports (cm st) ++ [p] |> |>
      <| cm_wheel := (wheel_replace (wheel_slot_and_index c) 0 (cm_wheel st)).2 |>) →
    wp (match (wheel_replace (wheel_slot_and_index c) 0 (cm_wheel st)).1 with
        | Some o => assert_ (o =? p) | None => mret tt end) E Q'
      (st <| cm := (cm st) <| free_ports := free_ports (cm st) ++ [p] |> |>
      <| cm_wheel := (wheel_replace (wheel_slot_and_index c) 0 (cm_wheel st)).2 |>)) as Hold.
  { intros Q' HQ'. destruct (wheel_replace _ _ _).1 as [o|]; [|done].
    apply wp_assert; [done|]. destruct (Hw o eq_refl) as [-> |]; [by rw Z.eqb_refl|done]. }
  apply Hold. rw (sock_Some c Hip). apply wp_bind, wp_bind, wp_gets, wp_bind, wp_modify.
  cbn [sock2port cm set_field]. rw Hs.
  apply wp_assert; [|by rw /port Hp Z.eqb_refl]. intros _.
  eapply wp_store_con; [by apply range_map, range_free|exact Hc|]. exact HQ.
Qed.

Lemma wp_release_port_free E p c st (Q : unit → CmState → Prop) :
  range_ok (cm st) → con_at (cm st) p = Some c → in_use c = false → Q tt st →
  wp (release_port p) E Q st.
Proof.
  intros Hr Hc Hin HQ. apply wp_bind, (wp_lookup_con _ _ c); [done..|]. by rw Hin.
Qed.

Lemma deallocated_inv p c m :
  cm_inv m → con_at m p = Some c → in_use c = true →
  cm_inv (deallocated p c (pc_release c) m).
Proof. intros. apply inv_dealloc; [done..|]. apply pc_release_in_use. Qed.

Lemma deallocated_abs p c c' m :
  cm_inv m → con_at m p = Some c → in_use c = true →
  abs (deallocated p c c' m) = nt_release p (abs m).
Proof. intros. rw /nt_release. by rw (abs_owner _ _ c). Qed.

Lemma free_abs p c m :
  cm_inv m → con_at m p = Some c → in_use c = false → nt_release p (abs m) = abs m.
Proof. intros. rw /nt_release. by rw (abs_no_owner _ _ c). Qed.

(** ** The mask test is the range test *)
Lemma land_mask p k : 0 ≤ k ≤ 16 → 0 ≤ p < 65536 → Z.land p (65536 - 2 ^ k) = p - p mod 2 ^ k.
Proof.
  intros Hk Hp.
  assert (65536 - 2 ^ k = Z.shiftl (Z.ones (16 - k)) k) as ->.
  { rw Z.shiftl_mul_pow2; [lia|]. rw Z.ones_equiv.
    replace 65536 with (2 ^ (16 - k) * 2 ^ k); [rw /Z.pred; ring|].
    rw -Z.pow_add_r; [lia..|]. by replace (16 - k + k) with 16 by lia. }
  assert (p - p mod 2 ^ k = Z.shiftl (Z.shiftr p k) k) as ->.
  { rw Z.shiftl_mul_pow2; [lia|]. rw Z.shiftr_div_pow2; [lia|].
    pose proof (Z.div_mod p (2 ^ k) ltac:(lia)). lia. }
  apply Z.bits_inj'. intros n Hn. rw Z.land_spec !(λ a b, Z.shiftl_spec a b n Hn).
  destruct (decide (n < k)).
  - assert (n - k < 0) by lia. rw !(Z.testbit_neg_r _ (n - k)) //. by rw andb_false_r.
  - rw Z.shiftr_spec; [lia|]. replace (n - k + k) with n by lia.
    destruct (decide (n < 16)).
    + rw Z.ones_spec_low; [lia|]. by rw andb_true_r.
    + rw Z.ones_spec_high; [lia|]. rw andb_false_r.
      rw -(Z.mod_small p (2 ^ 16)); [lia|]. by rw Z.mod_pow2_bits_high; [lia|].
Qed.

Lemma owns_range m p : range_ok m → 0 ≤ p < 65536 →
  owns_tcp_port m p = true ↔
  tcp_port_base m ≤ p < tcp_port_base m + Z.of_nat (length (port2con m)).
Proof.
  intros [(k & Hk & Hmask & Hb & Hl) Hbase] Hp.
  rw /owns_tcp_port Hmask Hl land_mask; [lia..|]. rw Z.eqb_eq.
  assert (0 < 2 ^ k) by lia. set (A := 2 ^ k) in *.
  pose proof (Z.mod_pos_bound p A ltac:(lia)).
  pose proof (Z.div_mod p A ltac:(lia)) as Hd.
  pose proof (Z.div_mod (tcp_port_base m) A ltac:(lia)) as Hd'. rw Hb in Hd'.
  split; [lia|]. intros. 
  enough (p / A = tcp_port_base m / A) by lia. symmetry. apply (Z.div_unique_pos _ _ _ (p - tcp_port_base m)); lia.
Qed.

Lemma get_mut_by_port_eq m p c :
  range_ok m → con_at m p = Some c →
  get_mut_by_port p m = Ok (if in_use c then Some p else None).
Proof.
  intros Hr Hc. rw /get_mut_by_port. pose proof (con_at_valid _ _ _ Hc).
  pose proof (range_bound _ Hr). pose proof (range_base _ Hr).
  rw (proj2 (owns_range m p Hr ltac:(lia))); [done|]. by rw (get_mut_con_eq _ _ _ Hr Hc).
Qed.

Lemma get_mut_by_port_foreign m p :
  range_ok m → 0 ≤ p < 65536 → con_at m p = None → get_mut_by_port p m = Ok None.
Proof.
  intros Hr Hp Hc. rw /get_mut_by_port. destruct (owns_tcp_port m p) eqn:Ho; [|done].
  apply (owns_range _ _ Hr) in Ho; [|done]. apply con_at_Some in Ho as [c Hc']. by rw Hc in Hc'.
Qed.

Lemma get_mut_by_sock_eq m s :
  cm_inv m → get_mut_by_sock s m = Ok (sock2port m !! s).
Proof.
  intros Hi. rw /get_mut_by_sock. destruct (sock2port m !! s) as [p|] eqn:Hs; [|done].
  destruct (inv_map _ Hi s p Hs) as (c & Hc & _). by rw (get_mut_con_eq _ _ _ (inv_range _ Hi) Hc).
Qed.

(** ** Timeouts *)

Lemma wp_timeout_used E p c st (Q : unit → CmState → Prop) :
  cm_inv (cm st) → quiet_cm E (cm st) → con_at (cm st) p = Some c → in_use c = true →
  (∀ c' w', w_mem w' = w_mem (cm_world st) → in_use c' = false →
    (detailed_c c = None → detailed_c c' = None) →
    Q tt {| cm := deallocated p c c' (cm st); cm_world := w'; cm_wheel := cm_wheel st |}) →
  wp (timeout p) E Q st.
Proof.
  intros Hi Hq Hc Hin HQ. pose proof (inv_range _ Hi) as Hr.
  destruct (inv_used _ Hi p c Hc Hin) as (Hp & Hip & Hs).
  pose proof (quiet_con _ _ _ _ Hq Hc) as Hqc.
  apply wp_bind, wp_gets, wp_bind, wp_lift. rw (get_mut_by_port_eq _ _ _ Hr Hc) Hin.
  apply wp_bind, (wp_lookup_con _ _ c); [done..|].
  apply wp_bind, wp_zoom, wp_set_release_cause; [done|]. intros w1 Hw1.
  apply wp_bind, wp_zoom, wp_c_push_state; [done|]. intros w2 Hw2.
  set (c2 := c <| client_state_u8 := _ |>).
  apply wp_bind, (wp_store_con _ _ _ c); [done..|].
  apply wp_bind, wp_modify.
  assert (sock c2 = Some (sock_of c)) as -> by exact (sock_Some c Hip).
  apply wp_modify, (HQ (pc_release c2) w2); [by rw Hw2 /= Hw1|apply pc_release_in_use|].
  intros. by apply no_details_release.
Qed.

Lemma wp_timeout_free E p st (Q : unit → CmState → Prop) :
  range_ok (cm st) → 0 ≤ p < 65536 → (∀ c, con_at (cm st) p = Some c → in_use c = false) →
  Q tt st → wp (timeout p) E Q st.
Proof.
  intros Hr Hp Hc HQ. apply wp_bind, wp_gets, wp_bind, wp_lift.
  destruct (con_at (cm st) p) as [c|] eqn:Hat.
  - by rw (get_mut_by_port_eq _ _ _ Hr Hat) (Hc c).
  - by rw get_mut_by_port_foreign.
Qed.

Lemma deallocated_no_details p c c' m :
  no_details m → con_at m p = Some c → (detailed_c c = None → detailed_c c' = None) →
  no_details (deallocated p c c' m).
Proof.
  intros Hn Hc Hd. pose proof Hn as [_ Hn'].
  apply (no_details_set (m <| free_ports := free_ports m ++ [p] |>) p c' c); [|done|eauto].
  by destruct Hn.
Qed.

(** One timeout, whatever its port: the table after it *)
Lemma wp_timeout E p st (Q : unit → CmState → Prop) :
  cm_inv (cm st) → quiet_cm E (cm st) → 0 ≤ p < 65536 →
  (∀ m' w', cm_inv m' → quiet_cm E m' → abs m' = nt_release p (abs (cm st)) →
    w_mem w' = w_mem (cm_world st) →
    Q tt {| cm := m'; cm_world := w'; cm_wheel := cm_wheel st |}) →
  wp (timeout p) E Q st.
Proof.
  intros Hi Hq Hp HQ.
  destruct (con_at (cm st) p) as [c|] eqn:Hc; [destruct (in_use c) eqn:Hin|].
  - apply (wp_timeout_used _ _ c); [done..|]. intros c' w' Hw Hout Hd. apply HQ; [| |by apply deallocated_abs|done].
    + by apply inv_dealloc.
    + destruct Hq as [Hn|HE]; [left|by right]. by apply deallocated_no_details.
  - apply wp_timeout_free; [by apply inv_range|done|by rw Hc; intros ? [= <-]|].
    destruct st. apply HQ; [done..| |done]. symmetry. eauto using free_abs.
  - apply wp_timeout_free; [by apply inv_range|done|by rw Hc|].
    destruct st. apply HQ; [done..| |done]. cbn.
    rw /nt_release nt_owner_None; [|done]. intros s Hs.
    destruct (inv_map _ Hi s p Hs) as (c & Hc' & _). cbn in Hc. by rw Hc in Hc'.
Qed.

(** The drained ports, overwritten entries left out, are released in order. *)
Definition nt_release_all (l : list Z) (t : nat_table) : nat_table :=
  foldl (λ t p, if p =? 0 then t else nt_release p t) t l.

Lemma wp_drain_loop E l : ∀ st (Q : unit → CmState → Prop),
  cm_inv (cm st) → quiet_cm E (cm st) → Forall (λ p, 0 ≤ p < 65536) l →
  (∀ m' w', cm_inv m' → quiet_cm E m' → abs m' = nt_release_all l (abs (cm st)) →
    w_mem w' = w_mem (cm_world st) →
    Q tt {| cm := m'; cm_world := w'; cm_wheel := cm_wheel st |}) →
  wp (drain_loop l) E Q st.
Proof.
  induction l as [|p l IH]; intros st Q Hi Hq Hl HQ.
  { destruct st. by apply wp_ret, HQ. }
  inversion_clear Hl as [|? ? Hp Hl']. cbn [drain_loop]. apply wp_bind, wp_when.
  - intros Hp0. apply wp_timeout; [done..|]. intros m1 w1 Hi1 Hq1 Ha1 Hw1.
    apply IH; [done..|]. intros m2 w2 Hi2 Hq2 Ha2 Hw2. apply HQ; [done..| |by rw Hw2].
    rw Ha2 /= Ha1. by destruct (p =? 0).
  - intros Hp0. apply IH; [done..|]. intros m2 w2 Hi2 Hq2 Ha2 Hw2. apply HQ; [done..| |done].
    rw Ha2 /=. by destruct (p =? 0).
Qed.
End manager_ops.
