(* ===== verification/SampleManager.v ===== *)
(** * A concrete manager for the witnesses

    Four ports from 4096 on; in [cm1] the first carries a connection. *)
From Stdlib Require Import ZArith Lia ssreflect.
From S2P Require Import Prelude Crates Sample Extension Connection CManager ManagerInv.
From S2P Require Import NatTable Manager.
#[local] Open Scope general_if_scope.

Module SampleManager.
Import Sample.

Definition cm0 : ConnectionManager := {|
  record_store := 0; sock2port := ∅; free_ports := [4096; 4097; 4098] ++ [4099];
  port2con := replicate 4 pc_new; pci := (65532 : @PortQueue headers); tcp_port_base := 4096;
  cm_ip := 167772161; detailed_records := false |}.
Definition sock1 : Z * Z := (3232235777, 40000).
Definition con1 : ProxyConnection :=
  (pc_initialize sock1 4096 pc_new) <| detailed_c := None |> <| wheel_slot_and_index := (3, 7) |>.
Definition cm1 : ConnectionManager := allocated 4096 [4097; 4098; 4099] con1 sock1 cm0.
Definition world0 : World := mkWorld ∅ 0 0 (PMem ∅ 0).
Definition wheel1 : @TimerWheel wheel := {[ (3, 7) := (5, 4096) ]}.
Definition st0 : CmState := mkCmState cm0 world0 (∅ : gmap (Z * Z) (Z * Z)).
Definition st1 : CmState := mkCmState cm1 world0 wheel1.

Lemma cm0_inv : cm_inv cm0.
Proof. by apply (cm_new_inv_of 0 (65532 : @PortQueue headers) 167772161 4096 false [4096; 4097; 4098] 2). Qed.

Lemma cm0_no_details : no_details cm0.
Proof.
  split; [done|]. intros p c. rw /con_at. destruct (_ <=? p); [|done].
  by intros [-> _]%lookup_replicate.
Qed.

Lemma cm1_inv : cm_inv cm1.
Proof. by apply (inv_alloc cm0 4096 _ pc_new con1 sock1 cm0_inv). Qed.

Lemma con1_at : con_at cm1 4096 = Some con1.
Proof. done. Qed.

Lemma cm1_no_details : no_details cm1.
Proof.
  split; [done|]. intros p c.
  change (con_at cm1 p) with (con_at (set_con 4096 con1 cm0) p).
  rw (con_at_set cm0 4096 p con1 pc_new); [done|].
  destruct (decide _); [by intros [= <-]|apply cm0_no_details].
Qed.

(** The same with a detailed record in store 0 *)
Definition con2 : ProxyConnection :=
  con1 <| detailed_c := Some {| con_rec := Some 0; store := Some 0%nat |} |>.
Definition cm2 : ConnectionManager :=
  allocated 4096 [4097; 4098; 4099] con2 sock1 (cm0 <| detailed_records := true |>).
Definition store2 : ProxyRecStore :=
  RStore MAX_RECORDS storable_new [(ConRec 0 [] cUnknown, storable_new)].
Definition world2 : World := mkWorld {[ 0%nat := store2 ]} 1 0 (PMem ∅ 0).
Definition st2 : CmState := mkCmState cm2 world2 wheel1.

Lemma cm2_inv : cm_inv cm2.
Proof.
  apply (inv_alloc (cm0 <| detailed_records := true |>) 4096 _ pc_new con2 sock1); [|done..].
  by apply (cm_new_inv_of 0 (65532 : @PortQueue headers) 167772161 4096 true [4096; 4097; 4098] 2).
Qed.
End SampleManager.
