(* ===== verification/ManagerProps.v ===== *)
(** * Properties of the connection manager

    Refinement of the NAT table, the partition of ports, agreement of the lookups,
    and the two ways to break the manager. *)
From Stdlib Require Import ZArith Lia ssreflect.
From S2P Require Import Prelude Crates Sample Extension Connection CManager ManagerInv.
From S2P Require Import NatTable Manager SampleManager.
#[local] Open Scope general_if_scope.

Section manager_defs.
Context `{TC : TcpCommon} `{PF : Profile} `{RC : !RecordCrate} `{HC : HeaderCrate}
  `{PC : !PacketCrate} `{CL : Clock} `{WC : WheelCrate}.

(** What [n] ticks at [now] take out of the wheel, and the wheel after them *)
Fixpoint drained (n : nat) (now : Z) (w : TimerWheel) : list Z * TimerWheel :=
  match n with
  | O => ([], w)
  | S n' =>
      let '(d, more, w') := wheel_tick now w in
      let l := default [] d in
      if more then let '(l', w'') := drained n' now w' in (l ++ l', w'') else (l, w')
  end.

(** The ports of the manager, and those in use *)
Definition usable_ports (m : ConnectionManager) : list Z :=
  filter (λ p, p ≠ 0) (seqZ (tcp_port_base m) (Z.of_nat (length (port2con m)))).
Definition used_ports (m : ConnectionManager) : list Z :=
  filter (λ p, (in_use <$> con_at m p) = Some true) (usable_ports m).
End manager_defs.

(** ** Lemmas *)
Section manager_lemmas.
Context `{TC : TcpCommon} `{PF : Profile} `{RC : !RecordCrate} `{HC : HeaderCrate}
  `{PC : !PacketCrate} `{CL : Clock} `{WC : WheelCrate}.

Lemma nt_release_all_app l1 l2 t : nt_release_all (l1 ++ l2) t = nt_release_all l2 (nt_release_all l1 t).
Proof. by rw /nt_release_all foldl_app. Qed.

Lemma wp_release_timeouts `{WL : !WheelLaws} E now n : ∀ st (Q : option unit → CmState → Prop),
  cm_inv (cm st) → quiet_cm E (cm st) →
  (wheel_lag now (cm_wheel st) < n)%nat →
  (∀ idx p, wheel_entry (cm_wheel st) idx = Some p → 0 ≤ p < 65536) →
  (∀ m' w', cm_inv m' → quiet_cm E m' →
    abs m' = nt_release_all (drained n now (cm_wheel st)).1 (abs (cm st)) →
    Q (Some tt) {| cm := m'; cm_world := w'; cm_wheel := (drained n now (cm_wheel st)).2 |}) →
  wp (release_timeouts n now) E Q st.
Proof.
  induction n as [|n IH]; intros st Q Hi Hq Hlag Hent HQ; [lia|].
  cbn [release_timeouts drained] in *.
  pose proof (wheel_tick_lag now (cm_wheel st)) as Hlag'.
  pose proof (wheel_tick_drained now (cm_wheel st)) as Hdr.
  pose proof (wheel_tick_entry now (cm_wheel st)) as Hte.
  apply wp_bind. change (wp (tick now) E ?P st) with
    (P (wheel_tick now (cm_wheel st)).1 (st <| cm_wheel := (wheel_tick now (cm_wheel st)).2 |>)).
  destruct (wheel_tick now (cm_wheel st)) as [[d more] w] eqn:Ht. cbn in *.
  assert (∀ m1 w1, cm_inv m1 → quiet_cm E m1 → abs m1 = nt_release_all (default [] d) (abs (cm st)) →
    wp (S := CmState) (if more then release_timeouts n now else mret (Some tt)) E Q
      {| cm := m1; cm_world := w1; cm_wheel := w |}) as Hrest.
  { intros m1 w1 Hi1 Hq1 Ha1. destruct more.
    - specialize (Hlag' eq_refl). apply IH; cbn; [done|done|lia| |].
      + intros idx p Hp. destruct (Hte idx) as [Hsame|[Hnone _]]; [|by rw Hnone in Hp].
        apply (Hent idx). by rw -Hsame.
      + intros m' w' Hi' Hq' Ha'. destruct (drained n now w) as [l' w''].
        apply HQ; [done..|]. by rw Ha' Ha1 nt_release_all_app.
    - apply wp_ret, HQ; done. }
  apply wp_bind. destruct d as [l|].
  - apply wp_drain_loop; cbn; [done..| |].
    + apply Forall_forall. intros p Hp. destruct (Hdr l p eq_refl Hp) as [idx Hidx]. eauto.
    + intros m' w' Hi' Hq' Ha' _. by apply Hrest.
  - apply wp_ret. destruct st. by apply Hrest.
Qed.

Lemma drained_more `{WL : !WheelLaws} now n n' w :
  (wheel_lag now w < n)%nat → (n ≤ n')%nat → drained n' now w = drained n now w.
Proof.
  revert n' w. induction n as [|n IH]; intros [|n'] w Hl Hn; [lia..|]. cbn.
  pose proof (wheel_tick_lag now w) as Hlag.
  destruct (wheel_tick now w) as [[d []] w1] eqn:Ht; [|done]. cbn in Hlag.
  specialize (Hlag eq_refl). by rw (IH n' w1); [lia..|].
Qed.

Lemma usable_elem m p :
  p ∈ usable_ports m ↔ p ≠ 0 ∧ ∃ c, con_at m p = Some c.
Proof.
  rw /usable_ports list_elem_of_filter elem_of_seqZ. split; intros [? H]; (split; [done|]).
  - by apply con_at_Some.
  - destruct H as [c Hc]. by apply con_at_valid in Hc.
Qed.

Lemma NoDup_usable m : NoDup (usable_ports m).
Proof. apply NoDup_filter, NoDup_seqZ. Qed.

(** Free and used ports partition the ports of the manager. *)
Lemma ports_partition m :
  cm_inv m → free_ports m ++ used_ports m ≡ₚ usable_ports m.
Proof.
  intros Hi. apply NoDup_Permutation; [| |].
  - apply NoDup_app. split_and!; [by apply inv_free_nodup| |by apply NoDup_filter, NoDup_usable].
    intros p Hp Hu. apply list_elem_of_filter in Hu as [Hu _].
    destruct (inv_free _ Hi p Hp) as (_ & c & Hc & Hn). by rw Hc /= Hn in Hu.
  - apply NoDup_usable.
  - intros p. rw elem_of_app /used_ports list_elem_of_filter. split.
    + intros [Hp|[_ Hp]]; [|done]. apply usable_elem.
      destruct (inv_free _ Hi p Hp) as (? & c & ? & _). eauto.
    + intros Hp. pose proof Hp as (Hp0 & c & Hc)%usable_elem. rw Hc /=.
      destruct (in_use c) eqn:Hin; [by right|left]. eauto using inv_part.
Qed.

(** *** Fetching the records *)
Lemma holds_store_released id c : holds_store id (pc_release c) = false.
Proof. rw /holds_store /pc_release /=. destruct (detailed_c c) as [d|] eqn:H; [done|]. by rw /= H. Qed.

Lemma strong_count_released id m :
  strong_count id (m <| port2con := pc_release <$> port2con m |>) = 1%nat.
Proof.
  rw /strong_count /=. f_equal. induction (port2con m) as [|c l IH]; [done|].
  rw fmap_cons filter_cons_False; [|done]. by rw holds_store_released.
Qed.

Lemma strong_count_one id m :
  strong_count id m = 1%nat ↔ Forall (λ c, holds_store id c = false) (port2con m).
Proof.
  rw /strong_count. split.
  - intros [= H%length_zero_iff_nil]. apply Forall_forall. intros c Hc.
    destruct (holds_store id c) eqn:Hh; [|done].
    assert (c ∈ filter (λ c, holds_store id c = true) (port2con m)) as Hin
      by by apply list_elem_of_filter.
    rw H in Hin. by apply elem_of_nil in Hin.
  - intros H. f_equal. rw (filter_none _ (port2con m)); [|done].
    intros c Hc. rw Forall_forall in H. by rw (H c Hc).
Qed.
(** The manager after a fetch *)
Definition fetched (nid : nat) (m : ConnectionManager) : ConnectionManager :=
  let m1 := m <| record_store := nid |> in
  if decide (strong_count (record_store m) m = 1%nat) then m1
  else m1 <| port2con := pc_release <$> port2con m |>.

Lemma fetch_c_records_eq st s :
  let w := cm_world st in
  w_stores w !! record_store (cm st) = Some s → w_stores w !! w_next_store w = None →
  fetch_c_records st = Ok (Some s, {|
    cm := fetched (w_next_store w) (cm st);
    cm_world := w <| w_stores := <[w_next_store w := store_with_capacity MAX_RECORDS]> (w_stores w) |>
                  <| w_next_store := S (w_next_store w) |>;
    cm_wheel := cm_wheel st |}).
Proof.
  intros w Hs Hn. set (id := record_store (cm st)) in *. set (nid := w_next_store w) in *.
  assert (id ≠ nid) as Hne by congruence.
  set (w' := w <| w_stores := _ |> <| w_next_store := _ |>).
  assert (w_stores w' !! id = Some s) as Hold by (cbn; by rw lookup_insert_ne).
  set (m1 := (cm st) <| record_store := nid |>).
  set (take := m ← gets cm;
     if Z.of_nat (strong_count id m) =? 1
     then s ← on_world (borrow id); mret (Some s) else mret None).
  change (fetch_c_records st) with
    ((when (1 <? Z.of_nat (strong_count id m1))
       (on_cm (λ m, m <| port2con := pc_release <$> port2con m |>));; take)
    {| cm := m1; cm_world := w'; cm_wheel := cm_wheel st |}).
  assert (∀ m, strong_count id m = 1%nat →
    take {| cm := m; cm_world := w'; cm_wheel := cm_wheel st |} =
    Ok (Some s, {| cm := m; cm_world := w'; cm_wheel := cm_wheel st |})) as Htake.
  { intros m Hm.
    transitivity ((if Z.of_nat (strong_count id m) =? 1
      then s ← on_world (borrow id); mret (Some s) else mret None)
      {| cm := m; cm_world := w'; cm_wheel := cm_wheel st |}); [done|].
    rw Hm. change (Z.of_nat 1 =? 1) with true.
    rw /mbind /M_bind /on_world /zoom /borrow. cbn [cm_world].
    by rw Hold. }
  rw /fetched -/id. change (strong_count id (cm st)) with (strong_count id m1).
  destruct (decide (strong_count id m1 = 1%nat)) as [H1|H1].
  - rw H1. exact (Htake m1 H1).
  - assert (1 < strong_count id m1)%nat by (move: H1; rw /strong_count; lia).
    rw (proj2 (Z.ltb_lt _ _)); [lia|]. exact (Htake _ (strong_count_released id m1)).
Qed.
End manager_lemmas.

(** ** Properties *)
Section manager_properties.
Context `{TC : TcpCommon} `{PF : Profile} `{RC : !RecordCrate} `{HC : HeaderCrate}
  `{PC : !PacketCrate} `{CL : Clock} `{WC : WheelCrate}.

(** C36. [ConnectionManager::new]: for a port range of [2^k] ports (aligned to its
    mask, at least two ports or a non-zero base) and a [shuffle_ports] that
    permutes its range, construction does not panic and yields a manager that
    satisfies the invariant, with no socket mapped and every port of the range
    but port 0 in the free queue. *)
Theorem cm_new_inv shuffle q ip base detailed w k :
  0 ≤ k ≤ 16 → 0 ≤ base < 65536 → base mod 2 ^ k = 0 → 0 < base + 2 ^ k - 1 →
  tcp_dst_port_mask q = 65536 - 2 ^ k →
  (∀ lo hi, shuffle lo hi ≡ₚ seqZ lo (hi - lo + 1)) →
  ∃ m w', cm_new shuffle q ip base detailed w = Ok (m, w') ∧ cm_inv m ∧
    sock2port m = ∅ ∧ free_ports m ≡ₚ usable_ports m ∧ (detailed = false → no_details m).
Proof.
  intros Hk Hb Hmod Hpos Hmask Hsh.
  pose proof (cm_new_eq shuffle q ip base detailed w k Hk Hb Hmod Hpos Hmask) as Heq.
  eexists _, _. split; [exact Heq|].
  set (l := shuffle _ _).
  assert (l ≡ₚ seqZ (if base =? 0 then 1 else base)
                    (base + 2 ^ k - 1 - (if base =? 0 then 1 else base))) as Hl.
  { rw /l Hsh. by f_equiv; lia. }
  pose proof (cm_new_inv_of (w_next_store w) q ip base detailed l k Hk Hb Hmod Hpos Hmask Hl) as Hinv.
  set (m := {| record_store := w_next_store w |}) in *.
  assert (∀ p c, con_at m p = Some c → c = pc_new) as Hnew.
  { intros p c. rw /con_at /=. destruct (base <=? p); [|done]. by intros [-> _]%lookup_replicate. }
  split_and!; [done|done| |].
  - apply NoDup_Permutation; [by apply inv_free_nodup|by apply NoDup_usable|].
    intros p. rw usable_elem. split.
    + intros Hp. destruct (inv_free _ Hinv p Hp) as (? & c & ? & _). eauto.
    + intros (Hp0 & c & Hc). apply (inv_part _ Hinv p c); [done..|]. by rw (Hnew _ _ Hc).
  - intros ->. split; [done|]. intros p c Hc. by rw (Hnew _ _ Hc).
Qed.

(** C16. [get_mut_or_insert] implements the allocation of the NAT table: it
    returns the port the socket already has, or the head of the free queue, or
    [None] when there is none; it keeps the invariant and every other
    connection; a newly allocated connection is initialised for the socket.
    Without detailed records it never panics, so neither assertion fails. *)
Theorem get_mut_or_insert_refines E s st :
  cm_inv (cm st) → quiet_cm E (cm st) → s.1 ≠ 0 →
  wp (get_mut_or_insert s) E (λ o st',
    cm_inv (cm st') ∧ quiet_cm E (cm st') ∧ cm_wheel st' = cm_wheel st ∧
    (o, abs (cm st')) = nt_alloc s (abs (cm st)) ∧
    (∀ q, o ≠ Some q → con_at (cm st') q = con_at (cm st) q) ∧
    (∀ p, o = Some p → ∃ c, con_at (cm st') p = Some c ∧ in_use c = true ∧ sock_of c = s ∧
      (sock2port (cm st) !! s = None → ∃ c0, c = (pc_initialize s p c0) <| detailed_c := detailed_c c |>)))
    st.
Proof.
  intros Hi Hq Hs0. apply wp_get_mut_or_insert; [done..| | |].
  - intros p Hs. split_and!; [done..|by rw /nt_alloc /= Hs|done|].
    intros p' [= <-]. destruct (inv_map _ Hi s p Hs) as (c & ? & ? & ?).
    exists c. split_and!; [done..|]. by rw Hs.
  - intros Hs Hf. split_and!; [done..| |done|done]. by rw /nt_alloc /= Hs Hf.
  - intros p rest c0 d w' Hs Hf Hc _ Hd. cbn.
    pose proof (allocated_inv p rest c0 d s _ Hi Hf Hc Hs Hs0) as Hi'.
    destruct (allocated_abs p rest ((pc_initialize s p c0) <| detailed_c := d |>) s _ Hs Hf) as [Ha Ho].
    pose proof (λ q, con_at_set (cm st) p q ((pc_initialize s p c0) <| detailed_c := d |>) c0 Hc) as Hat.
    split_and!; [done| |done| | |].
    + destruct Hq as [Hn|HE]; [left|by right]. pose proof Hn as [Hr Hn'].
      apply (no_details_set (cm st) p _ c0); [done..|]. cbn. eauto.
    + by rw Ha -Ho -surjective_pairing.
    + intros q Hne. change (con_at (set_con p ((pc_initialize s p c0) <| detailed_c := d |>) (cm st)) q = con_at (cm st) q).
      rw Hat decide_False; [congruence|done].
    + intros p' [= <-]. exists ((pc_initialize s p c0) <| detailed_c := d |>).
      split; [|split; [|split; [by destruct s|]]].
      * change (con_at (set_con p ((pc_initialize s p c0) <| detailed_c := d |>) (cm st)) p
          = Some ((pc_initialize s p c0) <| detailed_c := d |>)). by rw Hat decide_True.
      * destruct (inv_free _ Hi p) as [Hp0 _]; [rw Hf; left|]. rw /in_use /=. lia.
      * intros _. by exists c0.
Qed.

(** C17. [release_port] implements the release of the NAT table: of a port that is
    in use it forgets the socket, puts the port at the end of the free queue and
    takes the connection out of use; of a free port it changes nothing, so
    releasing twice is releasing once. If the timer wheel does not hold some
    other port at the connection's entry, no assertion fails. *)
Theorem release_port_refines p c st :
  cm_inv (cm st) → con_at (cm st) p = Some c →
  (in_use c = true → ∀ o, (wheel_replace (wheel_slot_and_index c) 0 (cm_wheel st)).1 = Some o → o = p) →
  ∃ st', release_port p st = Ok (tt, st') ∧ cm_inv (cm st') ∧
    abs (cm st') = nt_release p (abs (cm st)) ∧
    (∀ q, p ≠ q → con_at (cm st') q = con_at (cm st) q) ∧
    (in_use <$> con_at (cm st') p) = Some false ∧ release_port p st' = Ok (tt, st').
Proof.
  intros Hi Hc Hw.
  assert (wp (release_port p) no_panic (λ _ st', cm_inv (cm st') ∧
    abs (cm st') = nt_release p (abs (cm st)) ∧
    (∀ q, p ≠ q → con_at (cm st') q = con_at (cm st) q) ∧
    ∃ c', con_at (cm st') p = Some c' ∧ in_use c' = false) st) as Hwp.
  { pose proof (λ q, con_at_set (cm st) p q (pc_release c) c Hc) as Hat.
    destruct (in_use c) eqn:Hin.
    - apply (wp_release_port_used _ _ c); [done..| |].
      + intros o Ho. left. by apply Hw.
      + split_and!; [by apply deallocated_inv|by apply deallocated_abs| |].
        * intros q Hne. transitivity (con_at (set_con p (pc_release c) (cm st)) q); [done|].
          by rw Hat decide_False.
        * exists (pc_release c). split; [|apply pc_release_in_use].
          transitivity (con_at (set_con p (pc_release c) (cm st)) p); [done|].
          by rw Hat decide_True.
    - apply (wp_release_port_free _ _ c); [by apply inv_range|done..|].
      split_and!; [done|by rw (free_abs _ c)|done|by exists c]. }
  apply wp_total in Hwp as ([] & st' & Hrun & Hi' & Ha & Hoth & c' & Hc' & Hu').
  exists st'. split_and!; [done..|by rw Hc' /= Hu'|].
  assert (wp (release_port p) no_panic (λ _ s, s = st') st') as H2
    by (apply (wp_release_port_free _ _ c'); [by apply inv_range|done..]).
  by apply wp_total in H2 as ([] & ? & ? & ->).
Qed.

(** C18. [release_timeouts] terminates and releases exactly the ports that time
    out: with more fuel than the wheel's lag it does not run out of it, the
    table loses the drained ports in order (overwritten entries left out), and
    the wheel is the one left by the ticks. Without detailed records it does not
    panic. *)
Theorem release_timeouts_refines `{WL : !WheelLaws} E now n st :
  cm_inv (cm st) → quiet_cm E (cm st) → (wheel_lag now (cm_wheel st) < n)%nat →
  (∀ idx p, wheel_entry (cm_wheel st) idx = Some p → 0 ≤ p < 65536) →
  wp (release_timeouts n now) E (λ o st', o = Some tt ∧ cm_inv (cm st') ∧
    abs (cm st') = nt_release_all (drained n now (cm_wheel st)).1 (abs (cm st)) ∧
    cm_wheel st' = (drained n now (cm_wheel st)).2) st.
Proof.
  intros Hi Hq Hlag Hent. apply wp_release_timeouts; [done..|].
  intros m' w' Hi' Hq' Ha'. by split_and!.
Qed.

(** C21. Lookups agree: under the invariant, looking a socket up gives its port
    in the NAT table, and looking that port up finds the same connection in use;
    a port that no socket has gives nothing. *)
Theorem lookups_agree m s p :
  cm_inv m → 0 ≤ p < 65536 →
  get_mut_by_sock s m = Ok (nt_map (abs m) !! s) ∧
  get_mut_by_port p m = Ok ((λ _, p) <$> nt_owner p (abs m)) ∧
  (get_mut_by_sock s m = Ok (Some p) → get_mut_by_port p m = Ok (Some p)).
Proof.
  intros Hi Hp. rw get_mut_by_sock_eq; [done|].
  assert (get_mut_by_port p m = Ok ((λ _, p) <$> nt_owner p (abs m))) as Hport.
  { destruct (con_at m p) as [c|] eqn:Hc.
    - rw (get_mut_by_port_eq _ _ c); [by apply inv_range|done|].
      destruct (in_use c) eqn:Hin; [by rw (abs_owner _ _ c)|by rw (abs_no_owner _ _ c)].
    - rw get_mut_by_port_foreign; [by apply inv_range|done..|].
      rw nt_owner_None; [|done]. intros s' Hs'.
      destruct (inv_map _ Hi s' p Hs') as (c & Hc' & _). by rw Hc in Hc'. }
  split_and!; [done..|]. intros [= Hs].
  rw Hport (nt_owner_Some _ s); [by apply abs_wf|done|done].
Qed.

(** The bit test of [owns_tcp_port] is the range test: a port passes the mask
    exactly when it lies in the manager's block of ports, so the table access
    that follows is in bounds. *)
Theorem owns_tcp_port_range m p :
  range_ok m → 0 ≤ p < 65536 →
  (owns_tcp_port m p = true ↔
     tcp_port_base m ≤ p < tcp_port_base m + Z.of_nat (length (port2con m))) ∧
  ∃ o, get_mut_by_port p m = Ok o.
Proof.
  intros Hr Hp. split; [by apply owns_range|].
  destruct (con_at m p) as [c|] eqn:Hc.
  - rw (get_mut_by_port_eq _ _ c); [done..|]. eauto.
  - rw get_mut_by_port_foreign; [done..|]. eauto.
Qed.

(** C39. A client with source address 0.0.0.0 breaks the manager: its connection
    is allocated, but [sock] hides the address, so releasing the port leaves the
    socket mapped, and the client's next SYN fails an assertion. *)
Theorem zero_ip_breaks sp p rest st :
  cm_inv (cm st) → no_details (cm st) → sock2port (cm st) !! (0, sp) = None →
  free_ports (cm st) = p :: rest →
  (wheel_replace (0, 0) 0 (cm_wheel st)).1 = None →
  (get_mut_or_insert (0, sp);; release_port p;; get_mut_or_insert (0, sp)) st = Panic AssertFailed.
Proof.
  intros Hi Hn Hs Hf Hw. pose proof Hn as [Hd Hn']. pose proof (inv_range _ Hi) as Hr.
  destruct (inv_free _ Hi p) as (Hp0 & c0 & Hc & Hu); [rw Hf; left|].
  apply wp_panics.
  apply wp_bind, wp_get_mut_or_insert; [done|by left|by rw Hs|by rw Hf|].
  intros p1 rest1 c1 d w' _ Hf' Hc' _ Hdn. rw Hf in Hf'. injection Hf' as <- <-.
  rw Hc in Hc'. injection Hc' as <-. specialize (Hdn (Hn' _ _ Hc) Hd) as ->.
  set (c := (pc_initialize (0, sp) p c0) <| detailed_c := None |>).
  set (m1 := allocated p rest c (0, sp) (cm st)).
  assert (range_ok m1) as Hr1 by (apply range_map, set_con_range, range_free, Hr).
  assert (con_at m1 p = Some c) as Hc1 by exact (con_at_set_eq (cm st) p c c0 Hc).
  apply wp_bind, wp_bind, (wp_lookup_con _ _ c); [exact Hr1|exact Hc1|].
  assert (in_use c = true) as -> by (rw /in_use /=; lia). cbn [when].
  apply wp_bind, wp_modify, wp_bind, wp_assert; [intros _|done].
  apply wp_bind, wp_replace_in_wheel. cbn. rw Hw.
  apply wp_bind, wp_ret, wp_bind, wp_ret.
  eapply wp_store_con; [by apply range_free|exact Hc1|].
  set (m2 := set_con p (pc_release c) (m1 <| free_ports := free_ports m1 ++ [p] |>)).
  assert (range_ok m2) as Hr2 by (apply set_con_range, range_free, Hr1).
  assert (con_at m2 p = Some (pc_release c)) as Hc2 by exact (con_at_set_eq m1 p (pc_release c) c Hc1).
  apply (wp_get_mut_or_insert_stale _ _ p (pc_release c));
    [exact Hr2|apply lookup_insert_eq|exact Hc2|apply pc_release_in_use|done].
Qed.
(** C37. [fetch_c_records] returns the store in use and puts a new, empty one in
    its place. If connections hold the old store, it takes every connection of
    the table out of use to get the last reference, and leaves the socket map
    and the queue of free ports as they are. *)
Theorem fetch_c_records_spec st s :
  w_stores (cm_world st) !! record_store (cm st) = Some s →
  w_stores (cm_world st) !! w_next_store (cm_world st) = None →
  ∃ st', fetch_c_records st = Ok (Some s, st') ∧
    record_store (cm st') ≠ record_store (cm st) ∧
    w_stores (cm_world st') !! record_store (cm st') = Some (store_with_capacity MAX_RECORDS) ∧
    sock2port (cm st') = sock2port (cm st) ∧ free_ports (cm st') = free_ports (cm st) ∧
    cm_wheel st' = cm_wheel st ∧
    (Forall (λ c, holds_store (record_store (cm st)) c = false) (port2con (cm st)) ∧
       port2con (cm st') = port2con (cm st) ∨
     ¬ Forall (λ c, holds_store (record_store (cm st)) c = false) (port2con (cm st)) ∧
       port2con (cm st') = pc_release <$> port2con (cm st)).
Proof.
  intros Hs Hn. rw (fetch_c_records_eq st s) //. eexists. split; [done|].
  rw /fetched. set (m := cm st) in *. pose proof (strong_count_one (record_store m) m) as Hone.
  assert (w_next_store (cm_world st) ≠ record_store m) by congruence.
  destruct (decide _); cbn; (split_and!; [done|by rw lookup_insert_eq|done..|]).
  - left. by rw -Hone.
  - right. by rw -Hone.
Qed.

(** C38. After such a fetch the manager is no longer usable: when a connection held
    the store, every client whose socket is still mapped makes the next SYN fail
    [assert!(cc.in_use())], and no port is ever returned to the queue. *)
Theorem fetch_c_records_leak st s sk p c :
  cm_inv (cm st) →
  w_stores (cm_world st) !! record_store (cm st) = Some s →
  w_stores (cm_world st) !! w_next_store (cm_world st) = None →
  con_at (cm st) p = Some c → holds_store (record_store (cm st)) c = true →
  is_Some (sock2port (cm st) !! sk) →
  (fetch_c_records;; get_mut_or_insert sk) st = Panic AssertFailed ∧
  ∃ o st', fetch_c_records st = Ok (o, st') ∧ used_ports (cm st') = [] ∧
    free_ports (cm st') = free_ports (cm st) ∧ ¬ cm_inv (cm st').
Proof.
  intros Hi Hs Hn Hc Hh [q Hq]. rw (fetch_c_records_eq st s) //. pose proof (inv_range _ Hi) as Hr.
  set (m := cm st) in *. set (m' := fetched (w_next_store (cm_world st)) m).
  assert (m' = m <| record_store := w_next_store (cm_world st) |>
                 <| port2con := pc_release <$> port2con m |>) as Hm'.
  { rw /m' /fetched decide_False; [|done]. intros H1%strong_count_one.
    rw Forall_forall in H1. rw H1 in Hh; [|done].
    move: Hc. rw /con_at. destruct (_ <=? _); [|done]. by apply list_elem_of_lookup_2. }
  assert (∀ p', con_at m' p' = pc_release <$> con_at m p') as Hat.
  { intros p'. rw Hm' /con_at /=. destruct (_ <=? _); [|done]. by rw list_lookup_fmap. }
  assert (range_ok m') as Hr'.
  { rw Hm'. destruct Hr as [Hm Hb]. split; [|done]. cbn. by rw length_fmap. }
  destruct (inv_map _ Hi sk q Hq) as (cq & Hcq & Huq & _).
  assert (con_at m' q = Some (pc_release cq)) as Hcq' by (by rw Hat Hcq).
  assert (sock2port m' !! sk = Some q) as Hq' by (by rw Hm').
  split.
  - rw /mbind /M_bind (fetch_c_records_eq st s) //. apply wp_panics.
    by apply (wp_get_mut_or_insert_stale _ _ q (pc_release cq)); [..|apply pc_release_in_use|].
  - eexists _, _. split; [done|]. cbn. rw -/m'. split_and!.
    + apply filter_none. intros p' _. rw Hat. destruct (con_at m p'); [|done]. cbn.
      by rw pc_release_in_use.
    + by rw Hm'.
    + intros Hi'. destruct (inv_map _ Hi' sk q Hq') as (c' & Hc' & Hu' & _).
      simplify_eq. by rw pc_release_in_use in Hu'.
Qed.
End manager_properties.

(** ** Witnesses *)
Import Sample SampleManager.

Lemma cm_new_inv_witness : ∃ m w',
  cm_new (λ lo hi, seqZ lo (hi - lo + 1)) (65532 : @PortQueue headers) 167772161 4096 false world0 = Ok (m, w') ∧
  cm_inv m ∧ sock2port m = ∅ ∧ free_ports m ≡ₚ usable_ports m ∧ (false = false → no_details m).
Proof.
  by apply (cm_new_inv (λ lo hi, seqZ lo (hi - lo + 1)) (65532 : @PortQueue headers) 167772161 4096 false world0 2).
Defined.

Lemma get_mut_or_insert_refines_witness :
  wp (get_mut_or_insert sock1) no_panic (λ o st',
    cm_inv (cm st') ∧ quiet_cm no_panic (cm st') ∧ cm_wheel st' = cm_wheel st0 ∧
    (o, abs (cm st')) = nt_alloc sock1 (abs cm0) ∧
    (∀ q, o ≠ Some q → con_at (cm st') q = con_at cm0 q) ∧
    (∀ p, o = Some p → ∃ c, con_at (cm st') p = Some c ∧ in_use c = true ∧ sock_of c = sock1 ∧
      (sock2port cm0 !! sock1 = None →
         ∃ c0, c = (pc_initialize sock1 p c0) <| detailed_c := detailed_c c |>))) st0.
Proof.
  apply (get_mut_or_insert_refines no_panic sock1 st0);
    [exact cm0_inv|left; exact cm0_no_details|done].
Defined.

Lemma release_port_refines_witness : ∃ st',
  release_port 4096 st1 = Ok (tt, st') ∧ cm_inv (cm st') ∧
  abs (cm st') = nt_release 4096 (abs cm1) ∧
  (∀ q, 4096 ≠ q → con_at (cm st') q = con_at cm1 q) ∧
  (in_use <$> con_at (cm st') 4096) = Some false ∧ release_port 4096 st' = Ok (tt, st').
Proof.
  apply (release_port_refines 4096 con1 st1); [exact cm1_inv|exact con1_at|].
  intros _ o. vm_compute. congruence.
Defined.

Lemma release_timeouts_refines_witness :
  wp (release_timeouts 2 2000000) no_panic (λ o st', o = Some tt ∧ cm_inv (cm st') ∧
    abs (cm st') = nt_release_all (drained 2 2000000 wheel1).1 (abs cm1) ∧
    cm_wheel st' = (drained 2 2000000 wheel1).2) st1.
Proof.
  apply (release_timeouts_refines no_panic 2000000 2 st1);
    [exact cm1_inv|left; exact cm1_no_details|apply (bool_decide_unpack _); vm_compute; exact I|].
  intros idx p. cbn. rw lookup_singleton. destruct (decide _); [|done].
  intros [= <-]. lia.
Defined.

Lemma lookups_agree_witness :
  get_mut_by_sock sock1 cm1 = Ok (nt_map (abs cm1) !! sock1) ∧
  get_mut_by_port 4096 cm1 = Ok ((λ _, 4096) <$> nt_owner 4096 (abs cm1)) ∧
  (get_mut_by_sock sock1 cm1 = Ok (Some 4096) → get_mut_by_port 4096 cm1 = Ok (Some 4096)).
Proof. apply (lookups_agree cm1 sock1 4096 cm1_inv). lia. Defined.

Lemma owns_tcp_port_range_witness :
  (owns_tcp_port cm1 4099 = true ↔
     tcp_port_base cm1 ≤ 4099 < tcp_port_base cm1 + Z.of_nat (length (port2con cm1))) ∧
  ∃ o, get_mut_by_port 4099 cm1 = Ok o.
Proof. apply (owns_tcp_port_range cm1 4099 (inv_range _ cm1_inv)). lia. Defined.

Lemma zero_ip_breaks_witness :
  (get_mut_or_insert (0, 40000);; release_port 4096;; get_mut_or_insert (0, 40000)) st0
  = Panic AssertFailed.
Proof.
  by apply (zero_ip_breaks 40000 4096 [4097; 4098; 4099] st0 cm0_inv cm0_no_details).
Defined.

Lemma fetch_c_records_spec_witness : ∃ st',
  fetch_c_records st2 = Ok (Some store2, st') ∧
  record_store (cm st') ≠ record_store cm2 ∧
  w_stores (cm_world st') !! record_store (cm st') = Some (store_with_capacity MAX_RECORDS) ∧
  sock2port (cm st') = sock2port cm2 ∧ free_ports (cm st') = free_ports cm2 ∧
  cm_wheel st' = wheel1 ∧
  (Forall (λ c, holds_store (record_store cm2) c = false) (port2con cm2) ∧
     port2con (cm st') = port2con cm2 ∨
   ¬ Forall (λ c, holds_store (record_store cm2) c = false) (port2con cm2) ∧
     port2con (cm st') = pc_release <$> port2con cm2).
Proof. by apply (fetch_c_records_spec st2 store2). Defined.

Lemma fetch_c_records_leak_witness :
  (fetch_c_records;; get_mut_or_insert sock1) st2 = Panic AssertFailed ∧
  ∃ o st', fetch_c_records st2 = Ok (o, st') ∧ used_ports (cm st') = [] ∧
    free_ports (cm st') = free_ports cm2 ∧ ¬ cm_inv (cm st').
Proof.
  apply (fetch_c_records_leak st2 store2 sock1 4096 con2); [exact cm2_inv|done..|by exists 4096].
Defined.
