(* ===== verification/Ports.v ===== *)
(** * Conservation of ports over the life of a manager

    From [ConnectionManager::new] on, through any sequence of the manager's
    operations, every port is in the free queue or carries a connection. *)
From Stdlib Require Import ZArith Lia ssreflect.
From stdpp Require Import relations.
From S2P Require Import Prelude Crates Sample Extension Connection CManager ManagerInv.
From S2P Require Import NatTable Manager SampleManager ManagerProps.
#[local] Open Scope general_if_scope.

Section steps.
Context `{TC : TcpCommon} `{PF : Profile} `{RC : !RecordCrate} `{HC : HeaderCrate}
  `{PC : !PacketCrate} `{CL : Clock} `{WC : WheelCrate} `{WL : !WheelLaws}.

(** What can happen to the manager of a pipeline: a client packet asks for the
    connection of its socket, a port is released, the timeouts are released
    (with as much fuel as the loop needs), a handler writes back the connection
    it has borrowed, which keeps its port and its client, the records are fetched
    while no connection has one, and the world and the wheel change. *)
Inductive cm_step (st : CmState) : CmState → Prop :=
| step_insert s o st' :
    s.1 ≠ 0 → get_mut_or_insert s st = Ok (o, st') → cm_step st st'
| step_release p st' :
    0 ≤ p < 65536 → release_port p st = Ok (tt, st') → cm_step st st'
| step_timeouts n now o st' :
    (wheel_lag now (cm_wheel st) < n)%nat →
    (∀ idx p, wheel_entry (cm_wheel st) idx = Some p → 0 ≤ p < 65536) →
    release_timeouts n now st = Ok (o, st') → cm_step st st'
| step_handler p c c' st' :
    0 ≤ p < 65536 → lookup_con p st = Ok (c, st) →
    proxy_port c' = proxy_port c → sock_of c' = sock_of c →
    store_con p c' st = Ok (tt, st') → cm_step st st'
| step_fetch s o st' :
    w_stores (cm_world st) !! record_store (cm st) = Some s →
    w_stores (cm_world st) !! w_next_store (cm_world st) = None →
    Forall (λ c, holds_store (record_store (cm st)) c = false) (port2con (cm st)) →
    fetch_c_records st = Ok (o, st') → cm_step st st'
| step_outside w wh : cm_step st (mkCmState (cm st) w wh).

(** The ports of the manager stay the same. *)
Definition same_ports (m m' : ConnectionManager) : Prop :=
  tcp_port_base m' = tcp_port_base m ∧ length (port2con m') = length (port2con m).
#[global] Instance same_ports_preorder : PreOrder same_ports.
Proof. split; [done|]. intros m1 m2 m3 [] []. split; congruence. Qed.

Definition keeps_ports {A} (f : M CmState A) : Prop :=
  ∀ st a st', f st = Ok (a, st') → same_ports (cm st) (cm st').
End steps.

(** ** The operations keep the ports *)
Create HintDb keeps_ports.

Section keeps.
Context `{TC : TcpCommon} `{PF : Profile} `{RC : !RecordCrate} `{HC : HeaderCrate}
  `{PC : !PacketCrate} `{CL : Clock} `{WC : WheelCrate}.

Lemma keeps_ports_ret {A} (a : A) : keeps_ports (mret a).
Proof. by intros st b st' [= <- <-]. Qed.
Lemma keeps_ports_bind {A B} (f : M CmState A) (g : A → M CmState B) :
  keeps_ports f → (∀ a, keeps_ports (g a)) → keeps_ports (f ≫= g).
Proof.
  intros Hf Hg st b st'. rw /mbind /M_bind. destruct (f st) as [[a st1]|e] eqn:E; [|done].
  intros H. etransitivity; [by eapply Hf|by eapply Hg].
Qed.
Lemma keeps_ports_gets {A} (g : CmState → A) : keeps_ports (gets g).
Proof. by intros st b st' [= <- <-]. Qed.
Lemma keeps_ports_lift {A} (r : res A) : keeps_ports (lift r).
Proof. intros st b st'. rw /lift. by destruct r; intros [= <- <-]. Qed.
Lemma keeps_ports_assert b : keeps_ports (assert_ b).
Proof. intros st a st'. rw /assert_. by destruct b; intros [= <- <-]. Qed.
Lemma keeps_ports_world {A} (f : M World A) : keeps_ports (on_world f).
Proof. intros st b st'. rw /on_world /zoom. by destruct (f _) as [[]|]; intros [= <- <-]. Qed.
Lemma keeps_ports_free g : keeps_ports (on_cm (λ m, m <| free_ports := g m |>)).
Proof. by intros st b st' [= <- <-]. Qed.
Lemma keeps_ports_map g : keeps_ports (on_cm (λ m, m <| sock2port := g m |>)).
Proof. by intros st b st' [= <- <-]. Qed.
Lemma keeps_ports_wheel idx v : keeps_ports (replace_in_wheel idx v).
Proof. by intros st b st' [= <- <-]. Qed.
Lemma keeps_ports_tick now : keeps_ports (tick now).
Proof. by intros st b st' [= <- <-]. Qed.
Lemma keeps_ports_lookup p : keeps_ports (lookup_con p).
Proof. apply keeps_ports_bind; [apply keeps_ports_gets|intros m; apply keeps_ports_lift]. Qed.
Lemma keeps_ports_store p c : keeps_ports (store_con p c).
Proof.
  intros st a st'. rw /store_con /mbind /M_bind /= /put_con.
  destruct (slot (cm st) p) as [i|]; [|done]. cbn. rw /index_set. destruct (_ && _); [|done].
  intros [= <- <-]. by split; cbn; rw ?length_insert.
Qed.
End keeps.

#[export] Hint Resolve keeps_ports_ret keeps_ports_gets keeps_ports_lift keeps_ports_assert
  keeps_ports_world keeps_ports_free keeps_ports_map keeps_ports_wheel keeps_ports_tick
  keeps_ports_lookup keeps_ports_store : keeps_ports.
#[export] Hint Extern 2 (keeps_ports (_ ≫= _)) => apply keeps_ports_bind; [|intros ?] : keeps_ports.
#[export] Hint Extern 3 (keeps_ports (when ?b _)) => unfold when : keeps_ports.
#[export] Hint Extern 3 (keeps_ports (let '(_, _) := ?x in _)) => destruct x : keeps_ports.
#[export] Hint Extern 3 (keeps_ports (match ?x with _ => _ end)) => destruct x : keeps_ports.

Section conservation.
Context `{TC : TcpCommon} `{PF : Profile} `{RC : !RecordCrate} `{HC : HeaderCrate}
  `{PC : !PacketCrate} `{CL : Clock} `{WC : WheelCrate} `{WL : !WheelLaws}.

Lemma keeps_ports_insert s : keeps_ports (get_mut_or_insert s).
Proof. rw /get_mut_or_insert. auto 20 with keeps_ports. Qed.
Lemma keeps_ports_release p : keeps_ports (release_port p).
Proof. rw /release_port. auto 20 with keeps_ports. Qed.
Lemma keeps_ports_timeout p : keeps_ports (timeout p).
Proof. rw /timeout. auto 20 with keeps_ports. Qed.
Lemma keeps_ports_drain l : keeps_ports (drain_loop l).
Proof. induction l; cbn [drain_loop]; auto using keeps_ports_timeout with keeps_ports. Qed.
Lemma keeps_ports_timeouts n now : keeps_ports (release_timeouts n now).
Proof. induction n; cbn [release_timeouts]; auto 10 using keeps_ports_drain with keeps_ports. Qed.

(** A port that the table does not have makes the access panic. *)
Lemma get_mut_con_Ok m p c :
  range_ok m → 0 ≤ p < 65536 → get_mut_con p m = Ok c → con_at m p = Some c.
Proof.
  intros Hr Hp. destruct (con_at m p) as [c0|] eqn:Hc.
  { rw (get_mut_con_eq _ _ _ Hr Hc). by intros [= ->]. }
  pose proof (range_bound m Hr) as Hb. pose proof (range_base m Hr).
  revert Hc. rw /con_at /get_mut_con /slot /arith /index. destruct (Z.leb_spec (tcp_port_base m) p).
  - rw (proj2 (Z.leb_le 0 _)); [lia|]. rw (proj2 (Z.ltb_lt _ (2 ^ 16))); [lia|]. cbn.
    rw (proj2 (Z.leb_le 0 _)); [lia|]. by intros ->.
  - rw (proj2 (Z.leb_gt 0 (p - _))); [lia|]. cbn. destruct overflow_checks; [done|]. cbn.
    assert (wrap 16 (p - tcp_port_base m) = p - tcp_port_base m + 65536) as ->.
    { rw /wrap. symmetry. by apply (Z.mod_unique _ _ (-1)); lia. }
    rw (proj2 (Z.leb_le 0 _)); [lia|]. rw lookup_ge_None_2 //. lia.
Qed.

Lemma lookup_con_Ok p c st st' :
  range_ok (cm st) → 0 ≤ p < 65536 → lookup_con p st = Ok (c, st') → con_at (cm st) p = Some c.
Proof.
  intros Hr Hp. rw /lookup_con /mbind /M_bind /= /lift.
  destruct (get_mut_con p (cm st)) as [c'|] eqn:Hg; [|done]. intros [= -> _].
  by apply get_mut_con_Ok.
Qed.

Lemma same_ports_usable m m' : same_ports m m' → usable_ports m' = usable_ports m.
Proof. intros [Hb Hl]. by rw /usable_ports Hb Hl. Qed.

Lemma any_quiet m : quiet_cm any_panic m.
Proof. by right. Qed.

(** A fetch that finds no connection with a record *)
Lemma fetch_no_records st s o st' :
  w_stores (cm_world st) !! record_store (cm st) = Some s →
  w_stores (cm_world st) !! w_next_store (cm_world st) = None →
  Forall (λ c, holds_store (record_store (cm st)) c = false) (port2con (cm st)) →
  fetch_c_records st = Ok (o, st') →
  cm st' = (cm st) <| record_store := w_next_store (cm_world st) |>.
Proof.
  intros Hs Hn Hno%strong_count_one. rw (fetch_c_records_eq st s) //. intros [= _ <-].
  by rw /fetched /= decide_True.
Qed.

Lemma cm_step_inv st st' : cm_step st st' → cm_inv (cm st) → cm_inv (cm st').
Proof.
  intros Hstep Hi. pose proof (inv_range _ Hi) as Hr.
  destruct Hstep as [s o st' Hs Hrun|p st' Hp Hrun|n now o st' Hlag Hent Hrun
                    |p c c' st' Hp Hlook Hport Hsock Hrun|s o st' Hs Hn Hno Hrun|w wh].
  - refine (wp_elim any_panic _ (λ _ st', cm_inv (cm st')) _ _ _ _ Hrun).
    apply wp_get_mut_or_insert; [done|apply any_quiet|done..|].
    intros p rest c0 d w' Hn Hf Hc _ _. by apply allocated_inv.
  - assert (∃ c, con_at (cm st) p = Some c) as [c Hc].
    { revert Hrun. rw /release_port /mbind /M_bind.
      destruct (lookup_con p st) as [[c st1]|e] eqn:Hl; [|done]. exists c. by eapply lookup_con_Ok. }
    refine (wp_elim any_panic _ (λ _ st', cm_inv (cm st')) _ _ _ _ Hrun). destruct (in_use c) eqn:Hin.
    + apply (wp_release_port_used _ _ c); [done..|by right|]. by apply deallocated_inv.
    + by apply (wp_release_port_free _ _ c).
  - refine (wp_elim any_panic _ (λ _ st', cm_inv (cm st')) _ _ _ _ Hrun).
    by apply wp_release_timeouts; [|apply any_quiet|..].
  - apply lookup_con_Ok in Hlook; [|done..].
    refine (wp_elim any_panic _ (λ _ st', cm_inv (cm st')) _ _ _ _ Hrun).
    apply (wp_store_con _ _ _ c); [done..|]. apply (inv_touch _ _ c); [done..| |done].
    by rw /in_use Hport.
  - rw (fetch_no_records st s o st') //. destruct Hi as [[Hm Hb] ? ? ? ? ?]. by split.
  - done.
Qed.

Lemma cm_step_ports st st' : cm_step st st' → same_ports (cm st) (cm st').
Proof.
  intros [s o st1 _ H|p st1 _ H|n now o st1 _ _ H|p c c' st1 _ _ _ _ H|s o st1 Hs Hn Hno H|w wh].
  - by eapply keeps_ports_insert.
  - by eapply keeps_ports_release.
  - by eapply keeps_ports_timeouts.
  - by eapply keeps_ports_store.
  - by rw (fetch_no_records st s o st1).
  - done.
Qed.

Lemma cm_steps st st' :
  rtc cm_step st st' → cm_inv (cm st) → cm_inv (cm st') ∧ same_ports (cm st) (cm st').
Proof.
  induction 1 as [st|st1 st2 st3 Hstep _ IH]; [done|]. intros Hi.
  destruct IH as [H1 H2]; [by eapply cm_step_inv|]. split; [done|].
  etransitivity; [by apply cm_step_ports|done].
Qed.

(** C20. Conservation of ports: from [ConnectionManager::new] on, after any sequence
    of allocations, releases, timeouts, handled packets and fetches that find no
    record of a connection, the ports in the free queue and those of the
    connections in use together are, up to order and without repetition, all
    ports of the range but port 0; the ports in use are those some socket is
    mapped to. No port is lost or given out twice. *)
Theorem ports_conserved shuffle q ip base detailed w k m w' wh st :
  0 ≤ k ≤ 16 → 0 ≤ base < 65536 → base mod 2 ^ k = 0 → 0 < base + 2 ^ k - 1 →
  tcp_dst_port_mask q = 65536 - 2 ^ k →
  (∀ lo hi, shuffle lo hi ≡ₚ seqZ lo (hi - lo + 1)) →
  cm_new shuffle q ip base detailed w = Ok (m, w') →
  rtc cm_step (mkCmState m w' wh) st →
  free_ports (cm st) ++ used_ports (cm st) ≡ₚ filter (λ p, p ≠ 0) (seqZ base (2 ^ k)) ∧
  ∀ p, p ∈ used_ports (cm st) ↔ ∃ s, sock2port (cm st) !! s = Some p.
Proof.
  intros Hk Hb Hmod Hpos Hmask Hsh Hnew Hrun.
  rw (cm_new_eq shuffle q ip base detailed w k) // in Hnew. injection Hnew as Hm _.
  assert (cm_inv m ∧ usable_ports m = filter (λ p, p ≠ 0) (seqZ base (2 ^ k))) as [Hi Hu].
  { subst m. split.
    - apply cm_new_inv_of; [done..|]. rw Hsh. by f_equiv; lia.
    - rw /usable_ports /= length_replicate Z2Nat.id //. lia. }
  destruct (cm_steps _ _ Hrun Hi) as [Hi' Hsame%same_ports_usable].
  cbn in Hsame. rw -Hu -Hsame. split; [by apply ports_partition|].
  intros p. rw list_elem_of_filter usable_elem. split.
  - intros [Hin (_ & c & Hc)]. rw Hc in Hin. injection Hin as Hin.
    exists (sock_of c). by apply (inv_used _ Hi' p c).
  - intros [s (c & Hc & Hin & _)%(inv_map _ Hi')]. rw Hc /= Hin. split; [done|].
    destruct (inv_used _ Hi' p c Hc Hin) as [<- _]. split; [|by exists c].
    revert Hin. rw /in_use. by destruct (Z.eqb_spec (proxy_port c) 0).
Qed.
End conservation.

(** ** Witness: a socket gets the first port, and the port is released *)
Import Sample SampleManager.

Definition manager0 : res (ConnectionManager * World) :=
  cm_new (λ lo hi, seqZ lo (hi - lo + 1)) (65532 : @PortQueue headers) 167772161 4096 false world0.
Definition new0 : CmState :=
  match manager0 with Ok (m, w) => mkCmState m w wheel1 | Panic _ => st0 end.
Definition inserted0 : CmState := final (get_mut_or_insert sock1) new0.
Definition released0 : CmState := final (release_port 4096) inserted0.

Lemma new0_made : ∃ m w', manager0 = Ok (m, w') ∧ new0 = mkCmState m w' wheel1.
Proof.
  assert (match manager0 with Ok _ => true | Panic _ => false end = true) as H by by vm_compute.
  revert H. rw /new0. destruct manager0 as [[m w']|]; [by exists m, w'|done].
Qed.

Lemma steps0 : rtc cm_step new0 released0.
Proof.
  eapply rtc_l; [|apply rtc_once].
  - apply (step_insert new0 sock1 (Some 4096)); [done|]. apply final_run. by vm_compute.
  - apply (step_release inserted0 4096); [done|]. apply final_run. by vm_compute.
Qed.

Lemma ports_conserved_witness :
  rtc cm_step new0 released0 ∧
  free_ports (cm released0) ++ used_ports (cm released0) ≡ₚ [4096; 4097; 4098; 4099] ∧
  free_ports (cm inserted0) = [4097; 4098; 4099] ∧ free_ports (cm released0) = [4097; 4098; 4099; 4096].
Proof.
  split; [exact steps0|]. split; [|by vm_compute].
  destruct new0_made as (m & w' & Hnew & Hst). pose proof steps0 as Hsteps. rw Hst in Hsteps.
  assert (filter (λ p, p ≠ 0) (seqZ 4096 (2 ^ 2)) = [4096; 4097; 4098; 4099]) as <- by by vm_compute.
  apply (ports_conserved (λ lo hi, seqZ lo (hi - lo + 1)) (65532 : @PortQueue headers) 167772161 4096 false
    world0 2 m w' wheel1 released0 ltac:(done) ltac:(done) ltac:(done) ltac:(done) ltac:(done)
    (λ _ _, reflexivity _) Hnew Hsteps).
Defined.
