(* ===== verification/Packets.v ===== *)
(** * Reasoning about the packet functions

    [hdr m p] collects the header fields of a packet that the proxy reads and
    writes; every operation on packets acts on it as a function. [wp_px_*] are
    the rules of the context operations of [Proxy.v], [px] applies them. *)
From Stdlib Require Import ZArith Lia ssreflect.
From S2P Require Import Prelude Crates Extension Connection CManager Proxy.
#[local] Open Scope general_if_scope.

Section views.
Context `{HC : HeaderCrate}.

(** What a packet shows of its headers *)
Record Hdr : Type := mkHdr {
  v_mac_src : MacAddress; v_mac_dst : MacAddress;
  v_ip_src : Z; v_ip_dst : Z;
  v_sport : Z; v_dport : Z; v_seq : Z; v_ack : Z;
  v_syn : bool; v_ackf : bool; v_fin : bool; v_rst : bool; v_psh : bool;
}.
#[global] Instance eta_Hdr : Eta Hdr := λ r,
  mkHdr (v_mac_src r) (v_mac_dst r) (v_ip_src r) (v_ip_dst r) (v_sport r) (v_dport r)
    (v_seq r) (v_ack r) (v_syn r) (v_ackf r) (v_fin r) (v_rst r) (v_psh r).

Definition hdr_of (hm : MacHeader) (hi : IpHeader) (ht : TcpHeader) : Hdr := {|
  v_mac_src := mac_get MacSrc hm; v_mac_dst := mac_get MacDst hm;
  v_ip_src := ip_get IpSrc hi; v_ip_dst := ip_get IpDst hi;
  v_sport := tcp_get SrcPort ht; v_dport := tcp_get DstPort ht;
  v_seq := tcp_get SeqNum ht; v_ack := tcp_get AckNum ht;
  v_syn := tcp_flag SYN ht; v_ackf := tcp_flag ACK ht; v_fin := tcp_flag FIN ht;
  v_rst := tcp_flag RST ht; v_psh := tcp_flag PSH ht |}.

Definition v_set_mac (f : mac_field) (a : MacAddress) (v : Hdr) : Hdr :=
  match f with MacSrc => v <| v_mac_src := a |> | MacDst => v <| v_mac_dst := a |> end.
Definition v_set_ip (f : ip_field) (a : Z) (v : Hdr) : Hdr :=
  match f with IpSrc => v <| v_ip_src := a |> | IpDst => v <| v_ip_dst := a |> end.
Definition v_set_tcp (f : tcp_field) (n : Z) (v : Hdr) : Hdr :=
  match f with
  | SrcPort => v <| v_sport := n |> | DstPort => v <| v_dport := n |>
  | SeqNum => v <| v_seq := n |> | AckNum => v <| v_ack := n |>
  end.
Definition v_set_flag (b : tcp_bit) (d : bool) (v : Hdr) : Hdr :=
  match b with
  | SYN => v <| v_syn := d |> | ACK => v <| v_ackf := d |> | FIN => v <| v_fin := d |>
  | RST => v <| v_rst := d |> | PSH => v <| v_psh := d |>
  end.

(** A reply to [v] with sequence number [s] that acknowledges [inc] *)
Definition v_reply (s inc : Z) (v : Hdr) : Hdr :=
  mkHdr (v_mac_dst v) (v_mac_src v) (v_ip_dst v) (v_ip_src v) (v_dport v) (v_sport v)
    s (wrapping_add32 (v_seq v) inc) (v_syn v) true (v_fin v) (v_rst v) (v_psh v).

(** [v] sent from the proxy ([a], [ip], [pt]) to the server [srv] *)
Definition v_to_server (srv : L234Data) (pt : Z) (a : MacAddress) (ip : Z) (v : Hdr) : Hdr :=
  mkHdr a (mac srv) ip (l234_ip srv) pt (l234_port srv)
    (v_seq v) (v_ack v) (v_syn v) (v_ackf v) (v_fin v) (v_rst v) (v_psh v).

(** A header whose ports and numbers have their width *)
Definition v_seq_ok (v : Hdr) : Prop := 0 ≤ v_seq v < 2 ^ 32 ∧ 0 ≤ v_ack v < 2 ^ 32.
End views.

Section packet_views.
Context `{HC : HeaderCrate} `{PC : !PacketCrate} `{HL : !HeaderLaws} `{PL : !PacketLaws}.

Definition hdr (m : PacketMem) (p : Pdu) : Hdr := hdr_of (mac_of m p) (ip_of m p) (tcp_of m p).

Lemma hdr_ok m p : v_seq_ok (hdr m p).
Proof. split; apply tcp_get_range. Qed.

Lemma hdr_same m m' p : same_headers m m' p → hdr m' p = hdr m p.
Proof. intros []. rw /hdr /hdr_of. by f_equal. Qed.

Lemma hdr_same_buf m p q : same_buf p q → hdr m p = hdr m q.
Proof. intros. by rw /hdr (mac_of_same m p q) // (ip_of_same m p q) // (tcp_of_same m p q). Qed.

Lemma hdr_mac_set m p f a :
  hdr (mac_write p (mac_set f a (mac_of m p)) m) p = v_set_mac f a (hdr m p).
Proof.
  rw /hdr mac_of_write ip_of_mac_write tcp_of_mac_write /hdr_of !mac_get_set.
  by destruct f.
Qed.

Lemma hdr_ip_set m p f a :
  0 ≤ a < 2 ^ 32 → hdr (ip_write p (ip_set f a (ip_of m p)) m) p = v_set_ip f a (hdr m p).
Proof.
  intros. rw /hdr mac_of_ip_write ip_of_write tcp_of_ip_write /hdr_of !ip_get_set //.
  by destruct f.
Qed.

Lemma hdr_ip_trim m p n :
  hdr (ip_write p (ip_trim_length_by n (ip_of m p)) m) p = hdr m p.
Proof. by rw /hdr mac_of_ip_write ip_of_write tcp_of_ip_write /hdr_of !ip_get_trim. Qed.

Lemma hdr_tcp_set m p f n :
  0 ≤ n < 2 ^ tcp_width f →
  hdr (tcp_write p (tcp_set f n (tcp_of m p)) m) p = v_set_tcp f n (hdr m p).
Proof.
  intros. rw /hdr mac_of_tcp_write ip_of_tcp_write tcp_of_write /hdr_of !tcp_get_set //.
  rw !tcp_flag_set. by destruct f.
Qed.

Lemma hdr_tcp_set_flag m p b d :
  hdr (tcp_write p (tcp_set_flag b d (tcp_of m p)) m) p = v_set_flag b d (hdr m p).
Proof.
  rw /hdr mac_of_tcp_write ip_of_tcp_write tcp_of_write /hdr_of !tcp_get_set_flag.
  rw !tcp_flag_set_flag. by destruct b.
Qed.

Lemma hdr_checksum m p q : hdr (prepare_checksum_and_ttl p m) q = hdr m q.
Proof. apply hdr_same, checksum_packets. Qed.
Lemma hdr_options m p q : hdr (remove_tcp_options p m) q = hdr m q.
Proof. apply hdr_same, options_packets. Qed.
Lemma hdr_offload m p q : hdr (set_tcp_ipv4_checksum_tx_offload p m) q = hdr m q.
Proof. apply hdr_same, offload_packets. Qed.
Lemma hdr_clone m p q : hdr (pdu_clone p m).2 q = hdr m q.
Proof. apply hdr_same, clone_packets. Qed.
Lemma hdr_dereference m p q : hdr (dereference_mbuf p m) q = hdr m q.
Proof. apply hdr_same, dereference_packets. Qed.
Lemma hdr_padding m n p q : hdr (add_padding n p m) q = hdr m q.
Proof. apply hdr_same, padding_packets. Qed.
Lemma hdr_payload_write m p l q : hdr (payload_write p l m) q = hdr m q.
Proof. destruct (payload_write_hdr p l m q) as (H1 & H2 & H3). by rw /hdr H1 H2 H3. Qed.

(** The reply's sequence number is set afterwards. *)
Lemma hdr_reply m p inc :
  ∃ s, hdr (make_reply_packet p inc m) p = v_reply s inc (hdr m p).
Proof.
  exists (tcp_get SeqNum (tcp_of (make_reply_packet p inc m) p)).
  destruct (reply_mac p inc m) as [H1 H2], (reply_ip p inc m) as [H3 H4],
    (reply_ports p inc m) as [H5 H6], (reply_ack p inc m) as [H7 H8].
  rw /hdr /hdr_of /v_reply /=. f_equal; first [done|by apply reply_flags].
Qed.

Lemma hdr_reply_seq m p inc n :
  0 ≤ n < 2 ^ 32 →
  let m' := make_reply_packet p inc m in
  hdr (tcp_write p (tcp_set SeqNum n (tcp_of m' p)) m') p = v_reply n inc (hdr m p).
Proof.
  intros Hn. cbv zeta. rw (hdr_tcp_set _ p SeqNum n Hn). by destruct (hdr_reply m p inc) as [s ->].
Qed.

Lemma hdr_set_header m srv pt p a ip :
  0 ≤ l234_port srv < 2 ^ 16 → 0 ≤ pt < 2 ^ 16 →
  hdr (set_header srv pt p a ip m) p = v_to_server srv pt a ip (hdr m p).
Proof.
  intros Hs Hp.
  destruct (set_header_mac srv pt p a ip m) as [H1 H2], (set_header_ip srv pt p a ip m) as [H3 H4],
    (set_header_ports srv pt p a ip m Hs Hp) as [H5 H6].
  rw /hdr /hdr_of /v_to_server H1 H2 H3 H4 H5 H6 !set_header_flag.
  by rw !set_header_tcp; [by left|by right|].
Qed.

Lemma hdr_other_write m p q hm hi ht pl :
  ¬ same_buf p q →
  hdr (mac_write p hm m) q = hdr m q ∧ hdr (ip_write p hi m) q = hdr m q ∧
  hdr (tcp_write p ht m) q = hdr m q ∧ hdr (payload_write p pl m) q = hdr m q.
Proof.
  intros Hn. destruct (write_other p q hm hi ht pl m Hn) as (H1 & H2 & H3 & H4).
  split_and!; apply hdr_same, same_hdrs; done.
Qed.
(** *** Other packets stay as they are *)
(** A buffer an operation does not touch: its packet and its reference count *)
Record untouched (m m' : PacketMem) (q : Pdu) : Prop := {
  ut_packet :> same_packet m m' q;
  ut_refcnt : pdu_refcnt m' q = pdu_refcnt m q;
}.

Lemma same_packet_refl m q : same_packet m m q.
Proof. by repeat split. Qed.
Lemma same_packet_trans m1 m2 m3 q : same_packet m1 m2 q → same_packet m2 m3 q → same_packet m1 m3 q.
Proof.
  intros [[A1 A2 A3 A4] A5] [[B1 B2 B3 B4] B5]. repeat split; intros; congruence.
Qed.

Lemma other_mac p q h m0 m : ¬ same_buf p q → same_packet m0 m q → same_packet m0 (mac_write p h m) q.
Proof.
  intros Hn H. eapply same_packet_trans; [exact H|].
  by destruct (write_other p q h (ip_of m p) (tcp_of m p) [] m Hn).
Qed.
Lemma other_ip p q h m0 m : ¬ same_buf p q → same_packet m0 m q → same_packet m0 (ip_write p h m) q.
Proof.
  intros Hn H. eapply same_packet_trans; [exact H|].
  by destruct (write_other p q (mac_of m p) h (tcp_of m p) [] m Hn) as (_ & ? & _).
Qed.
Lemma other_tcp p q h m0 m : ¬ same_buf p q → same_packet m0 m q → same_packet m0 (tcp_write p h m) q.
Proof.
  intros Hn H. eapply same_packet_trans; [exact H|].
  by destruct (write_other p q (mac_of m p) (ip_of m p) h [] m Hn) as (_ & _ & ? & _).
Qed.
Lemma other_payload p q l m0 m : ¬ same_buf p q → same_packet m0 m q → same_packet m0 (payload_write p l m) q.
Proof.
  intros Hn H. eapply same_packet_trans; [exact H|].
  by destruct (write_other p q (mac_of m p) (ip_of m p) (tcp_of m p) l m Hn) as (_ & _ & _ & ?).
Qed.
Lemma other_checksum p q m0 m : same_packet m0 m q → same_packet m0 (prepare_checksum_and_ttl p m) q.
Proof. intros H. eapply same_packet_trans; [exact H|apply checksum_packets]. Qed.
Lemma other_options p q m0 m : same_packet m0 m q → same_packet m0 (remove_tcp_options p m) q.
Proof. intros H. eapply same_packet_trans; [exact H|apply options_packets]. Qed.
Lemma other_clone p q m0 m : same_packet m0 m q → same_packet m0 (pdu_clone p m).2 q.
Proof. intros H. eapply same_packet_trans; [exact H|apply clone_packets]. Qed.
Lemma other_dereference p q m0 m : same_packet m0 m q → same_packet m0 (dereference_mbuf p m) q.
Proof. intros H. eapply same_packet_trans; [exact H|apply dereference_packets]. Qed.
Lemma other_reply p q inc m0 m : ¬ same_buf p q → same_packet m0 m q → same_packet m0 (make_reply_packet p inc m) q.
Proof. intros Hn H. eapply same_packet_trans; [exact H|by apply reply_other]. Qed.
Lemma other_set_header p q srv pt a ip m0 m :
  ¬ same_buf p q → same_packet m0 m q → same_packet m0 (set_header srv pt p a ip m) q.
Proof. intros Hn H. eapply same_packet_trans; [exact H|by apply set_header_other]. Qed.
Lemma other_push_mac p q h m0 m : ¬ same_buf p q → same_packet m0 m q → same_packet m0 (push_mac h p m).2 q.
Proof. intros Hn H. eapply same_packet_trans; [exact H|by apply push_mac_spec]. Qed.
Lemma other_push_ip p q h m0 m : ¬ same_buf p q → same_packet m0 m q → same_packet m0 (push_ip h p m).2 q.
Proof. intros Hn H. eapply same_packet_trans; [exact H|by apply push_ip_spec]. Qed.
Lemma other_push_tcp p q h m0 m : ¬ same_buf p q → same_packet m0 m q → same_packet m0 (push_tcp h p m).2 q.
Proof. intros Hn H. eapply same_packet_trans; [exact H|by apply push_tcp_spec]. Qed.
Lemma other_replace_tcp p q h m0 m : ¬ same_buf p q → same_packet m0 m q → same_packet m0 (replace_tcp h p m) q.
Proof. intros Hn H. eapply same_packet_trans; [exact H|by apply replace_tcp_spec]. Qed.
Lemma other_padding p q n m0 m : ¬ same_buf p q → same_packet m0 m q → same_packet m0 (add_padding n p m) q.
Proof. intros Hn H. eapply same_packet_trans; [exact H|by apply padding_other]. Qed.
Lemma other_if (b : bool) q m0 m1 m2 :
  same_packet m0 m1 q → same_packet m0 m2 q → same_packet m0 (if b then m1 else m2) q.
Proof. by destruct b. Qed.
End packet_views.

Create HintDb others.
#[export] Hint Resolve same_packet_refl other_mac other_ip other_tcp other_payload other_checksum
  other_options other_clone other_dereference other_reply other_set_header other_push_mac
  other_push_ip other_push_tcp other_replace_tcp other_padding other_if : others.

(** ** The context operations, on a context in constructor form *)
Section px_rules.
Context `{TC : TcpCommon} `{PF : Profile} `{RC : !RecordCrate} `{HC : HeaderCrate}
  `{PC : !PacketCrate} `{CL : Clock} `{WC : WheelCrate}.
Context (E : panic → Prop).
Context (ss : gmap nat ProxyRecStore) (ns ck : nat) (m : PacketMem) (wh : TimerWheel)
  (cc cs : TcpCounter) (al : option (list Pdu)) (qu : list Pdu) (c : ProxyConnection)
  (p : Pdu) (g : Z) (rel : option Z).
#[local] Abbreviation X := (mkCtx (mkWorld ss ns ck m) wh cc cs al qu c p g rel).

Lemma wp_px_mem (Q : PacketMem → Ctx → Prop) : Q m X → wp mem E Q X.
Proof. done. Qed.
Lemma wp_px_on_mem f (Q : unit → Ctx → Prop) :
  Q tt (mkCtx (mkWorld ss ns ck (f m)) wh cc cs al qu c p g rel) → wp (on_mem f) E Q X.
Proof. done. Qed.
Lemma wp_px_tcp_hdr q (Q : TcpHeader → Ctx → Prop) : Q (tcp_of m q) X → wp (tcp_hdr q) E Q X.
Proof. done. Qed.
Lemma wp_px_on_mac q f (Q : unit → Ctx → Prop) :
  Q tt (mkCtx (mkWorld ss ns ck (mac_write q (f (mac_of m q)) m)) wh cc cs al qu c p g rel) →
  wp (on_mac q f) E Q X.
Proof. done. Qed.
Lemma wp_px_on_ip q f (Q : unit → Ctx → Prop) :
  Q tt (mkCtx (mkWorld ss ns ck (ip_write q (f (ip_of m q)) m)) wh cc cs al qu c p g rel) →
  wp (on_ip q f) E Q X.
Proof. done. Qed.
Lemma wp_px_on_tcp q f (Q : unit → Ctx → Prop) :
  Q tt (mkCtx (mkWorld ss ns ck (tcp_write q (f (tcp_of m q)) m)) wh cc cs al qu c p g rel) →
  wp (on_tcp q f) E Q X.
Proof. done. Qed.
Lemma wp_px_con {A} (f : ProxyConnection → A) (Q : A → Ctx → Prop) : Q (f c) X → wp (con f) E Q X.
Proof. done. Qed.
Lemma wp_px_on_con f (Q : unit → Ctx → Prop) :
  Q tt (mkCtx (mkWorld ss ns ck m) wh cc cs al qu (f c) p g rel) → wp (on_con f) E Q X.
Proof. done. Qed.
Lemma wp_px_pdu (Q : Pdu → Ctx → Prop) : Q p X → wp (gets x_pdu) E Q X.
Proof. done. Qed.
Lemma wp_px_wheel (Q : TimerWheel → Ctx → Prop) : Q wh X → wp (gets x_wheel) E Q X.
Proof. done. Qed.
Lemma wp_px_alloc (Q : option (list Pdu) → Ctx → Prop) : Q al X → wp (gets x_alloc) E Q X.
Proof. done. Qed.
Lemma wp_px_gets_con (Q : ProxyConnection → Ctx → Prop) : Q c X → wp (gets x_con) E Q X.
Proof. done. Qed.
Lemma wp_px_count_c k (Q : unit → Ctx → Prop) :
  Q tt (mkCtx (mkWorld ss ns ck m) wh (counter_incr k cc) cs al qu c p g rel) →
  wp (count_c k) E Q X.
Proof. done. Qed.
Lemma wp_px_count_s k (Q : unit → Ctx → Prop) :
  Q tt (mkCtx (mkWorld ss ns ck m) wh cc (counter_incr k cs) al qu c p g rel) →
  wp (count_s k) E Q X.
Proof. done. Qed.
Lemma wp_px_set_group n (Q : unit → Ctx → Prop) :
  Q tt (mkCtx (mkWorld ss ns ck m) wh cc cs al qu c p n rel) → wp (set_group n) E Q X.
Proof. done. Qed.
Lemma wp_px_set_release n (Q : unit → Ctx → Prop) :
  Q tt (mkCtx (mkWorld ss ns ck m) wh cc cs al qu c p g (Some n)) → wp (set_release n) E Q X.
Proof. done. Qed.
Lemma wp_px_enqueue q (Q : unit → Ctx → Prop) :
  Q tt (mkCtx (mkWorld ss ns ck m) wh cc cs al (qu ++ [q]) c p g rel) → wp (enqueue_one q) E Q X.
Proof. done. Qed.
Lemma wp_px_set_pdu q (Q : unit → Ctx → Prop) :
  Q tt (mkCtx (mkWorld ss ns ck m) wh cc cs al qu c q g rel) →
  wp (modify (λ x, x <| x_pdu := q |>)) E Q X.
Proof. done. Qed.
Lemma wp_px_set_wheel w (Q : unit → Ctx → Prop) :
  Q tt (mkCtx (mkWorld ss ns ck m) w cc cs al qu c p g rel) →
  wp (modify (λ x, x <| x_wheel := w |>)) E Q X.
Proof. done. Qed.
Lemma wp_px_set_alloc b (Q : unit → Ctx → Prop) :
  Q tt (mkCtx (mkWorld ss ns ck m) wh cc cs b qu c p g rel) →
  wp (modify (λ x, x <| x_alloc := b |>)) E Q X.
Proof. done. Qed.
Lemma wp_px_rdtsc (Q : Z → Ctx → Prop) :
  Q (tsc_reading ck) (mkCtx (mkWorld ss ns (S ck) m) wh cc cs al qu c p g rel) →
  wp (on_x_world rdtsc) E Q X.
Proof. done. Qed.

(** A method call on the connection *)
Lemma wp_px_con_do f (Q : unit → Ctx → Prop) :
  wp (f c) E (λ c' w', Q tt (mkCtx w' wh cc cs al qu c' p g rel)) (mkWorld ss ns ck m) →
  wp (con_do f) E Q X.
Proof.
  intros Hf. rw /wp /con_do /mbind /M_bind /gets /on_x_world /zoom /=.
  move: Hf. rw /wp. by destruct (f c _) as [[c' w']|e].
Qed.
End px_rules.

(** Record keeping, as seen from the context: the packet memory stays. *)
Section px_records.
Context `{TC : TcpCommon} `{PF : Profile} `{RC : !RecordCrate} `{HC : HeaderCrate}
  `{PC : !PacketCrate} `{CL : Clock} `{WC : WheelCrate}.
Context (E : panic → Prop).
Context (ss : gmap nat ProxyRecStore) (ns ck : nat) (m : PacketMem) (wh : TimerWheel)
  (cc cs : TcpCounter) (al : option (list Pdu)) (qu : list Pdu) (c : ProxyConnection)
  (p : Pdu) (g : Z) (rel : option Z).
#[local] Abbreviation X := (mkCtx (mkWorld ss ns ck m) wh cc cs al qu c p g rel).

Lemma wp_px_c_push st (Q : unit → Ctx → Prop) :
  quiet E c →
  (∀ ss' ns' ck', Q tt (mkCtx (mkWorld ss' ns' ck' m) wh cc cs al qu
     (c <| client_state_u8 := state_as_u8 st |>) p g rel)) →
  wp (con_do (c_push_state st)) E Q X.
Proof. intros Hq HQ. apply wp_px_con_do, wp_c_push_state; [done|]. intros [] [= ->]. apply HQ. Qed.

Lemma wp_px_s_push st (Q : unit → Ctx → Prop) :
  quiet E c →
  (∀ ss' ns' ck', Q tt (mkCtx (mkWorld ss' ns' ck' m) wh cc cs al qu
     (c <| server_state_u8 := state_as_u8 st |>) p g rel)) →
  wp (con_do (s_push_state st)) E Q X.
Proof. intros Hq HQ. apply wp_px_con_do, wp_s_push_state; [done|]. intros [] [= ->]. apply HQ. Qed.

Lemma wp_px_cause ca (Q : unit → Ctx → Prop) :
  quiet E c →
  (∀ ss' ns' ck', Q tt (mkCtx (mkWorld ss' ns' ck' m) wh cc cs al qu c p g rel)) →
  wp (con_do (set_release_cause ca)) E Q X.
Proof. intros Hq HQ. apply wp_px_con_do, wp_set_release_cause; [done|]. intros [] [= ->]. apply HQ. Qed.

Lemma wp_px_s_cause ca (Q : unit → Ctx → Prop) :
  quiet E c →
  (∀ ss' ns' ck', Q tt (mkCtx (mkWorld ss' ns' ck' m) wh cc cs al qu c p g rel)) →
  wp (con_do (s_set_release_cause ca)) E Q X.
Proof. intros Hq HQ. apply wp_px_con_do, wp_s_set_release_cause; [done|]. intros [] [= ->]. apply HQ. Qed.

Lemma wp_px_s_init (Q : unit → Ctx → Prop) :
  quiet E c →
  (∀ ss' ns' ck', Q tt (mkCtx (mkWorld ss' ns' ck' m) wh cc cs al qu c p g rel)) →
  wp (con_do s_init) E Q X.
Proof. intros Hq HQ. apply wp_px_con_do, wp_s_init; [done|]. intros [] [= ->]. apply HQ. Qed.
End px_records.

(** One step of a context program *)
Ltac px1 :=
  lazymatch goal with
  | |- wp (mret _) _ _ _ => apply wp_ret
  | |- wp (_ ≫= _) _ _ _ => apply wp_bind
  | |- wp mem _ _ _ => apply wp_px_mem
  | |- wp (on_mem _) _ _ _ => apply wp_px_on_mem
  | |- wp (tcp_hdr _) _ _ _ => apply wp_px_tcp_hdr
  | |- wp (on_mac _ _) _ _ _ => apply wp_px_on_mac
  | |- wp (on_ip _ _) _ _ _ => apply wp_px_on_ip
  | |- wp (on_tcp _ _) _ _ _ => apply wp_px_on_tcp
  | |- wp (con _) _ _ _ => apply wp_px_con
  | |- wp (on_con _) _ _ _ => apply wp_px_on_con
  | |- wp (gets x_pdu) _ _ _ => apply wp_px_pdu
  | |- wp (gets x_wheel) _ _ _ => apply wp_px_wheel
  | |- wp (gets x_alloc) _ _ _ => apply wp_px_alloc
  | |- wp (gets x_con) _ _ _ => apply wp_px_gets_con
  | |- wp (count_c _) _ _ _ => apply wp_px_count_c
  | |- wp (count_s _) _ _ _ => apply wp_px_count_s
  | |- wp (set_group _) _ _ _ => apply wp_px_set_group
  | |- wp (set_release _) _ _ _ => apply wp_px_set_release
  | |- wp (enqueue_one _) _ _ _ => apply wp_px_enqueue
  | |- wp (modify (λ x, x <| x_pdu := _ |>)) _ _ _ => apply wp_px_set_pdu
  | |- wp (modify (λ x, x <| x_wheel := _ |>)) _ _ _ => apply wp_px_set_wheel
  | |- wp (modify (λ x, x <| x_alloc := _ |>)) _ _ _ => apply wp_px_set_alloc
  | |- wp (on_x_world rdtsc) _ _ _ => apply wp_px_rdtsc
  | |- wp (lift (Ok _)) _ _ _ => apply wp_ret
  | |- wp (lift (unwrap (Some _))) _ _ _ => apply wp_ret
  | |- wp (con_do (c_push_state _)) _ _ _ => apply wp_px_c_push; [eauto|intros ? ? ?]
  | |- wp (con_do (s_push_state _)) _ _ _ => apply wp_px_s_push; [eauto|intros ? ? ?]
  | |- wp (con_do (set_release_cause _)) _ _ _ => apply wp_px_cause; [eauto|intros ? ? ?]
  | |- wp (con_do (s_set_release_cause _)) _ _ _ => apply wp_px_s_cause; [eauto|intros ? ? ?]
  | |- wp (con_do s_init) _ _ _ => apply wp_px_s_init; [eauto|intros ? ? ?]
  | |- wp (let _ := _ in _) _ _ _ => idtac
  end; cbv beta zeta.
Ltac px := repeat px1.

(** Packets in other buffers are untouched. *)
Ltac others := eauto 40 with others.

(** The reference count through writes *)
Ltac refcnt :=
  rw ?(refcnt_mac_write, refcnt_ip_write, refcnt_tcp_write, refcnt_payload_write,
       refcnt_padding, refcnt_offload, refcnt_checksum, refcnt_options, refcnt_reply,
       refcnt_set_header, refcnt_push_mac, refcnt_push_ip, refcnt_push_tcp, refcnt_replace_tcp).
