(* ===== verification/Translate.v ===== *)
(** * What the packet functions do

    Exact results of the packet functions of [Proxy.v] on the headers of the
    packet, on the connection and on the queue, as rules for [wp]. *)
From Stdlib Require Import ZArith Lia ssreflect.
From S2P Require Import Prelude Crates Extension Connection CManager Proxy Packets.
#[local] Open Scope general_if_scope.

(** ** Sequence arithmetic *)
Section seqn.
Context `{PF : Profile}.

Lemma wrap_mod_l a b : wrap 32 (wrap 32 a + b) = wrap 32 (a + b).
Proof. by rw /wrap Zplus_mod_idemp_l. Qed.
Lemma wrap_mod_r a b : wrap 32 (a + wrap 32 b) = wrap 32 (a + b).
Proof. by rw /wrap Zplus_mod_idemp_r. Qed.
Lemma wrap_sub_r a b : wrap 32 (a - wrap 32 b) = wrap 32 (a - b).
Proof. by rw /wrap Zminus_mod_idemp_r. Qed.

(** Inserted bytes that the code's [i32] can negate *)
Definition ins_ok (ins : Z) : Prop := - 2 ^ 31 < ins < 2 ^ 31.

Lemma shift_seqn_eq ins n : ins_ok ins → shift_seqn ins n = Ok (wrapping_add32 n ins).
Proof.
  rw /ins_ok /shift_seqn /wrapping_add32 /wrapping_sub32. intros H.
  destruct (Z.leb_spec 0 ins); [by rw wrap_mod_r|].
  rw arith_i32_ok; [lia|]. cbn -[Z.pow]. rw wrap_sub_r.
  by replace (n - - ins) with (n + ins) by lia.
Qed.

Lemma unshift_ackn_eq ins n : ins_ok ins → unshift_ackn ins n = Ok (wrapping_sub32 n ins).
Proof.
  rw /ins_ok /unshift_ackn /wrapping_add32 /wrapping_sub32. intros H.
  destruct (Z.leb_spec 0 ins); [by rw wrap_sub_r|].
  rw arith_i32_ok; [lia|]. cbn -[Z.pow]. rw wrap_mod_r.
  by replace (n + - ins) with (n - ins) by lia.
Qed.

Lemma wrapping_add32_0 n : 0 ≤ n < 2 ^ 32 → wrapping_add32 n 0 = n.
Proof. intros. rw /wrapping_add32 Z.add_0_r. by apply wrap_small. Qed.
Lemma wrapping_sub32_0 n : 0 ≤ n < 2 ^ 32 → wrapping_sub32 n 0 = n.
Proof. intros. rw /wrapping_sub32 Z.sub_0_r. by apply wrap_small. Qed.
End seqn.

Section translate.
Context `{TC : TcpCommon} `{PF : Profile} `{RC : !RecordCrate} `{HC : HeaderCrate}
  `{PC : !PacketCrate} `{CL : Clock} `{WC : WheelCrate} `{HL : !HeaderLaws} `{PL : !PacketLaws} `{RL : !RefcntLaws}.

(** A payload closure that only rewrites the slice it gets *)
Definition payload_closure (E : panic → Prop) (cfg : Config) (pf : list Z → Z → list Z) : Prop :=
  ∀ c pl t w, wp (f_process_payload_c_s cfg c pl t) E (λ r w', r = (c, pf pl t) ∧ w_mem w' = w_mem w) w.

(** ** Client to server *)

(** The header and the connection after [client_to_server] *)
Definition hdr_c2s (cfg : Config) (srv : L234Data) (c : ProxyConnection) (v : Hdr) : Hdr :=
  (v_to_server srv (port c) (mac (me cfg)) (me_ip_s cfg) v)
    <| v_seq := wrapping_add32 (v_seq v) (c2s_inserted_bytes c) |>
    <| v_ack := wrapping_sub32 (v_ack v) (c_seqn c) |>.
Definition con_c2s (c : ProxyConnection) (v : Hdr) : ProxyConnection :=
  let c' := c <| ackn_p2s := wrapping_sub32 (v_ack v) (c_seqn c) |> in
  if v_fin v then c' <| seqn_fin_p2s := wrapping_add32 (v_seq v) (c2s_inserted_bytes c) |> else c'.

(** Setting the sequence number is skipped when it does not change. *)
Lemma hdr_set_unless_0 f m p n ins :
  f = SeqNum ∨ f = AckNum → 0 ≤ n < 2 ^ 32 → (ins = 0 → n = tcp_get f (tcp_of m p)) →
  hdr (if negb (ins =? 0) then tcp_write p (tcp_set f n (tcp_of m p)) m else m) p
  = v_set_tcp f n (hdr m p).
Proof.
  intros Hf Hn H0. destruct (Z.eqb_spec ins 0) as [Hi|Hi].
  - rw (H0 Hi). by destruct Hf as [-> | ->].
  - apply hdr_tcp_set. by destruct Hf as [-> | ->].
Qed.

Lemma wp_px_when_mem E ss ns ck m wh cc cs al qu c p g rel b q f (Q : unit → Ctx → Prop) :
  Q tt (mkCtx (mkWorld ss ns ck (if (b : bool) then tcp_write q (f (tcp_of m q)) m else m))
          wh cc cs al qu c p g rel) →
  wp (when b (on_tcp q f)) E Q (mkCtx (mkWorld ss ns ck m) wh cc cs al qu c p g rel).
Proof. by destruct b. Qed.

Lemma wp_px_when_on_mem E ss ns ck m wh cc cs al qu c p g rel b f (Q : unit → Ctx → Prop) :
  Q tt (mkCtx (mkWorld ss ns ck (if (b : bool) then f m else m)) wh cc cs al qu c p g rel) →
  wp (when b (on_mem f)) E Q (mkCtx (mkWorld ss ns ck m) wh cc cs al qu c p g rel).
Proof. by destruct b. Qed.

Lemma wp_px_when_con E ss ns ck m wh cc cs al qu c p g rel b f (Q : unit → Ctx → Prop) :
  Q tt (mkCtx (mkWorld ss ns ck m) wh cc cs al qu (if (b : bool) then f c else c) p g rel) →
  wp (when b (on_con f)) E Q (mkCtx (mkWorld ss ns ck m) wh cc cs al qu c p g rel).
Proof. by destruct b. Qed.

(** The payload closure is called on a packet with payload only. *)
Definition mem_payload (pf : list Z → Z → list Z) (m : PacketMem) (p : Pdu) : PacketMem :=
  if 0 <? tcp_payload_size m p
  then payload_write p (pf (payload_of m p) (get_tailroom m p)) m else m.

Lemma wp_process_payload E cfg pf p ss ns ck m wh cc cs al qu c p0 g rel (Q : unit → Ctx → Prop) :
  payload_closure E cfg pf →
  (∀ ss' ns' ck', Q tt (mkCtx (mkWorld ss' ns' ck' (mem_payload pf m p)) wh cc cs al qu c p0 g rel)) →
  wp (when (0 <? tcp_payload_size m p) (
    let tailroom := get_tailroom m p in
    c ← gets x_con;
    '(c', pl) ← on_x_world (f_process_payload_c_s cfg c (payload_of m p) tailroom);
    on_con (λ _, c');;
    on_mem (payload_write p pl))) E Q
  (mkCtx (mkWorld ss ns ck m) wh cc cs al qu c p0 g rel).
Proof.
  intros Hpf HQ. rw /mem_payload in HQ. apply wp_when; intros Hs; rw Hs in HQ; [|done].
  px. apply wp_zoom. cbn [x_world].
  eapply wp_mono; [|apply Hpf].
  intros [c' pl'] [ss' ns' ck' m'] [[= -> ->] [= ->]]. px. apply HQ.
Qed.

Lemma wp_client_to_server E cfg pf srv p ss ns ck m wh cc cs al qu c p0 g rel (Q : unit → Ctx → Prop) :
  payload_closure E cfg pf → index (servers cfg) (server_index c) = Ok srv →
  0 ≤ l234_port srv < 2 ^ 16 → 0 ≤ port c < 2 ^ 16 → ins_ok (c2s_inserted_bytes c) →
  (∀ ss' ns' ck' m',
    hdr m' p = hdr_c2s cfg srv c (hdr m p) →
    payload_of m' p = payload_of (mem_payload pf m p) p →
    (∀ q, ¬ same_buf p q → untouched m m' q) →
    Q tt (mkCtx (mkWorld ss' ns' ck' m') wh cc cs al qu (con_c2s c (hdr m p)) p0 g rel)) →
  wp (client_to_server cfg p) E Q (mkCtx (mkWorld ss ns ck m) wh cc cs al qu c p0 g rel).
Proof.
  intros Hpf Hsrv Hsp Hp Hins HQ.
  rw /client_to_server. px. eapply wp_process_payload; [exact Hpf|]. intros ss' ns' ck'.
  set (m1 := mem_payload pf m p).
  assert (hdr m1 p = hdr m p) as Hm1
    by (rw /m1 /mem_payload; destruct (0 <? _); [apply hdr_payload_write|done]).
  px. rw Hsrv. px. rw shift_seqn_eq; [done|].
  set (m2 := set_header srv (port c) p (mac (me cfg)) (me_ip_s cfg) m1).
  assert (hdr m2 p = v_to_server srv (port c) (mac (me cfg)) (me_ip_s cfg) (hdr m p)) as Hm2
    by (by rw /m2 hdr_set_header // Hm1).
  px. apply wp_px_when_mem.
  set (seq' := wrapping_add32 (tcp_get SeqNum (tcp_of m2 p)) (c2s_inserted_bytes c)).
  set (ack' := wrapping_sub32 (tcp_get AckNum (tcp_of m2 p)) (c_seqn c)).
  set (m3 := if negb _ then _ else m2).
  assert (hdr m3 p = (hdr m2 p) <| v_seq := seq' |>) as Hm3.
  { apply hdr_set_unless_0; [by left|apply wrapping_add32_range|]. intros H0.
    rw /seq' H0. apply wrapping_add32_0, tcp_get_range. }
  px. apply wp_px_when_con. px.
  set (m4 := tcp_write p _ m3).
  assert (hdr m4 p = hdr_c2s cfg srv c (hdr m p)) as Hm4.
  { rw /m4 (hdr_tcp_set m3 p AckNum ack'); [apply wrapping_sub32_range|].
    rw Hm3 /hdr_c2s /seq' /ack'.
    change (tcp_get SeqNum (tcp_of m2 p)) with (v_seq (hdr m2 p)).
    change (tcp_get AckNum (tcp_of m2 p)) with (v_ack (hdr m2 p)). by rw Hm2. }
  assert (seq' = wrapping_add32 (v_seq (hdr m p)) (c2s_inserted_bytes c)) as ->
    by (rw /seq'; change (tcp_get SeqNum (tcp_of m2 p)) with (v_seq (hdr m2 p)); by rw Hm2).
  assert (ack' = wrapping_sub32 (v_ack (hdr m p)) (c_seqn c)) as ->
    by (rw /ack'; change (tcp_get AckNum (tcp_of m2 p)) with (v_ack (hdr m2 p)); by rw Hm2).
  change (tcp_flag FIN (tcp_of m4 p)) with (v_fin (hdr m4 p)).
  assert (v_fin (hdr m4 p) = v_fin (hdr m p)) as -> by by rw Hm4.
  apply HQ.
  - by rw hdr_checksum Hm4.
  - destruct (checksum_packets p m4 p) as [_ ->].
    rw /m4 payload_of_tcp_write /m3.
    by destruct (negb _); rw ?payload_of_tcp_write /m2 set_header_payload.
  - intros q Hq. rw /m4 /m3 /m2 /m1 /mem_payload. split; [others|].
    refcnt. destruct (negb _); refcnt; destruct (0 <? _); by refcnt.
Qed.

(** ** Server to client *)
Definition hdr_s2c (cfg : Config) (c : ProxyConnection) (v : Hdr) : Hdr :=
  mkHdr (mac (me cfg)) (client_mac c) (l234_ip (me cfg)) (client_ip c)
    (l234_port (me cfg)) (client_port c)
    (wrapping_add32 (v_seq v) (c_seqn c)) (wrapping_sub32 (v_ack v) (c2s_inserted_bytes c))
    (v_syn v) (v_ackf v) (v_fin v) (v_rst v) (v_psh v).
Definition con_s2c (c : ProxyConnection) (v : Hdr) (len : Z) : ProxyConnection :=
  let c' := c <| ackn_p2c := wrapping_sub32 (v_ack v) (c2s_inserted_bytes c) |> in
  if v_fin v
  then c' <| seqn := wrapping_add32 (wrapping_add32 (v_seq v) (c_seqn c)) (len + 1) |> else c'.

(** A client address the manager accepts *)
Definition sock_ok (c : ProxyConnection) : Prop :=
  0 < client_ip c < 2 ^ 32 ∧ 0 ≤ client_port c < 2 ^ 16.
Definition me_ok (cfg : Config) : Prop :=
  0 ≤ l234_ip (me cfg) < 2 ^ 32 ∧ 0 ≤ l234_port (me cfg) < 2 ^ 16.

(** The six address fields *)
Lemma hdr_readdress cfg c p m :
  sock_ok c → me_ok cfg →
  let m1 := mac_write p (mac_set MacDst (client_mac c) (mac_of m p)) m in
  let m2 := mac_write p (mac_set MacSrc (mac (me cfg)) (mac_of m1 p)) m1 in
  let m3 := ip_write p (ip_set IpDst (client_ip c) (ip_of m2 p)) m2 in
  let m4 := ip_write p (ip_set IpSrc (l234_ip (me cfg)) (ip_of m3 p)) m3 in
  let m5 := tcp_write p (tcp_set SrcPort (l234_port (me cfg)) (tcp_of m4 p)) m4 in
  let m6 := tcp_write p (tcp_set DstPort (client_port c) (tcp_of m5 p)) m5 in
  hdr m6 p = mkHdr (mac (me cfg)) (client_mac c) (l234_ip (me cfg)) (client_ip c)
    (l234_port (me cfg)) (client_port c) (v_seq (hdr m p)) (v_ack (hdr m p))
    (v_syn (hdr m p)) (v_ackf (hdr m p)) (v_fin (hdr m p)) (v_rst (hdr m p)) (v_psh (hdr m p)).
Proof.
  intros [Hi Hp] [Hmi Hmp] m1 m2 m3 m4 m5 m6.
  rw /m6 hdr_tcp_set; [done|]. rw /m5 hdr_tcp_set; [done|].
  rw /m4 hdr_ip_set; [done|]. rw /m3 hdr_ip_set; [lia|].
  by rw /m2 hdr_mac_set /m1 hdr_mac_set.
Qed.

Lemma wp_server_to_client E cfg p ss ns ck m wh cc cs al qu c p0 g rel (Q : unit → Ctx → Prop) :
  sock_ok c → me_ok cfg → ins_ok (c2s_inserted_bytes c) →
  Z.of_nat (length (payload_of m p)) < 2 ^ 32 - 1 →
  (∀ m',
    hdr m' p = hdr_s2c cfg c (hdr m p) → payload_of m' p = payload_of m p →
    (∀ q, ¬ same_buf p q → untouched m m' q) →
    Q tt (mkCtx (mkWorld ss ns ck m') wh cc cs al qu
            (con_s2c c (hdr m p) (Z.of_nat (length (payload_of m p)))) p0 g rel)) →
  wp (server_to_client cfg p) E Q (mkCtx (mkWorld ss ns ck m) wh cc cs al qu c p0 g rel).
Proof.
  intros Hsock Hme Hins Hlen HQ. rw /server_to_client. px.
  rw (sock_Some c); [destruct Hsock; lia|]. px.
  pose proof (hdr_readdress cfg c p m Hsock Hme) as Hm6. cbv zeta in Hm6.
  cbn [fst snd].
  set (m6 := tcp_write p _ _) in Hm6 |- *. rw unshift_ackn_eq; [done|]. px.
  apply wp_px_when_mem.
  set (ack' := wrapping_sub32 (tcp_get AckNum (tcp_of m6 p)) (c2s_inserted_bytes c)).
  set (seq' := wrapping_add32 (tcp_get SeqNum (tcp_of m6 p)) (c_seqn c)).
  set (m7 := if negb _ then _ else m6).
  assert (hdr m7 p = (hdr m6 p) <| v_ack := ack' |>) as Hm7.
  { apply hdr_set_unless_0; [by right|apply wrapping_sub32_range|]. intros H0.
    rw /ack' H0. apply wrapping_sub32_0, tcp_get_range. }
  px. set (m8 := tcp_write p _ m7).
  assert (hdr m8 p = hdr_s2c cfg c (hdr m p)) as Hm8.
  { rw /m8 (hdr_tcp_set m7 p SeqNum seq'); [apply wrapping_add32_range|].
    rw Hm7 /hdr_s2c /seq' /ack'.
    change (tcp_get SeqNum (tcp_of m6 p)) with (v_seq (hdr m6 p)).
    change (tcp_get AckNum (tcp_of m6 p)) with (v_ack (hdr m6 p)). by rw Hm6. }
  assert (payload_of m8 p = payload_of m p) as Hpl.
  { rw /m8 payload_of_tcp_write /m7. destruct (negb _);
      by rw /m6 !payload_of_tcp_write !payload_of_ip_write !payload_of_mac_write. }
  assert (seq' = wrapping_add32 (v_seq (hdr m p)) (c_seqn c)) as ->
    by (rw /seq'; change (tcp_get SeqNum (tcp_of m6 p)) with (v_seq (hdr m6 p)); by rw Hm6).
  assert (ack' = wrapping_sub32 (v_ack (hdr m p)) (c2s_inserted_bytes c)) as ->
    by (rw /ack'; change (tcp_get AckNum (tcp_of m6 p)) with (v_ack (hdr m6 p)); by rw Hm6).
  assert (∀ c', c' = con_s2c c (hdr m p) (Z.of_nat (length (payload_of m p))) →
    wp (on_mem (prepare_checksum_and_ttl p)) E Q
      (mkCtx (mkWorld ss ns ck m8) wh cc cs al qu c' p0 g rel)) as Hend.
  { intros c' ->. px. apply HQ.
    - by rw hdr_checksum Hm8.
    - destruct (checksum_packets p m8 p) as [_ ->]. done.
    - intros q Hq. rw /m8 /m7 /m6. split; [others|]. refcnt. destruct (negb _); by refcnt. }
  change (tcp_flag FIN (tcp_of m8 p)) with (v_fin (hdr m8 p)).
  assert (v_fin (hdr m8 p) = v_fin (hdr m p)) as -> by by rw Hm8.
  destruct (v_fin (hdr m p)) eqn:Hfin; cbn [when].
  - px. rw payload_size Hpl (wrap_small 32); [lia|]. rw (arith_ok 32); [lia|]. px.
    apply Hend. by rw /con_s2c Hfin.
  - px. apply Hend. by rw /con_s2c Hfin.
Qed.

(** ** The handshake with the client *)

(** The initial sequence number the proxy takes from the time stamp counter *)
Definition proxy_isn (tsc : Z) : Z := wrap 32 (Z.shiftl tsc 8).

Definition con_syn (tsc : Z) (c : ProxyConnection) (v : Hdr) : ProxyConnection :=
  c <| client_mac := v_mac_src v |> <| c_seqn := proxy_isn tsc |>
    <| ackn_p2c := wrapping_add32 (v_seq v) 1 |>.

Lemma wp_client_syn_received E p ss ns ck m wh cc cs al qu c p0 g rel (Q : unit → Ctx → Prop) :
  (∀ m', hdr m' p = v_reply (proxy_isn (tsc_reading ck)) 1 (hdr m p) →
    (∀ q, ¬ same_buf p q → untouched m m' q) →
    Q tt (mkCtx (mkWorld ss ns (S ck) m') wh cc cs al qu
            (con_syn (tsc_reading ck) c (hdr m p)) p0 g rel)) →
  wp (client_syn_received p) E Q (mkCtx (mkWorld ss ns ck m) wh cc cs al qu c p0 g rel).
Proof.
  intros HQ. rw /client_syn_received. px.
  set (m2 := make_reply_packet p 1 _). set (isn := wrap 32 _).
  cbn [c_seqn]. change (c_seqn (_ <| c_seqn := isn |>)) with isn.
  set (m3 := tcp_write p _ m2).
  assert (hdr m3 p = v_reply isn 1 (hdr m p)) as Hm3.
  { rw /m3 hdr_reply_seq; [by apply wrap_range|]. by rw hdr_options. }
  change (tcp_get AckNum (tcp_of m3 p)) with (v_ack (hdr m3 p)). rw Hm3.
  apply HQ; [by rw hdr_checksum|]. intros q Hq. rw /m3 /m2. split; [others|by refcnt].
Qed.

(** ** Selecting the server *)

(** A selection closure: the payloads it accepts, the server it picks by the
    payload (and the index the connection has), and how it rewrites the payload
    of the packet the connection holds *)
Record Selector : Type := mkSelector {
  accepts : list Z → Prop;
  selects : Z → list Z → Z;
  rewrites : list Z → list Z;
}.
Definition select_closure (E : panic → Prop) (cfg : Config) (sel : Selector) : Prop :=
  ∀ c pp w, payload_packet c = Some pp → accepts sel (payload_of (w_mem w) pp) →
    wp (f_select_server cfg c) E (λ c' w',
      c' = c <| server_index_u8 := selects sel (server_index c) (payload_of (w_mem w) pp) |> ∧
      (∀ q, hdr (w_mem w') q = hdr (w_mem w) q) ∧
      (∀ q, pdu_refcnt (w_mem w') q = pdu_refcnt (w_mem w) q) ∧
      payload_of (w_mem w') pp = rewrites sel (payload_of (w_mem w) pp) ∧
      (∀ q, ¬ same_buf pp q → same_packet (w_mem w) (w_mem w') q)) w.

(** The fresh buffer has room for the three headers. *)
Definition headroom (q : Pdu) : Prop :=
  ∀ m, (∀ h, (push_mac h q m).1 = true) ∧ (∀ h, (push_ip h q m).1 = true) ∧
       (∀ h, (push_tcp h q m).1 = true).

(** The SYN to the server made from the client's first payload packet *)
Definition hdr_syn (v : Hdr) : Hdr :=
  v <| v_seq := wrapping_sub32 (v_seq v) 1 |> <| v_syn := true |> <| v_ack := 0 |>
    <| v_ackf := false |> <| v_psh := false |>.
Definition con_selected (pp : Pdu) (i ins : Z) (c : ProxyConnection) (v : Hdr) : ProxyConnection :=
  c <| payload_packet := Some pp |> <| server_index_u8 := i |> <| c2s_inserted_bytes := ins |>
    <| seqn := wrapping_sub32 (v_seq v) 1 |>.

Lemma as_i32_small n : 0 ≤ n < 2 ^ 31 → as_i32 n = n.
Proof.
  intros. rw /as_i32 (wrap_small 32); [lia|]. by destruct (Z.ltb_spec n (2 ^ 31)); [|lia].
Qed.

Lemma wp_assert_true E {S} b (Q : unit → S → Prop) s : b = true → Q tt s → wp (assert_ b) E Q s.
Proof. by intros ->. Qed.

Lemma pair_let {A B C} (x : A * B) (f : A → B → C) : (let '(a, b) := x in f a b) = f x.1 x.2.
Proof. by destruct x. Qed.

(** The three headers of [p], pushed onto the fresh buffer *)
Lemma hdr_rebuild m3 p syn :
  ¬ same_buf p syn →
  let m4 := (push_mac (mac_of m3 p) syn m3).2 in
  let m5 := dereference_mbuf p m4 in
  let m6 := (push_ip (ip_of m5 p) syn m5).2 in
  let m7 := (push_tcp (tcp_of m5 p) syn m6).2 in
  hdr m7 syn = hdr m3 p.
Proof.
  intros Hd m4 m5 m6 m7. assert (¬ same_buf syn p) as Hd' by (by intros H; apply Hd; symmetry).
  destruct (push_mac_spec (mac_of m3 p) syn m3) as [Hmac Ho4].
  destruct (push_ip_spec (ip_of m5 p) syn m5) as (Hmac6 & Hip & _).
  destruct (push_tcp_spec (tcp_of m5 p) syn m6) as (Hmac7 & Hip7 & Htcp & _).
  rw -/m4 in Hmac Ho4. rw -/m6 in Hmac6 Hip. rw -/m7 in Hmac7 Hip7 Htcp.
  rw /hdr Hmac7 Hip7 Htcp Hmac6 Hip.
  destruct (dereference_packets p m4 syn) as [[Hs _ _ _] _].
  destruct (dereference_packets p m4 p) as [[_ Hi Ht Hf] _].
  destruct (Ho4 p Hd') as [[_ Hi' Ht' Hf'] _]. rw -/m5 in Hs Hi Ht Hf.
  rw /hdr_of !Hs !Hi !Ht !Hf !Hi' !Ht' !Hf'. by rw Hmac.
Qed.

(** The fields that make it a SYN *)
Lemma hdr_make_syn m q s :
  0 ≤ s < 2 ^ 32 →
  let m1 := tcp_write q (tcp_set SeqNum s (tcp_of m q)) m in
  let m2 := tcp_write q (tcp_set_flag SYN true (tcp_of m1 q)) m1 in
  let m3 := tcp_write q (tcp_set AckNum 0 (tcp_of m2 q)) m2 in
  let m4 := tcp_write q (tcp_set_flag ACK false (tcp_of m3 q)) m3 in
  let m5 := tcp_write q (tcp_set_flag PSH false (tcp_of m4 q)) m4 in
  hdr m5 q = (hdr m q) <| v_seq := s |> <| v_syn := true |> <| v_ack := 0 |>
    <| v_ackf := false |> <| v_psh := false |>.
Proof.
  intros Hs m1 m2 m3 m4 m5. rw /m5 hdr_tcp_set_flag /m4 hdr_tcp_set_flag /m3 hdr_tcp_set; [done|].
  by rw /m2 hdr_tcp_set_flag /m1 hdr_tcp_set.
Qed.

Lemma wp_select_server E cfg sel srv syn p ss ns ck m wh cc cs al qu c g rel (Q : unit → Ctx → Prop) :
  select_closure E cfg sel → accepts sel (payload_of m p) → headroom syn → ¬ same_buf p syn →
  index (servers cfg) (selects sel (server_index c) (payload_of m p)) = Ok srv →
  0 ≤ l234_port srv < 2 ^ 16 → 0 ≤ port c < 2 ^ 16 →
  Z.of_nat (length (payload_of m p)) < 2 ^ 31 →
  Z.of_nat (length (rewrites sel (payload_of m p))) < 2 ^ 31 →
  (∀ ss' ns' ck' m' pp,
    let v := v_to_server srv (port c) (mac (me cfg)) (me_ip_s cfg) (hdr m p) in
    let ins := Z.of_nat (length (rewrites sel (payload_of m p))) - Z.of_nat (length (payload_of m p)) in
    same_buf pp p → hdr m' syn = hdr_syn v →
    hdr m' pp = v → payload_of m' pp = rewrites sel (payload_of m p) →
    pdu_refcnt m' pp = pdu_refcnt m p →
    (∀ q, ¬ same_buf p q → ¬ same_buf syn q → untouched m m' q) →
    Q tt (mkCtx (mkWorld ss' ns' ck' m') wh cc cs al qu
            (con_selected pp (selects sel (server_index c) (payload_of m p)) ins c (hdr m p)) syn g rel)) →
  wp (select_server cfg syn) E Q (mkCtx (mkWorld ss ns ck m) wh cc cs al qu c p g rel).
Proof.
  intros Hsel Hacc Hroom Hdisj Hsrv Hsp Hp Hlen Hlen' HQ.
  rw /select_server. px. rw pair_let. px.
  set (pp := (pdu_clone p m).1). set (m1 := (pdu_clone p m).2).
  assert (same_buf pp p) as Hpp by apply clone_same_buf.
  assert (payload_of m1 pp = payload_of m p) as Hpl1.
  { transitivity (payload_of m pp); [by destruct (clone_packets p m pp)|by apply payload_of_same]. }
  apply wp_px_con_do. eapply wp_mono; [|apply (Hsel _ pp); [done|cbn [w_mem]; by rw Hpl1]].
  intros c' [ss' ns' ck' m2]. cbn [w_mem]. intros (-> & Hh2 & Hr2 & Hpl2 & Ho2). px.
  rw Hpl1. rw Hpl1 in Hpl2. change (server_index (c <| payload_packet := Some pp |>)) with (server_index c).
  set (i := selects sel (server_index c) (payload_of m p)) in *.
  change (unwrap (payload_packet _)) with (Ok pp). px.
  assert (payload_of m1 p = payload_of m p) as Hpl1' by by destruct (clone_packets p m p).
  assert (tcp_payload_size m1 pp = Z.of_nat (length (payload_of m p))) as -> by by rw payload_size Hpl1.
  rw payload_size Hpl2. rw as_i32_small; [lia|]. rw as_i32_small; [lia|].
  rw arith_i32_ok; [lia|]. px.
  set (c1 := _ <| c2s_inserted_bytes := _ |>).
  change (server_index c1) with i. change (port c1) with (port c). rw Hsrv. px.
  set (m3 := set_header srv (port c1) p (mac (me cfg)) (me_ip_s cfg) m2).
  rw !pair_let. px. apply wp_assert_true; [by destruct (Hroom m3)|].
  rw replace_moves. cbn [fst snd]. px. set (m4 := (push_mac _ syn m3).2). set (m5 := dereference_mbuf p m4).
  rw !pair_let. px. apply wp_assert_true; [by destruct (Hroom m5) as (_ & ? & _)|].
  set (m6 := (push_ip _ syn m5).2). px. rw !pair_let. px.
  apply wp_assert_true; [by destruct (Hroom m6) as (_ & _ & ?)|].
  set (m7 := (push_tcp _ syn m6).2). do 4 px1. set (m8 := ip_write syn _ m7).
  assert (hdr m3 p = v_to_server srv (port c) (mac (me cfg)) (me_ip_s cfg) (hdr m p)) as Hm3.
  { rw /m3 hdr_set_header //. by rw Hh2 /m1 hdr_clone. }
  assert (hdr m8 syn = hdr m3 p) as Hm8.
  { rw /m8 hdr_ip_trim. by apply hdr_rebuild. }
  change (tcp_get SeqNum (tcp_of m8 syn)) with (v_seq (hdr m8 syn)). rw Hm8 Hm3.
  set (v := v_to_server _ _ _ _ _). px.
  pose proof (hdr_make_syn m8 syn (wrapping_sub32 (v_seq v) 1) (wrapping_sub32_range _ _)) as Hm9.
  cbv zeta in Hm9. set (m9 := tcp_write syn _ _) in Hm9 |- *.
  assert (∀ q m0, ¬ same_buf syn q → same_packet m0 m3 q →
    same_packet m0 (prepare_checksum_and_ttl syn m9) q) as Hoth.
  { intros q m0 Hq H3. rw /m9 /m8 /m7 /m6 /m5 /m4. others. }
  assert (¬ same_buf syn p) as Hd' by (by intros H; apply Hdisj; symmetry).
  assert (¬ same_buf syn pp) as Hdpp by (intros H; apply Hd'; by rw H).
  apply (HQ ss' ns' ck' _ pp).
  - done.
  - by rw hdr_checksum Hm9 Hm8 Hm3.
  - rw (hdr_same_buf _ pp p) // -Hm3. apply hdr_same, same_hdrs, Hoth; [done|others].
  - destruct (Hoth pp m3 Hdpp (same_packet_refl _ _)) as [_ ->]. by rw /m3 set_header_payload.
  - rw /m9 /m8 /m7 /m6. refcnt.
    rw /m5 refcnt_dereference; [by symmetry|]. rw /m4 /m3. refcnt.
    rw Hr2 /m1 refcnt_clone; [by symmetry|]. rw (refcnt_same m pp p) //. lia.
  - intros q Hq Hq'. split.
    + apply Hoth; [done|]. apply other_set_header; [done|].
      apply (same_packet_trans _ m1); [apply clone_packets|]. apply Ho2. by rw Hpp.
    + rw /m9 /m8 /m7 /m6. refcnt. rw /m5 refcnt_dereference_other //. rw /m4 /m3. refcnt.
      by rw Hr2 /m1 refcnt_clone_other.
Qed.

(** ** The handshake with the server *)

(** The ACK to the server, and the delayed payload packet with its TCP header *)
Definition hdr_ack (n : Z) (v : Hdr) : Hdr := (v_reply n 1 v) <| v_syn := false |>.
Definition hdr_delayed (v r : Hdr) : Hdr :=
  mkHdr (v_mac_src v) (v_mac_dst v) (v_ip_src v) (v_ip_dst v) (v_sport r) (v_dport r)
    (v_seq r) (v_ack r) (v_syn r) (v_ackf r) (v_fin r) (v_rst r) true.
Definition con_bound (c : ProxyConnection) (v : Hdr) : ProxyConnection :=
  c <| c_seqn := wrapping_sub32 (c_seqn c) (v_seq v) |>
    <| seqn := wrapping_add32 (f_seqn c) 1 |>.

(** The reply part, up to the clone for the queue *)
Lemma hdr_make_ack m p n :
  0 ≤ n < 2 ^ 32 →
  let m1 := make_reply_packet p 1 (remove_tcp_options p m) in
  let m2 := tcp_write p (tcp_set_flag SYN false (tcp_of m1 p)) m1 in
  let m3 := tcp_write p (tcp_set SeqNum n (tcp_of m2 p)) m2 in
  hdr m3 p = hdr_ack n (hdr m p).
Proof.
  intros Hn m1 m2 m3. rw /m3 hdr_tcp_set; [done|]. rw /m2 hdr_tcp_set_flag /m1.
  destruct (hdr_reply (remove_tcp_options p m) p 1) as [s ->]. by rw hdr_options.
Qed.

Lemma hdr_replace_tcp m p pp :
  v_set_flag PSH true (hdr (replace_tcp (tcp_of m p) pp m) pp) = hdr_delayed (hdr m pp) (hdr m p).
Proof.
  destruct (replace_tcp_spec (tcp_of m p) pp m) as (H1 & H2 & H3 & _). by rw /hdr H1 H2 H3.
Qed.

Lemma wp_server_synack_received E p ss ns ck m wh cc cs al qu c p0 g rel (Q : unit → Ctx → Prop) :
  (∀ pp, payload_packet c = Some pp → ¬ same_buf p pp ∧ pdu_refcnt m pp = 1) →
  (∀ m' pcl,
    let ack := hdr_ack (wrapping_add32 (f_seqn c) 1) (hdr m p) in
    same_buf pcl p → hdr m' pcl = ack →
    match payload_packet c with
    | Some pp =>
        hdr m' pp = hdr_delayed (hdr m pp) ack → payload_of m pp `prefix_of` payload_of m' pp →
        (∀ q, ¬ same_buf p q → ¬ same_buf pp q → untouched m m' q) →
        Q tt (mkCtx (mkWorld ss ns ck m') wh cc cs al (qu ++ [pcl; pp])
          ((con_bound c (hdr m p)) <| payload_packet := None |>
             <| ackn_p2s := wrapping_add32 (v_seq (hdr m p)) 1 |>) p0 g rel)
    | None =>
        (∀ q, ¬ same_buf p q → untouched m m' q) →
        Q tt (mkCtx (mkWorld ss ns ck m') wh cc cs al (qu ++ [pcl]) (con_bound c (hdr m p)) p0 g rel)
    end) →
  wp (server_synack_received p) E Q (mkCtx (mkWorld ss ns ck m) wh cc cs al qu c p0 g rel).
Proof.
  intros Hpay HQ. rw /server_synack_received. px.
  set (c1 := _ <| seqn := _ |>).
  assert (c1 = con_bound c (hdr m p)) as Hc1 by done.
  change (f_seqn c1) with (wrapping_add32 (f_seqn c) 1).
  set (n := wrapping_add32 (f_seqn c) 1) in *.
  pose proof (hdr_make_ack m p n (wrapping_add32_range _ _)) as Hm3. cbv zeta in Hm3.
  set (m3 := tcp_write p _ _) in Hm3 |- *. set (m5 := prepare_checksum_and_ttl p m3).
  rw pair_let. px. set (pcl := (pdu_clone p m5).1). set (m6 := (pdu_clone p m5).2).
  assert (same_buf pcl p) as Hpcl by apply clone_same_buf.
  assert (hdr m6 p = hdr_ack n (hdr m p)) as Hm6 by by rw /m6 hdr_clone hdr_checksum.
  change (payload_packet c1) with (payload_packet c).
  destruct (payload_packet c) as [pp|] eqn:Hpp.
  - destruct (Hpay pp eq_refl) as [Hd Hr]. px. set (m7 := replace_tcp (tcp_of m6 p) pp m6).
    set (m8 := tcp_write pp _ m7).
    px. apply wp_px_when_on_mem. set (m9 := if _ <? _ then _ else m8). px.
    set (m10 := prepare_checksum_and_ttl pp m9).
    assert (¬ same_buf pp p) as Hd' by (by intros H; apply Hd; symmetry).
    assert (∀ q m0, ¬ same_buf pp q → same_packet m0 m6 q → same_packet m0 m10 q) as Hoth.
    { intros q m0 Hq H6. rw /m10 /m9 /m8 /m7. others. }
    assert (hdr m10 p = hdr_ack n (hdr m p)) as Hm10.
    { rw -Hm6. apply hdr_same, same_hdrs, Hoth; [done|others]. }
    change (tcp_get AckNum (tcp_of m10 p)) with (v_ack (hdr m10 p)). rw Hm10.
    apply wp_assert_true.
    { apply Z.eqb_eq. rw /m10 /m9. refcnt. destruct (_ <? _); rw /m8 /m7; refcnt;
        rw /m6 refcnt_clone_other // /m5 /m3; by refcnt. }
    px. specialize (HQ m10 pcl Hpcl). rw -app_assoc Hc1. apply HQ.
    + by rw (hdr_same_buf _ pcl p).
    + rw hdr_checksum /m9. transitivity (hdr m8 pp); [destruct (_ <? _); [apply hdr_padding|done]|].
      rw /m8 hdr_tcp_set_flag hdr_replace_tcp Hm6. f_equal.
      apply hdr_same, same_hdrs. rw /m6 /m5 /m3. others.
    + assert (payload_of m8 pp = payload_of m pp) as <-.
      { rw /m8 payload_of_tcp_write. destruct (replace_tcp_spec (tcp_of m6 p) pp m6) as (_ & _ & _ & H & _).
        rw -/m7 in H. rw H. apply same_payload. rw /m6 /m5 /m3. others. }
      rw (same_payload _ _ _ (checksum_packets pp m9 pp)) /m9.
      destruct (_ <? _); [apply padding_payload|done].
    + intros q Hq Hq'. split; [apply Hoth; [done|]; rw /m6 /m5 /m3; others|].
      rw /m10 /m9. refcnt. destruct (_ <? _); rw /m8 /m7; refcnt;
        rw /m6 refcnt_clone_other // /m5 /m3; by refcnt.
  - px. specialize (HQ m6 pcl Hpcl). rw Hc1. apply HQ.
    + by rw (hdr_same_buf _ pcl p).
    + intros q Hq. split; [rw /m6 /m5 /m3; others|].
      rw /m6 refcnt_clone_other // /m5 /m3. by refcnt.
Qed.
End translate.
