(* ===== verification/Steady.v ===== *)
(** * What the packet functions leave alone

    None of them touches the port, the client's socket, the record, the timer
    entry or the states of the connection, nor the wheel, the counters, the
    group and the release request. *)
From Stdlib Require Import ZArith Lia ssreflect.
From S2P Require Import Prelude Crates Extension Connection CManager ManagerInv Proxy Packets.
#[local] Open Scope general_if_scope.

Section steady.
Context `{TC : TcpCommon} `{PF : Profile} `{RC : !RecordCrate} `{HC : HeaderCrate}
  `{PC : !PacketCrate} `{CL : Clock} `{WC : WheelCrate}.

Record con_steady (c c' : ProxyConnection) : Prop := {
  cs_port : proxy_port c' = proxy_port c;
  cs_ip : client_ip c' = client_ip c;
  cs_cport : client_port c' = client_port c;
  cs_details : detailed_c c' = detailed_c c;
  cs_slot : wheel_slot_and_index c' = wheel_slot_and_index c;
  cs_client : client_state_u8 c' = client_state_u8 c;
  cs_server : server_state_u8 c' = server_state_u8 c;
}.

(** With [q], the queue stays as it is too. *)
Record ctx_steady (q : bool) (x x' : Ctx) : Prop := {
  xs_con : con_steady (x_con x) (x_con x');
  xs_wheel : x_wheel x' = x_wheel x;
  xs_counter_c : x_counter_c x' = x_counter_c x;
  xs_counter_s : x_counter_s x' = x_counter_s x;
  xs_group : x_group x' = x_group x;
  xs_release : x_release x' = x_release x;
  xs_queue : q = true → x_queue x' = x_queue x;
}.

Definition steady (q : bool) {A} (m : PX A) : Prop :=
  ∀ x a x', m x = Ok (a, x') → ctx_steady q x x'.

#[global] Instance con_steady_preorder : PreOrder con_steady.
Proof. split; [by split|]. intros a b c [] []. split; congruence. Qed.
#[global] Instance ctx_steady_preorder q : PreOrder (ctx_steady q).
Proof.
  split; [by split|]. intros a b c [] []. split; [by etransitivity|congruence..|].
  intros ->. rw xs_queue1 //. by apply xs_queue0.
Qed.

(** What the embedding program's closures may change: the packet the connection
    holds, and the selected server *)
Definition app_frame (c c' : ProxyConnection) : Prop :=
  ∃ pp i, c' = c <| payload_packet := pp |> <| server_index_u8 := i |>.
Record closures_ok (cfg : Config) : Prop := {
  select_frame c w c' w' : f_select_server cfg c w = Ok (c', w') → app_frame c c';
  payload_frame c pl t w c' pl' w' :
    f_process_payload_c_s cfg c pl t w = Ok ((c', pl'), w') → app_frame c c';
}.

Lemma app_frame_steady c c' : app_frame c c' → con_steady c c'.
Proof. by intros (pp & i & ->). Qed.

Lemma wp_steady q {A} (m : PX A) (E : panic → Prop) (Q : A → Ctx → Prop) x :
  steady q m → (∀ e, E e) → (∀ a x', ctx_steady q x x' → Q a x') → wp m E Q x.
Proof. intros Hm HE HQ. apply wp_run; [|done]. intros a x' H. by eapply HQ, Hm. Qed.

Lemma steady_ret q {A} (a : A) : steady q (mret a).
Proof. by intros x b x' [= <- <-]. Qed.
Lemma steady_bind q {A B} (m : PX A) (f : A → PX B) :
  steady q m → (∀ a, steady q (f a)) → steady q (m ≫= f).
Proof.
  intros Hm Hf x b x'. rw /mbind /M_bind.
  destruct (m x) as [[a x1]|e] eqn:E; [|done]. intros H.
  etransitivity; [exact (Hm _ _ _ E)|exact (Hf _ _ _ _ H)].
Qed.
Lemma steady_lift q {A} (r : res A) : steady q (lift r).
Proof. intros x b x'. rw /lift. by destruct r; intros [= <- <-]. Qed.
Lemma steady_assert q b : steady q (assert_ b).
Proof. intros x a x'. rw /assert_. by destruct b; intros [= <- <-]. Qed.
Lemma steady_when q b (m : PX unit) : steady q m → steady q (when b m).
Proof. destruct b; [done|]. intros _. apply steady_ret. Qed.
Lemma steady_gets q {A} (f : Ctx → A) : steady q (gets f).
Proof. by intros x b x' [= <- <-]. Qed.
Lemma steady_mem q : steady q mem.
Proof. apply steady_gets. Qed.
Lemma steady_con q {A} (f : ProxyConnection → A) : steady q (con f).
Proof. apply steady_gets. Qed.
Lemma steady_on_mem q f : steady q (on_mem f).
Proof. by intros x b x' [= <- <-]. Qed.
Lemma steady_tcp_hdr q p : steady q (tcp_hdr p).
Proof. by intros x b x' [= <- <-]. Qed.
Lemma steady_on_mac q p f : steady q (on_mac p f).
Proof. by intros x b x' [= <- <-]. Qed.
Lemma steady_on_ip q p f : steady q (on_ip p f).
Proof. by intros x b x' [= <- <-]. Qed.
Lemma steady_on_tcp q p f : steady q (on_tcp p f).
Proof. by intros x b x' [= <- <-]. Qed.
Lemma steady_on_con q f : (∀ c, con_steady c (f c)) → steady q (on_con f).
Proof. intros Hf x b x' [= <- <-]. by split. Qed.
Lemma steady_enqueue p : steady false (enqueue_one p).
Proof. by intros x b x' [= <- <-]. Qed.
Lemma steady_set_pdu q p : steady q (modify (λ x, x <| x_pdu := p |>)).
Proof. by intros x b x' [= <- <-]. Qed.
Lemma steady_set_alloc q b : steady q (modify (λ x, x <| x_alloc := b |>)).
Proof. by intros x a x' [= <- <-]. Qed.
Lemma steady_rdtsc q : steady q (on_x_world rdtsc).
Proof. by intros x b x' [= <- <-]. Qed.
Lemma steady_con_do q f :
  (∀ c w c' w', f c w = Ok (c', w') → con_steady c c') → steady q (con_do f).
Proof.
  intros Hf x b x'. rw /con_do /mbind /M_bind /gets /on_x_world /zoom /=.
  destruct (f (x_con x) (x_world x)) as [[c' w']|e] eqn:E; [|done].
  intros [= <- <-]. split; [|done..]. by eapply Hf.
Qed.
End steady.

Create HintDb steady.
#[export] Hint Resolve steady_ret steady_lift steady_assert steady_when steady_gets steady_mem
  steady_con steady_on_mem steady_tcp_hdr steady_on_mac steady_on_ip steady_on_tcp
  steady_enqueue steady_set_pdu steady_set_alloc steady_rdtsc : steady.
#[export] Hint Extern 2 (steady _ (_ ≫= _)) => apply steady_bind; [|intros ?] : steady.
#[export] Hint Extern 2 (steady _ (on_con _)) => apply steady_on_con; intros ?; by split : steady.
#[export] Hint Extern 3 (steady _ (let '(_, _) := ?x in _)) => destruct x : steady.
#[export] Hint Extern 3 (steady _ (match ?x with _ => _ end)) => destruct x : steady.

(** Decompose a program whose parts are all steady. *)
Ltac steady := cbv zeta; auto 100 with steady.

Section steady_functions.
Context `{TC : TcpCommon} `{PF : Profile} `{RC : !RecordCrate} `{HC : HeaderCrate}
  `{PC : !PacketCrate} `{CL : Clock} `{WC : WheelCrate}.

Lemma steady_client_syn_received q p : steady q (client_syn_received p).
Proof. rw /client_syn_received. steady. Qed.

Lemma steady_server_to_client q cfg p : steady q (server_to_client cfg p).
Proof. rw /server_to_client. steady. Qed.

Lemma steady_server_synack_received p : steady false (server_synack_received p).
Proof. rw /server_synack_received. steady. Qed.

Lemma steady_pop_pdu q l : steady q (pop_pdu l).
Proof. rw /pop_pdu. steady. Qed.
Lemma steady_get_pdu q : steady q get_pdu.
Proof. pose proof (steady_pop_pdu q). rw /get_pdu /refill. steady. Qed.

Lemma steady_client_to_server q cfg p : closures_ok cfg → steady q (client_to_server cfg p).
Proof.
  intros [_ Hpf]. rw /client_to_server. apply steady_bind; [steady|intros m].
  apply steady_bind; [|steady].
  apply steady_when. cbv zeta. intros x b x'.
  rw /mbind /M_bind /gets /on_x_world /zoom /=.
  destruct (f_process_payload_c_s _ _ _ _ _) as [[[c' pl] w']|e] eqn:Ef; [|done].
  intros [= <- <-]. split; [|done..]. by eapply app_frame_steady, Hpf.
Qed.

Lemma steady_select_server q cfg syn : closures_ok cfg → steady q (select_server cfg syn).
Proof.
  intros [Hsel _].
  assert (steady q (con_do (f_select_server cfg))).
  { apply steady_con_do. intros. by eapply app_frame_steady, Hsel. }
  rw /select_server. steady.
Qed.
End steady_functions.
#[export] Hint Resolve steady_client_syn_received steady_server_to_client
  steady_server_synack_received steady_get_pdu steady_client_to_server steady_select_server : steady.
