(* ===== verification/StateMachine.v ===== *)
(** * The connection state machine as tables

    What the client-side and the server-side handler do to the states of a
    connection, read as tables: a packet is classified as an event, and the
    event determines the next states, the group, the counters and the request
    to release. The handlers implement the tables. *)
From Stdlib Require Import ZArith Lia ssreflect.
From S2P Require Import Prelude Crates Sample Extension Connection CManager ManagerInv Proxy.
From S2P Require Import Packets Translate Steady Handler.
#[local] Open Scope general_if_scope.

(** What a client packet means for its connection *)
Inductive client_event :=
| CStale            (* older than what the client has acknowledged *)
| CSyn              (* first SYN *)
| CSynIgnored
| CHandshakeAck     (* third packet of the handshake *)
| CFinReply         (* FIN that acknowledges the server's FIN *)
| CFinBoth          (* FIN while the server is closing too *)
| CFinEarly         (* FIN before the server is connected *)
| CFin
| CRst
| CAckOfFin         (* ACK of the server's FIN *)
| CFinalAck         (* last ACK of a close the proxy answered itself *)
| CFirstPayload
| CUnexpected
| CData.

Inductive server_event :=
| SSynAck
| SSynAckIgnored
| SFinReply
| SFinBoth
| SFin
| SAckOfFin
| SAckOther
| SOther.

#[export] Instance client_event_eq_dec : EqDecision client_event.
Proof. solve_decision. Defined.
#[export] Instance server_event_eq_dec : EqDecision server_event.
Proof. solve_decision. Defined.

Section tables.
Context `{TC : TcpCommon}.
Implicit Types (c s : TcpState).

Definition client_next (ev : client_event) (cs : TcpState * TcpState) : TcpState * TcpState :=
  let '(c, s) := cs in
  match ev with
  | CSyn => (SynSent, s)
  | CHandshakeAck => (Established, s)
  | CFinReply => (LastAck, s)
  | CFinBoth =>
      (Closing, if is_state s FinWait1 then Closing else if is_state s FinWait2 then Closed else s)
  | CFinEarly => (FinWait1, LastAck)
  | CFin => (FinWait1, s)
  | CRst => (Closed, s)
  | CAckOfFin =>
      (if is_state c Established then CloseWait
       else if is_state c FinWait1 then Closing
       else if is_state c FinWait2 then Closed else c,
       if is_state s FinWait1 then FinWait2 else if is_state s Closing then Closed else s)
  | CFinalAck => (Closed, Closed)
  | CFirstPayload => (c, SynReceived)
  | CStale | CSynIgnored | CUnexpected | CData => (c, s)
  end.

Definition server_next (ev : server_event) (cs : TcpState * TcpState) : TcpState * TcpState :=
  let '(c, s) := cs in
  match ev with
  | SSynAck => (c, Established)
  | SFinReply => (c, LastAck)
  | SFinBoth =>
      (if is_state c FinWait1 then Closing else if is_state c FinWait2 then Closed else c, Closing)
  | SFin => (c, FinWait1)
  | SAckOfFin =>
      if is_state c LastAck then (Closed, Closed)
      else if is_state c FinWait1 then (FinWait2, s)
      else if is_state c Closing then (Closed, s)
      else (c, s)
  | SSynAckIgnored | SAckOther | SOther => (c, s)
  end.

Definition client_group (ev : client_event) : option Z :=
  match ev with
  | CSyn | CFinReply | CFinBoth | CFinEarly | CFin | CFirstPayload => Some 1
  | CUnexpected => Some 2
  | _ => None
  end.

(** The counters an event increments: client side, server side *)
Definition client_counts (ev : client_event) : list TcpStatistics * list TcpStatistics :=
  match ev with
  | CSyn => ([RecvSyn; SentSynAck], [])
  | CHandshakeAck => ([RecvSynAck2], [])
  | CFinReply => ([RecvFinPssv; RecvAck4Fin], [SentFinPssv; SentAck4Fin])
  | CFinBoth => ([RecvFin], [SentFin])
  | CFinEarly => ([RecvFin; SentFinPssv; SentAck4Fin], [])
  | CFin => ([RecvFin], [SentFin])
  | CRst => ([RecvRst], [])
  | CAckOfFin | CFinalAck => ([RecvAck4Fin], [SentAck4Fin])
  | CFirstPayload => ([RecvPayload], [SentSyn])
  | CUnexpected => ([Unexpected], [])
  | CStale | CSynIgnored | CData => ([], [])
  end.

Definition server_counts (ev : server_event) : list TcpStatistics * list TcpStatistics :=
  match ev with
  | SSynAck => ([], [RecvSynAck; SentSynAck2; SentPayload])
  | SSynAckIgnored => ([], [RecvSynAck])
  | SFinReply => ([SentFinPssv; SentAck4Fin], [RecvFinPssv; RecvAck4Fin])
  | SFinBoth | SFin => ([SentFin], [RecvFin])
  | SAckOfFin => ([SentAck4Fin], [RecvAck4Fin])
  | SAckOther | SOther => ([], [])
  end.

Definition count_all (ks : list TcpStatistics) (n : TcpCounter) : TcpCounter :=
  foldl (λ n k, counter_incr k n) n ks.
End tables.

Section events.
Context `{TC : TcpCommon} `{PF : Profile} `{RC : !RecordCrate} `{HC : HeaderCrate}
  `{PC : !PacketCrate} `{CL : Clock} `{WC : WheelCrate}.

Definition states_of (c : ProxyConnection) : TcpState * TcpState := (client_state c, server_state c).

Definition client_event_of (c : ProxyConnection) (tcp : TcpHeader) : client_event :=
  let '(cs, ss) := states_of c in
  let acks_fin := tcp_flag ACK tcp && (tcp_get AckNum tcp =? ack_for_fin_p2c c) in
  if negb (is_state cs Closed) && (tcp_get SeqNum tcp <? ackn_p2c c) then CStale
  else if tcp_flag SYN tcp then if is_state cs Closed then CSyn else CSynIgnored
  else if tcp_flag ACK tcp && is_state cs SynSent then CHandshakeAck
  else if tcp_flag FIN tcp then
    if state_geb ss FinWait1 then if acks_fin then CFinReply else CFinBoth
    else if state_ltb ss Established then CFinEarly else CFin
  else if tcp_flag RST tcp then CRst
  else if acks_fin && state_geb ss FinWait1 then CAckOfFin
  else if is_state ss LastAck && tcp_flag ACK tcp && (tcp_get AckNum tcp =? ack_for_fin_p2c c) then CFinalAck
  else if is_state cs Established && is_state ss Listen then CFirstPayload
  else if state_ltb ss SynReceived || state_ltb cs Established then CUnexpected
  else CData.

Definition server_event_of (c : ProxyConnection) (tcp : TcpHeader) : server_event :=
  let '(cs, ss) := states_of c in
  let acks_fin := tcp_get AckNum tcp =? wrapping_add32 (seqn_fin_p2s c) 1 in
  if tcp_flag ACK tcp && tcp_flag SYN tcp then
    if is_state ss SynReceived then SSynAck else SSynAckIgnored
  else if tcp_flag FIN tcp then
    if state_geb cs FinWait1 then if tcp_flag ACK tcp && acks_fin then SFinReply else SFinBoth
    else SFin
  else if state_geb cs LastAck && tcp_flag ACK tcp then if acks_fin then SAckOfFin else SAckOther
  else SOther.

(** The timer entry made for a new connection *)
Definition scheduled (x x' : Ctx) : Prop :=
  ∃ d, wheel_schedule d (port (x_con x)) (x_wheel x) = (wheel_slot_and_index (x_con x'), x_wheel x').

(** The effect of a handler, as the tables say: [sched] if it schedules the
    timer, [q] if it leaves the queue as it is *)
Record effect (next : TcpState * TcpState) (g r : option Z)
    (counts : list TcpStatistics * list TcpStatistics) (sched q : bool) (x x' : Ctx) : Prop := {
  ef_states : states_of (x_con x') = next;
  ef_group : x_group x' = default (x_group x) g;
  ef_release : x_release x' = match r with Some _ => r | None => x_release x end;
  ef_counter_c : x_counter_c x' = count_all counts.1 (x_counter_c x);
  ef_counter_s : x_counter_s x' = count_all counts.2 (x_counter_s x);
  ef_port : proxy_port (x_con x') = proxy_port (x_con x);
  ef_ip : client_ip (x_con x') = client_ip (x_con x);
  ef_cport : client_port (x_con x') = client_port (x_con x);
  ef_details : detailed_c (x_con x') = detailed_c (x_con x);
  ef_wheel : if sched then scheduled x x'
             else x_wheel x' = x_wheel x ∧
                  wheel_slot_and_index (x_con x') = wheel_slot_and_index (x_con x);
  ef_queue : q = true → x_queue x' = x_queue x;
}.

Definition client_effect (ev : client_event) (x x' : Ctx) : Prop :=
  effect (client_next ev (states_of (x_con x))) (client_group ev)
    (if bool_decide (ev = CRst) then Some (port (x_con x)) else None)
    (client_counts ev) (bool_decide (ev = CSyn)) true x x'.
Definition server_effect (ev : server_event) (x x' : Ctx) : Prop :=
  effect (server_next ev (states_of (x_con x)))
    (match ev with SSynAck | SSynAckIgnored => Some 0 | _ => None end) None
    (server_counts ev) false (bool_decide (ev ≠ SSynAck)) x x'.

(** Whether the packet is translated and forwarded, by the states before it *)
Definition client_forwards (cs : TcpState * TcpState) : bool :=
  state_geb cs.2 Established && state_ltb cs.2 Closed && state_geb cs.1 Established.
Definition server_forwards (cs : TcpState * TcpState) : bool :=
  state_geb cs.2 Established && state_geb cs.1 Established && state_ltb cs.1 Closed.

Definition both_closed (cs : TcpState * TcpState) : bool := is_state cs.1 Closed && is_state cs.2 Closed.

(** The whole handling of a packet of a connection *)
Definition client_tcp_effect (ev : client_event) (x x' : Ctx) : Prop :=
  let old := states_of (x_con x) in
  let new := client_next ev old in
  effect new (if client_forwards old then Some 1 else client_group ev)
    (if bool_decide (ev = CRst) || both_closed new then Some (port (x_con x)) else None)
    (client_counts ev) (bool_decide (ev = CSyn)) true x x'.
Definition server_tcp_effect (ev : server_event) (x x' : Ctx) : Prop :=
  let old := states_of (x_con x) in
  let new := server_next ev old in
  effect new
    (if server_forwards old then Some 1
     else match ev with SSynAck | SSynAckIgnored => Some 0 | SOther => Some 2 | _ => None end)
    (if both_closed new then Some (port (x_con x)) else None)
    (server_counts ev) false (bool_decide (ev ≠ SSynAck)) x x'.

(** The established timeout can be turned into cycles. *)
Definition timeouts_ok (cfg : Config) : Prop :=
  ∃ t, timeouts_established cfg = Some t ∧ 0 ≤ t * cpu_clock cfg < 2 ^ 64.
End events.

(** The states after a handler: each was set, or left alone. *)
Ltac states_set :=
  unfold states_of; cbn [client_next server_next];
  repeat match goal with H : is_state _ _ = _ |- _ => rw H; clear H end;
  apply (f_equal2 pair); first [done|by apply state_from_as].
(** The effect of a handler that has been run *)
Ltac effect_done :=
  split; first [done|states_set|by (eexists; rw -surjective_pairing)].

Section machine_lemmas.
Context `{TC : TcpCommon} `{PF : Profile} `{RC : !RecordCrate} `{HC : HeaderCrate}
  `{PC : !PacketCrate} `{CL : Clock} `{WC : WheelCrate} `{SL : !StateLaws}
  `{HL : !HeaderLaws} `{PL : !PacketLaws} `{RL : !RefcntLaws}.

Lemma wp_client_syn E cfg ss ns ck m wh cc cs al qu c p g rel (Q : unit → Ctx → Prop) :
  quiet E c → timeouts_ok cfg ∨ (∀ e, E e) →
  (∀ x', client_effect CSyn (mkCtx (mkWorld ss ns ck m) wh cc cs al qu c p g rel) x' → Q tt x') →
  wp (client_syn cfg Closed) E Q (mkCtx (mkWorld ss ns ck m) wh cc cs al qu c p g rel).
Proof.
  intros Hq Ht HQ. rw /client_syn /is_state bool_decide_true; [done|]. cbn [when]. px.
  apply wp_client_syn_received. intros m' Hm' Ho. px.
  destruct Ht as [(t & -> & Ht)|HE]; cycle 1.
  { apply wp_lift_any; [done|]. intros t. apply wp_bind, wp_lift_any; [done|]. intros prod.
    px. rw pair_let. px. apply HQ. effect_done. }
  px. rw (arith_ok 64) //. px. rw pair_let. px. apply HQ. effect_done.
Qed.

Lemma wp_client_ack_of_fin E ss ns ck m wh cc cs al qu c p g rel (Q : unit → Ctx → Prop) :
  quiet E c →
  (∀ x', client_effect CAckOfFin (mkCtx (mkWorld ss ns ck m) wh cc cs al qu c p g rel) x' → Q tt x') →
  wp (client_ack_of_fin (client_state c) (server_state c)) E Q
    (mkCtx (mkWorld ss ns ck m) wh cc cs al qu c p g rel).
Proof.
  intros Hq HQ. rw /client_ack_of_fin. apply wp_bind.
  destruct (is_state (server_state c) FinWait1) eqn:?;
    [|destruct (is_state (server_state c) Closing) eqn:?]; px.
  all: destruct (is_state (client_state c) Established) eqn:?; [px; apply HQ; effect_done|].
  all: destruct (is_state (client_state c) FinWait1) eqn:?; [px; apply HQ; effect_done|].
  all: destruct (is_state (client_state c) FinWait2) eqn:?; px; apply HQ; effect_done.
Qed.

Lemma wp_client_first_payload E cfg ss ns ck m wh cc cs al qu c p g rel (Q : unit → Ctx → Prop) :
  quiet E c → (∀ e, E e) → closures_ok cfg →
  (∀ x', client_effect CFirstPayload (mkCtx (mkWorld ss ns ck m) wh cc cs al qu c p g rel) x' → Q tt x') →
  wp (client_first_payload cfg) E Q (mkCtx (mkWorld ss ns ck m) wh cc cs al qu c p g rel).
Proof.
  intros Hq HE Hcl HQ. rw /client_first_payload. apply wp_bind, (wp_steady true); [steady|done|].
  intros o x1 H1. apply wp_bind, wp_lift_any; [done|]. intros syn.
  apply wp_bind, (wp_steady true); [steady|done|]. intros _ x2 H2.
  assert (ctx_steady true (mkCtx (mkWorld ss ns ck m) wh cc cs al qu c p g rel) x2) as Hx by by etransitivity.
  clear H1 H2 x1. destruct x2 as [[ss2 ns2 ck2 m2] wh2 cc2 cs2 al2 qu2 c2 p2 g2 rel2].
  assert (quiet E c2) as Hq2 by by right.
  destruct Hx as [[? ? ? ? ? Hst ?] ]. cbn in *. subst. px. apply HQ. split; cbn; try done.
  apply (f_equal2 pair); [by rw /client_state /= Hst|apply state_from_as].
Qed.

Lemma wp_client_machine E cfg tcp ss ns ck m wh cc cs al qu c p g rel (Q : unit → Ctx → Prop) :
  quiet E c → closures_ok cfg →
  (client_event_of c tcp = CSyn → timeouts_ok cfg ∨ ∀ e, E e) →
  (client_event_of c tcp = CFirstPayload → ∀ e, E e) →
  (∀ x', client_effect (client_event_of c tcp) (mkCtx (mkWorld ss ns ck m) wh cc cs al qu c p g rel) x' → Q tt x') →
  wp (client_machine cfg tcp (client_state c) (server_state c)) E Q
    (mkCtx (mkWorld ss ns ck m) wh cc cs al qu c p g rel).
Proof.
  intros Hq Hcl Ht Hf HQ. rw /client_machine. px. revert Ht Hf HQ.
  rw /client_event_of /states_of.
  destruct (negb _ && _); [intros; px; apply HQ; effect_done|].
  destruct (tcp_flag SYN tcp).
  { destruct (is_state (client_state c) Closed) eqn:Hc; intros Ht Hf HQ.
    - apply bool_decide_eq_true in Hc. rw Hc. by apply wp_client_syn; [|apply Ht|].
    - rw /client_syn Hc. cbn [when]. px. apply HQ. effect_done. }
  destruct (tcp_flag ACK tcp && _); [intros; px; apply HQ; effect_done|].
  destruct (tcp_flag FIN tcp).
  { intros _ _ HQ. rw /client_fin. destruct (state_geb (server_state c) FinWait1).
    - px. change (ack_for_fin_p2c c) with (seqn c) in *.
      destruct (tcp_flag ACK tcp && _); px; [apply HQ; effect_done|].
      destruct (is_state (server_state c) FinWait1) eqn:?; [px; apply HQ; effect_done|].
      destruct (is_state (server_state c) FinWait2) eqn:?; px; apply HQ; effect_done.
    - px. rw /client_early_fin. destruct (state_ltb _ _); px; apply HQ; effect_done. }
  destruct (tcp_flag RST tcp); [intros; rw /client_rst; px; apply HQ; effect_done|].
  destruct (tcp_flag ACK tcp && _ && _).
  { intros _ _ HQ. by apply wp_client_ack_of_fin. }
  destruct (is_state _ _ && _ && _); [intros; px; apply HQ; effect_done|].
  destruct (is_state (client_state c) Established && _).
  { intros _ HE HQ. by apply wp_client_first_payload; [|auto| |]. }
  destruct (_ || _); intros; px; apply HQ; effect_done.
Qed.

Lemma wp_server_fin E tcp ss ns ck m wh cc cs al qu c p g rel (Q : unit → Ctx → Prop) :
  quiet E c → tcp_flag FIN tcp = true → tcp_flag ACK tcp && tcp_flag SYN tcp = false →
  (∀ x', server_effect (server_event_of c tcp) (mkCtx (mkWorld ss ns ck m) wh cc cs al qu c p g rel) x' → Q tt x') →
  wp (server_fin tcp (client_state c)) E Q (mkCtx (mkWorld ss ns ck m) wh cc cs al qu c p g rel).
Proof.
  intros Hq Hfin Hsa HQ. revert HQ. rw /server_event_of /states_of Hsa Hfin /server_fin.
  destruct (state_geb (client_state c) FinWait1); intros HQ; px; [|apply HQ; effect_done].
  revert HQ. destruct (tcp_flag ACK tcp && (_ =? _)); intros HQ; px; [apply HQ; effect_done|].
  destruct (is_state (client_state c) FinWait1) eqn:?; [px; apply HQ; effect_done|].
  destruct (is_state (client_state c) FinWait2) eqn:?; px; apply HQ; effect_done.
Qed.

Lemma wp_server_ack E tcp ss ns ck m wh cc cs al qu c p g rel (Q : unit → Ctx → Prop) :
  quiet E c →
  (∀ x', server_effect (if tcp_get AckNum tcp =? wrapping_add32 (seqn_fin_p2s c) 1 then SAckOfFin else SAckOther)
     (mkCtx (mkWorld ss ns ck m) wh cc cs al qu c p g rel) x' → Q tt x') →
  wp (server_ack tcp (client_state c)) E Q (mkCtx (mkWorld ss ns ck m) wh cc cs al qu c p g rel).
Proof.
  intros Hq HQ. rw /server_ack. px. revert HQ.
  destruct (tcp_get AckNum tcp =? _); intros HQ; cbn [when]; [|px; apply HQ; effect_done].
  apply wp_bind. destruct (is_state (client_state c) LastAck) eqn:?; [px; apply HQ; effect_done|].
  destruct (is_state (client_state c) FinWait1) eqn:?; [px; apply HQ; effect_done|].
  destruct (is_state (client_state c) Closing) eqn:?; px; apply HQ; effect_done.
Qed.

Lemma wp_server_machine E tcp ss ns ck m wh cc cs al qu c p g rel (Q : bool → Ctx → Prop) :
  quiet E c → (server_event_of c tcp = SSynAck → ∀ e, E e) →
  (∀ x', server_effect (server_event_of c tcp) (mkCtx (mkWorld ss ns ck m) wh cc cs al qu c p g rel) x' →
     Q (bool_decide (server_event_of c tcp = SOther)) x') →
  wp (server_machine tcp (client_state c) (server_state c)) E Q
    (mkCtx (mkWorld ss ns ck m) wh cc cs al qu c p g rel).
Proof.
  intros Hq HE HQ. rw /server_machine.
  destruct (tcp_flag ACK tcp && tcp_flag SYN tcp) eqn:Hsa.
  { revert HE HQ. rw /server_event_of /states_of Hsa /server_synack.
    destruct (is_state (server_state c) SynReceived) eqn:Hs; intros HE HQ; px; [|apply HQ; effect_done].
    apply (wp_steady false); [steady|auto|]. intros _ [[ss2 ns2 ck2 m2] wh2 cc2 cs2 al2 qu2 c2 p2 g2 rel2] Hx.
    destruct Hx as [[? ? ? ? ? Hc Hss] ]. cbn in *. subst. px. apply HQ. split; cbn; try done.
    apply (f_equal2 pair); [by rw /client_state Hc|rw /server_state Hss; apply state_from_as]. }
  destruct (tcp_flag FIN tcp) eqn:Hfin.
  { apply wp_bind, wp_server_fin; [done..|]. intros x' Hx'. px.
    assert (bool_decide (server_event_of c tcp = SOther) = false) as <-; [|by apply HQ].
    apply bool_decide_eq_false. rw /server_event_of /states_of Hsa Hfin.
    by repeat case_match. }
  revert HQ. rw /server_event_of /states_of Hsa Hfin.
  destruct (state_geb (client_state c) LastAck && tcp_flag ACK tcp); intros HQ.
  - apply wp_bind, wp_server_ack; [done|]. intros x' Hx'. px. specialize (HQ x' Hx').
    by destruct (tcp_get AckNum tcp =? _).
  - px. apply HQ. effect_done.
Qed.

(** *** The whole handlers *)
Lemma wp_release_if_closed E (x : Ctx) (Q : unit → Ctx → Prop) :
  Q tt (if both_closed (states_of (x_con x)) then x <| x_release := Some (port (x_con x)) |> else x) →
  wp release_if_closed E Q x.
Proof.
  rw /release_if_closed /both_closed /states_of. destruct x as [[] ]. intros HQ. px.
  revert HQ. cbn [fst snd]. by destruct (is_state _ _ && _).
Qed.

Lemma effect_release next g r counts sched q x x1 :
  effect next g r counts sched q x x1 →
  effect next g (if both_closed next then Some (port (x_con x)) else r) counts sched q x
    (if both_closed (states_of (x_con x1)) then x1 <| x_release := Some (port (x_con x1)) |> else x1).
Proof.
  intros [Hst Hg Hr Hcc Hcs Hp Hi Hcp Hd Hw Hq]. rw Hst.
  destruct (both_closed next); split; try done. cbn. by rw /port Hp.
Qed.

Lemma effect_forward next g r counts sched q x x1 x2 n :
  effect next g r counts sched q x x1 → ctx_steady true x1 x2 →
  effect next (Some n) r counts sched q x (x2 <| x_group := n |>).
Proof.
  intros [Hst Hg Hr Hcc Hcs Hp Hi Hcp Hd Hw Hq] [[Sp Si Sc Sd Ss Sx Sy] Sw Scc Scs Sg Sr Sq].
  split; cbn; try congruence.
  - by rw -Hst /states_of /client_state /server_state Sx Sy.
  - destruct sched; [|by rw Sw Ss]. destruct Hw as [d Hw]. exists d. by rw Hw -Sw -Ss.
  - intros H. by rw Sq // Hq.
Qed.

Lemma wp_client_tcp E cfg tcp ss ns ck m wh cc cs al qu c p g rel (Q : unit → Ctx → Prop) :
  quiet E c → closures_ok cfg →
  (client_event_of c tcp = CSyn → timeouts_ok cfg ∨ ∀ e, E e) →
  (client_event_of c tcp = CFirstPayload → ∀ e, E e) →
  (client_forwards (states_of c) = true → ∀ e, E e) →
  (∀ x', client_tcp_effect (client_event_of c tcp) (mkCtx (mkWorld ss ns ck m) wh cc cs al qu c p g rel) x' → Q tt x') →
  wp (client_tcp cfg tcp) E Q (mkCtx (mkWorld ss ns ck m) wh cc cs al qu c p g rel).
Proof.
  intros Hq Hcl Ht Hf Hfw HQ. rw /client_tcp. px.
  apply wp_client_machine; [done..|]. intros x1 H1%effect_release.
  apply wp_bind, wp_release_if_closed. revert H1. cbv zeta.
  set (x := mkCtx _ _ _ _ _ _ _ _ _ _) in *. set (x2 := if both_closed _ then _ else x1).
  intros H2. revert Hfw HQ. rw /client_tcp_effect.
  change (state_geb (server_state c) Established && state_ltb (server_state c) Closed
    && state_geb (client_state c) Established) with (client_forwards (states_of (x_con x))).
  change (states_of c) with (states_of (x_con x)).
  set (ev := client_event_of c tcp) in *. set (new := client_next ev _) in *.
  assert ((if bool_decide (ev = CRst) || both_closed new then Some (port (x_con x)) else None)
    = (if both_closed new then Some (port (x_con x))
       else if bool_decide (ev = CRst) then Some (port (x_con x)) else None)) as ->
    by by destruct (bool_decide _), (both_closed new).
  destruct (client_forwards _); intros Hfw HQ; cbn [when].
  - apply wp_bind, (wp_steady true); [steady|auto|]. intros p' x3 H3.
    apply wp_bind, (wp_steady true); [steady|auto|]. intros _ x4 H4.
    apply wp_modify, HQ. eapply effect_forward; [exact H2|by etransitivity].
  - px. by apply HQ.
Qed.

Lemma wp_server_tcp E cfg tcp ss ns ck m wh cc cs al qu c p g rel (Q : unit → Ctx → Prop) :
  quiet E c →
  (server_event_of c tcp = SSynAck → ∀ e, E e) →
  (server_forwards (states_of c) = true → ∀ e, E e) →
  (∀ x', server_tcp_effect (server_event_of c tcp) (mkCtx (mkWorld ss ns ck m) wh cc cs al qu c p g rel) x' → Q tt x') →
  wp (server_tcp cfg tcp) E Q (mkCtx (mkWorld ss ns ck m) wh cc cs al qu c p g rel).
Proof.
  intros Hq Hsa Hfw HQ. rw /server_tcp. px.
  apply wp_server_machine; [done..|]. intros x1 H1%effect_release.
  apply wp_bind, wp_release_if_closed. revert H1. cbv zeta.
  set (x := mkCtx _ _ _ _ _ _ _ _ _ _) in *. set (x2 := if both_closed _ then _ else x1).
  intros H2. revert Hfw HQ. rw /server_tcp_effect.
  change (state_geb (server_state c) Established && state_geb (client_state c) Established
    && state_ltb (client_state c) Closed) with (server_forwards (states_of (x_con x))).
  change (states_of c) with (states_of (x_con x)).
  set (ev := server_event_of c tcp) in *. set (new := server_next ev _) in *.
  destruct (server_forwards _); intros Hfw HQ.
  - apply wp_bind, (wp_steady true); [steady|auto|]. intros p' x3 H3.
    apply wp_bind, (wp_steady true); [steady|auto|]. intros _ x4 H4.
    apply wp_modify, HQ. eapply effect_forward; [exact H2|by etransitivity].
  - destruct (bool_decide_reflect (ev = SOther)) as [He|He]; cbn [when].
    + apply wp_modify, HQ. clear HQ Hsa. clearbody new ev. subst ev.
      eapply effect_forward; [exact H2|done].
    + px. apply HQ. by destruct ev.
Qed.
End machine_lemmas.
