(* ===== verification/Reach.v ===== *)
(** * Reachable states of a connection

    The pairs (client state, server state) a connection can be in, closed under
    every event of [StateMachine.v]. *)
From Stdlib Require Import ZArith Lia ssreflect.
From S2P Require Import Prelude Crates Sample Extension Connection CManager ManagerInv Proxy.
From S2P Require Import Packets Translate Steady Handler StateMachine.
#[local] Open Scope general_if_scope.

Section order.
Context `{TC : TcpCommon} `{SL : !StateLaws}.

(** *** Deciding comparisons of the named states *)
Definition all_states : list TcpState :=
  [Listen; SynReceived; SynSent; Established; CloseWait; LastAck; FinWait1; Closing; FinWait2; Closed].

Lemma all_states_ne i j a b : all_states !! i = Some a → all_states !! j = Some b → i ≠ j → a ≠ b.
Proof. intros Hi Hj Hne ->. by apply Hne, (NoDup_lookup _ _ _ _ states_distinct Hi Hj). Qed.

Lemma is_state_refl a : is_state a a = true.
Proof. by apply bool_decide_true. Qed.
Lemma is_state_ne a b : a ≠ b → is_state a b = false.
Proof. apply bool_decide_false. Qed.

Definition st_lt (a b : TcpState) : Prop := state_ltb a b = true.
Lemma st_lt_trans a b c : st_lt a b → st_lt b c → st_lt a c.
Proof.
  rw /st_lt /state_ltb !negb_true_iff. intros Hab Hbc. apply not_true_is_false. intros Hca.
  destruct (state_leb_total a b) as [H|H]; [|by rw H in Hab].
  by rw (state_leb_trans c a b Hca H) in Hbc.
Qed.
Lemma st_lt_geb a b : st_lt a b → state_geb a b = false.
Proof. rw /st_lt /state_geb /state_ltb. by destruct (state_leb b a). Qed.
Lemma st_lt_ltb a b : st_lt a b → state_ltb b a = false.
Proof.
  rw /st_lt /state_ltb. destruct (state_leb_total a b) as [H|H]; [by rw H|by rw H].
Qed.
Lemma st_ltb_refl a : state_ltb a a = false.
Proof. by rw /state_ltb state_leb_refl. Qed.
Lemma st_geb_refl a : state_geb a a = true.
Proof. apply state_leb_refl. Qed.
Lemma st_gt_geb a b : st_lt b a → state_geb a b = true.
Proof.
  rw /st_lt /state_ltb /state_geb. destruct (state_leb_total a b) as [H|H]; [by rw H|done].
Qed.
Lemma st_ltb_geb a b : state_ltb a b = negb (state_geb a b).
Proof. done. Qed.

Lemma lt_Listen_SynReceived : st_lt Listen SynReceived. Proof. apply Listen_SynReceived. Qed.
Lemma lt_SynReceived_Established : st_lt SynReceived Established. Proof. apply SynReceived_Established. Qed.
Lemma lt_SynSent_Established : st_lt SynSent Established. Proof. apply SynSent_Established. Qed.
Lemma lt_Established_CloseWait : st_lt Established CloseWait. Proof. apply Established_CloseWait. Qed.
Lemma lt_Established_LastAck : st_lt Established LastAck. Proof. apply Established_LastAck. Qed.
Lemma lt_LastAck_FinWait1 : st_lt LastAck FinWait1. Proof. apply LastAck_FinWait1. Qed.
Lemma lt_FinWait1_FinWait2 : st_lt FinWait1 FinWait2. Proof. apply FinWait1_FinWait2. Qed.
Lemma lt_FinWait1_Closing : st_lt FinWait1 Closing. Proof. apply FinWait1_Closing. Qed.
Lemma lt_FinWait2_Closed : st_lt FinWait2 Closed. Proof. apply FinWait2_Closed. Qed.
Lemma lt_Closing_Closed : st_lt Closing Closed. Proof. apply Closing_Closed. Qed.
Lemma lt_CloseWait_Closed : st_lt CloseWait Closed. Proof. apply CloseWait_Closed. Qed.
End order.

Create HintDb state_order.
#[export] Hint Resolve lt_Listen_SynReceived lt_SynReceived_Established lt_SynSent_Established
  lt_Established_CloseWait lt_Established_LastAck lt_LastAck_FinWait1 lt_FinWait1_FinWait2
  lt_FinWait1_Closing lt_FinWait2_Closed lt_Closing_Closed lt_CloseWait_Closed : state_order.
#[export] Hint Extern 5 (st_lt _ _) => eapply st_lt_trans : state_order.

Ltac state_index s :=
  lazymatch s with
  | Listen => constr:(0%nat) | SynReceived => constr:(1%nat) | SynSent => constr:(2%nat)
  | Established => constr:(3%nat) | CloseWait => constr:(4%nat) | LastAck => constr:(5%nat)
  | FinWait1 => constr:(6%nat) | Closing => constr:(7%nat) | FinWait2 => constr:(8%nat)
  | Closed => constr:(9%nat)
  end.
Ltac state_ne a b :=
  let i := state_index a in let j := state_index b in
  exact (all_states_ne i j a b eq_refl eq_refl ltac:(done)).
Section reach.
Context `{TC : TcpCommon}.

(** The pairs a connection can be in *)
Definition reachable_rows : list (TcpState * list TcpState) := [
  (SynSent, [Listen; LastAck; FinWait1; Closing; FinWait2; Closed]);
  (Established, [Listen; SynReceived; Established; LastAck; FinWait1; Closing; FinWait2; Closed]);
  (CloseWait, [LastAck; FinWait1; Closing; FinWait2; Closed]);
  (LastAck, [FinWait1; Closing; FinWait2; Closed]);
  (FinWait1, [Established; LastAck]);
  (Closing, [LastAck; Closing; Closed]);
  (FinWait2, [Established; LastAck]);
  (Closed, [Listen; LastAck; Closing; Closed])].
Definition reachable_pairs : list (TcpState * TcpState) :=
  row ← reachable_rows; pair row.1 <$> row.2.
Definition pair_ok (cs : TcpState * TcpState) : Prop := cs ∈ reachable_pairs.
#[global] Instance pair_ok_dec cs : Decision (pair_ok cs).
Proof. rw /pair_ok. apply _. Defined.

(** When an event can happen *)
Definition client_enabled (ev : client_event) (cs : TcpState * TcpState) : Prop :=
  let '(c, s) := cs in
  match ev with
  | CSyn => is_state c Closed = true
  | CHandshakeAck => is_state c SynSent = true
  | CFinReply | CFinBoth | CAckOfFin => state_geb s FinWait1 = true
  | CFinEarly => state_geb s FinWait1 = false ∧ state_geb s Established = false
  | CFin => state_geb s FinWait1 = false ∧ state_geb s Established = true
  | CFinalAck => is_state s LastAck = true
  | CFirstPayload => is_state c Established = true ∧ is_state s Listen = true
  | CStale | CSynIgnored | CRst | CUnexpected | CData => True
  end.
Definition server_enabled (ev : server_event) (cs : TcpState * TcpState) : Prop :=
  let '(c, s) := cs in
  match ev with
  | SSynAck => is_state s SynReceived = true
  | SFinReply | SFinBoth => state_geb c FinWait1 = true
  | SFin => state_geb c FinWait1 = false
  | SAckOfFin => state_geb c LastAck = true
  | SSynAckIgnored | SAckOther | SOther => True
  end.

(** One packet of a connection that stays in use: a RST releases it, and so
    does reaching (Closed, Closed). *)
Inductive con_step : TcpState * TcpState → TcpState * TcpState → Prop :=
| step_client ev cs :
    ev ≠ CRst → both_closed cs = false → client_enabled ev cs → con_step cs (client_next ev cs)
| step_server ev cs :
    both_closed cs = false → server_enabled ev cs → con_step cs (server_next ev cs).

(** The states of a connection in use *)
Definition live_pair (cs : TcpState * TcpState) : Prop := pair_ok cs ∧ both_closed cs = false.
#[global] Instance live_pair_dec cs : Decision (live_pair cs).
Proof. rw /live_pair. apply _. Defined.

(** ** The specification: independent sessions

    A port carries a session or not. One packet opens the session of a port,
    moves it by an event, resets it or closes it. *)
Inductive packet_move : option (TcpState * TcpState) → option (TcpState * TcpState) → Prop :=
| move_none s : packet_move s s
| move_open : packet_move None (Some (SynSent, Listen))
| move_step cs cs' : con_step cs cs' → both_closed cs' = false → packet_move (Some cs) (Some cs')
| move_reset cs : packet_move (Some cs) None
| move_closed cs cs' : con_step cs cs' → both_closed cs' = true → packet_move (Some cs) None.
End reach.

(** Evaluate the comparisons of named states. *)
Ltac eval_states :=
  repeat match goal with
  | |- context [is_state ?a ?a] => rw (is_state_refl a)
  | |- context [is_state ?a ?b] => rw (is_state_ne a b ltac:(state_ne a b))
  | |- context [state_geb ?a ?a] => rw (st_geb_refl a)
  | Hg : state_geb ?a ?b = _ |- context [state_geb ?a ?b] => rw Hg
  end.

(** A goal for every pair *)
Ltac by_pairs :=
  unfold reachable_pairs, reachable_rows; cbn -[client_next server_next client_enabled server_enabled pair_ok];
  repeat apply Forall_cons_2; try by apply Forall_nil_2.

Section reach_lemmas.
Context `{TC : TcpCommon} `{SL : !StateLaws}.

(** The comparisons the events ask for *)
Lemma geb_table :
  state_geb Listen FinWait1 = false ∧
  state_geb SynReceived FinWait1 = false ∧
  state_geb SynSent FinWait1 = false ∧
  state_geb Established FinWait1 = false ∧
  state_geb LastAck FinWait1 = false ∧
  state_geb Closing FinWait1 = true ∧
  state_geb FinWait2 FinWait1 = true ∧
  state_geb Closed FinWait1 = true ∧
  state_geb Listen Established = false ∧
  state_geb SynReceived Established = false ∧
  state_geb SynSent Established = false ∧
  state_geb CloseWait Established = true ∧
  state_geb LastAck Established = true ∧
  state_geb FinWait1 Established = true ∧
  state_geb Closing Established = true ∧
  state_geb FinWait2 Established = true ∧
  state_geb Closed Established = true ∧
  state_geb SynSent LastAck = false ∧
  state_geb Established LastAck = false ∧
  state_geb FinWait1 LastAck = true ∧
  state_geb Closing LastAck = true ∧
  state_geb FinWait2 LastAck = true ∧
  state_geb Closed LastAck = true.
Proof.
  split_and!; first [apply st_lt_geb; eauto 8 with state_order|apply st_gt_geb; eauto 8 with state_order].
Qed.

Ltac mem := first [left|right; mem].
Ltac in_pairs := unfold pair_ok, reachable_pairs, reachable_rows; cbn; mem.

Lemma pair_ok_forall (P : TcpState * TcpState → Prop) :
  Forall P reachable_pairs → ∀ cs, pair_ok cs → P cs.
Proof. rw Forall_forall. eauto. Qed.

(** Check a property of a step on every pair. *)
Ltac by_pair :=
  cbn [client_next server_next client_enabled server_enabled]; eval_states;
  intros Hen; first [discriminate Hen|destruct Hen; discriminate|in_pairs].
Lemma client_step_ok ev cs : ev ≠ CRst → client_enabled ev cs → pair_ok cs → pair_ok (client_next ev cs).
Proof.
  intros Hne Hen Hok. revert cs Hok Hen.
  apply (pair_ok_forall (λ cs, client_enabled ev cs → pair_ok (client_next ev cs))).
  pose proof geb_table. destruct_and!.
  destruct ev; try done; by_pairs; by_pair.
Qed.

Lemma server_step_ok ev cs : server_enabled ev cs → pair_ok cs → pair_ok (server_next ev cs).
Proof.
  intros Hen Hok. revert cs Hok Hen.
  apply (pair_ok_forall (λ cs, server_enabled ev cs → pair_ok (server_next ev cs))).
  pose proof geb_table. destruct_and!.
  destruct ev; by_pairs; by_pair.
Qed.

Lemma pair_ok_start : pair_ok (Closed, Listen).
Proof. in_pairs. Qed.

Lemma step_ok cs cs' : con_step cs cs' → pair_ok cs → pair_ok cs'.
Proof. intros [ev ? ? ? ?|ev ? ? ?]; [by apply client_step_ok|by apply server_step_ok]. Qed.

(** What the table says of each state *)
Lemma pair_ok_facts cs : pair_ok cs →
  (cs.2 = SynReceived ∨ cs.2 = Established → cs.1 = Established ∨ cs.1 = FinWait1 ∨ cs.1 = FinWait2) ∧
  (cs.1 = LastAck → state_geb cs.2 FinWait1 = true) ∧
  (cs.1 = Closed → cs.2 = Listen ∨ cs.2 = LastAck ∨ cs.2 = Closing ∨ cs.2 = Closed) ∧
  (cs.2 = Listen → cs.1 = Closed ∨ cs.1 = SynSent ∨ cs.1 = Established).
Proof.
  revert cs. apply pair_ok_forall. pose proof geb_table. destruct_and!.
  by_pairs; cbn [fst snd]; split_and!; intros Hs;
    repeat match type of Hs with _ ∨ _ => destruct Hs as [Hs|Hs] end;
    try (match type of Hs with ?a = ?b => exfalso; revert Hs; state_ne a b end);
    eval_states; auto.
Qed.

(** *** A way to close from every pair *)
Definition closing_event (cs : TcpState * TcpState) : client_event + server_event :=
  let '(c, s) := cs in
  if is_state c SynSent then
    if is_state s Listen then inl CFinEarly else if is_state s LastAck then inl CFin else inl CFinBoth
  else if is_state s Listen || is_state s SynReceived then inl CFinEarly
  else if is_state c LastAck then inr SAckOfFin
  else if is_state s LastAck then inl CFinalAck
  else if is_state s Established then
    if is_state c Established then inl CFin else inr SFinReply
  else if is_state c Closed then inl CAckOfFin
  else if is_state c Closing && is_state s Closed then inr SAckOfFin
  else inl CFinReply.
Definition closing_next (cs : TcpState * TcpState) : TcpState * TcpState :=
  match closing_event cs with inl ev => client_next ev cs | inr ev => server_next ev cs end.

Ltac eval_closing :=
  repeat progress (
    unfold both_closed;
    cbn [closing_event client_next server_next client_enabled server_enabled fst snd negb andb orb];
    eval_states).

(** It stays among the pairs. *)
Lemma closing_next_ok : ∀ cs, pair_ok cs → pair_ok (closing_next cs).
Proof.
  apply pair_ok_forall. pose proof geb_table. destruct_and!. unfold closing_next.
  by_pairs; eval_closing; try in_pairs.
Qed.

(** Three steps of it close the connection. *)
Lemma closing_next_closes : ∀ cs, pair_ok cs →
  both_closed cs = true ∨ both_closed (closing_next cs) = true ∨
  both_closed (closing_next (closing_next cs)) = true ∨
  both_closed (closing_next (closing_next (closing_next cs))) = true.
Proof.
  apply pair_ok_forall. pose proof geb_table. destruct_and!. unfold closing_next.
  by_pairs; repeat first [left; eval_closing; reflexivity|right]; eval_closing; reflexivity.
Qed.
End reach_lemmas.

(** An event that a packet is classified as is possible in the states of the
    connection. *)
Section enabled.
Context `{TC : TcpCommon} `{PF : Profile} `{RC : !RecordCrate} `{HC : HeaderCrate}
  `{PC : !PacketCrate} `{CL : Clock} `{WC : WheelCrate}.

Ltac guards :=
  repeat match goal with
  | H : _ && _ = true |- _ => apply andb_prop in H as [? ?]
  | H : negb _ = true |- _ => apply negb_true_iff in H
  | H : negb _ = false |- _ => apply negb_false_iff in H
  end; (done || (by split)).

Lemma client_event_enabled c tcp : client_enabled (client_event_of c tcp) (states_of c).
Proof.
  rw /client_event_of /client_enabled /states_of /state_ltb.
  repeat case_match; guards.
Qed.

Lemma server_event_enabled c tcp : server_enabled (server_event_of c tcp) (states_of c).
Proof.
  rw /server_event_of /server_enabled /states_of. repeat case_match; guards.
Qed.
End enabled.

Section moves.
Context `{TC : TcpCommon} `{SL : !StateLaws}.

Lemma live_pair_new : live_pair (Closed, Listen).
Proof.
  split; [apply pair_ok_start|]. rw /both_closed /= is_state_refl.
  apply is_state_ne. state_ne Listen Closed.
Qed.

(** What a packet of the client, of the server, does to the session of its
    connection; [s] is the session before, [cs] the states the handler sees *)
Definition session_of (s : option (TcpState * TcpState)) (cs : TcpState * TcpState) (ev : client_event) : Prop :=
  s = Some cs ∨ s = None ∧ cs = (Closed, Listen) ∧ ev = CSyn.

Lemma client_packet_move s cs ev :
  session_of s cs ev → both_closed cs = false → client_enabled ev cs →
  packet_move s (if bool_decide (ev = CRst) || both_closed (client_next ev cs) then None
                 else Some (client_next ev cs)).
Proof.
  intros [-> |(-> & -> & ->)] Hb Hen.
  - destruct (bool_decide_reflect (ev = CRst)) as [|Hne]; [apply move_reset|]. cbn [orb].
    destruct (both_closed (client_next ev cs)) eqn:Hn.
    + by eapply move_closed; [apply step_client|].
    + by apply move_step; [apply step_client|].
  - rw bool_decide_false //. cbn [client_next orb].
    assert (both_closed (SynSent, Listen) = false) as ->; [|apply move_open].
    rw /both_closed /= is_state_ne //. state_ne SynSent Closed.
Qed.

Lemma server_packet_move cs ev :
  both_closed cs = false → server_enabled ev cs →
  packet_move (Some cs) (if both_closed (server_next ev cs) then None else Some (server_next ev cs)).
Proof.
  intros Hb Hen. destruct (both_closed (server_next ev cs)) eqn:Hn.
  - by eapply move_closed; [apply step_server|].
  - by apply move_step; [apply step_server|].
Qed.
End moves.

(** *** Runs of one connection

    [packet_step next]: other packets of the pipeline are handled and change
    the context as [next] says, then a packet of the connection is handled by the
    client-side or the server-side handler, and the handler returns. *)
Section packet_steps.
Context `{TC : TcpCommon} `{PF : Profile} `{RC : !RecordCrate} `{HC : HeaderCrate}
  `{PC : !PacketCrate} `{CL : Clock} `{WC : WheelCrate}.

Definition handles (cfg : Config) (x x' : Ctx) : Prop :=
  ∃ tcp, client_tcp cfg tcp x = Ok (tt, x') ∨ server_tcp cfg tcp x = Ok (tt, x').

Inductive packet_step (cfg : Config) (next : Ctx → Ctx → Prop) (x : Ctx) : Ctx → Prop :=
| packet_handled x1 x2 : next x x1 → handles cfg x1 x2 → packet_step cfg next x x2.

(** The same connection, as long as its release is not requested, with any
    packet, memory, timers, counters .. *)
Definition same_con (x x' : Ctx) : Prop :=
  x_con x' = x_con x ∧ x_release x = None ∧ x_release x' = None.

(** Any connection and any packet, with the counters of the pipeline *)
Definition same_counters (x x' : Ctx) : Prop :=
  x_counter_c x' = x_counter_c x ∧ x_counter_s x' = x_counter_s x.
End packet_steps.
