(* ===== verification/Counters.v ===== *)
(** * Relations between the counters

    Every event increments the client-side and the server-side counters so that
    what was received on one side and sent on the other stays in balance. *)
From Stdlib Require Import ZArith Lia ssreflect.
From S2P Require Import Prelude Crates Sample Extension Connection CManager ManagerInv Proxy.
From S2P Require Import Packets Translate Steady Handler StateMachine.
#[local] Open Scope general_if_scope.

Section counters.
Context `{TC : TcpCommon}.

(** [cc], [cs]: the counters of the client side and of the server side *)
Record counters_ok (cc cs : TcpCounter) : Prop := {
  ct_syn : counter_get cc RecvSyn = counter_get cc SentSynAck;
  ct_payload : counter_get cc RecvPayload = counter_get cs SentSyn;
  ct_synack2 : counter_get cs SentSynAck2 = counter_get cs SentPayload;
  ct_synack : counter_get cs SentSynAck2 ≤ counter_get cs RecvSynAck;
  ct_ack4fin : counter_get cc RecvAck4Fin = counter_get cs SentAck4Fin;
  ct_finpssv : counter_get cc RecvFinPssv = counter_get cs SentFinPssv;
  ct_s_fin : counter_get cs RecvFin = counter_get cc SentFin;
  (** The closes the proxy answered itself, counted three times *)
  ct_early_fin : counter_get cs SentFin ≤ counter_get cc RecvFin;
  ct_early_pssv : counter_get cc SentFinPssv - counter_get cs RecvFinPssv =
                  counter_get cc RecvFin - counter_get cs SentFin;
  ct_early_ack : counter_get cc SentAck4Fin - counter_get cs RecvAck4Fin =
                 counter_get cc RecvFin - counter_get cs SentFin;
}.

Definition all_stats : list TcpStatistics :=
  [RecvSyn; SentSyn; RecvSynAck; SentSynAck; RecvSynAck2; SentSynAck2;
   RecvFin; SentFin; RecvFinPssv; SentFinPssv; RecvAck4Fin; SentAck4Fin;
   RecvPayload; SentPayload; RecvRst; Unexpected].
End counters.

Ltac stat_index s :=
  lazymatch s with
  | RecvSyn => constr:(0%nat) | SentSyn => constr:(1%nat) | RecvSynAck => constr:(2%nat)
  | SentSynAck => constr:(3%nat) | RecvSynAck2 => constr:(4%nat) | SentSynAck2 => constr:(5%nat)
  | RecvFin => constr:(6%nat) | SentFin => constr:(7%nat) | RecvFinPssv => constr:(8%nat)
  | SentFinPssv => constr:(9%nat) | RecvAck4Fin => constr:(10%nat) | SentAck4Fin => constr:(11%nat)
  | RecvPayload => constr:(12%nat) | SentPayload => constr:(13%nat) | RecvRst => constr:(14%nat)
  | Unexpected => constr:(15%nat)
  end.

Section counter_lemmas.
Context `{TC : TcpCommon} `{CLaws : !CounterLaws}.

Lemma all_stats_ne i j a b : all_stats !! i = Some a → all_stats !! j = Some b → i ≠ j → a ≠ b.
Proof. intros Hi Hj Hne ->. by apply Hne, (NoDup_lookup _ _ _ _ statistics_distinct Hi Hj). Qed.

Lemma counter_incr_same k n : counter_get (counter_incr k n) k = counter_get n k + 1.
Proof. rw counter_get_incr. by rw decide_True. Qed.
Lemma counter_incr_other k j n : k ≠ j → counter_get (counter_incr k n) j = counter_get n j.
Proof. intros. rw counter_get_incr decide_False //. lia. Qed.

Ltac eval_counts :=
  repeat match goal with
  | |- context [counter_get (counter_incr ?k ?n) ?k] => rw (counter_incr_same k n)
  | |- context [counter_get (counter_incr ?k ?n) ?j] =>
      let i := stat_index k in let l := stat_index j in
      rw (counter_incr_other k j n (all_stats_ne i l k j eq_refl eq_refl ltac:(done)))
  end.

Lemma counters_ok_new : counters_ok counter_new counter_new.
Proof. split; rw !counter_get_new; lia. Qed.

Lemma counters_ok_client ev cc cs :
  counters_ok cc cs →
  counters_ok (count_all (client_counts ev).1 cc) (count_all (client_counts ev).2 cs).
Proof. intros []. destruct ev; split; cbn; eval_counts; lia. Qed.

Lemma counters_ok_server ev cc cs :
  counters_ok cc cs →
  counters_ok (count_all (server_counts ev).1 cc) (count_all (server_counts ev).2 cs).
Proof. intros []. destruct ev; split; cbn; eval_counts; lia. Qed.
End counter_lemmas.
