(* ===== verification/Pipeline.v ===== *)
(** * The pipeline keeps its invariant

    [engine_inv]: the manager's invariant, every connection in use in a
    reachable pair of states, not both closed, and with its own port at its entry of the timer
    wheel, and the counters in balance. Every call of the closure preserves it. *)
From Stdlib Require Import ZArith Lia ssreflect.
From S2P Require Import Prelude Crates Sample Extension Connection Messages CManager ManagerInv.
From S2P Require Import NatTable Manager Proxy Packets Translate Steady Handler StateMachine.
From S2P Require Import Reach Counters.
#[local] Open Scope general_if_scope.

Section invariant.
Context `{TC : TcpCommon} `{PF : Profile} `{RC : !RecordCrate} `{HC : HeaderCrate}
  `{PC : !PacketCrate} `{CL : Clock} `{WC : WheelCrate} `{WL : !WheelLaws}.

(** The connection [c] at port [p] and its timer entry *)
Definition timer_ok (w : TimerWheel) (p : Z) (c : ProxyConnection) : Prop :=
  wheel_entry w (wheel_slot_and_index c) = Some p.

(** The part of the invariant on the manager and the wheel. Ports in [l] have
    just been taken out of the wheel and wait for their time-out; at the port
    [but] the states need not be reachable. *)
Record cms_inv (l : list Z) (but : option Z) (st : CmState) : Prop := {
  ci_cm : cm_inv (cm st);
  ci_states p c : con_at (cm st) p = Some c → in_use c = true → but ≠ Some p → live_pair (states_of c);
  ci_timer p c : con_at (cm st) p = Some c → in_use c = true → timer_ok (cm_wheel st) p c ∨ p ∈ l;
  ci_entries idx p : wheel_entry (cm_wheel st) idx = Some p → 0 ≤ p < 65536;
}.

Record engine_inv (e : Engine) : Prop := {
  ei_cms : cms_inv [] None (e_cms e);
  ei_counters : counters_ok (e_counter_c e) (e_counter_s e);
}.
End invariant.

Section cms_lemmas.
Context `{TC : TcpCommon} `{PF : Profile} `{RC : !RecordCrate} `{HC : HeaderCrate}
  `{PC : !PacketCrate} `{CL : Clock} `{WC : WheelCrate} `{WL : !WheelLaws} `{SL : !StateLaws}.

Lemma con_at_port m p c : cm_inv m → con_at m p = Some c → 0 ≤ p < 65536.
Proof.
  intros Hi Hc. pose proof (con_at_valid _ _ _ Hc). pose proof (range_bound _ (inv_range _ Hi)).
  pose proof (range_base _ (inv_range _ Hi)). lia.
Qed.

Lemma con_at_deallocated m p c0 c q :
  con_at m p = Some c0 →
  con_at (deallocated p c0 c m) q = if decide (p = q) then Some c else con_at m q.
Proof. intros. change (con_at (set_con p c m) q = if decide (p = q) then Some c else con_at m q). by apply con_at_set with c0. Qed.

Lemma con_at_allocated m p rest c0 c s q :
  con_at m p = Some c0 →
  con_at (allocated p rest c s m) q = if decide (p = q) then Some c else con_at m q.
Proof. intros. change (con_at (set_con p c m) q = if decide (p = q) then Some c else con_at m q). by apply con_at_set with c0. Qed.

(** Connections were at most taken out of use, ... *)
Definition closes_only (tab tab' : ConnectionManager) : Prop :=
  ∀ q c, con_at tab' q = Some c → in_use c = true → con_at tab q = Some c.
(** ... and the packets left alone. *)
Record shrinks (st st' : CmState) : Prop := {
  sh_con : closes_only (cm st) (cm st');
  sh_mem : w_mem (cm_world st') = w_mem (cm_world st);
  sh_details : no_details (cm st) → no_details (cm st');
}.
#[global] Instance shrinks_preorder : PreOrder shrinks.
Proof.
  split; [intros a; by split; [intros q c|..]|].
  intros a b c [Ha ? ?] [Hb ? ?]. split; [|congruence|eauto]. intros q d Hd Hu. apply Ha; [by apply Hb|done].
Qed.

Lemma shrinks_dealloc st p c c' w' wh' :
  con_at (cm st) p = Some c → in_use c' = false → (detailed_c c = None → detailed_c c' = None) →
  w_mem w' = w_mem (cm_world st) →
  shrinks st {| cm := deallocated p c c' (cm st); cm_world := w'; cm_wheel := wh' |}.
Proof.
  intros Hc Hout Hd Hw. split; cbn; [|done|intros Hn; by apply deallocated_no_details].
  intros q d. rw (con_at_deallocated _ _ _ _ _ Hc). case_decide; [|done]. intros [= <-]. by rw Hout.
Qed.

(** Taking the connection at [p] out of use *)
Lemma cms_inv_dealloc l but st p c c' w' wh' :
  cms_inv l but st → con_at (cm st) p = Some c → in_use c = true → in_use c' = false →
  (∀ idx q, q ≠ p → wheel_entry (cm_wheel st) idx = Some q → wheel_entry wh' idx = Some q) →
  (∀ idx q, wheel_entry wh' idx = Some q → 0 ≤ q < 65536) →
  cms_inv (filter (λ q, q ≠ p) l) (if decide (but = Some p) then None else but)
    {| cm := deallocated p c c' (cm st); cm_world := w'; cm_wheel := wh' |}.
Proof.
  intros [Hi Hs Ht He] Hc Hin Hout Hkeep Hent. split; cbn; [| | |done].
  - by apply inv_dealloc.
  - intros q cq. rw (con_at_deallocated _ _ _ _ _ Hc).
    destruct (decide (p = q)) as [<-|Hne]; [intros [= <-]; by rw Hout|].
    intros Hq Huq Hb. apply (Hs q cq Hq Huq). intros ->. case_decide; congruence.
  - intros q cq. rw (con_at_deallocated _ _ _ _ _ Hc).
    destruct (decide (p = q)) as [<-|Hne]; [intros [= <-]; by rw Hout|].
    intros Hq Huq. destruct (Ht q cq Hq Huq) as [Hw|Hl]; [left; by apply Hkeep|right].
    apply list_elem_of_filter. by split.
Qed.

(** [release_port] of a connection in use never fails. *)
Lemma wp_release_port_inv E p c st (Q : unit → CmState → Prop) :
  cms_inv [] (Some p) st → con_at (cm st) p = Some c → in_use c = true →
  (∀ st', cms_inv [] None st' → (∀ q, p ≠ q → con_at (cm st') q = con_at (cm st) q) →
     shrinks st st' → con_at (cm st') p = Some (pc_release c) → Q tt st') →
  wp (release_port p) E Q st.
Proof.
  intros Hinv Hc Hin HQ. pose proof Hinv as [Hi Hs Ht He].
  destruct (Ht p c Hc Hin) as [Hw|Hl]; [|by apply elem_of_nil in Hl].
  apply (wp_release_port_used _ _ c); [done..| |].
  - rw wheel_replace_old Hw. intros o [= ->]. by left.
  - apply HQ; [|intros q Hq; cbn; by rw (con_at_deallocated _ _ _ _ _ Hc) decide_False
      |by apply shrinks_dealloc; [|apply pc_release_in_use|apply no_details_release|]
      |cbn; by rw (con_at_deallocated _ _ _ _ _ Hc) decide_True].
    pose proof (cms_inv_dealloc [] (Some p) st p c (pc_release c) (cm_world st)
      (wheel_replace (wheel_slot_and_index c) 0 (cm_wheel st)).2 Hinv Hc Hin (pc_release_in_use c)) as H.
    rw decide_True // in H. apply H.
    + intros idx q Hne Hq. rw wheel_replace_entry. case_decide as Hd; [|done].
      subst idx. rw Hw in Hq. by injection Hq as ->.
    + intros idx q. rw wheel_replace_entry. case_decide; [|apply He]. rw Hw. intros [= <-]. lia.
Qed.

Lemma cms_inv_mono l l' but st : (∀ p, p ∈ l → p ∈ l') → cms_inv l but st → cms_inv l' but st.
Proof. intros Hl [Hi Hs Ht He]. split; [done..| |done]. intros p c Hc Hu. destruct (Ht p c Hc Hu); eauto. Qed.

(** Only the manager and the wheel matter. *)
Lemma cms_inv_world l but m w w' wh :
  cms_inv l but {| cm := m; cm_world := w; cm_wheel := wh |} →
  cms_inv l but {| cm := m; cm_world := w'; cm_wheel := wh |}.
Proof. intros [Hi Hs Ht He]. by split. Qed.

(** ** Timer ticks *)
Lemma wp_timeout_inv E p l st (Q : unit → CmState → Prop) :
  cms_inv (p :: l) None st → quiet_cm E (cm st) → 0 ≤ p < 65536 →
  (∀ st', cms_inv l None st' → quiet_cm E (cm st') → cm_wheel st' = cm_wheel st → shrinks st st' → Q tt st') →
  wp (timeout p) E Q st.
Proof.
  intros Hinv Hq Hp HQ. pose proof Hinv as [Hi Hs Ht He].
  destruct (con_at (cm st) p) as [c|] eqn:Hc; [destruct (in_use c) eqn:Hin|].
  - apply (wp_timeout_used _ _ c); [done..|]. intros c' w' Hw Hout Hd.
    apply HQ; [| |done|by apply shrinks_dealloc].
    + apply (cms_inv_mono (filter (λ q, q ≠ p) (p :: l))).
      { intros q [? Hin']%list_elem_of_filter. by apply elem_of_cons in Hin' as [-> |]. }
      by apply (cms_inv_dealloc (p :: l) None st p c c' w' (cm_wheel st)).
    + destruct Hq as [Hn|HE]; [left|by right]. by apply deallocated_no_details.
  - apply wp_timeout_free; [by apply inv_range|done|by rw Hc; intros ? [= <-]|].
    apply HQ; [|done..]. split; [done..| |done]. intros q cq Hcq Huq.
    destruct (Ht q cq Hcq Huq) as [|[-> |]%elem_of_cons]; [by left| |by right].
    simplify_eq. by rw Hin in Huq.
  - apply wp_timeout_free; [by apply inv_range|done|by rw Hc|].
    apply HQ; [|done..]. split; [done..| |done]. intros q cq Hcq Huq.
    destruct (Ht q cq Hcq Huq) as [|[-> |]%elem_of_cons]; [by left| |by right]. by rw Hc in Hcq.
Qed.

Lemma wp_drain_loop_inv E l : ∀ st (Q : unit → CmState → Prop),
  cms_inv l None st → quiet_cm E (cm st) → Forall (λ p, 0 ≤ p < 65536) l →
  (∀ st', cms_inv [] None st' → quiet_cm E (cm st') → cm_wheel st' = cm_wheel st → shrinks st st' → Q tt st') →
  wp (drain_loop l) E Q st.
Proof.
  induction l as [|p l IH]; intros st Q Hinv Hq Hl HQ; [by apply wp_ret, HQ|].
  inversion_clear Hl as [|? ? Hp Hl']. cbn [drain_loop]. apply wp_bind, wp_when.
  - intros _. apply wp_timeout_inv with l; [done..|]. intros st1 H1 Hq1 Hw1 Hs1.
    apply IH; [done..|]. intros st2 H2 Hq2 Hw2 Hs2. apply HQ; [done..|by rw Hw2|by etransitivity].
  - intros Hp0. apply IH; [|done..]. pose proof Hinv as [Hi Hs Ht He]. split; [done..| |done].
    intros q cq Hcq Huq. destruct (Ht q cq Hcq Huq) as [|[-> |]%elem_of_cons]; [by left| |by right].
    apply negb_false_iff, Z.eqb_eq in Hp0. subst p.
    destruct (inv_used _ Hi 0 cq Hcq Huq) as [Hp0 _]. move: Huq. by rw /in_use Hp0.
Qed.

Lemma wp_release_timeouts_inv E now n : ∀ st (Q : option unit → CmState → Prop),
  cms_inv [] None st → quiet_cm E (cm st) → (wheel_lag now (cm_wheel st) < n)%nat →
  (∀ st', cms_inv [] None st' → quiet_cm E (cm st') → shrinks st st' → Q (Some tt) st') →
  wp (release_timeouts n now) E Q st.
Proof.
  induction n as [|n IH]; intros st Q Hinv Hq Hlag HQ; [lia|]. cbn [release_timeouts].
  pose proof (wheel_tick_lag now (cm_wheel st)) as Hlag'.
  pose proof (wheel_tick_drained now (cm_wheel st)) as Hdr.
  pose proof (wheel_tick_entry now (cm_wheel st)) as Hte.
  apply wp_bind. change (wp (tick now) E ?P st) with
    (P (wheel_tick now (cm_wheel st)).1 (st <| cm_wheel := (wheel_tick now (cm_wheel st)).2 |>)).
  destruct (wheel_tick now (cm_wheel st)) as [[d more] w] eqn:Ht. cbn in *.
  assert (cms_inv (default [] d) None (st <| cm_wheel := w |>)) as H1.
  { destruct Hinv as [Hi Hs Htm He]. split; cbn; [done..| |].
    - intros p c Hc Hu. destruct (Htm p c Hc Hu) as [Hw|[]%elem_of_nil].
      destruct (Hte (wheel_slot_and_index c)) as [Hsame|(_ & p' & l & Hp' & Hl & Hin)].
      + left. by rw /timer_ok Hsame.
      + right. rw Hw in Hp'. injection Hp' as <-. by rw Hl.
    - intros idx p Hp. destruct (Hte idx) as [Hsame|[Hnone _]]; [|by rw Hnone in Hp].
      apply (He idx). by rw -Hsame. }
  assert (shrinks st (st <| cm_wheel := w |>)) as Hsh by (split; [by intros q c|done..]).
  assert (∀ st1, cms_inv [] None st1 → quiet_cm E (cm st1) → cm_wheel st1 = w → shrinks st st1 →
    wp (S := CmState) (if more then release_timeouts n now else mret (Some tt)) E Q st1) as Hrest.
  { intros st1 Hi1 Hq1 Hw1 Hs1. destruct more; [|by apply wp_ret, HQ].
    specialize (Hlag' eq_refl). apply IH; [done..|rw Hw1; lia|]. intros; apply HQ; [done..|by etransitivity]. }
  apply wp_bind. destruct d as [l|]; [|by apply wp_ret, Hrest].
  apply wp_drain_loop_inv; [done..| |].
  - apply Forall_forall. intros p Hp. destruct (Hdr l p eq_refl Hp) as [idx Hidx].
    by eapply (ci_entries _ _ _ Hinv).
  - intros st' Hi' Hq' Hw' Hs'. by apply Hrest; [..|etransitivity].
Qed.
End cms_lemmas.

Section handling.
Context `{TC : TcpCommon} `{PF : Profile} `{RC : !RecordCrate} `{HC : HeaderCrate}
  `{PC : !PacketCrate} `{CL : Clock} `{WC : WheelCrate} `{WL : !WheelLaws} `{SL : !StateLaws}
  `{HL : !HeaderLaws} `{PL : !PacketLaws} `{RL : !RefcntLaws} `{KL : !CounterLaws}.

(** The engine after the handling of a packet of the connection at [pt] *)
Definition after (pt : Z) (x : Ctx) (e : Engine) : Engine :=
  (absorb x e) <| e_cms := (e_cms (absorb x e)) <| cm := set_con pt (x_con x) (cm (e_cms e)) |> |>.

Lemma wp_with_con E pt p c (m : PX unit) e (Q : Ctx → Engine → Prop) :
  range_ok (cm (e_cms e)) → con_at (cm (e_cms e)) pt = Some c →
  wp m E (λ _ x, Q x (after pt x e)) (ctx_of e c p) → wp (with_con pt p m) E Q e.
Proof.
  destruct e as [st cc cs al qu tk rx tx op]. cbn [e_cms]. intros Hr Hc Hm.
  apply wp_bind, wp_zoom, (wp_lookup_con _ _ c); [done..|].
  apply wp_bind, wp_gets, wp_bind, wp_lift. move: Hm. rw /wp.
  change (id _) with (mkEngine st cc cs al qu tk rx tx op).
  destruct (m _) as [[[] x]|]; [|done]. intros HQ. cbn [wpr].
  apply wp_bind, wp_modify, wp_bind, wp_zoom. by apply (wp_store_con _ _ _ c).
Qed.

Lemma after_inv pt p c e x' next g r counts sched q0 :
  let x := ctx_of e c p in
  cms_inv [pt] (Some pt) (e_cms e) → con_at (cm (e_cms e)) pt = Some c → in_use c = true →
  sched = true ∨ timer_ok (cm_wheel (e_cms e)) pt c →
  effect next g r counts sched q0 x x' →
  cms_inv [] (Some pt) (e_cms (after pt x' e)) ∧
  con_at (cm (e_cms (after pt x' e))) pt = Some (x_con x') ∧ in_use (x_con x') = true ∧
  (live_pair next → cms_inv [] None (e_cms (after pt x' e))).
Proof.
  intros x [Hi Hs Ht He] Hc Hin Hsched Hef.
  pose proof Hef as [Hst _ _ _ _ Hp Hip Hcp _ Hw _].
  destruct (inv_used _ Hi pt c Hc Hin) as (Hport & _).
  pose proof (λ q, con_at_set (cm (e_cms e)) pt q (x_con x') c Hc) as Hat.
  assert (in_use (x_con x') = true) as Hin' by (rw /in_use Hp; exact Hin).
  assert (∀ idx q, wheel_entry (x_wheel x') idx = Some q →
    q = pt ∨ wheel_entry (cm_wheel (e_cms e)) idx = Some q) as Hent.
  { intros idx q. destruct sched; [|destruct Hw as [-> _]; by right].
    destruct Hw as [d Hw]. cbn in Hw.
    pose proof (wheel_schedule_entry d (port c) (cm_wheel (e_cms e)) idx) as Hse. rw Hw /= in Hse.
    rw Hse. case_decide; [|by right]. intros [= <-]. left. exact Hport. }
  assert (timer_ok (x_wheel x') pt (x_con x')) as Htimer.
  { rw /timer_ok. destruct sched.
    - destruct Hw as [d Hw]. cbn in Hw.
      pose proof (wheel_schedule_entry d (port c) (cm_wheel (e_cms e)) (wheel_slot_and_index (x_con x'))) as Hse.
      rw Hw /= decide_True // in Hse. by rw Hse /port Hport.
    - destruct Hw as [-> ->]. by destruct Hsched. }
  assert (∀ but, (∀ q cq, con_at (set_con pt (x_con x') (cm (e_cms e))) q = Some cq → in_use cq = true →
      but ≠ Some q → live_pair (states_of cq)) → cms_inv [] but (e_cms (after pt x' e))) as Hall.
  { intros but Hb. split; [|exact Hb| |].
    - apply (inv_touch (cm (e_cms e)) pt c); [done..|by rw Hin Hin'|].
      intros _. by rw /sock_of Hip Hcp Hp.
    - cbn. intros q cq. rw Hat. case_decide as Hd; [intros [= <-]; left; by subst q|].
      intros Hq Huq. left. destruct (Ht q cq Hq Huq) as [Htq|Hl]; [|by apply list_elem_of_singleton in Hl].
      rw /timer_ok in Htq |- *. destruct sched; [|by destruct Hw as [-> _]].
      destruct Hw as [d Hw]. cbn in Hw.
      pose proof (wheel_schedule_entry d (port c) (cm_wheel (e_cms e)) (wheel_slot_and_index cq)) as Hse.
      pose proof (wheel_schedule_fresh d (port c) (cm_wheel (e_cms e))) as Hfr. rw Hw /= in Hse Hfr.
      rw Hse. case_decide as Hd'; [|done]. subst. by rw Hd' Htq in Hfr.
    - cbn. intros idx q Hq. destruct (Hent idx q Hq) as [-> |Hq']; [by eapply con_at_port|eauto]. }
  split_and!.
  - apply Hall. intros q cq. rw Hat. case_decide as Hd; [by subst q|]. intros; by eapply Hs.
  - cbn. by rw Hat decide_True.
  - done.
  - intros Hok. apply Hall. intros q cq. rw Hat. case_decide as Hd.
    + intros [= <-] _ _. by rw Hst.
    + intros Hq Huq _. apply (Hs q cq Hq Huq). congruence.
Qed.

(** The port whose connection a TCP packet concerns *)
Definition concerned (cfg : Config) (e : Engine) (p : Pdu) : option Z :=
  let tcp := tcp_of (e_mem e) p in
  let s := (ip_get IpSrc (ip_of (e_mem e) p), tcp_get SrcPort tcp) in
  if tcp_get DstPort tcp =? l234_port (me cfg)
  then if tcp_flag SYN tcp then (nt_alloc s (abs (cm (e_cms e)))).1 else nt_map (abs (cm (e_cms e))) !! s
  else Some (tcp_get DstPort tcp).

(** The session at a port *)
Definition session (tab : ConnectionManager) (pt : Z) : option (TcpState * TcpState) :=
  match con_at tab pt with
  | Some c => if in_use c then Some (states_of c) else None
  | None => None
  end.

Lemma session_closes tab tab' q :
  closes_only tab tab' → session tab' q = session tab q ∨ session tab' q = None.
Proof.
  intros Hc. rw /session. destruct (con_at tab' q) as [c|] eqn:Hq; [|by right].
  destruct (in_use c) eqn:Hu; [|by right]. left. by rw (Hc q c Hq Hu) Hu.
Qed.

(** What holds when a TCP packet for the connection at [at_] has been handled
    and the connection it asks to release, if any, is still in the table [m0]
    was before *)
Record handled_ok (m0 : ConnectionManager) (at_ : option Z) (r : Pdu * Z * option Z) (e : Engine) : Prop := {
  ho_group : r.1.2 = 0 ∨ r.1.2 = 1 ∨ r.1.2 = 2;
  ho_counters : counters_ok (e_counter_c e) (e_counter_s e);
  ho_release : r.2 = None ∨ r.2 = at_;
  ho_others q : at_ ≠ Some q → con_at (cm (e_cms e)) q = con_at m0 q;
  ho_move pt : at_ = Some pt →
    packet_move (session m0 pt) (if r.2 is Some _ then None else session (cm (e_cms e)) pt);
  ho_cms : match r.2 with
           | None => cms_inv [] None (e_cms e)
           | Some pt => cms_inv [] (Some pt) (e_cms e) ∧
               ∃ c, con_at (cm (e_cms e)) pt = Some c ∧ in_use c = true
           end;
}.

Lemma client_event_new s pt c0 d tcp :
  tcp_flag SYN tcp = true → client_event_of ((pc_initialize s pt c0) <| detailed_c := d |>) tcp = CSyn.
Proof.
  intros Hsyn. rw /client_event_of /states_of.
  change (client_state ((pc_initialize s pt c0) <| detailed_c := d |>)) with (state_from_u8 (state_as_u8 Closed)).
  rw state_from_as is_state_refl Hsyn. done.
Qed.

Lemma states_new s pt c0 d : states_of ((pc_initialize s pt c0) <| detailed_c := d |>) = (Closed, Listen).
Proof. by rw /states_of /client_state /server_state /= !state_from_as. Qed.

Lemma client_group_range (b : bool) ev :
  let g := default 0 (if b then Some 1 else client_group ev) in g = 0 ∨ g = 1 ∨ g = 2.
Proof. destruct b; [by right; left|]. destruct ev; first [by left|by right; left|by right; right]. Qed.
Lemma server_group_range (b : bool) ev :
  let g := default 0 (if b then Some 1 else
    match ev with SSynAck | SSynAckIgnored => Some 0 | SOther => Some 2 | _ => None end) in
  g = 0 ∨ g = 1 ∨ g = 2.
Proof. destruct b; [by right; left|]. destruct ev; first [by left|by right; left|by right; right]. Qed.

(** A packet of the client's connection at [pt]; [m0] is the table before the
    connection was looked up or inserted *)
Lemma wp_client_packet E cfg tcp pt p c m0 e (Q : Pdu * Z * option Z → Engine → Prop) :
  (∀ e, E e) → closures_ok cfg →
  cms_inv [pt] (Some pt) (e_cms e) → counters_ok (e_counter_c e) (e_counter_s e) →
  con_at (cm (e_cms e)) pt = Some c → in_use c = true → live_pair (states_of c) →
  client_event_of c tcp = CSyn ∨ timer_ok (cm_wheel (e_cms e)) pt c →
  session_of (session m0 pt) (states_of c) (client_event_of c tcp) →
  (∀ q, q ≠ pt → con_at (cm (e_cms e)) q = con_at m0 q) →
  (∀ r e', handled_ok m0 (Some pt) r e' → Q r e') →
  wp (x ← with_con pt p (client_tcp cfg tcp); mret (x_pdu x, x_group x, x_release x)) E Q e.
Proof.
  intros HE Hcl Hinv Hct Hc Hin [Hok Hlive] Hsched Hses Hm0 HQ.
  pose proof (ci_cm _ _ _ Hinv) as Hi.
  apply wp_bind, (wp_with_con _ _ _ c); [by apply inv_range|done|].
  rw /ctx_of. destruct (cm_world (e_cms e)) as [ss ns ck m] eqn:Hw.
  apply wp_client_tcp; [by right|done|by right|done..|].
  intros x' Hx'. apply wp_ret, HQ.
  assert (bool_decide (client_event_of c tcp = CSyn) = true ∨ timer_ok (cm_wheel (e_cms e)) pt c) as Hs'
    by (destruct Hsched; [left; by apply bool_decide_true|by right]).
  rw -Hw in Hx'. change (mkCtx _ _ _ _ _ _ _ _ _ _) with (ctx_of e c p) in Hx'.
  destruct (after_inv pt p c e x' _ _ _ _ _ _ Hinv Hc Hin Hs' Hx') as (H1 & H2 & H3 & H4).
  pose proof Hx' as [Hst Hg Hr Hcc Hcs Hp _ _ _ _ _].
  destruct (inv_used _ Hi pt c Hc Hin) as (Hport & _).
  pose proof (client_packet_move _ _ _ Hses Hlive (client_event_enabled c tcp)) as Hmove.
  cbn [x_con ctx_of] in Hst, Hr, H4. rw /port Hport in Hr.
  pose proof (λ Hne, client_step_ok _ _ Hne (client_event_enabled c tcp) Hok) as Hok'.
  set (next := client_next _ _) in *.
  split; cbn [fst snd].
  - rw Hg. apply client_group_range.
  - cbn. rw Hcc Hcs. by apply counters_ok_client.
  - rw Hr. destruct (_ || _); [by right|by left].
  - intros q Hq. rw -Hm0; [congruence|]. apply con_at_set_ne; [|congruence]. by destruct (con_at_valid _ _ _ Hc).
  - intros pt' [= <-]. rw Hr /session H2 H3 Hst. by destruct (bool_decide (client_event_of c tcp = CRst) || both_closed next).
  - rw Hr.
    destruct (bool_decide_reflect (client_event_of c tcp = CRst)) as [|Hne]; cbn [orb].
    { split; [done|]. by exists (x_con x'). }
    destruct (both_closed next) eqn:Hb.
    { split; [done|]. by exists (x_con x'). }
    cbn. apply H4. by split; [apply Hok'|].
Qed.

Lemma wp_server_packet E cfg tcp pt p c e (Q : Pdu * Z * option Z → Engine → Prop) :
  (∀ e, E e) → engine_inv e → con_at (cm (e_cms e)) pt = Some c → in_use c = true →
  (∀ r e', handled_ok (cm (e_cms e)) (Some pt) r e' → Q r e') →
  wp (x ← with_con pt p (server_tcp cfg tcp); mret (x_pdu x, x_group x, x_release x)) E Q e.
Proof.
  intros HE [Hinv Hct] Hc Hin HQ.
  pose proof (ci_cm _ _ _ Hinv) as Hi.
  pose proof (ci_states _ _ _ Hinv pt c Hc Hin ltac:(done)) as [Hok Hlive].
  destruct (ci_timer _ _ _ Hinv pt c Hc Hin) as [Htm|Hl]; [|by apply elem_of_nil in Hl].
  apply wp_bind, (wp_with_con _ _ _ c); [by apply inv_range|done|].
  rw /ctx_of. destruct (cm_world (e_cms e)) as [ss ns ck m] eqn:Hw.
  apply wp_server_tcp; [by right|done|done|].
  intros x' Hx'. apply wp_ret, HQ.
  rw -Hw in Hx'. change (mkCtx _ _ _ _ _ _ _ _ _ _) with (ctx_of e c p) in Hx'.
  assert (cms_inv [pt] (Some pt) (e_cms e)) as Hinv'.
  { apply (cms_inv_mono []); [by intros ? ?%elem_of_nil|]. destruct Hinv as [? Hs ? ?]. split; [done| |done..].
    intros; by eapply Hs. }
  destruct (after_inv pt p c e x' _ _ _ _ _ _ Hinv' Hc Hin (or_intror Htm) Hx') as (H1 & H2 & H3 & H4).
  pose proof Hx' as [Hst Hg Hr Hcc Hcs Hp _ _ _ _ _].
  destruct (inv_used _ Hi pt c Hc Hin) as (Hport & _).
  pose proof (server_packet_move _ _ Hlive (server_event_enabled c tcp)) as Hmove.
  cbn [x_con ctx_of] in Hst, Hr, H4. rw /port Hport in Hr.
  pose proof (server_step_ok _ _ (server_event_enabled c tcp) Hok) as Hok'.
  set (next := server_next _ _) in *.
  split; cbn [fst snd].
  - rw Hg. apply server_group_range.
  - cbn. rw Hcc Hcs. by apply counters_ok_server.
  - rw Hr. destruct (both_closed next); [by right|by left].
  - intros q Hq. apply con_at_set_ne; [|congruence]. by destruct (con_at_valid _ _ _ Hc).
  - intros pt' [= <-]. rw Hr /session H2 H3 Hst Hc Hin. by destruct (both_closed next).
  - rw Hr. destruct (both_closed next) eqn:Hb.
    { split; [done|]. by exists (x_con x'). }
    cbn. by apply H4.
Qed.

(** *** One TCP packet, one call of the closure *)
Lemma on_cms_id e : e <| e_cms := e_cms e |> = e.
Proof. by destruct e. Qed.

Lemma wp_on_cms_lift {A} E (f : ConnectionManager → res A) (Q : A → Engine → Prop) e :
  wpr (f (cm (e_cms e))) E (λ a, Q a e) → wp (on_cms (m ← gets cm; lift (f m))) E Q e.
Proof.
  intros Hf. apply wp_zoom, wp_bind, wp_gets, wp_lift. by rw on_cms_id.
Qed.

(** The connection of a client that is known, ... *)
Lemma wp_known_client E cfg tcp pt p c e (Q : Pdu * Z * option Z → Engine → Prop) :
  (∀ e, E e) → closures_ok cfg → engine_inv e →
  con_at (cm (e_cms e)) pt = Some c → in_use c = true →
  (∀ r e', handled_ok (cm (e_cms e)) (Some pt) r e' → Q r e') →
  wp (x ← with_con pt p (client_tcp cfg tcp); mret (x_pdu x, x_group x, x_release x)) E Q e.
Proof.
  intros HE Hcl [Hcms Hct] Hc Hin HQ.
  apply (wp_client_packet _ _ _ _ _ c (cm (e_cms e))); [done..| |done| | | | | |done|done].
  - apply (cms_inv_mono []); [by intros ? ?%elem_of_nil|].
    destruct Hcms as [? Hs ? ?]. split; [done| |done..]. intros; by eapply Hs.
  - done.
  - done.
  - by eapply (ci_states _ _ _ Hcms).
  - right. by destruct (ci_timer _ _ _ Hcms pt c Hc Hin) as [|?%elem_of_nil].
  - left. by rw /session Hc Hin.
Qed.

(** ... and one that has just been allocated for a SYN *)
Lemma wp_new_client E cfg tcp pt rest p c0 d s w' e (Q : Pdu * Z * option Z → Engine → Prop) :
  let c := (pc_initialize s pt c0) <| detailed_c := d |> in
  (∀ e, E e) → closures_ok cfg → engine_inv e → tcp_flag SYN tcp = true →
  sock2port (cm (e_cms e)) !! s = None → free_ports (cm (e_cms e)) = pt :: rest →
  con_at (cm (e_cms e)) pt = Some c0 → s.1 ≠ 0 →
  (∀ r e', handled_ok (cm (e_cms e)) (Some pt) r e' → Q r e') →
  wp (x ← with_con pt p (client_tcp cfg tcp); mret (x_pdu x, x_group x, x_release x)) E Q
    (e <| e_cms := {| cm := allocated pt rest c s (cm (e_cms e)); cm_world := w';
                      cm_wheel := cm_wheel (e_cms e) |} |>).
Proof.
  intros c HE Hcl [Hcms Hct] Hsyn Hs Hf Hc Hip HQ. pose proof (ci_cm _ _ _ Hcms) as Hi.
  pose proof (allocated_inv pt rest c0 d s _ Hi Hf Hc Hs Hip) as Hi'.
  pose proof (λ q, con_at_allocated (cm (e_cms e)) pt rest c0 c s q Hc) as Hat.
  destruct (inv_free _ Hi pt) as (Hp0 & c1 & Hc1 & Hfree); [rw Hf; left|].
  apply (wp_client_packet _ _ _ _ _ c (cm (e_cms e))); [done..| |done| | | | | | |done].
  - destruct Hcms as [_ Hs' Ht He]. split; cbn; [done| | |done].
    + intros q cq. rw Hat. case_decide; [by subst q|]. intros; by eapply Hs'.
    + intros q cq. rw Hat. case_decide; [subst q; right; left|].
      intros Hq Hu. destruct (Ht q cq Hq Hu) as [|?%elem_of_nil]; [by left|done].
  - cbn. by rw Hat decide_True.
  - rw /in_use /=. lia.
  - rw states_new. apply live_pair_new.
  - left. by apply client_event_new.
  - right. split_and!; [|apply states_new|by apply client_event_new].
    by rw /session Hc1 Hfree.
  - intros q Hq. cbn. by rw Hat decide_False.
Qed.

Lemma wp_tcp_packet E cfg p e (Q : Pdu * Z * option Z → Engine → Prop) :
  (∀ e, E e) → closures_ok cfg → engine_inv e →
  ip_get IpSrc (ip_of (e_mem e) p) ≠ 0 →
  (∀ r e', handled_ok (cm (e_cms e)) (concerned cfg e p) r e' → Q r e') → wp (tcp_packet cfg p) E Q e.
Proof.
  intros HE Hcl Hinv Hip HQ. pose proof Hinv as [Hcms Hct]. pose proof (ci_cm _ _ _ Hcms) as Hi.
  assert (∀ g at_, g = 0 ∨ g = 1 ∨ g = 2 → handled_ok (cm (e_cms e)) at_ (p, g, None) e) as Hsame
    by (intros; split; [done..|by left|done|intros; apply move_none|done]).
  apply wp_bind, wp_gets. cbv beta zeta. change (id e) with e.
  revert HQ. rw /concerned. cbv zeta. set (tcp := tcp_of (e_mem e) p).
  set (s := (ip_get IpSrc (ip_of (e_mem e) p), tcp_get SrcPort tcp)).
  destruct (Z.eqb _ _); intros HQ.
  - apply wp_bind. destruct (tcp_flag SYN tcp) eqn:Hsyn.
    + apply wp_zoom, wp_get_mut_or_insert; [done|by right| | |].
      * intros pt Hs. rw on_cms_id. destruct (inv_map _ Hi s pt Hs) as (c & Hc & Hin & _).
        rw /nt_alloc /= Hs in HQ. by apply (wp_known_client _ _ _ _ _ c).
      * intros _ _. rw on_cms_id. apply wp_ret, HQ, Hsame. by left.
      * intros pt rest c0 d w' Hs Hf Hc _ _. rw /nt_alloc /= Hs Hf in HQ. by apply wp_new_client.
    + apply wp_on_cms_lift. rw get_mut_by_sock_eq; [done|]. cbn [wpr].
      cbn in HQ. destruct (sock2port _ !! s) as [pt|] eqn:Hs; [|apply wp_ret, HQ, Hsame; by left].
      destruct (inv_map _ Hi s pt Hs) as (c & Hc & Hin & _). by apply (wp_known_client _ _ _ _ _ c).
  - apply wp_bind, wp_on_cms_lift.
    pose proof (tcp_get_range DstPort tcp) as Hrange. cbn in Hrange.
    destruct (con_at (cm (e_cms e)) (tcp_get DstPort tcp)) as [c|] eqn:Hc.
    + rw (get_mut_by_port_eq _ _ c); [by apply inv_range|done|]. destruct (in_use c) eqn:Hin; cbn [wpr].
      * by apply (wp_server_packet _ _ _ _ _ c).
      * apply wp_ret, HQ, Hsame. by right; right.
    + rw get_mut_by_port_foreign; [by apply inv_range|done..|]. apply wp_ret, HQ, Hsame. by right; right.
Qed.

(** *** The timer packet *)
Lemma holds_store_count id m :
  Forall (λ c, holds_store id c = false) (port2con m) → strong_count id m = 1%nat.
Proof.
  intros H. rw /strong_count. f_equal. rw (filter_none _ (port2con m)); [|done].
  intros c Hc. rw Forall_forall in H. by rw (H c Hc).
Qed.

Lemma wp_cms_gets E m w wh (Q : ConnectionManager → CmState → Prop) :
  Q m (mkCmState m w wh) → wp (gets cm) E Q (mkCmState m w wh).
Proof. done. Qed.
Lemma wp_cms_on_cm E f m w wh (Q : unit → CmState → Prop) :
  Q tt (mkCmState (f m) w wh) → wp (on_cm f) E Q (mkCmState m w wh).
Proof. done. Qed.
Lemma wp_cms_world {A} E (f : M World A) m w wh (Q : A → CmState → Prop) :
  wp f E (λ a w', Q a (mkCmState m w' wh)) w → wp (on_world f) E Q (mkCmState m w wh).
Proof. rw /wp /on_world /zoom /=. by destruct (f w) as [[]|]. Qed.

Lemma wp_rc_new E s (Q : nat → World → Prop) w :
  Q (w_next_store w) (w <| w_stores := <[w_next_store w := s]> (w_stores w) |>
                        <| w_next_store := S (w_next_store w) |>) →
  wp (rc_new s) E Q w.
Proof. done. Qed.

Lemma wp_fetch_quiet E st (Q : option ProxyRecStore → CmState → Prop) :
  (∀ e, E e) → Forall (λ c, holds_store (record_store (cm st)) c = false) (port2con (cm st)) →
  (∀ o nid w', Q o {| cm := (cm st) <| record_store := nid |>; cm_world := w'; cm_wheel := cm_wheel st |}) →
  wp fetch_c_records E Q st.
Proof.
  destruct st as [m w wh]. cbn [cm cm_wheel]. intros HE Hh HQ.
  apply wp_bind, wp_cms_world, wp_rc_new. set (nid := w_next_store _). set (w' := _ <| w_next_store := _ |>).
  apply wp_bind, wp_cms_gets. cbv beta zeta. apply wp_bind, wp_cms_on_cm, wp_bind, wp_cms_gets.
  assert (strong_count (record_store m) (m <| record_store := nid |>) = 1%nat) as Hc
    by by apply holds_store_count.
  rw Hc. apply wp_bind, wp_ret, wp_bind, wp_cms_gets. rw Hc.
  apply wp_bind, wp_cms_world. rw /wp /borrow.
  destruct (w_stores _ !! _); [|apply HE]. apply HQ.
Qed.

Lemma cms_inv_record l but m nid w w' wh :
  cms_inv l but {| cm := m; cm_world := w; cm_wheel := wh |} →
  cms_inv l but {| cm := m <| record_store := nid |>; cm_world := w'; cm_wheel := wh |}.
Proof.
  intros [[[Hm Hb] Hn Hf Hu Hmap Hp] Hs Ht He]. split; [|done..]. split; [by split|done..].
Qed.

(** The messages the tick may have to serve leave the table alone: no
    [FetchCRecords] while connections hold the store. *)
Definition fetch_ok (e : Engine) : Prop :=
  head (e_rx e) = Some FetchCRecords →
  Forall (λ c, holds_store (record_store (cm (e_cms e))) c = false) (port2con (cm (e_cms e))).

Lemma wp_send E msg e (Q : unit → Engine → Prop) :
  (∀ e, E e) → Q tt (e <| e_tx := e_tx e ++ [msg] |>) → wp (send msg) E Q e.
Proof.
  intros HE HQ. apply wp_bind, wp_gets, wp_bind, wp_lift_any; [done|]. intros _.
  apply wp_modify. exact HQ.
Qed.

Lemma wp_try_recv E e (Q : option MessageTo → Engine → Prop) :
  (e_rx e = [] → Q None e) →
  (∀ msg rx', e_rx e = msg :: rx' → Q (Some msg) (e <| e_rx := rx' |>)) →
  wp try_recv E Q e.
Proof.
  intros Hn Hs. apply wp_bind, wp_gets. change (id e) with e.
  destruct (e_rx e) as [|msg rx'] eqn:Hrx; [by apply wp_ret, Hn|].
  by apply wp_bind, wp_modify, wp_ret, Hs.
Qed.

Lemma wp_timer_tick E fuel cfg e (Q : option unit → Engine → Prop) :
  (∀ e, E e) → engine_inv e → fetch_ok e →
  (∀ now, (wheel_lag now (cm_wheel (e_cms e)) < fuel)%nat) →
  (∀ e', engine_inv e' → closes_only (cm (e_cms e)) (cm (e_cms e')) → Q (Some tt) e') →
  wp (timer_tick fuel cfg) E Q e.
Proof.
  intros HE Hinv Hf Hlag HQ.
  apply wp_bind, wp_gets, wp_bind, wp_lift_any; [done|]. intros t. apply wp_bind, wp_modify, wp_bind.
  destruct e as [[m w wh] cc cs al qu tk rx tx op].
  assert (∀ m' w' tx' rx', cms_inv [] None (mkCmState m' w' wh) → closes_only m m' →
    wp (S := Engine) (lift (if wheel_tick_reduction_factor cfg =? 0 then Panic DivByZero else Ok tt);;
        if t mod wheel_tick_reduction_factor cfg =? 0 then
          on_cms (now ← on_world rdtsc; release_timeouts fuel now)
        else mret (Some tt)) E Q
      (mkEngine (mkCmState m' w' wh) cc cs al qu t rx' tx' op)) as Hrest.
  { intros m' w' tx' rx' Hc' Hm'. apply wp_bind, wp_lift_any; [done|]. intros _.
    destruct (Z.eqb _ _); [|by apply wp_ret, HQ; destruct Hinv].
    apply wp_zoom, wp_bind, wp_cms_world. rw /wp /rdtsc. cbn [wp].
    apply (wp_release_timeouts_inv E); [by eapply cms_inv_world|by right|apply Hlag|].
    intros st' Hst' _ Hsh. apply HQ; [by destruct Hinv|]. intros q c Hq Hu. by apply Hm'; [apply (sh_con _ _ Hsh)|]. }
  pose proof (ei_cms _ Hinv) as Hcms. cbn [e_cms] in Hcms.
  assert (closes_only m m) as Hrefl by by intros q c.
  apply wp_try_recv; [intros Hrx|intros msg rx' Hrx]; apply wp_bind; [by apply wp_ret, Hrest|].
  destruct msg; [| |by apply wp_ret, Hrest..].
  - apply wp_bind, wp_gets, wp_send; [done|]. by apply Hrest.
  - apply wp_bind, wp_zoom, wp_fetch_quiet; [done| |].
    { apply Hf. by rw Hrx. }
    intros o nid w1. apply wp_send; [done|]. apply Hrest; [by eapply cms_inv_record|done].
Qed.

(** *** One call of the closure *)
(** The engine with the packet marked for the checksum offload *)
Definition offloaded (cfg : Config) (p : Pdu) (e : Engine) : Engine :=
  if csum_offload cfg
  then e <| e_cms := (e_cms e) <| cm_world := (cm_world (e_cms e))
              <| w_mem := set_tcp_ipv4_checksum_tx_offload p (e_mem e) |> |> |>
  else e.

(** What becomes of a packet: returned with a group by a filter (before or after
    the marking), a timer tick, or handled by the TCP state machine *)
Inductive dispatch := Early (g : Z) | Filtered (g : Z) | Tick | Tcp.
Definition dispatch_of (cfg : Config) (e : Engine) (p : Pdu) : dispatch :=
  match l2_l3_filter cfg (e_mem e) p with
  | Some g => Early g
  | None =>
      let m := e_mem (offloaded cfg p e) in
      if port_filter cfg m p then Filtered 2
      else if mac_etype (mac_of m p) =? PRIVATE_ETYPE_PACKET then Filtered 0
      else if mac_etype (mac_of m p) =? PRIVATE_ETYPE_TIMER then Tick else Tcp
  end.

(** Handling a TCP packet, with the release that may follow *)
Definition handle_tcp (cfg : Config) (p : Pdu) : M Engine (option (Pdu * Z)) :=
  '(p', group_index, release_connection) ← tcp_packet cfg p;
  match release_connection with
  | Some sport => on_cms (release_port sport)
  | None => mret tt
  end;;
  mret (Some (p', group_index)).

Lemma delayed_binding_eq fuel cfg p e :
  delayed_binding fuel cfg p e =
    match dispatch_of cfg e p with
    | Early g => Ok (Some (p, g), e)
    | Filtered g => Ok (Some (p, g), offloaded cfg p e)
    | Tick => (o ← timer_tick fuel cfg; mret ((λ _, (p, 0)) <$> o)) (offloaded cfg p e)
    | Tcp => handle_tcp cfg p (offloaded cfg p e)
    end.
Proof.
  rw /delayed_binding /dispatch_of {1}/mbind {1}/M_bind /gets /id.
  destruct (l2_l3_filter cfg (e_mem e) p) as [g|]; [done|].
  assert ((when (csum_offload cfg) (on_e_mem (set_tcp_ipv4_checksum_tx_offload p))) e
    = Ok (tt, offloaded cfg p e)) as Hoff by (rw /when /offloaded; by destruct (csum_offload cfg)).
  rw {1}/mbind {1}/M_bind Hoff {1}/mbind {1}/M_bind.
  destruct (port_filter _ _ _); [done|]. destruct (_ =? PRIVATE_ETYPE_PACKET); [done|].
  by destruct (_ =? PRIVATE_ETYPE_TIMER).
Qed.

Lemma filter_groups cfg e p :
  match dispatch_of cfg e p with Early g | Filtered g => g = 0 ∨ g = 2 | _ => True end.
Proof.
  rw /dispatch_of. destruct (l2_l3_filter cfg (e_mem e) p) as [g|] eqn:Hf.
  - revert Hf. rw /l2_l3_filter. repeat case_match; intros [= <-]; first [by left|by right].
  - destruct (port_filter _ _ _); [by right|]. destruct (_ =? _); [by left|]. by destruct (_ =? _).
Qed.

Lemma offloaded_inv cfg p e : engine_inv e → engine_inv (offloaded cfg p e).
Proof.
  rw /offloaded. destruct (csum_offload cfg); [|done]. destruct e as [[m w wh] cc cs al qu tk rx tx op].
  intros [Hc Hct]. split; [|done]. by eapply cms_inv_world.
Qed.

Lemma offloaded_same cfg p e : same_packet (e_mem e) (e_mem (offloaded cfg p e)) p.
Proof.
  rw /offloaded. destruct (csum_offload cfg); [|apply same_packet_refl].
  destruct e as [[m w wh] cc cs al qu tk rx tx op]. apply offload_packets.
Qed.

Lemma offloaded_rest cfg p e :
  cm (e_cms (offloaded cfg p e)) = cm (e_cms e) ∧ cm_wheel (e_cms (offloaded cfg p e)) = cm_wheel (e_cms e) ∧
  e_rx (offloaded cfg p e) = e_rx e.
Proof. rw /offloaded. by destruct (csum_offload cfg). Qed.

(** What one call does to the sessions: a TCP packet at most moves the one it
    concerns, a tick at most closes sessions. *)
Definition tcp_moves (cfg : Config) (p : Pdu) (e e' : Engine) : Prop :=
  ∀ q, let s := session (cm (e_cms e)) q in let s' := session (cm (e_cms e')) q in
  (concerned cfg e p ≠ Some q → s' = s) ∧ (concerned cfg e p = Some q → packet_move s s').
Definition call_moves (cfg : Config) (p : Pdu) (e e' : Engine) : Prop :=
  match dispatch_of cfg e p with
  | Early _ | Filtered _ => ∀ q, session (cm (e_cms e')) q = session (cm (e_cms e)) q
  | Tick => ∀ q, session (cm (e_cms e')) q = session (cm (e_cms e)) q ∨ session (cm (e_cms e')) q = None
  | Tcp => tcp_moves cfg p e e'
  end.

Lemma concerned_offloaded cfg p e : concerned cfg (offloaded cfg p e) p = concerned cfg e p.
Proof.
  pose proof (same_hdrs _ _ _ (offloaded_same cfg p e)) as [_ Hip Htcp Hfl].
  destruct (offloaded_rest cfg p e) as (Hcm & _). by rw /concerned Hip !Htcp Hfl Hcm.
Qed.

Lemma wp_handle_tcp E cfg p e (Q : option (Pdu * Z) → Engine → Prop) :
  (∀ e, E e) → closures_ok cfg → engine_inv e → ip_get IpSrc (ip_of (e_mem e) p) ≠ 0 →
  (∀ p' g e', engine_inv e' → g = 0 ∨ g = 1 ∨ g = 2 → tcp_moves cfg p e e' → Q (Some (p', g)) e') →
  wp (handle_tcp cfg p) E Q e.
Proof.
  intros HE Hcl Hinv Hip HQ. apply wp_bind, wp_tcp_packet; [done..|].
  intros [[p' g] rel] e1 [Hg Hct Hat Ho Hmv Hrel]. cbn in *.
  destruct rel as [pt|]; cycle 1.
  { apply wp_bind, wp_ret, wp_ret, HQ; [done..|]. intros q.
    split; [intros Hq; by rw /session Ho|by apply Hmv]. }
  destruct Hat as [Hat|Hat]; [done|]. destruct Hrel as (Hc & c & Hpt & Hin).
  apply wp_bind, wp_zoom, (wp_release_port_inv _ _ c); [done..|].
  intros st' Hst' Hne Hsh Hout. apply wp_ret, HQ; [done..|]. intros q. cbn. split.
  - intros Hq. rw /session Hne; [congruence|]. by rw Ho.
  - intros Hq. specialize (Hmv q Hq). rw -Hat in Hq. injection Hq as <-. by rw /session Hout pc_release_in_use.
Qed.

Lemma wp_delayed_binding E fuel cfg p e (Q : option (Pdu * Z) → Engine → Prop) :
  (∀ e, E e) → closures_ok cfg → engine_inv e → fetch_ok e →
  (dispatch_of cfg e p = Tcp → ip_get IpSrc (ip_of (e_mem e) p) ≠ 0) →
  (∀ now, (wheel_lag now (cm_wheel (e_cms e)) < fuel)%nat) →
  (∀ p' g e', engine_inv e' → g = 0 ∨ g = 1 ∨ g = 2 → call_moves cfg p e e' → Q (Some (p', g)) e') →
  wp (delayed_binding fuel cfg p) E Q e.
Proof.
  intros HE Hcl Hinv Hf Hip Hlag HQ. rw /wp delayed_binding_eq. revert HQ. rw /call_moves. intros HQ.
  pose proof (filter_groups cfg e p) as Hg. pose proof (offloaded_inv cfg p e Hinv) as Hinv'.
  destruct (offloaded_rest cfg p e) as (Hcm & Hwh & Hrx).
  destruct (dispatch_of cfg e p) as [g|g| |].
  - apply HQ; [done|tauto|done].
  - apply HQ; [done|tauto|by rw Hcm].
  - fold (wp (S := Engine) (o ← timer_tick fuel cfg; mret ((λ _, (p, 0)) <$> o)) E Q (offloaded cfg p e)).
    apply wp_bind, wp_timer_tick; [done..| |by rw Hwh|].
    + rw /fetch_ok Hrx Hcm. exact Hf.
    + intros e1 H1 Hcl1. apply wp_ret, HQ; [done|by left|]. intros q. rw -Hcm. by apply session_closes.
  - apply wp_handle_tcp; [done..| |].
    { rw (same_ip _ _ _ (same_hdrs _ _ _ (offloaded_same cfg p e))). by apply Hip. }
    intros p' g e' H1 H2 H3. apply HQ; [done..|]. intros q. specialize (H3 q).
    by rw concerned_offloaded Hcm in H3.
Qed.

(** A new pipeline: the manager [new] builds, and an empty wheel *)
Lemma engine_inv_new shuffle q ip base detailed w k m w0 w' wh al rx :
  0 ≤ k ≤ 16 → 0 ≤ base < 65536 → base mod 2 ^ k = 0 → 0 < base + 2 ^ k - 1 →
  tcp_dst_port_mask q = 65536 - 2 ^ k →
  (∀ lo hi, shuffle lo hi ≡ₚ seqZ lo (hi - lo + 1)) →
  cm_new shuffle q ip base detailed w = Ok (m, w0) →
  (∀ idx, wheel_entry wh idx = None) →
  engine_inv (mkEngine (mkCmState m w' wh) counter_new counter_new al [] 0 rx [] true).
Proof.
  intros Hk Hb Hmod Hpos Hmask Hsh Hrun Hwh.
  rw (cm_new_eq shuffle q ip base detailed w k) // in Hrun. injection Hrun as <- <-.
  split; [|apply counters_ok_new].
  assert (shuffle (if base =? 0 then 1 else base) (base + 2 ^ k - 2) ≡ₚ
    seqZ (if base =? 0 then 1 else base) (base + 2 ^ k - 1 - (if base =? 0 then 1 else base))) as Hl.
  { rw Hsh. by f_equiv; lia. }
  pose proof (cm_new_inv_of (w_next_store w) q ip base detailed _ k Hk Hb Hmod Hpos Hmask Hl) as Hinv.
  assert (∀ p c, con_at {| record_store := w_next_store w; sock2port := ∅;
       free_ports := shuffle (if base =? 0 then 1 else base) (base + 2 ^ k - 2) ++ [base + 2 ^ k - 1];
       port2con := replicate (Z.to_nat (2 ^ k)) pc_new; pci := q; tcp_port_base := base;
       cm_ip := ip; detailed_records := detailed |} p = Some c → in_use c = false) as Hnew.
  { intros p c. rw /con_at /=. destruct (base <=? p); [|done]. by intros [-> _]%lookup_replicate. }
  split; cbn; [done| | |].
  - intros p c Hc Hin. by rw (Hnew _ _ Hc) in Hin.
  - intros p c Hc Hin. by rw (Hnew _ _ Hc) in Hin.
  - intros idx p. by rw Hwh.
Qed.
End handling.
