(* ===== verification/Safety.v ===== *)
(** * When the handlers do not panic, and what they leave

    A client's first payload needs a buffer and a server, a SYN-ACK needs the
    kept packet, a forwarded packet needs an address: under these conditions the
    handlers return, and leave a connection that satisfies them again
    ([goes_on]). *)
From Stdlib Require Import ZArith Lia ssreflect.
From S2P Require Import Prelude Crates Sample Extension Connection Messages CManager ManagerInv.
From S2P Require Import NatTable Manager Proxy Packets Translate Steady Handler StateMachine.
From S2P Require Import Reach Counters Pipeline.
#[local] Open Scope general_if_scope.

Section conditions.
Context `{TC : TcpCommon} `{PF : Profile} `{RC : !RecordCrate} `{HC : HeaderCrate}
  `{PC : !PacketCrate} `{CL : Clock} `{WC : WheelCrate} `{PL : !PacketLaws}.

(** What the embedding program provides: closures that return (the selection for
    the payloads it accepts), servers with ports, a timeout, a tick divisor *)
Record cfg_total (cfg : Config) (sel : Selector) (pf : list Z → Z → list Z) : Prop := {
  ct_select : select_closure no_panic cfg sel;
  ct_payload : payload_closure no_panic cfg pf;
  ct_sel i pl : (∃ srv, index (servers cfg) i = Ok srv) → accepts sel pl →
    ∃ srv, index (servers cfg) (selects sel i pl) = Ok srv;
  ct_first : ∃ srv, index (servers cfg) 0 = Ok srv;
  ct_ports i srv : index (servers cfg) i = Ok srv → 0 ≤ l234_port srv < 2 ^ 16;
  ct_grow pl : accepts sel pl → Z.of_nat (length pl) < 2 ^ 16 → Z.of_nat (length (rewrites sel pl)) < 2 ^ 31;
  ct_me : me_ok cfg;
  ct_timeouts : timeouts_ok cfg;
  ct_factor : wheel_tick_reduction_factor cfg ≠ 0;
}.

(** A connection that packets can be forwarded for, without a record *)
Record con_total (cfg : Config) (c : ProxyConnection) : Prop := {
  cn_server : ∃ srv, index (servers cfg) (server_index c) = Ok srv;
  cn_port : 0 ≤ port c < 2 ^ 16;
  cn_ins : ins_ok (c2s_inserted_bytes c);
  cn_sock : sock_ok c;
  cn_details : detailed_c c = None;
}.

(** [K]: the buffers other parts of the pipeline keep; with the packet [p] *)
Definition with_packet (p : Pdu) (K : Pdu → Prop) : Pdu → Prop := λ q, q = p ∨ K q.

(** The payload packet a connection keeps is referred to by nobody else. *)
Definition held_ok (K : Pdu → Prop) (m : PacketMem) (c : ProxyConnection) : Prop :=
  ∀ pp, payload_packet c = Some pp → pdu_refcnt m pp = 1 ∧ ∀ q, K q → ¬ same_buf pp q.

(** The allocator can deliver a buffer that is not in use, and leaves those that
    are alone. *)
Definition good_last (K : Pdu → Prop) (l : list Pdu) : Prop :=
  ∃ q rest, reverse l = q :: rest ∧ headroom q ∧ ∀ r, K r → ¬ same_buf r q.
Definition alloc_ok (K : Pdu → Prop) (m : PacketMem) (al : option (list Pdu)) (p : Pdu) : Prop :=
  match al with
  | Some [] => ∃ l, (new_pdu_array m).1 = Some l ∧ good_last K l ∧
                 payload_of (new_pdu_array m).2 p = payload_of m p ∧
                 ∀ r, K r → pdu_refcnt (new_pdu_array m).2 r = pdu_refcnt m r
  | Some l => good_last K l
  | None => False
  end.

(** What forwarding relies on is left alone. *)
Definition fwd_same (c c' : ProxyConnection) : Prop :=
  server_index_u8 c' = server_index_u8 c ∧ proxy_port c' = proxy_port c ∧
  c2s_inserted_bytes c' = c2s_inserted_bytes c ∧
  client_ip c' = client_ip c ∧ client_port c' = client_port c ∧ detailed_c c' = detailed_c c.

(** The sequence numbers of the proxy are [u32] (the fields that the handlers compare). *)
Definition nums_ok (c : ProxyConnection) : Prop :=
  0 ≤ ackn_p2c c < 2 ^ 32 ∧ 0 ≤ ack_for_fin_p2c c < 2 ^ 32.

Lemma fwd_same_total cfg c c' : fwd_same c c' → con_total cfg c → con_total cfg c'.
Proof.
  intros (H1 & H2 & H3 & H4 & H5 & H6) [(srv & Hs) Hp Hi Hk Hd]. split.
  - exists srv. by rw /server_index H1.
  - by rw /port H2.
  - by rw H3.
  - by rw /sock_ok H4 H5.
  - by rw H6.
Qed.
End conditions.

Section handlers.
Context `{TC : TcpCommon} `{PF : Profile} `{RC : !RecordCrate} `{HC : HeaderCrate}
  `{PC : !PacketCrate} `{CL : Clock} `{WC : WheelCrate} `{WL : !WheelLaws} `{SL : !StateLaws}
  `{HL : !HeaderLaws} `{PL : !PacketLaws} `{RL : !RefcntLaws} `{KL : !CounterLaws}.
Context (cfg : Config) (sel : Selector) (pf : list Z → Z → list Z) (Hcfg : cfg_total cfg sel pf).

(** *** What a handler leaves *)
(** The packet stays, and with it all the connection relies on. *)
Record kept (p : Pdu) (c : ProxyConnection) (m : PacketMem) (x' : Ctx) : Prop := {
  kp_fwd : fwd_same c (x_con x');
  kp_payload : payload_packet (x_con x') = payload_packet c;
  kp_pdu : x_pdu x' = p;
  kp_nums : nums_ok c → nums_ok (x_con x');
  kp_refcnt q : ¬ same_buf p q → pdu_refcnt (w_mem (x_world x')) q = pdu_refcnt m q;
}.
(** The connection can go on, and the buffers in [K] are still in use. *)
Record goes_on (K : Pdu → Prop) (c : ProxyConnection) (m : PacketMem) (x' : Ctx) : Prop := {
  go_total : con_total cfg (x_con x');
  go_held : held_ok K (w_mem (x_world x')) (x_con x');
  go_nums : nums_ok c → nums_ok (x_con x');
  go_refcnt q : K q → pdu_refcnt (w_mem (x_world x')) q = pdu_refcnt m q;
}.

Lemma kept_goes_on K p c m x' :
  con_total cfg c → held_ok (with_packet p K) m c → (∀ q, K q → ¬ same_buf p q) →
  kept p c m x' → goes_on K c m x'.
Proof.
  intros Hc Hh HK [Hf Hp _ Hn Hr]. split; [by eapply fwd_same_total| |done|by intros; apply Hr, HK].
  intros pp. rw Hp. intros Hpp. destruct (Hh pp Hpp) as [H1 Hd]. split; [|intros q Hq; apply Hd; by right].
  rw Hr; [|done]. intros Hs. apply (Hd p); [by left|by symmetry].
Qed.

(** A handler that did not touch the memory, the packet or those fields *)
Lemma kept_here p c m ss ns ck wh cc cs al qu c' g rel m' :
  fwd_same c c' → payload_packet c' = payload_packet c → (nums_ok c → nums_ok c') →
  (∀ q, ¬ same_buf p q → pdu_refcnt m' q = pdu_refcnt m q) →
  kept p c m (mkCtx (mkWorld ss ns ck m') wh cc cs al qu c' p g rel).
Proof. by intros; split. Qed.

#[local] Ltac nums :=
  intros [? ?]; split; cbn; first [assumption|apply wrapping_add32_range|apply wrapping_sub32_range
                                  |apply (tcp_get_range AckNum)].
#[local] Ltac keep := px; apply kept_here; [done|done|nums|intros ? ?; by refcnt].

(** *** The first payload *)
Lemma wp_get_pdu E K ss ns ck m wh cc cs al qu c p g rel (Q : option Pdu → Ctx → Prop) :
  alloc_ok (with_packet p K) m al p →
  (∀ q m' al', headroom q → ¬ same_buf p q → (∀ r, K r → ¬ same_buf r q) →
     payload_of m' p = payload_of m p → (∀ r, with_packet p K r → pdu_refcnt m' r = pdu_refcnt m r) →
     Q (Some q) (mkCtx (mkWorld ss ns ck m') wh cc cs al' qu c p g rel)) →
  wp get_pdu E Q (mkCtx (mkWorld ss ns ck m) wh cc cs al qu c p g rel).
Proof.
  intros Hal HQ.
  assert (∀ l m' al', good_last (with_packet p K) l → payload_of m' p = payload_of m p →
    (∀ r, with_packet p K r → pdu_refcnt m' r = pdu_refcnt m r) →
    wp (pop_pdu l) E Q (mkCtx (mkWorld ss ns ck m') wh cc cs al' qu c p g rel)) as Hpop.
  { intros l m' al' (q & rest & Hl & Hh & Hd) Hpl Hrc. rw /pop_pdu Hl. px.
    apply HQ; [done|apply Hd; by left|intros r Hr; apply Hd; by right|done..]. }
  rw /get_pdu. px. destruct al as [[|q l]|]; [|by apply Hpop|done].
  destruct Hal as (l & Hl & Hgood & Hpl & Hrc). rw /refill. px. rw pair_let Hl. px. by apply Hpop.
Qed.

Lemma wp_first_payload_goes_on K ss ns ck m wh cc cs al qu c p g rel :
  con_total cfg c → alloc_ok (with_packet p K) m al p → accepts sel (payload_of m p) →
  Z.of_nat (length (payload_of m p)) < 2 ^ 16 → pdu_refcnt m p = 1 → (∀ q, K q → ¬ same_buf p q) →
  wp (client_first_payload cfg) no_panic (λ _ x', goes_on K c m x')
    (mkCtx (mkWorld ss ns ck m) wh cc cs al qu c p g rel).
Proof.
  intros [Hsv Hp _ Hsock Hd] Hal Hacc Hlen Hrc HK. destruct Hcfg as [Hsel _ Hix _ Hports Hgrow _ _ _].
  destruct (Hix _ _ Hsv Hacc) as [srv Hsrv].
  rw /client_first_payload. apply wp_bind, (wp_get_pdu _ K); [done|].
  intros q m' al' Hroom Hne HKq Hpl Hm'. px.
  eapply wp_select_server; [exact Hsel|by rw Hpl|done|done|by rw Hpl|by eapply Hports|done|rw Hpl; lia|by rw Hpl; apply Hgrow|].
  intros ss' ns' ck' m2 pp v ins Hpp _ _ _ Hr2 Ho.
  set (c1 := con_selected pp (selects sel (server_index c) (payload_of m' p)) ins c (hdr m' p)).
  assert (quiet no_panic c1) as Hq by by left.
  assert (con_total cfg c1) as Hc1.
  { split; [exists srv; by rw /server_index /= Hpl|done| |done..].
    change (ins_ok ins). rw /ins_ok /ins Hpl. pose proof (Hgrow (payload_of m p) Hacc Hlen). lia. }
  px. split; cbn.
  - destruct Hc1. by split.
  - intros pp' [= <-]. split; [rw Hr2 Hm'; [by left|done]|]. intros r Hr. rw Hpp. by apply HK.
  - nums.
  - intros r Hr. destruct (Ho r) as [_ ->]; [by apply HK| |apply Hm'; by right].
    intros Hs. apply (HKq r Hr). by symmetry.
Qed.

(** *** The client side *)
Lemma wp_client_machine_kept K tcp ss ns ck m wh cc cs al qu c p g rel :
  let x := mkCtx (mkWorld ss ns ck m) wh cc cs al qu c p g rel in
  detailed_c c = None →
  (client_event_of c tcp = CFirstPayload → wp (client_first_payload cfg) no_panic (λ _ x', goes_on K c m x') x) →
  wp (client_machine cfg tcp (client_state c) (server_state c)) no_panic
    (λ _ x', (client_event_of c tcp ≠ CFirstPayload → kept p c m x') ∧
             (client_event_of c tcp = CFirstPayload → goes_on K c m x')) x.
Proof.
  intros x Hd Hf. assert (quiet no_panic c) as Hq by by left.
  enough (client_event_of c tcp ≠ CFirstPayload →
    wp (client_machine cfg tcp (client_state c) (server_state c)) no_panic (λ _ x', kept p c m x') x) as Hk.
  { destruct (decide (client_event_of c tcp = CFirstPayload)) as [He|He].
    - revert Hf. rw He /client_machine. intros Hf. subst x. px. revert He. rw /client_event_of /states_of.
      repeat (case_match; try done). intros _. eapply wp_mono; [|by apply Hf]. intros [] x' Hx'. by split.
    - eapply wp_mono; [|by apply Hk]. intros [] x' Hx'. by split. }
  clear Hf. subst x. destruct (ct_timeouts _ _ _ Hcfg) as (t & Ht & Hc64).
  intros He. rw /client_machine. px. revert He. rw /client_event_of /states_of.
  destruct (negb _ && _); [by intros; keep|].
  destruct (tcp_flag SYN tcp).
  { intros _. rw /client_syn. destruct (is_state (client_state c) Closed); cbn [when]; [|by keep].
    px. apply wp_client_syn_received. intros m' Hm' Ho. px. rw Ht. px.
    rw (arith_ok 64) //. px. rw pair_let. px. apply kept_here; [done|done|nums|]. intros q Hn. by destruct (Ho q Hn). }
  destruct (tcp_flag ACK tcp && _); [by intros; keep|].
  destruct (tcp_flag FIN tcp).
  { intros _. rw /client_fin. destruct (state_geb (server_state c) FinWait1).
    - px. destruct (tcp_flag ACK tcp && _); [by keep|]. px.
      destruct (is_state (server_state c) FinWait1); [by keep|].
      destruct (is_state (server_state c) FinWait2); by keep.
    - px. rw /client_early_fin. destruct (state_ltb _ _); by keep. }
  destruct (tcp_flag RST tcp); [intros; rw /client_rst; by keep|].
  destruct (tcp_flag ACK tcp && _ && _).
  { intros _. rw /client_ack_of_fin. apply wp_bind.
    destruct (is_state (server_state c) FinWait1); [|destruct (is_state (server_state c) Closing)]; px.
    all: destruct (is_state (client_state c) Established); [by keep|].
    all: destruct (is_state (client_state c) FinWait1); [by keep|].
    all: destruct (is_state (client_state c) FinWait2); by keep. }
  destruct (is_state _ _ && _ && _); [by intros; keep|].
  destruct (is_state (client_state c) Established && _); [done|].
  destruct (_ || _); intros; by keep.
Qed.

(** The first payload is not forwarded by the same call. *)
Lemma first_payload_not_forwarded c tcp :
  client_forwards (states_of c) = true → client_event_of c tcp ≠ CFirstPayload.
Proof.
  rw /client_forwards /states_of /=. intros [[Hs _]%andb_prop _]%andb_prop.
  destruct geb_table as (_ & _ & _ & _ & _ & _ & _ & _ & HL' & _).
  rw /client_event_of /states_of. repeat (case_match; try done).
  match goal with H : is_state _ _ && is_state (server_state c) Listen = true |- _ =>
    apply andb_prop in H as [_ H%bool_decide_eq_true] end.
  congruence.
Qed.

Lemma wp_client_tcp_goes_on K tcp ss ns ck m wh cc cs al qu c p g rel :
  let x := mkCtx (mkWorld ss ns ck m) wh cc cs al qu c p g rel in
  con_total cfg c → held_ok (with_packet p K) m c →
  (client_event_of c tcp = CFirstPayload →
     alloc_ok (with_packet p K) m al p ∧ accepts sel (payload_of m p) ∧ pdu_refcnt m p = 1) →
  Z.of_nat (length (payload_of m p)) < 2 ^ 16 → (∀ q, K q → ¬ same_buf p q) →
  wp (client_tcp cfg tcp) no_panic (λ _ x', goes_on K c m x') x.
Proof.
  intros x Hc Hh Hfp Hlen HK. subst x. rw /client_tcp. px.
  eapply wp_mono; [|apply (wp_client_machine_kept K); [apply Hc|]]; cycle 1.
  { intros He. destruct (Hfp He) as (? & ? & ?). by apply wp_first_payload_goes_on. }
  intros [] x1 [Hkept Hfirst]. apply wp_bind, wp_release_if_closed.
  set (x2 := if both_closed _ then _ else x1).
  assert (x_con x2 = x_con x1 ∧ x_world x2 = x_world x1 ∧ x_pdu x2 = x_pdu x1) as (Hx2 & Hw2 & Hp2)
    by (by rw /x2; destruct (both_closed _)).
  change (state_geb (server_state c) Established && state_ltb (server_state c) Closed
    && state_geb (client_state c) Established) with (client_forwards (states_of c)).
  destruct (client_forwards (states_of c)) eqn:Hfw; cbn [when]; cycle 1.
  { apply wp_ret. assert (goes_on K c m x1) as [H1 H2 Hn H3].
    { destruct (decide (client_event_of c tcp = CFirstPayload)) as [He|He]; [by apply Hfirst|].
      by eapply kept_goes_on, Hkept. }
    split; [by rw Hx2|by rw Hx2 Hw2|by rw Hx2|by rw Hw2]. }
  specialize (Hkept (first_payload_not_forwarded c tcp Hfw)). destruct Hkept as [Hf Hpl Hpd Hn Hr].
  pose proof (fwd_same_total cfg c (x_con x1) Hf Hc) as Hc1.
  rw -Hx2 in Hc1 Hf Hpl Hn. rw -Hp2 in Hpd. rw -Hw2 in Hr. clearbody x2.
  destruct x2 as [[ss2 ns2 ck2 m2] wh2 cc2 cs2 al2 qu2 c2 p2 g2 rel2]. cbn in Hc1, Hf, Hpl, Hpd, Hn, Hr. subst p2.
  destruct Hc1 as [(srv & Hsrv) Hpt Hi2 _ _]. px.
  eapply wp_client_to_server; [apply Hcfg|exact Hsrv|by eapply ct_ports|done|done|].
  intros ss3 ns3 ck3 m3 _ _ Ho. px. apply (kept_goes_on _ p c); [done..|].
  apply kept_here.
  - by rw /con_c2s; destruct (v_fin _).
  - by rw /con_c2s; destruct (v_fin _).
  - intros Hc0%Hn. by rw /con_c2s; destruct (v_fin _).
  - intros q Hq. destruct (Ho q Hq) as [_ ->]. by apply Hr.
Qed.

(** *** The server side *)
#[local] Ltac stay := px; (split; [|done]); intros _; (split; [|done]); apply kept_here; [done..|by intros].

Lemma wp_server_machine_kept K tcp ss ns ck m wh cc cs al qu c p g rel :
  let x := mkCtx (mkWorld ss ns ck m) wh cc cs al qu c p g rel in
  con_total cfg c → held_ok (with_packet p K) m c → (∀ q, K q → ¬ same_buf p q) →
  wp (server_machine tcp (client_state c) (server_state c)) no_panic
    (λ _ x', (server_event_of c tcp ≠ SSynAck → kept p c m x' ∧ w_mem (x_world x') = m) ∧
             (server_event_of c tcp = SSynAck → goes_on K c m x')) x.
Proof.
  intros x Hc Hh HK. assert (quiet no_panic c) as Hq by (left; apply Hc). subst x.
  rw /server_machine /server_event_of /states_of.
  destruct (tcp_flag ACK tcp && tcp_flag SYN tcp).
  { rw /server_synack. destruct (is_state (server_state c) SynReceived); px; cycle 1.
    { split; [|done]. intros _. split; [by apply kept_here|done]. }
    apply wp_server_synack_received.
    { intros pp Hpp. destruct (Hh pp Hpp) as [H1 H2]. split; [|done]. intros Hs.
      apply (H2 p); [by left|by symmetry]. }
    intros m' pcl ack _ _.
    change (payload_packet (_ <| server_state_u8 := _ |>)) with (payload_packet c).
    destruct (payload_packet c) as [pp|] eqn:Hpp; [intros _ _ Ho|intros Ho]; px; (split; [done|]); intros _.
    - destruct (Hh pp Hpp) as [_ H2]. destruct Hc as [? ? ? ? ?].
      split; [by split|by intros pp'|nums|]. intros q Hkq. cbn. destruct (Ho q) as [_ Hr]; [by apply HK| |exact Hr].
      apply H2. by right.
    - destruct Hc as [? ? ? ? ?]. split; [by split|by intros pp'; cbn; rw Hpp|nums|].
      intros q Hkq. cbn. destruct (Ho q) as [_ Hr]; [by apply HK|exact Hr]. }
  destruct (tcp_flag FIN tcp).
  { rw /server_fin. destruct (state_geb (client_state c) FinWait1); px; [|by stay].
    destruct (tcp_flag ACK tcp && _); [by stay|]. px.
    destruct (is_state (client_state c) FinWait1); [by stay|].
    destruct (is_state (client_state c) FinWait2); by stay. }
  destruct (state_geb (client_state c) LastAck && tcp_flag ACK tcp); [|by stay].
  rw /server_ack. px. destruct (tcp_get AckNum tcp =? _); cbn [when]; [|by stay]. apply wp_bind.
  destruct (is_state (client_state c) LastAck); [by stay|].
  destruct (is_state (client_state c) FinWait1); [by stay|].
  destruct (is_state (client_state c) Closing); by stay.
Qed.

Lemma synack_not_forwarded c tcp :
  server_forwards (states_of c) = true → server_event_of c tcp ≠ SSynAck.
Proof.
  rw /server_forwards /states_of /=. intros [[Hs _]%andb_prop _]%andb_prop.
  destruct geb_table as (_ & _ & _ & _ & _ & _ & _ & _ & _ & HS & _).
  rw /server_event_of /states_of. repeat (case_match; try done).
  match goal with H : is_state (server_state c) SynReceived = true |- _ =>
    apply bool_decide_eq_true in H end.
  congruence.
Qed.

Lemma wp_server_tcp_goes_on K tcp ss ns ck m wh cc cs al qu c p g rel :
  let x := mkCtx (mkWorld ss ns ck m) wh cc cs al qu c p g rel in
  con_total cfg c → held_ok (with_packet p K) m c → (∀ q, K q → ¬ same_buf p q) →
  Z.of_nat (length (payload_of m p)) < 2 ^ 16 →
  wp (server_tcp cfg tcp) no_panic (λ _ x', goes_on K c m x') x.
Proof.
  intros x Hc Hh HK Hlen. subst x. rw /server_tcp. px.
  eapply wp_mono; [|by apply (wp_server_machine_kept K)].
  intros b x1 [Hkept Hsyn]. apply wp_bind, wp_release_if_closed.
  set (x2 := if both_closed _ then _ else x1).
  assert (x_con x2 = x_con x1 ∧ x_world x2 = x_world x1 ∧ x_pdu x2 = x_pdu x1) as (Hx2 & Hw2 & Hp2)
    by (by rw /x2; destruct (both_closed _)).
  change (state_geb (server_state c) Established && state_geb (client_state c) Established
    && state_ltb (client_state c) Closed) with (server_forwards (states_of c)).
  destruct (server_forwards (states_of c)) eqn:Hfw; cycle 1.
  { assert (goes_on K c m x1) as [H1 H2 Hn H3].
    { destruct (decide (server_event_of c tcp = SSynAck)) as [He|He]; [by apply Hsyn|].
      by eapply kept_goes_on, Hkept. }
    assert (goes_on K c m x2) as [H1' H2' Hn' H3'] by (split; [by rw Hx2|by rw Hx2 Hw2|by rw Hx2|by rw Hw2]).
    destruct b; by split. }
  destruct (Hkept (synack_not_forwarded c tcp Hfw)) as ([Hf Hpl Hpd Hn Hr] & Hm).
  pose proof (fwd_same_total cfg c (x_con x1) Hf Hc) as Hc1.
  rw -Hx2 in Hc1 Hf Hpl Hn. rw -Hp2 in Hpd. rw -Hw2 in Hm. clear Hr. clearbody x2.
  destruct x2 as [[ss2 ns2 ck2 m2] wh2 cc2 cs2 al2 qu2 c2 p2 g2 rel2].
  cbn in Hc1, Hf, Hpl, Hpd, Hn, Hm. destruct Hc1 as [_ _ Hi2 Hs2 _]. subst m2 p2. px.
  apply wp_server_to_client; [done|apply Hcfg|done|lia|]. intros m3 _ _ Ho. px.
  apply (kept_goes_on _ p c); [done..|]. apply kept_here.
  - by rw /con_s2c; destruct (v_fin _).
  - by rw /con_s2c; destruct (v_fin _).
  - intros [? ?]%Hn. rw /con_s2c. split; destruct (v_fin _); cbn;
      first [apply wrapping_sub32_range|apply wrapping_add32_range|done].
  - intros q Hq. by destruct (Ho q Hq).
Qed.
End handlers.
