(* ===== verification/SampleEngine.v ===== *)
(** * A concrete pipeline for the witnesses

    One connection at port 4096 in given states, a client packet in buffer 1, a
    server packet in buffer 2. *)
From Stdlib Require Import ZArith Lia ssreflect.
From S2P Require Import Prelude Crates Sample Extension Connection Messages CManager ManagerInv.
From S2P Require Import NatTable Manager SampleManager Proxy Packets Translate Steady Handler.
From S2P Require Import StateMachine Reach Counters Pipeline Safety.
#[local] Open Scope general_if_scope.

Module SampleEngine.
Import Sample SampleManager.

Definition server0 : L234Data := mkL234 170 167837953 80 [] 0.
Definition cfg0 : Config := {|
  me := mkL234 187 167772162 8080 [] 0; me_ip_s := 167772163; servers := [server0];
  pipeline_ip := 167772161; tcp_min_port := 4096; csum_offload := true;
  timeouts_established := Some 200; cpu_clock := 2000000; wheel_tick_reduction_factor := 1; pipeline_id := mkPipelineId 1 0 0;
  f_select_server := λ c, mret (c <| server_index_u8 := 0 |>);
  f_process_payload_c_s := λ c pl _, mret (c, pl) |}.

Lemma closures0 : closures_ok cfg0.
Proof.
  split.
  - intros c w c' w' [= <- <-]. by exists (payload_packet c), 0.
  - intros c pl t w c' pl' w' [= <- <- <-]. exists (payload_packet c), (server_index_u8 c). by destruct c.
Qed.

Lemma timeouts0 : timeouts_ok cfg0.
Proof. exists 200. split; [done|]. cbn. lia. Qed.

(** The closures of [cfg0] leave the payload as it is and pick server 0. *)
Lemma payload_closure0 : payload_closure no_panic cfg0 (λ pl _, pl).
Proof. by intros c pl t w. Qed.
Definition selector0 : Selector := mkSelector (λ _, True) (λ _ _, 0) (λ pl, pl).
Lemma select_closure0 : select_closure no_panic cfg0 selector0.
Proof. by intros c pp w Hpp _. Qed.

Lemma cfg_total0 : cfg_total cfg0 selector0 (λ pl _, pl).
Proof.
  split.
  - exact select_closure0.
  - exact payload_closure0.
  - intros i pl _ _. by exists server0.
  - by exists server0.
  - intros i srv. rw /index. destruct (Z.leb_spec 0 i); [|done].
    destruct (Z.to_nat i) as [|[|?]]; [|done|done]. intros [= <-]. by vm_compute.
  - intros pl _. cbn. lia.
  - by vm_compute.
  - exact timeouts0.
  - done.
Qed.

(** A TCP packet from the client of [sock1] to the proxy, and one from the
    server to port 4096 of the proxy *)
Definition client_buf (seq ack : Z) (syn ackf fin rst : bool) (pl : list Z) : buf :=
  Buf (MacHdr 204 187 2048) (IpHdr sock1.1 167772162 6 40)
    (TcpHdr sock1.2 8080 seq ack syn ackf fin rst false) pl 1 0.
Definition server_buf (seq ack : Z) (syn ackf fin rst : bool) (pl : list Z) : buf :=
  Buf (MacHdr 170 187 2048) (IpHdr 167837953 167772161 6 40)
    (TcpHdr 80 4096 seq ack syn ackf fin rst false) pl 1 0.
Definition packet_mem (b1 b2 : buf) : pmem := PMem {[ 1 := b1; 2 := b2 ]} 10.

(** The connection of [sock1] in the states [cs] *)
Definition con_in (cs ss : TcpState) : ProxyConnection :=
  con1 <| client_mac := (204 : @MacAddress headers) |> <| c_seqn := 5000 |> <| ackn_p2c := 101 |>
    <| seqn := 7000 |> <| seqn_fin_p2s := 300 |>
    <| client_state_u8 := state_as_u8 cs |> <| server_state_u8 := state_as_u8 ss |>.
Definition cm_in (cs ss : TcpState) : ConnectionManager :=
  allocated 4096 [4097; 4098; 4099] (con_in cs ss) sock1 cm0.
Definition engine_in (cs ss : TcpState) (m : pmem) : Engine := {|
  e_cms := mkCmState (cm_in cs ss) (mkWorld ∅ 0 0 m) wheel1;
  e_counter_c := counter_new; e_counter_s := counter_new;
  e_alloc := Some [20; 21]; e_queue := []; e_ticks := 0; e_rx := []; e_tx := []; e_tx_open := true |}.

Lemma cm_in_inv cs ss : cm_inv (cm_in cs ss).
Proof. by apply (inv_alloc cm0 4096 _ pc_new (con_in cs ss) sock1 cm0_inv). Qed.

Lemma con_in_at cs ss q c :
  con_at (cm_in cs ss) q = Some c → in_use c = true → q = 4096 ∧ c = con_in cs ss.
Proof.
  rw /cm_in (con_at_allocated cm0 4096 _ pc_new (con_in cs ss) sock1 q); [done|].
  case_decide as Hd; [by intros [= <-]|]. rw /con_at. destruct (_ <=? _); [|done].
  by intros [-> _]%lookup_replicate.
Qed.

Lemma cm_in_no_details cs ss : no_details (cm_in cs ss).
Proof.
  split; [done|]. intros p c.
  rw /cm_in (con_at_allocated cm0 4096 _ pc_new (con_in cs ss) sock1 p); [done|].
  destruct (decide _); [by intros [= <-]|apply cm0_no_details].
Qed.

Lemma states_con_in cs ss : states_of (con_in cs ss) = (cs, ss).
Proof. by destruct cs, ss. Qed.

Lemma engine_in_inv cs ss m : live_pair (cs, ss) → engine_inv (engine_in cs ss m).
Proof.
  intros Hok. split; [|apply counters_ok_new]. split; cbn.
  - apply cm_in_inv.
  - intros p c Hc Hin _. destruct (con_in_at _ _ _ _ Hc Hin) as [_ ->].
    by rw states_con_in.
  - intros p c Hc Hin. destruct (con_in_at _ _ _ _ Hc Hin) as [-> ->]. left; vm_compute; reflexivity.
  - intros idx p. rw lookup_singleton. destruct (decide _); [|done]. intros [= <-]. lia.
Qed.
End SampleEngine.
