(* ===== verification/Closing.v ===== *)
(** * Closing a connection

    The packets that close a connection from each pair of states, built from what
    the connection has stored, and the handlers run on them. *)
From Stdlib Require Import ZArith Lia ssreflect.
From S2P Require Import Prelude Crates Sample Extension Connection CManager ManagerInv.
From S2P Require Import NatTable Manager Proxy Packets Translate Steady Handler StateMachine.
From S2P Require Import Reach Counters Pipeline Safety.
#[local] Open Scope general_if_scope.

Section closing.
Context `{TC : TcpCommon} `{PF : Profile} `{RC : !RecordCrate} `{HC : HeaderCrate}
  `{PC : !PacketCrate} `{CL : Clock} `{WC : WheelCrate} `{PL : !PacketLaws}.

(** A header that neither opens nor resets *)
Definition mk_header (s a : Z) (ack fin : bool) (h : TcpHeader) : TcpHeader :=
  tcp_set SeqNum s (tcp_set AckNum a (tcp_set_flag ACK ack (tcp_set_flag FIN fin
    (tcp_set_flag SYN false (tcp_set_flag RST false h))))).

(** The header of the packet that is the event [closing_event]: the client sends
    the number the proxy expects, and acknowledges the FIN by the number stored
    for it; so does the server. *)
Definition closing_header (c : ProxyConnection) (h : TcpHeader) : TcpHeader :=
  let from_client := mk_header (ackn_p2c c) (ack_for_fin_p2c c) in
  let from_server := mk_header 0 (wrapping_add32 (seqn_fin_p2s c) 1) in
  match closing_event (states_of c) with
  | inl (CFinEarly | CFin | CFinBoth) => from_client false true h
  | inl CFinReply => from_client true true h
  | inl _ => from_client true false h
  | inr SFinReply => from_server true true h
  | inr _ => from_server true false h
  end.

(** The packet of the context arrives with the header [tcp]. *)
Definition deliver (tcp : TcpHeader) (x : Ctx) : Ctx :=
  let w := x_world x in
  x <| x_world := w <| w_mem := tcp_write (x_pdu x) tcp (w_mem w) |> |>.

(** The packet is no longer than IP allows, and the connection's kept packet, if
    there is one, is another buffer that nobody else holds. *)
Definition deliverable (x : Ctx) : Prop :=
  Z.of_nat (length (payload_of (w_mem (x_world x)) (x_pdu x))) < 2 ^ 16 ∧
  held_ok (λ q, q = x_pdu x) (w_mem (x_world x)) (x_con x).

(** [closes_within n x]: [n] packets without RST are enough to have the
    connection of [x] released. Between them the pipeline handles other packets;
    whatever they do, there is a next packet whose handler returns and either
    requests the release or comes closer to it. *)
Fixpoint closes_within (cfg : Config) (n : nat) (x : Ctx) : Prop :=
  match n with
  | O => False
  | S n => ∀ x0, same_con x x0 → deliverable x0 →
      ∃ tcp, tcp_flag RST tcp = false ∧
        let goal := λ (_ : unit) x', x_release x' = Some (port (x_con x)) ∨
                      x_release x' = None ∧ closes_within cfg n x' in
        (wp (client_tcp cfg tcp) no_panic goal (deliver tcp x0) ∨
         wp (server_tcp cfg tcp) no_panic goal (deliver tcp x0))
  end.
End closing.

Section closing_lemmas.
Context `{TC : TcpCommon} `{PF : Profile} `{RC : !RecordCrate} `{HC : HeaderCrate}
  `{PC : !PacketCrate} `{CL : Clock} `{WC : WheelCrate} `{WL : !WheelLaws} `{SL : !StateLaws}
  `{HL : !HeaderLaws} `{PL : !PacketLaws} `{RL : !RefcntLaws} `{KL : !CounterLaws}.

Lemma mk_header_fields s a ack fin h :
  0 ≤ s < 2 ^ 32 → 0 ≤ a < 2 ^ 32 →
  let h' := mk_header s a ack fin h in
  tcp_get SeqNum h' = s ∧ tcp_get AckNum h' = a ∧ tcp_flag ACK h' = ack ∧
  tcp_flag FIN h' = fin ∧ tcp_flag SYN h' = false ∧ tcp_flag RST h' = false.
Proof.
  intros Hs Ha. rw /mk_header /=.
  rw !tcp_get_set //. rw !tcp_flag_set !tcp_flag_set_flag. by split_and!.
Qed.

(** The header is read as the event it is meant to be. *)
Definition closing_read (cs : TcpState * TcpState) : Prop :=
  ∀ c h, states_of c = cs → nums_ok c →
    let tcp := closing_header c h in
    tcp_flag RST tcp = false ∧
    match closing_event cs with
    | inl ev => client_event_of c tcp = ev ∧ ev ≠ CFirstPayload ∧ ev ≠ CSyn ∧ ev ≠ CRst
    | inr ev => server_event_of c tcp = ev
    end.

#[local] Ltac eval_events := repeat (progress (cbn [negb andb orb]; eval_states)); cbn [negb andb orb].

(** Read the header that the event was turned into. *)
#[local] Ltac read_header :=
  match goal with
  | |- context [mk_header ?s ?a ?ack ?fin ?h] =>
      let E := fresh in
      assert (E := mk_header_fields s a ack fin h);
      destruct E as (E1 & E2 & E3 & E4 & E5 & E6); [done|first [done|apply wrapping_add32_range]|];
      rw ?E6; unfold client_event_of, server_event_of;
      rw ?E1 ?E2 ?E3 ?E4 ?E5 ?E6
  end.

Lemma closing_reads : ∀ cs, pair_ok cs → both_closed cs = false → closing_read cs.
Proof.
  apply (pair_ok_forall (λ cs, both_closed cs = false → closing_read cs)).
  pose proof geb_table. destruct_and!.
  by_pairs; intros _ c h Hcs [Hs Ha]; cbv zeta; unfold closing_header; rw Hcs;
    unfold closing_event; eval_events; read_header; rw Hcs ?Z.ltb_irrefl ?Z.eqb_refl;
    rw ?st_ltb_geb; eval_events; by split_and!.
Qed.

(** *** One closing packet *)
Context (cfg : Config) (sel : Selector) (pf : list Z → Z → list Z)
  (Hcfg : cfg_total cfg sel pf) (Hcl : closures_ok cfg).

(** Closing started in [x] and goes on in [x']. *)
Definition closing_moved (x x' : Ctx) : Prop :=
  states_of (x_con x') = closing_next (states_of (x_con x)) ∧
  con_total cfg (x_con x') ∧ nums_ok (x_con x') ∧
  x_release x' = if both_closed (closing_next (states_of (x_con x))) then Some (port (x_con x)) else None.

Lemma closing_moved_intro x x' :
  states_of (x_con x') = closing_next (states_of (x_con x)) →
  con_total cfg (x_con x') → nums_ok (x_con x') →
  (let r := if both_closed (closing_next (states_of (x_con x))) then Some (port (x_con x)) else None in
   x_release x' = match r with Some _ => r | None => None end) →
  closing_moved x x'.
Proof. intros ? ? ? Hr. split_and!; [done..|]. rw Hr. by destruct (both_closed _). Qed.

Lemma held_alone p m c : held_ok (λ q, q = p) m c → held_ok (with_packet p (λ _, False)) m c.
Proof. intros H pp Hpp. destruct (H pp Hpp) as [H1 H2]. split; [done|]. by intros q [Hq|[]]; apply H2. Qed.

Lemma closing_step x : con_total cfg (x_con x) → nums_ok (x_con x) → live_pair (states_of (x_con x)) →
  x_release x = None → deliverable x →
  let tcp := closing_header (x_con x) (tcp_of (w_mem (x_world x)) (x_pdu x)) in
  tcp_flag RST tcp = false ∧
  (wp (client_tcp cfg tcp) no_panic (λ _ x', closing_moved x x') (deliver tcp x) ∨
   wp (server_tcp cfg tcp) no_panic (λ _ x', closing_moved x x') (deliver tcp x)).
Proof.
  intros Hc Hn [Hok Hb] Hr [Hlen Hh%held_alone] tcp.
  destruct (closing_reads _ Hok Hb (x_con x) (tcp_of (w_mem (x_world x)) (x_pdu x)) eq_refl Hn) as [Hrst Hev].
  split; [exact Hrst|].
  assert (∀ e, any_panic e) as HE by done.
  destruct x as [[ss ns ck m] wh cc cs al qu c p g rel].
  cbn [x_con x_release x_world x_pdu w_mem] in *. subst rel.
  set (m1 := tcp_write p tcp m).
  change (deliver tcp _) with (mkCtx (mkWorld ss ns ck m1) wh cc cs al qu c p g None).
  assert (held_ok (with_packet p (λ _, False)) m1 c) as Hh1.
  { intros pp Hpp. destruct (Hh pp Hpp). split; [|done]. rw /m1. by refcnt. }
  assert (Z.of_nat (length (payload_of m1 p)) < 2 ^ 16) as Hlen1 by by rw /m1 payload_of_tcp_write.
  assert (closing_next (states_of c) = match closing_event (states_of c) with
    inl ev => client_next ev (states_of c) | inr ev => server_next ev (states_of c) end) as Hnext by done.
  destruct (closing_event (states_of c)) as [ev|ev]; [left|right].
  - destruct Hev as (Hev & Hne1 & Hne2 & Hne3). rw -/tcp in Hev.
    eapply wp_conj.
    + apply (wp_client_tcp_goes_on cfg sel pf Hcfg (λ _, False)); [done..| |done|done].
      intros He. by rw Hev in He.
    + by apply (wp_client_tcp any_panic) with (Q := λ _ x', client_tcp_effect (client_event_of c tcp)
        (mkCtx (mkWorld ss ns ck m1) wh cc cs al qu c p g None) x'); [right|auto..].
    + intros [] x' [Ht _ Hnums _] [Hst _ Hrel _ _ _ _ _ _ _ _]. rw Hev in Hst, Hrel.
      cbn [x_con x_release] in Hst, Hrel. rw bool_decide_false // in Hrel. cbn [orb] in Hrel. rw -Hnext in Hst, Hrel.
      by apply closing_moved_intro; [..|auto|].
  - rw -/tcp in Hev. eapply wp_conj; [by apply (wp_server_tcp_goes_on cfg sel pf Hcfg (λ _, False))| |].
    + by apply (wp_server_tcp any_panic) with (Q := λ _ x', server_tcp_effect (server_event_of c tcp)
        (mkCtx (mkWorld ss ns ck m1) wh cc cs al qu c p g None) x'); [right|auto..].
    + intros [] x' [Ht _ Hnums _] [Hst _ Hrel _ _ _ _ _ _ _ _]. rw Hev in Hst, Hrel.
      cbn [x_con x_release] in Hst, Hrel. rw -Hnext in Hst, Hrel.
      by apply closing_moved_intro; [..|auto|].
Qed.

(** As many steps as [closing_next] needs *)
Fixpoint closes_by (n : nat) (cs : TcpState * TcpState) : Prop :=
  both_closed cs = true ∨ match n with O => False | S n => closes_by n (closing_next cs) end.

Lemma closes_by_3 cs : pair_ok cs → closes_by 3 cs.
Proof. intros Hok. destruct (closing_next_closes cs Hok) as [H|[H|[H|H]]]; cbn; auto 6. Qed.

Lemma closes_within_by n x :
  con_total cfg (x_con x) → nums_ok (x_con x) → live_pair (states_of (x_con x)) →
  closes_by n (states_of (x_con x)) → closes_within cfg n x.
Proof.
  revert x. induction n as [|n IH]; intros x Hc Hn Hlive Hby.
  { destruct Hlive as [_ Hb]. destruct Hby as [H|[]]. by rw Hb in H. }
  intros x0 (Hx & _ & Hr) Hdel. rw -Hx in Hc Hn Hlive Hby.
  destruct (closing_step x0 Hc Hn Hlive Hr Hdel) as [Hrst Hstep].
  eexists. split; [exact Hrst|]. rw -Hx.
  destruct Hlive as [Hok Hb]. destruct Hby as [H|Hby]; [by rw Hb in H|].
  assert (∀ x', closing_moved x0 x' →
    x_release x' = Some (port (x_con x0)) ∨ x_release x' = None ∧ closes_within cfg n x') as Hgoal.
  { intros x' (Hst & Hc' & Hn' & Hrel). rw Hrel.
    destruct (both_closed (closing_next _)) eqn:Hb'; [by left|right].
    split; [done|]. apply IH; [done|done| |by rw Hst]. rw Hst. split; [by apply closing_next_ok|done]. }
  destruct Hstep as [H|H]; [left|right]; (eapply wp_mono; [|exact H]); intros [] x' Hx'; by apply Hgoal.
Qed.
End closing_lemmas.
