(* ===== verification/Calm.v ===== *)
(** * A pipeline that can go on

    [calm]: the invariant of the pipeline and what it needs to handle any packet
    without a panic: connections with a server and an address, and kept payload
    packets that nothing else refers to. [serves]: what the outside has to
    provide for one packet. A call on a calm pipeline for a packet that is
    served returns, and leaves a calm pipeline. *)
From Stdlib Require Import ZArith Lia ssreflect.
From S2P Require Import Prelude Crates Sample Extension Connection Messages CManager ManagerInv.
From S2P Require Import NatTable Manager Proxy Packets Translate Steady Handler StateMachine.
From S2P Require Import Reach Counters Pipeline Safety.
#[local] Open Scope general_if_scope.

Section calm.
Context `{TC : TcpCommon} `{PF : Profile} `{RC : !RecordCrate} `{HC : HeaderCrate}
  `{PC : !PacketCrate} `{CL : Clock} `{WC : WheelCrate} `{WL : !WheelLaws} `{PL : !PacketLaws}.

(** The payload packets kept by the connections in use, and by those other than
    the one at [pt] *)
Definition held_but (tab : ConnectionManager) (pt : Z) (pp : Pdu) : Prop :=
  ∃ q c, q ≠ pt ∧ con_at tab q = Some c ∧ in_use c = true ∧ payload_packet c = Some pp.
Definition held (tab : ConnectionManager) (pp : Pdu) : Prop :=
  ∃ q c, con_at tab q = Some c ∧ in_use c = true ∧ payload_packet c = Some pp.

Record calm_tab (cfg : Config) (tab : ConnectionManager) (m : PacketMem) : Prop := {
  ct_quiet : no_details tab;
  ct_con pt c : con_at tab pt = Some c → in_use c = true →
    con_total cfg c ∧ held_ok (held_but tab pt) m c;
}.

Record calm (cfg : Config) (e : Engine) : Prop := {
  ca_inv : engine_inv e;
  ca_tab : calm_tab cfg (cm (e_cms e)) (e_mem e);
}.

(** The packet is the first payload of a client, which selects the server. *)
Definition first_payload (cfg : Config) (e : Engine) (p : Pdu) : Prop :=
  let tcp := tcp_of (e_mem e) p in
  tcp_get DstPort tcp = l234_port (me cfg) ∧
  ∃ pt c, sock2port (cm (e_cms e)) !! (ip_get IpSrc (ip_of (e_mem e) p), tcp_get SrcPort tcp) = Some pt ∧
    con_at (cm (e_cms e)) pt = Some c ∧ client_event_of c tcp = CFirstPayload.

(** For a TCP packet: a source address, a payload of a packet, a buffer of its
    own, and a free buffer in the allocator *)
Record serves_tcp (e : Engine) (p : Pdu) : Prop := {
  sv_src : 0 < ip_get IpSrc (ip_of (e_mem e) p) < 2 ^ 32;
  sv_len : Z.of_nat (length (payload_of (e_mem e) p)) < 2 ^ 16;
  sv_refcnt : pdu_refcnt (e_mem e) p = 1;
  sv_fresh q : held (cm (e_cms e)) q → ¬ same_buf p q;
  sv_alloc : alloc_ok (with_packet p (held (cm (e_cms e)))) (e_mem e) (e_alloc e) p;
}.
(** For a timer tick: the tick counter does not overflow, the run time listens,
    and the record store is there if it is asked for. *)
Record serves_tick (e : Engine) : Prop := {
  sv_ticks : 0 ≤ e_ticks e + 1 < 2 ^ 64;
  sv_tx : e_tx_open e = true;
  sv_store : head (e_rx e) = Some FetchCRecords →
    is_Some (w_stores (cm_world (e_cms e)) !! record_store (cm (e_cms e)));
}.
Definition serves (cfg : Config) (sel : Selector) (e : Engine) (p : Pdu) : Prop :=
  match dispatch_of cfg e p with
  | Tcp => let e' := offloaded cfg p e in
           serves_tcp e' p ∧ (first_payload cfg e' p → accepts sel (payload_of (e_mem e') p))
  | Tick => serves_tick (offloaded cfg p e)
  | _ => True
  end.
End calm.

Section tables.
Context `{TC : TcpCommon} `{PF : Profile} `{RC : !RecordCrate} `{HC : HeaderCrate}
  `{PC : !PacketCrate} `{CL : Clock} `{WC : WheelCrate} `{WL : !WheelLaws} `{PL : !PacketLaws}.
Context (cfg : Config).

Lemma held_but_held tab pt q : held_but tab pt q → held tab q.
Proof. intros (r & c & _ & H). by exists r, c. Qed.

Lemma alloc_ok_mono (K K' : Pdu → Prop) m al p :
  (∀ q, K q → K' q) → alloc_ok K' m al p → alloc_ok K m al p.
Proof.
  intros HK. assert (∀ l, good_last K' l → good_last K l) as Hl.
  { intros l (q & rest & H1 & H2 & H3). exists q, rest. split_and!; [done..|]. intros r Hr. by apply H3, HK. }
  rw /alloc_ok. destruct al as [[|q l]|]; [|by apply Hl|done].
  intros (l & H1 & H2 & H3 & H4). exists l. split_and!; [done|by apply Hl|done|]. intros r Hr. by apply H4, HK.
Qed.

(** What the packet memory does with buffers nobody keeps does not matter. *)
Lemma calm_tab_mem tab m m' :
  calm_tab cfg tab m → (∀ q, held tab q → pdu_refcnt m' q = pdu_refcnt m q) → calm_tab cfg tab m'.
Proof.
  intros [Hn Hc] Hm. split; [done|]. intros pt c Hat Hin. destruct (Hc pt c Hat Hin) as [H1 H2].
  split; [done|]. intros pp Hpp. destruct (H2 pp Hpp) as [H3 H4]. split; [|done].
  rw Hm; [by exists pt, c|done].
Qed.

(** Taking connections out of use *)
Lemma calm_tab_shrink tab tab' m :
  calm_tab cfg tab m → no_details tab' →
  (∀ q c, con_at tab' q = Some c → in_use c = true → con_at tab q = Some c) → calm_tab cfg tab' m.
Proof.
  intros [_ Hc] Hn Hs. split; [done|]. intros pt c Hat Hin.
  destruct (Hc pt c (Hs _ _ Hat Hin) Hin) as [H1 H2]. split; [done|].
  intros pp Hpp. destruct (H2 pp Hpp) as [H3 H4]. split; [done|].
  intros q (r & d & Hne & Hd & Hu & Hq). apply H4. exists r, d. split_and!; [done|by apply Hs|done..].
Qed.

Lemma calm_tab_shrinks st st' :
  shrinks st st' → calm_tab cfg (cm st) (w_mem (cm_world st)) → calm_tab cfg (cm st') (w_mem (cm_world st')).
Proof.
  intros [Hs Hm Hd] H. rw Hm. eapply calm_tab_shrink; [exact H|apply Hd, H|exact Hs].
Qed.

(** Writing one connection back *)
Lemma calm_tab_update tab tab' pt c' m m' :
  calm_tab cfg tab m → detailed_records tab' = detailed_records tab →
  (∀ q, con_at tab' q = if decide (pt = q) then Some c' else con_at tab q) →
  con_total cfg c' → held_ok (held_but tab pt) m' c' →
  (∀ q, held_but tab pt q → pdu_refcnt m' q = pdu_refcnt m q) →
  calm_tab cfg tab' m'.
Proof.
  intros [[Hdr Hdc] Hc] Hd Hat Ht Hh Hm.
  assert (∀ q, held_but tab' pt q → held_but tab pt q) as Hsub.
  { intros q (r & d & Hne & Hr & H). rw Hat decide_False in Hr; [congruence|]. by exists r, d. }
  split.
  - split; [by rw Hd|]. intros q c. rw Hat. case_decide; [|by apply Hdc]. intros [= <-]. apply Ht.
  - intros q c. rw Hat. case_decide as Hq.
    + subst q. intros [= <-] _. split; [done|]. intros pp Hpp. destruct (Hh pp Hpp) as [H1 H2].
      split; [done|]. intros q Hq. by apply H2, Hsub.
    + intros Hcq Hu. destruct (Hc q c Hcq Hu) as [H1 H2]. split; [done|].
      intros pp Hpp. destruct (H2 pp Hpp) as [H3 H4].
      assert (held_but tab pt pp) as Hpt by (exists q, c; by split_and!).
      split; [by rw Hm|]. intros r (q' & d & Hne & Hd' & Hu' & Hr). rw Hat in Hd'. case_decide as Hq'.
      * subst q'. injection Hd' as <-. destruct (Hh r Hr) as [_ H5]. intros Hs. apply (H5 pp Hpt). by symmetry.
      * apply H4. exists q', d. by split_and!.
Qed.
End tables.

Section calls.
Context `{TC : TcpCommon} `{PF : Profile} `{RC : !RecordCrate} `{HC : HeaderCrate}
  `{PC : !PacketCrate} `{CL : Clock} `{WC : WheelCrate} `{WL : !WheelLaws} `{SL : !StateLaws}
  `{HL : !HeaderLaws} `{PL : !PacketLaws} `{RL : !RefcntLaws} `{KL : !CounterLaws}.
Context (cfg : Config) (sel : Selector) (pf : list Z → Z → list Z) (Hcfg : cfg_total cfg sel pf).

Definition calm_after (e : Engine) : Prop := calm_tab cfg (cm (e_cms e)) (e_mem e).

(** *** One TCP packet *)
(** A handler that leaves a connection that can go on *)
Lemma wp_with_con_calm pt c p (m : PX unit) e :
  range_ok (cm (e_cms e)) → calm_after e → con_at (cm (e_cms e)) pt = Some c →
  wp m no_panic (λ _ x', goes_on cfg (held_but (cm (e_cms e)) pt) c (e_mem e) x') (ctx_of e c p) →
  wp (x ← with_con pt p m; mret (x_pdu x, x_group x, x_release x)) no_panic (λ _ e', calm_after e') e.
Proof.
  intros Hr Hcalm Hc Hm. apply wp_bind, (wp_with_con _ _ _ c); [done..|].
  eapply wp_mono; [|exact Hm]. intros [] x' [Ht Hh _ Hk].
  apply wp_ret. eapply (calm_tab_update cfg (cm (e_cms e)) _ pt (x_con x')); [exact Hcalm|done| |done..].
  intros q. by apply con_at_set with c.
Qed.

Lemma wp_client_calm pt c p tcp e :
  range_ok (cm (e_cms e)) → calm_after e → con_at (cm (e_cms e)) pt = Some c → in_use c = true →
  serves_tcp e p → (client_event_of c tcp = CFirstPayload → accepts sel (payload_of (e_mem e) p)) →
  wp (x ← with_con pt p (client_tcp cfg tcp); mret (x_pdu x, x_group x, x_release x)) no_panic
    (λ _ e', calm_after e') e.
Proof.
  intros Hr Hcalm Hc Hin [_ Hlen Hrc Hfresh Hal] Hacc. apply (wp_with_con_calm _ c); [done..|].
  destruct (ct_con _ _ _ Hcalm pt c Hc Hin) as [Ht Hh].
  set (K := held_but _ pt) in *. destruct e as [[tab [ss ns ck m] wh] cc cs al qu tk rx tx op].
  apply (wp_client_tcp_goes_on cfg sel pf); [done..| | |done|].
  - intros pp Hpp. destruct (Hh pp Hpp) as [H1 H2]. split; [done|].
    intros q [-> |Hq]; [|by apply H2]. intros Hs. apply (Hfresh pp); [by exists pt, c|by symmetry].
  - intros He. split; [|by split; [apply Hacc|]]. eapply alloc_ok_mono; [|exact Hal]. intros q [-> |Hq]; [by left|right]. by eapply held_but_held.
  - intros q Hq. apply Hfresh. by eapply held_but_held.
Qed.

Lemma wp_server_calm pt c p tcp e :
  range_ok (cm (e_cms e)) → calm_after e → con_at (cm (e_cms e)) pt = Some c → in_use c = true →
  serves_tcp e p →
  wp (x ← with_con pt p (server_tcp cfg tcp); mret (x_pdu x, x_group x, x_release x)) no_panic
    (λ _ e', calm_after e') e.
Proof.
  intros Hr Hcalm Hc Hin [_ Hlen Hrc Hfresh Hal]. apply (wp_with_con_calm _ c); [done..|].
  destruct (ct_con _ _ _ Hcalm pt c Hc Hin) as [Ht Hh].
  set (K := held_but _ pt) in *. destruct e as [[tab [ss ns ck m] wh] cc cs al qu tk rx tx op].
  apply (wp_server_tcp_goes_on cfg sel pf); [done..| | |done].
  - intros pp Hpp. destruct (Hh pp Hpp) as [H1 H2]. split; [done|].
    intros q [-> |Hq]; [|by apply H2]. intros Hs. apply (Hfresh pp); [by exists pt, c|by symmetry].
  - intros q Hq. apply Hfresh. by eapply held_but_held.
Qed.

(** The table with a new connection *)
Lemma calm_allocated e p pt rest c0 d w' s :
  engine_inv e → calm_after e → serves_tcp e p →
  con_at (cm (e_cms e)) pt = Some c0 → w_mem w' = e_mem e → (detailed_c c0 = None → detailed_records (cm (e_cms e)) = false → d = None) →
  0 < s.1 < 2 ^ 32 → 0 ≤ s.2 < 2 ^ 16 →
  let c := (pc_initialize s pt c0) <| detailed_c := d |> in
  let e' := e <| e_cms := {| cm := allocated pt rest c s (cm (e_cms e)); cm_world := w';
                             cm_wheel := cm_wheel (e_cms e) |} |> in
  calm_after e' ∧ serves_tcp e' p.
Proof.
  intros Hinv Hcalm Hsv Hc Hw Hd Hs1 Hs2 c e'.
  assert (∀ q, con_at (cm (e_cms e')) q = if decide (pt = q) then Some c else con_at (cm (e_cms e)) q) as Hat
    by (intros q; by apply con_at_allocated with c0).
  assert (e_mem e' = e_mem e) as Hm by (rw /e_mem /=; exact Hw).
  pose proof (ct_quiet _ _ _ Hcalm) as [Hdr Hdc]. split.
  - rw /calm_after Hm. eapply (calm_tab_update cfg _ _ pt c); [exact Hcalm|done|exact Hat| |by intros ?|done].
    split; [apply Hcfg| |done|by split|by apply Hd; [eapply Hdc|]].
    by eapply (con_at_port (cm (e_cms e))); [apply (ei_cms _ Hinv)|].
  - destruct Hsv as [H1 H2 H3 H4 H5].
    assert (∀ q, held (cm (e_cms e')) q → held (cm (e_cms e)) q) as Hsub.
    { intros q (r & b & Hr & Hu & Hq). rw Hat in Hr. case_decide; [by simplify_eq|]. by exists r, b. }
    split; rw ?Hm; [done..|by intros q Hq; apply H4, Hsub|].
    eapply alloc_ok_mono; [|exact H5]. intros q [-> |Hq]; [by left|by right; apply Hsub].
Qed.

Lemma wp_tcp_packet_calm e p :
  engine_inv e → calm_after e → serves_tcp e p →
  (first_payload cfg e p → accepts sel (payload_of (e_mem e) p)) →
  wp (tcp_packet cfg p) no_panic (λ _ e', calm_after e') e.
Proof.
  intros Hinv Hcalm Hsv Hacc. pose proof (ei_cms _ Hinv) as Hcms. pose proof (ci_cm _ _ _ Hcms) as Hi.
  pose proof (inv_range _ Hi) as Hr. pose proof (sv_src _ _ Hsv) as Hsrc.
  apply wp_bind, wp_gets. cbv beta zeta. change (id e) with e.
  set (tcp := tcp_of (e_mem e) p). set (s := (ip_get IpSrc _, _)).
  pose proof (tcp_get_range SrcPort tcp) as Hsport.
  destruct (Z.eqb_spec (tcp_get DstPort tcp) (l234_port (me cfg))) as [Hport|_];
    [destruct (tcp_flag SYN tcp) eqn:Hsyn|]; apply wp_bind.
  - apply wp_zoom, wp_get_mut_or_insert; [done|by left; apply Hcalm| |intros; by rw on_cms_id|].
    + intros pt Hs. rw on_cms_id. destruct (inv_map _ Hi s pt Hs) as (c & Hc & Hin & _).
      apply (wp_client_calm _ c); [done..|]. intros Hev. apply Hacc. split; [done|]. by exists pt, c.
    + intros pt rest c0 d w' Hs Hf Hc Hw Hd.
      destruct (calm_allocated e p pt rest c0 d w' s) as [H1 H2]; [done..|].
      apply (wp_client_calm _ ((pc_initialize s pt c0) <| detailed_c := d |>)); [|exact H1| | |exact H2|].
      * exact (inv_range _ (allocated_inv pt rest c0 d s _ Hi Hf Hc Hs ltac:(cbn; lia))).
      * cbn. by rw (con_at_allocated _ _ _ _ _ _ _ Hc) decide_True.
      * destruct (inv_free _ Hi pt) as [Hp0 _]; [rw Hf; left|]. rw /in_use /=. lia.
      * by rw client_event_new.
  - apply wp_on_cms_lift. rw get_mut_by_sock_eq; [done|]. cbn [wpr].
    destruct (sock2port _ !! s) as [pt|] eqn:Hs; [|done].
    destruct (inv_map _ Hi s pt Hs) as (c & Hc & Hin & _).
    apply (wp_client_calm _ c); [done..|]. intros Hev. apply Hacc. split; [done|]. by exists pt, c.
  - apply wp_on_cms_lift. pose proof (tcp_get_range DstPort tcp) as Hrange. cbn in Hrange.
    destruct (con_at (cm (e_cms e)) (tcp_get DstPort tcp)) as [c|] eqn:Hc.
    + rw (get_mut_by_port_eq _ _ c); [done..|]. destruct (in_use c) eqn:Hin; cbn [wpr]; [|done].
      by apply (wp_server_calm _ c).
    + by rw get_mut_by_port_foreign.
Qed.

Lemma wp_handle_tcp_calm e p :
  closures_ok cfg → engine_inv e → calm_after e → serves_tcp e p →
  (first_payload cfg e p → accepts sel (payload_of (e_mem e) p)) →
  wp (handle_tcp cfg p) no_panic (λ o e', calm cfg e' ∧
    ∃ p' g, o = Some (p', g) ∧ (g = 0 ∨ g = 1 ∨ g = 2)) e.
Proof.
  intros Hcl Hinv Hcalm Hsv Hacc. pose proof (sv_src _ _ Hsv) as Hsrc.
  apply wp_bind. eapply wp_conj; [by apply wp_tcp_packet_calm|..].
  { apply (wp_tcp_packet any_panic _ _ _ (handled_ok (cm (e_cms e)) (concerned cfg e p))); [done..|lia|done]. }
  intros [[p' g] rel] e1 Hcalm1 [Hg Hct _ _ _ Hrel]. cbn in *.
  destruct rel as [pt|].
  - destruct Hrel as (Hc & c & Hat & Hin).
    apply wp_bind, wp_zoom, (wp_release_port_inv _ _ c); [done..|].
    intros st' Hst' _ Hsh _. apply wp_ret. split; [|by exists p', g].
    split; [by split|]. by eapply calm_tab_shrinks in Hsh.
  - apply wp_bind, wp_ret, wp_ret. split; [|by exists p', g]. by split.
Qed.

(** *** The timer packet *)
Lemma no_details_fetch e : no_details (cm (e_cms e)) → fetch_ok e.
Proof.
  intros [_ Hd] _. apply Forall_lookup. intros i c Hc. rw /holds_store.
  set (m := cm (e_cms e)) in *.
  rw (Hd (tcp_port_base m + Z.of_nat i) c); [|done].
  rw /con_at. destruct (Z.leb_spec (tcp_port_base m) (tcp_port_base m + Z.of_nat i)); [|lia].
  by replace (Z.to_nat (tcp_port_base m + Z.of_nat i - tcp_port_base m)) with i by lia.
Qed.

Lemma wp_send_open msg e (Q : unit → Engine → Prop) :
  e_tx_open e = true → Q tt (e <| e_tx := e_tx e ++ [msg] |>) → wp (send msg) no_panic Q e.
Proof.
  intros Hop HQ. apply wp_bind, wp_gets. change (id e) with e. rw Hop.
  by apply wp_bind, wp_ret, wp_modify.
Qed.

(** Fetching from a live store that no connection holds *)
Lemma wp_fetch_live E st (Q : option ProxyRecStore → CmState → Prop) :
  Forall (λ c, holds_store (record_store (cm st)) c = false) (port2con (cm st)) →
  is_Some (w_stores (cm_world st) !! record_store (cm st)) →
  (∀ o nid w', w_mem w' = w_mem (cm_world st) →
     Q o {| cm := (cm st) <| record_store := nid |>; cm_world := w'; cm_wheel := cm_wheel st |}) →
  wp fetch_c_records E Q st.
Proof.
  destruct st as [m w wh]. cbn [cm cm_wheel cm_world]. intros Hh [s0 Hs0] HQ.
  apply wp_bind, wp_cms_world, wp_rc_new. set (nid := w_next_store _). set (w' := _ <| w_next_store := _ |>).
  apply wp_bind, wp_cms_gets. cbv beta zeta. apply wp_bind, wp_cms_on_cm, wp_bind, wp_cms_gets.
  assert (strong_count (record_store m) (m <| record_store := nid |>) = 1%nat) as Hc
    by by apply holds_store_count.
  rw Hc. apply wp_bind, wp_ret, wp_bind, wp_cms_gets. rw Hc.
  apply wp_bind, wp_cms_world. rw /wp /borrow /=.
  destruct (decide (record_store m = w_next_store w)) as [->|Hne].
  - rw lookup_insert_eq. by apply HQ.
  - rw lookup_insert_ne; [done|]. rw Hs0. by apply HQ.
Qed.

Lemma calm_tab_record tab nid m : calm_tab cfg tab m → calm_tab cfg (tab <| record_store := nid |>) m.
Proof. intros H. eapply calm_tab_shrink; [exact H| |done]. by destruct H as [[] _]. Qed.

Lemma wp_timer_tick_calm fuel e :
  engine_inv e → calm_after e → serves_tick e → (∀ now, (wheel_lag now (cm_wheel (e_cms e)) < fuel)%nat) →
  wp (timer_tick fuel cfg) no_panic (λ _ e', calm_after e') e.
Proof.
  intros Hinv Hcalm [Htk Htx Hst] Hlag. pose proof (no_details_fetch e (ct_quiet _ _ _ Hcalm)) as Hf.
  apply wp_bind, wp_gets, wp_bind, wp_lift. change (id e) with e. rw arith_ok; [done|]. cbn [wpr].
  apply wp_bind, wp_modify, wp_bind.
  destruct e as [[m w wh] cc cs al qu tk rx tx op]. rw /calm_after /e_mem /= in Hcalm. cbn in Htk, Htx, Hst. subst op.
  set (t := tk + 1).
  assert (∀ m' w' tx' rx', cms_inv [] None (mkCmState m' w' wh) → calm_tab cfg m' (w_mem w') →
    wp (S := Engine) (lift (if wheel_tick_reduction_factor cfg =? 0 then Panic DivByZero else Ok tt);;
        if t mod wheel_tick_reduction_factor cfg =? 0 then
          on_cms (now ← on_world rdtsc; release_timeouts fuel now)
        else mret (Some tt)) no_panic (λ _ e', calm_after e')
      (mkEngine (mkCmState m' w' wh) cc cs al qu t rx' tx' true)) as Hrest.
  { intros m' w' tx' rx' Hc' Hn'. apply wp_bind, wp_lift.
    destruct (Z.eqb_spec (wheel_tick_reduction_factor cfg) 0); [by destruct (ct_factor _ _ _ Hcfg)|].
    cbn [wpr]. destruct (Z.eqb _ _); [|done].
    apply wp_zoom, wp_bind, wp_cms_world. rw /wp /rdtsc. cbn [wp].
    apply (wp_release_timeouts_inv no_panic); [by eapply cms_inv_world|left; apply Hn'|apply Hlag|].
    intros st' _ _ Hsh. by eapply calm_tab_shrinks in Hsh. }
  pose proof (ei_cms _ Hinv) as Hcms. cbn [e_cms] in Hcms.
  apply wp_try_recv; [intros Hrx|intros msg rx' Hrx]; apply wp_bind; [by apply wp_ret, Hrest|].
  destruct msg; [| |by apply wp_ret, Hrest..].
  - apply wp_bind, wp_gets, wp_send_open; [done|]. by apply Hrest.
  - apply wp_bind, wp_zoom, wp_fetch_live; [apply Hf; by rw Hrx|apply Hst; cbn in Hrx; by rw Hrx|].
    intros o nid w1 Hw1. apply wp_send_open; [done|]. apply Hrest; [by eapply cms_inv_record|].
    cbn in Hw1. rw Hw1. by apply calm_tab_record.
Qed.

(** *** One call of the closure *)
Lemma calm_offloaded p e : calm_after e → calm_after (offloaded cfg p e).
Proof.
  intros Hc. rw /calm_after. destruct (offloaded_rest cfg p e) as (-> & _ & _).
  apply (calm_tab_mem _ _ (e_mem e)); [exact Hc|]. intros q _.
  rw /offloaded. destruct (csum_offload cfg); [|done].
  destruct e as [[m w wh] cc cs al qu tk rx tx op]. apply refcnt_offload.
Qed.

Lemma wp_delayed_binding_calm fuel e p :
  closures_ok cfg → calm cfg e → serves cfg sel e p →
  (∀ now, (wheel_lag now (cm_wheel (e_cms e)) < fuel)%nat) →
  wp (delayed_binding fuel cfg p) no_panic (λ o e', calm cfg e' ∧
    ∃ p' g, o = Some (p', g) ∧ (g = 0 ∨ g = 1 ∨ g = 2)) e.
Proof.
  intros Hcl [Hinv Hcalm] Hsv Hlag. rw /wp delayed_binding_eq. rw /serves in Hsv.
  pose proof (filter_groups cfg e p) as Hg. pose proof (offloaded_inv cfg p e Hinv) as Hinv'.
  pose proof (calm_offloaded p e Hcalm) as Hcalm'.
  destruct (offloaded_rest cfg p e) as (_ & Hwh & _).
  destruct (dispatch_of cfg e p) as [g|g| |].
  - split; [by split|]. exists p, g. split; [done|tauto].
  - split; [by split|]. exists p, g. split; [done|tauto].
  - set (Q := λ (o : option (Pdu * Z)) e', calm cfg e' ∧ ∃ p' g, o = Some (p', g) ∧ (g = 0 ∨ g = 1 ∨ g = 2)).
    change (wp (S := Engine) (o ← timer_tick fuel cfg; mret ((λ _, (p, 0)) <$> o)) no_panic Q (offloaded cfg p e)).
    apply wp_bind. eapply wp_conj; [by apply wp_timer_tick_calm; [..|rw Hwh]|..].
    { apply (wp_timer_tick any_panic _ _ _ (λ o e', o = Some tt ∧ engine_inv e')); [done..| |by rw Hwh|done].
      apply no_details_fetch, Hcalm'. }
    intros o e' Hc [-> Hi]. apply wp_ret. split; [by split|]. exists p, 0. by split; [|left].
  - destruct Hsv. by apply wp_handle_tcp_calm.
Qed.
End calls.
