(* ===== verification/PipelineProps.v ===== *)
(** * Properties of the pipeline

    Total correctness and the invariant of one call of the closure, what it does
    to the sessions, and what a packet can affect. *)
From Stdlib Require Import ZArith Lia ssreflect.
From S2P Require Import Prelude Crates Sample Extension Connection Messages CManager ManagerInv.
From S2P Require Import NatTable Manager SampleManager Proxy Packets Translate Steady Handler.
From S2P Require Import StateMachine Reach Counters Pipeline SampleEngine Safety Calm.
#[local] Open Scope general_if_scope.

Section pipeline_properties.
Context `{TC : TcpCommon} `{PF : Profile} `{RC : !RecordCrate} `{HC : HeaderCrate}
  `{PC : !PacketCrate} `{CL : Clock} `{WC : WheelCrate} `{WL : !WheelLaws} `{SL : !StateLaws}
  `{HL : !HeaderLaws} `{PL : !PacketLaws} `{RL : !RefcntLaws} `{KL : !CounterLaws}.

(** C4. Main invariant: one call of the closure, on any packet (filtered, timer
    tick, client or server TCP), keeps the invariant of the pipeline: the
    manager's tables consistent, every connection in a reachable pair of states,
    every connection's timer entry in the wheel, the counters in balance. It
    returns one of the three groups and does not run out of fuel. TCP packets
    from the address 0.0.0.0 are excluded, and so is fetching the records while
    connections hold the store (the two cases that do break it). *)
Theorem delayed_binding_inv fuel cfg p e :
  closures_ok cfg → engine_inv e → fetch_ok e →
  (dispatch_of cfg e p = Tcp → ip_get IpSrc (ip_of (e_mem e) p) ≠ 0) →
  (∀ now, (wheel_lag now (cm_wheel (e_cms e)) < fuel)%nat) →
  wp (delayed_binding fuel cfg p) any_panic (λ o e', engine_inv e' ∧
    ∃ p' g, o = Some (p', g) ∧ (g = 0 ∨ g = 1 ∨ g = 2)) e.
Proof.
  intros Hcl Hinv Hf Hip Hlag. apply wp_delayed_binding; [done..|].
  intros p' g e' Hinv' Hg _. split; [done|]. by exists p', g.
Qed.

(** C3. Total correctness: without detailed records and with closures that return
    for the payloads they accept ([cfg_total]), a call on a calm pipeline (the
    invariant; a server and an address for each connection in use; kept payload
    packets nobody else refers to) returns, whatever the packet, if the outside
    serves it ([serves]: for a TCP packet a source address, a buffer of its own
    and a free buffer, for the
    first payload of a client one that is accepted, for a tick an open channel). It does not panic, returns
    one of the three groups, and the pipeline is calm again. *)
Theorem delayed_binding_total fuel cfg sel pf p e :
  cfg_total cfg sel pf → closures_ok cfg → calm cfg e → serves cfg sel e p →
  (∀ now, (wheel_lag now (cm_wheel (e_cms e)) < fuel)%nat) →
  wp (delayed_binding fuel cfg p) no_panic (λ o e', calm cfg e' ∧
    ∃ p' g, o = Some (p', g) ∧ (g = 0 ∨ g = 1 ∨ g = 2)) e.
Proof. intros Hcfg Hcl Hcalm Hsv Hlag. by apply (wp_delayed_binding_calm cfg sel pf). Qed.

(** C2. Refinement: the pipeline behaves as independent sessions, one per port.
    A packet that is filtered moves none. A TCP packet moves at most the session
    of the connection it concerns: it opens one in (SynSent, Listen), takes one
    event of the table ([con_step]), resets it, or closes it when the event leads
    to (Closed, Closed). A timer tick at most closes sessions. *)
Theorem delayed_binding_refines fuel cfg p e :
  closures_ok cfg → engine_inv e → fetch_ok e →
  (dispatch_of cfg e p = Tcp → ip_get IpSrc (ip_of (e_mem e) p) ≠ 0) →
  (∀ now, (wheel_lag now (cm_wheel (e_cms e)) < fuel)%nat) →
  wp (delayed_binding fuel cfg p) any_panic (λ _ e', ∀ q,
    let s := session (cm (e_cms e)) q in let s' := session (cm (e_cms e')) q in
    match dispatch_of cfg e p with
    | Early _ | Filtered _ => s' = s
    | Tick => s' = s ∨ s' = None
    | Tcp => if decide (concerned cfg e p = Some q) then packet_move s s' else s' = s
    end) e.
Proof.
  intros Hcl Hinv Hf Hip Hlag. apply wp_delayed_binding; [done..|].
  intros p' g e' _ _ Hm q. revert Hm. rw /call_moves.
  destruct (dispatch_of cfg e p); intros Hm; [apply Hm..|].
  destruct (Hm q) as [H1 H2]. case_decide; auto.
Qed.

(** C5. Releasing never fails: when the handling of a TCP packet asks for a
    connection to be released, [release_port] on the resulting state passes all
    its assertions, takes that connection out of use, and the full invariant
    holds again. *)
Theorem release_never_fails cfg p e p' g pt e' :
  closures_ok cfg → engine_inv e → ip_get IpSrc (ip_of (e_mem e) p) ≠ 0 →
  tcp_packet cfg p e = Ok ((p', g, Some pt), e') →
  ∃ st', release_port pt (e_cms e') = Ok (tt, st') ∧ cms_inv [] None st' ∧
    concerned cfg e p = Some pt ∧
    ∃ c, con_at (cm (e_cms e')) pt = Some c ∧ in_use c = true.
Proof.
  intros Hcl Hinv Hip Hrun.
  assert (wp (tcp_packet cfg p) any_panic
    (handled_ok (cm (e_cms e)) (concerned cfg e p)) e) as Hwp by by apply wp_tcp_packet.
  apply (wp_elim _ _ _ _ _ _ Hwp) in Hrun. destruct Hrun as [_ _ Hr _ _ [Hc (c & Hat & Hin)]].
  destruct Hr as [|Hr]; [done|].
  assert (wp (release_port pt) no_panic (λ _ st', cms_inv [] None st') (e_cms e')) as Hrel
    by by apply (wp_release_port_inv _ _ c); [..|intros].
  apply wp_total in Hrel as ([] & st' & Hrun & Hst').
  exists st'. split_and!; [done..|]. by exists c.
Qed.

(** C6. Isolation: the handling of a TCP packet, the release that may follow
    included, changes no connection but the one the packet concerns: the one of
    its source socket on the client side, of its destination port on the server
    side. *)
Theorem tcp_packet_isolation cfg p e :
  closures_ok cfg → engine_inv e → ip_get IpSrc (ip_of (e_mem e) p) ≠ 0 →
  wp ('(_, _, release_connection) ← tcp_packet cfg p;
      match release_connection with
      | Some sport => on_cms (release_port sport)
      | None => mret tt
      end) any_panic
    (λ _ e', ∀ q, concerned cfg e p ≠ Some q → con_at (cm (e_cms e')) q = con_at (cm (e_cms e)) q) e.
Proof.
  intros Hcl Hinv Hip. apply wp_bind, wp_tcp_packet; [done..|].
  intros [[p' g] rel] e' [_ _ Hr Ho _ Hcm]. cbn in *. destruct rel as [pt|]; [|by apply wp_ret].
  destruct Hr as [|Hr]; [done|]. destruct Hcm as (Hc & c & Hat & Hin).
  apply wp_zoom, (wp_release_port_inv _ _ c); [done..|].
  intros st' _ Ho' _ _. cbn. intros q Hq. rw Ho'; [congruence|]. by apply Ho.
Qed.

End pipeline_properties.

(** ** Witnesses *)
Import Sample SampleManager SampleEngine.

Definition fin_mem : pmem :=
  packet_mem (client_buf 200 7000 false true true false []) (server_buf 900 301 false true false false []).

Lemma lag1 cs ss m now : (wheel_lag now (cm_wheel (e_cms (engine_in cs ss m))) < 2)%nat.
Proof.
  change (wheel_lag now (cm_wheel (e_cms (engine_in cs ss m)))) with (size (due now wheel1)).
  assert (size (due now wheel1) ≤ size (wheel1 : gmap (Z * Z) (Z * Z)))%nat as H
    by apply map_subseteq_size, map_filter_subseteq.
  rw map_size_singleton in H. lia.
Qed.

Lemma delayed_binding_inv_witness :
  wp (delayed_binding 2 cfg0 (1 : @Pdu _ packets)) any_panic (λ o e', engine_inv e' ∧
    ∃ p' g, o = Some (p', g) ∧ (g = 0 ∨ g = 1 ∨ g = 2)) (engine_in LastAck FinWait1 fin_mem).
Proof.
  apply (delayed_binding_inv 2 cfg0 (1 : @Pdu _ packets) (engine_in LastAck FinWait1 fin_mem));
    [exact closures0|apply engine_in_inv; apply (bool_decide_unpack _); by vm_compute|done
    |done|apply lag1].
Defined.

Lemma delayed_binding_refines_witness :
  wp (delayed_binding 2 cfg0 (1 : @Pdu _ packets)) any_panic (λ _ e',
    session (cm (e_cms (engine_in LastAck FinWait1 fin_mem))) 4096 = Some (LastAck, FinWait1) ∧
    packet_move (Some (LastAck, FinWait1)) (session (cm (e_cms e')) 4096)) (engine_in LastAck FinWait1 fin_mem).
Proof.
  eapply wp_mono; [|apply (delayed_binding_refines 2 cfg0 (1 : @Pdu _ packets) (engine_in LastAck FinWait1 fin_mem))].
  - intros o e' H. specialize (H 4096).
    assert (dispatch_of cfg0 (engine_in LastAck FinWait1 fin_mem) (1 : @Pdu _ packets) = Tcp) as Hd by by vm_compute.
    rw Hd in H. cbv zeta in H. case_decide as Hc; [by split; [vm_compute|]|by destruct Hc; vm_compute].
  - exact closures0.
  - apply engine_in_inv; apply (bool_decide_unpack _); by vm_compute.
  - done.
  - done.
  - apply lag1.
Defined.

(** The connection of [engine_in] keeps no packet. *)
Lemma calm_in cs ss m : live_pair (cs, ss) → calm cfg0 (engine_in cs ss m).
Proof.
  intros Hok. split; [by apply engine_in_inv|]. split; [apply cm_in_no_details|].
  intros pt c Hc Hin. destruct (con_in_at _ _ _ _ Hc Hin) as [-> ->]. split; [|by intros pp].
  split; [by exists server0|by vm_compute..].
Qed.

Lemma no_held_in cs ss q : ¬ held (cm_in cs ss) q.
Proof. intros (pt & c & Hc & Hin & Hq). by destruct (con_in_at _ _ _ _ Hc Hin) as [-> ->]. Qed.

Lemma serves_in cs ss : serves cfg0 selector0 (engine_in cs ss fin_mem) (1 : @Pdu _ packets).
Proof.
  assert (dispatch_of cfg0 (engine_in cs ss fin_mem) (1 : @Pdu _ packets) = Tcp) as Hd by by vm_compute.
  rw /serves Hd. split; [|done]. split; [by vm_compute..| |].
  - by intros q Hq%no_held_in.
  - exists 21, [20]. split_and!; [done|by intros m'|]. intros r [-> |Hr%no_held_in]; [by vm_compute|done].
Qed.

Lemma delayed_binding_total_witness :
  wp (delayed_binding 2 cfg0 (1 : @Pdu _ packets)) no_panic (λ o e', calm cfg0 e' ∧
    ∃ p' g, o = Some (p', g) ∧ (g = 0 ∨ g = 1 ∨ g = 2)) (engine_in LastAck FinWait1 fin_mem).
Proof.
  apply (delayed_binding_total 2 cfg0 selector0 (λ pl _, pl) (1 : @Pdu _ packets)
    (engine_in LastAck FinWait1 fin_mem));
    [exact cfg_total0|exact closures0|apply calm_in; apply (bool_decide_unpack _); by vm_compute
    |apply serves_in|apply lag1].
Defined.

Definition rst_mem : pmem :=
  packet_mem (client_buf 200 0 false false false true []) (server_buf 900 301 false true false false []).
Definition rst_engine : Engine := engine_in Established Listen rst_mem.
Definition after_rst : Engine := final (tcp_packet cfg0 (1 : @Pdu _ packets)) rst_engine.

Lemma rst_engine_inv : engine_inv rst_engine.
Proof. apply engine_in_inv, (bool_decide_unpack _). by vm_compute. Qed.

Lemma release_never_fails_witness : ∃ st',
  release_port 4096 (e_cms after_rst) = Ok (tt, st') ∧ cms_inv [] None st' ∧
  concerned cfg0 rst_engine (1 : @Pdu _ packets) = Some 4096 ∧
  ∃ c, con_at (cm (e_cms after_rst)) 4096 = Some c ∧ in_use c = true.
Proof.
  apply (release_never_fails cfg0 (1 : @Pdu _ packets) rst_engine (1 : @Pdu _ packets) 0 4096 after_rst);
    [exact closures0|exact rst_engine_inv|done|].
  refine (final_run (tcp_packet cfg0 (1 : @Pdu _ packets)) rst_engine ((1 : @Pdu _ packets), 0, Some 4096) _).
  vm_compute. reflexivity.
Defined.

Lemma tcp_packet_isolation_witness :
  wp ('(_, _, release_connection) ← tcp_packet cfg0 (1 : @Pdu _ packets);
      match release_connection with
      | Some sport => on_cms (release_port sport)
      | None => mret tt
      end) any_panic
    (λ _ e', ∀ q, concerned cfg0 rst_engine (1 : @Pdu _ packets) ≠ Some q →
       con_at (cm (e_cms e')) q = con_at (cm (e_cms rst_engine)) q) rst_engine.
Proof.
  apply (tcp_packet_isolation cfg0 (1 : @Pdu _ packets) rst_engine);
    [exact closures0|exact rst_engine_inv|done].
Defined.
