(* ===== verification/StateProps.v ===== *)
(** * Properties of the state machine

    The handlers against the event tables, the reachable states, closing, and the
    balance of the counters. *)
From Stdlib Require Import ZArith Lia ssreflect.
From stdpp Require Import relations.
From S2P Require Import Prelude Crates Sample Extension Connection CManager ManagerInv.
From S2P Require Import NatTable Manager SampleManager Proxy Packets Translate Steady Handler.
From S2P Require Import StateMachine Reach Counters Pipeline Safety SampleEngine Closing.
#[local] Open Scope general_if_scope.

Section state_properties.
Context `{TC : TcpCommon} `{PF : Profile} `{RC : !RecordCrate} `{HC : HeaderCrate}
  `{PC : !PacketCrate} `{CL : Clock} `{WC : WheelCrate} `{WL : !WheelLaws} `{SL : !StateLaws}
  `{HL : !HeaderLaws} `{PL : !PacketLaws} `{RL : !RefcntLaws} `{KL : !CounterLaws}.

(** What a handler that returns has done *)
Lemma handles_effect cfg x x' :
  closures_ok cfg → handles cfg x x' →
  (∃ ev, client_enabled ev (states_of (x_con x)) ∧ client_tcp_effect ev x x') ∨
  (∃ ev, server_enabled ev (states_of (x_con x)) ∧ server_tcp_effect ev x x').
Proof.
  intros Hcl [tcp [H|H]]; assert (∀ e, any_panic e) as HE by done; destruct x as [[ss ns ck m] wh cc cs al qu c p g rel]; [left|right].
  - exists (client_event_of c tcp). split; [apply client_event_enabled|].
    refine (wp_elim any_panic _ (λ _ x', client_tcp_effect _ _ x') _ _ _ _ H).
    by apply wp_client_tcp; [right|..|]; auto.
  - exists (server_event_of c tcp). split; [apply server_event_enabled|].
    refine (wp_elim any_panic _ (λ _ x', server_tcp_effect _ _ x') _ _ _ _ H).
    by apply wp_server_tcp; [right|..|]; auto.
Qed.

Lemma client_effect_live ev x x' :
  client_tcp_effect ev x x' → client_enabled ev (states_of (x_con x)) →
  x_release x' = None → live_pair (states_of (x_con x)) → live_pair (states_of (x_con x')).
Proof.
  intros [Hst _ Hr _ _ _ _ _ _ _ _] Hen Hrel [Hok _]. rw Hst. rw Hrel in Hr.
  destruct (bool_decide_reflect (ev = CRst)) as [|Hne]; [done|]. cbn [orb] in Hr.
  split; [by apply client_step_ok|]. by destruct (both_closed _).
Qed.

Lemma server_effect_live ev x x' :
  server_tcp_effect ev x x' → server_enabled ev (states_of (x_con x)) →
  x_release x' = None → live_pair (states_of (x_con x)) → live_pair (states_of (x_con x')).
Proof.
  intros [Hst _ Hr _ _ _ _ _ _ _ _] Hen Hrel [Hok _]. rw Hst. rw Hrel in Hr.
  split; [by apply server_step_ok|]. by destruct (both_closed _).
Qed.

(** A connection stays in the table of live pairs as long as no release is
    requested. *)
Lemma handled_live cfg x x' :
  closures_ok cfg → rtc (packet_step cfg same_con) x x' → x_release x' = None →
  live_pair (states_of (x_con x)) → live_pair (states_of (x_con x')).
Proof.
  intros Hcl. induction 1 as [x|x y z [x1 y' (Hc & _ & Hr1) Hh] Hrun IH]; [done|]. intros Hz Hlive.
  apply IH; [done|]. rw -Hc in Hlive.
  assert (x_release y' = None) as Hy by by destruct Hrun as [|y' ? ? [? ? (_ & ? & _) _] _].
  destruct (handles_effect cfg x1 y' Hcl Hh) as [(ev & Hen & He)|(ev & Hen & He)].
  - by apply (client_effect_live ev x1).
  - by apply (server_effect_live ev x1).
Qed.

(** C7. The client-side handler implements the event table: whatever the packet
    and the connection, the states after it, the group, the release request,
    the counters of both sides and the timer are those the event of the packet
    prescribes, a two-way established connection forwards the packet (group 1),
    and nothing is put into the bypass queue. Without detailed records it
    panics at most where it needs a timeout, a buffer, a closure or a server. *)
Theorem client_tcp_refines E cfg tcp x :
  quiet E (x_con x) → closures_ok cfg →
  (client_event_of (x_con x) tcp = CSyn → timeouts_ok cfg ∨ ∀ e, E e) →
  (client_event_of (x_con x) tcp = CFirstPayload → ∀ e, E e) →
  (client_forwards (states_of (x_con x)) = true → ∀ e, E e) →
  wp (client_tcp cfg tcp) E (λ _ x', client_tcp_effect (client_event_of (x_con x) tcp) x x') x.
Proof. destruct x as [[] ]. intros. by apply wp_client_tcp. Qed.

(** C8. The server-side handler implements its event table, likewise; only the
    SYN-ACK that completes the handshake with the server puts packets into the
    bypass queue. *)
Theorem server_tcp_refines E cfg tcp x :
  quiet E (x_con x) →
  (server_event_of (x_con x) tcp = SSynAck → ∀ e, E e) →
  (server_forwards (states_of (x_con x)) = true → ∀ e, E e) →
  wp (server_tcp cfg tcp) E (λ _ x', server_tcp_effect (server_event_of (x_con x) tcp) x x') x.
Proof. destruct x as [[] ]. intros. by apply wp_server_tcp. Qed.

(** C19. Reachable states: whatever packets of a new connection the handlers handle,
    as long as no release has been requested, the states of the connection are
    among the 33 live pairs of the table. In particular a server is being connected or
    is connected only for a client that has completed its own handshake; the
    client is in passive close (LastAck) only when the server has sent its FIN; a
    closed client never faces an open server; the states are never both Closed. *)
Theorem reachable_states cfg x x' :
  closures_ok cfg →
  states_of (x_con x) = (Closed, Listen) → x_release x = None →
  rtc (packet_step cfg same_con) x x' → x_release x' = None →
  let '(c, s) := states_of (x_con x') in
  live_pair (c, s) ∧
  (s = SynReceived ∨ s = Established → c = Established ∨ c = FinWait1 ∨ c = FinWait2) ∧
  (c = LastAck → state_geb s FinWait1 = true) ∧
  (c = Closed → s = Listen ∨ s = LastAck ∨ s = Closing) ∧
  (s = Listen → c = Closed ∨ c = SynSent ∨ c = Established).
Proof.
  intros Hcl Hst Hr Hrun Hr'.
  assert (live_pair (states_of (x_con x'))) as Hlive.
  { apply (handled_live cfg x x'); [done..|]. rw Hst. apply live_pair_new. }
  revert Hlive. destruct (states_of (x_con x')) as [c s]. intros Hlive.
  destruct (pair_ok_facts _ (proj1 Hlive)) as (H1 & H2 & H3 & H4). split_and!; [done..| |done].
  intros ->. destruct (H3 eq_refl) as [|[|[|Hs]]]; [by auto..|].
  exfalso. destruct Hlive as [_ Hb]. revert Hb. cbn in Hs. by rw Hs /both_closed /= !is_state_refl.
Qed.

(** C27. No connection in use is a dead end: from each of its states, three packets
    without RST are enough to have it released. Whatever other packets are
    handled between them, the client or the server can send a packet whose
    handler returns and requests the release, or leaves a connection that is
    closer to it. *)
Theorem closing_terminates cfg sel pf x :
  cfg_total cfg sel pf → closures_ok cfg →
  con_total cfg (x_con x) → nums_ok (x_con x) → live_pair (states_of (x_con x)) →
  closes_within cfg 3 x.
Proof.
  intros Hcfg Hcl Hc Hn Hlive. eapply closes_within_by; [done..|]. by apply closes_by_3, Hlive.
Qed.

(** C22. Whatever packets the handlers handle, of whatever connections of a
    pipeline, its counters stay in balance: each SYN received was answered by a
    SYN-ACK, each first payload sent a SYN to the server, each delayed payload was
    sent for a SYN-ACK of the server, FINs and their ACKs received on one side
    were sent on the other, and the three differences that remain are all the
    number of closes the proxy answered itself. *)
Theorem counters_balance cfg x x' :
  closures_ok cfg → rtc (packet_step cfg same_counters) x x' →
  counters_ok (x_counter_c x) (x_counter_s x) → counters_ok (x_counter_c x') (x_counter_s x').
Proof.
  intros Hcl. induction 1 as [x|x y z [x1 y' [Hc Hs] Hh] _ IH]; [done|]. intros Hok. apply IH.
  rw -Hc -Hs in Hok. destruct (handles_effect cfg x1 y' Hcl Hh) as [(ev & _ & He)|(ev & _ & He)];
    rw (ef_counter_c _ _ _ _ _ _ _ _ He) (ef_counter_s _ _ _ _ _ _ _ _ He).
  - by apply counters_ok_client.
  - by apply counters_ok_server.
Qed.
End state_properties.

(** ** Witnesses *)
Import Sample SampleManager SampleEngine.

Definition syn_mem : pmem :=
  packet_mem (client_buf 100 0 true false false false []) (server_buf 900 301 false true true false []).
Definition ctx_in (cs ss : TcpState) (m : pmem) (p : @Pdu _ packets) : Ctx :=
  ctx_of (engine_in cs ss m) (con_in cs ss) p.

Lemma client_tcp_refines_witness :
  let x := ctx_in Closed Listen syn_mem (1 : @Pdu _ packets) in
  wp (client_tcp cfg0 (tcp_of (syn_mem : @PacketMem _ packets) (1 : @Pdu _ packets))) no_panic (λ _ x', client_tcp_effect CSyn x x') x.
Proof.
  apply (client_tcp_refines no_panic cfg0 (tcp_of (syn_mem : @PacketMem _ packets) (1 : @Pdu _ packets))
    (ctx_in Closed Listen syn_mem (1 : @Pdu _ packets))).
  - by left.
  - exact closures0.
  - intros _. left. exact timeouts0.
  - vm_compute. discriminate.
  - vm_compute. discriminate.
Defined.

Lemma server_tcp_refines_witness :
  let x := ctx_in SynSent Listen syn_mem (2 : @Pdu _ packets) in
  wp (server_tcp cfg0 (tcp_of (syn_mem : @PacketMem _ packets) (2 : @Pdu _ packets))) no_panic (λ _ x', server_tcp_effect SFin x x') x.
Proof.
  apply (server_tcp_refines no_panic cfg0 (tcp_of (syn_mem : @PacketMem _ packets) (2 : @Pdu _ packets))
    (ctx_in SynSent Listen syn_mem (2 : @Pdu _ packets))).
  - by left.
  - vm_compute. discriminate.
  - vm_compute. discriminate.
Defined.

(** The context after the SYN of a new connection *)
Definition syn_tcp := tcp_of (syn_mem : @PacketMem _ packets) (1 : @Pdu _ packets).
Definition syn_ctx : Ctx := ctx_in Closed Listen syn_mem (1 : @Pdu _ packets).
Definition syn_done : Ctx := final (client_tcp cfg0 syn_tcp) syn_ctx.

Lemma syn_handled : handles cfg0 syn_ctx syn_done.
Proof. exists syn_tcp. left. apply (final_run _ syn_ctx tt). by vm_compute. Qed.

Lemma reachable_states_witness :
  rtc (packet_step cfg0 same_con) syn_ctx syn_done ∧
  live_pair (states_of (x_con syn_done)) ∧ states_of (x_con syn_done) = (SynSent, Listen).
Proof.
  assert (rtc (packet_step cfg0 same_con) syn_ctx syn_done) as H.
  { apply rtc_once. apply (packet_handled _ _ _ syn_ctx); [by repeat split|exact syn_handled]. }
  split; [exact H|].
  assert (states_of (x_con syn_done) = (SynSent, Listen)) as Hst by by vm_compute.
  pose proof (reachable_states cfg0 syn_ctx syn_done closures0 ltac:(by vm_compute) ltac:(by vm_compute) H
    ltac:(by vm_compute)) as Hs.
  revert Hs. rw Hst. intros [Hl _]. by split.
Defined.

(** The connection can be closed, the packet delivered. *)
Lemma closing_terminates_witness :
  let x := ctx_in Established Established syn_mem (1 : @Pdu _ packets) in
  closes_within cfg0 3 x ∧ same_con x x ∧ deliverable x.
Proof.
  intros x. split; [|split; [by repeat split|split; [by vm_compute|by intros pp]]].
  apply (closing_terminates cfg0 selector0 (λ pl _, pl) x cfg_total0 closures0).
  - split; [by exists server0|by vm_compute..].
  - by vm_compute.
  - apply (bool_decide_unpack _). by vm_compute.
Defined.

Lemma counters_balance_witness :
  rtc (packet_step cfg0 same_counters) syn_ctx syn_done ∧
  counters_ok (x_counter_c syn_done) (x_counter_s syn_done) ∧
  counter_get (x_counter_c syn_done) RecvSyn = 1.
Proof.
  assert (rtc (packet_step cfg0 same_counters) syn_ctx syn_done) as H.
  { apply rtc_once. apply (packet_handled _ _ _ syn_ctx); [by split|exact syn_handled]. }
  split_and!; [exact H| |by vm_compute].
  apply (counters_balance cfg0 syn_ctx syn_done closures0 H).
  change (counters_ok counter_new counter_new). apply counters_ok_new.
Defined.
