(* ===== verification/TranslateProps.v ===== *)
(** * Properties of the packet functions

    What the functions of [Proxy.v] write into the packets, and that the two
    directions of the translation and the two handshakes fit together. *)
From Stdlib Require Import ZArith Lia ssreflect.
From S2P Require Import Prelude Crates Sample Extension Connection CManager ManagerInv.
From S2P Require Import NatTable Manager SampleManager Proxy Packets Translate Steady Handler.
From S2P Require Import StateMachine Reach Counters Pipeline SampleEngine.
#[local] Open Scope general_if_scope.

Section translate_properties.
Context `{TC : TcpCommon} `{PF : Profile} `{RC : !RecordCrate} `{HC : HeaderCrate}
  `{PC : !PacketCrate} `{CL : Clock} `{WC : WheelCrate} `{HL : !HeaderLaws} `{PL : !PacketLaws}
  `{RL : !RefcntLaws} `{SL : !StateLaws}.

Definition hdr_in (x : Ctx) (p : Pdu) : Hdr := hdr (w_mem (x_world x)) p.
Definition payload_in (x : Ctx) (p : Pdu) : list Z := payload_of (w_mem (x_world x)) p.

(** What a packet function leaves alone: the wheel, the counters, the
    allocator, the group and the release request, and every buffer outside
    [ps]. *)
Definition leaves (ps : list Pdu) (x x' : Ctx) : Prop :=
  x_wheel x' = x_wheel x ∧ x_counter_c x' = x_counter_c x ∧ x_counter_s x' = x_counter_s x ∧
  x_alloc x' = x_alloc x ∧ x_group x' = x_group x ∧ x_release x' = x_release x ∧
  ∀ q, (∀ p, p ∈ ps → ¬ same_buf p q) →
    untouched (w_mem (x_world x)) (w_mem (x_world x')) q.

(** A server of the list, with the connection's own port, in their widths *)
Record server_ok (cfg : Config) (i : Z) (c : ProxyConnection) (srv : L234Data) : Prop := {
  so_index : index (servers cfg) i = Ok srv;
  so_port : 0 ≤ l234_port srv < 2 ^ 16;
  so_con : 0 ≤ port c < 2 ^ 16;
}.

Lemma leaves_one p x x' :
  x_wheel x' = x_wheel x → x_counter_c x' = x_counter_c x → x_counter_s x' = x_counter_s x →
  x_alloc x' = x_alloc x → x_group x' = x_group x → x_release x' = x_release x →
  (∀ q, ¬ same_buf p q → untouched (w_mem (x_world x)) (w_mem (x_world x')) q) →
  leaves [p] x x'.
Proof. intros. do 6 (split; [done|]). intros q Hq. apply H5, Hq. by left. Qed.

(** *** What [con_c2s] keeps *)
Lemma con_c2s_c_seqn c v : c_seqn (con_c2s c v) = c_seqn c.
Proof. rw /con_c2s. by destruct (v_fin v). Qed.
Lemma con_c2s_ins c v : c2s_inserted_bytes (con_c2s c v) = c2s_inserted_bytes c.
Proof. rw /con_c2s. by destruct (v_fin v). Qed.
Lemma con_c2s_ip c v : client_ip (con_c2s c v) = client_ip c.
Proof. rw /con_c2s. by destruct (v_fin v). Qed.
Lemma con_c2s_cport c v : client_port (con_c2s c v) = client_port c.
Proof. rw /con_c2s. by destruct (v_fin v). Qed.

(** *** Shifted numbers *)
Lemma shift_unshift n i k :
  wrapping_sub32 (wrapping_add32 (wrapping_add32 n i) k) i = wrapping_add32 n k.
Proof.
  rw /wrapping_sub32 /wrapping_add32 wrap_mod_l. rw (wrap_mod_l (n + i + k) (- i)). f_equal. lia.
Qed.

Lemma offset_to_server i s :
  wrapping_sub32 (wrapping_add32 i 1) (wrapping_sub32 i s) = wrapping_add32 s 1.
Proof.
  rw /wrapping_sub32 /wrapping_add32 wrap_sub_r. rw (wrap_mod_l (i + 1) (- (i - s))). f_equal. lia.
Qed.
Lemma offset_to_client i s :
  wrapping_add32 (wrapping_add32 s 1) (wrapping_sub32 i s) = wrapping_add32 i 1.
Proof. rw /wrapping_sub32 /wrapping_add32 wrap_mod_l wrap_mod_r. f_equal. lia. Qed.
Lemma inserted_shift n a b :
  wrapping_add32 (wrapping_add32 n a) (b - a) = wrapping_add32 n b.
Proof. rw /wrapping_add32 wrap_mod_l. f_equal. lia. Qed.

Lemma wrap_eqb n len : 0 ≤ len < 2 ^ 32 →
  (wrapping_add32 n (len + 1) =? wrapping_add32 n 1) = (len =? 0).
Proof.
  intros Hl. destruct (Z.eqb_spec len 0) as [->|Hne]; [apply Z.eqb_refl|].
  apply Z.eqb_neq. intros Heq. apply Hne.
  assert (wrap 32 len = 0) as H0.
  { replace len with (n + (len + 1) - (n + 1)) by lia. rw /wrap Zminus_mod.
    rw /wrapping_add32 /wrap in Heq. rw Heq. by rw Z.sub_diag. }
  by rw wrap_small in H0.
Qed.

(** C23. Client to server: the packet goes to the selected server from the proxy's
    address and the connection's port, with the payload the closure makes of
    it; its sequence number is shifted by the bytes inserted in the first
    payload, its acknowledgement by the difference of the proxy's and the
    server's initial numbers; a FIN's number is remembered to recognise its
    ACK. No step of it can panic. *)
Theorem client_to_server_translates E cfg pf srv p x :
  payload_closure E cfg pf → server_ok cfg (server_index (x_con x)) (x_con x) srv →
  ins_ok (c2s_inserted_bytes (x_con x)) →
  wp (client_to_server cfg p) E (λ _ x',
    hdr_in x' p = hdr_c2s cfg srv (x_con x) (hdr_in x p) ∧
    payload_in x' p = payload_of (mem_payload pf (w_mem (x_world x)) p) p ∧
    x_con x' = con_c2s (x_con x) (hdr_in x p) ∧
    x_queue x' = x_queue x ∧ x_pdu x' = x_pdu x ∧ leaves [p] x x') x.
Proof.
  intros Hpf [Hi Hp Hc] Hins. destruct x as [[ss ns ck m] wh cc cs al qu c p0 g rel].
  eapply wp_client_to_server; [done..|]. intros ss' ns' ck' m' Hh Hpl Ho.
  split_and!; [done..|]. by apply leaves_one.
Qed.

(** C24. Server to client: the packet goes to the client's socket from the proxy's
    advertised address, with the payload unchanged and the inverse shifts of
    the numbers; after a FIN of the server the number that acknowledges it is
    remembered. No step of it can panic once the connection has its socket. *)
Theorem server_to_client_translates E cfg p x :
  sock_ok (x_con x) → me_ok cfg → ins_ok (c2s_inserted_bytes (x_con x)) →
  Z.of_nat (length (payload_in x p)) < 2 ^ 32 - 1 →
  wp (server_to_client cfg p) E (λ _ x',
    hdr_in x' p = hdr_s2c cfg (x_con x) (hdr_in x p) ∧
    payload_in x' p = payload_in x p ∧
    x_con x' = con_s2c (x_con x) (hdr_in x p) (Z.of_nat (length (payload_in x p))) ∧
    x_queue x' = x_queue x ∧ x_pdu x' = x_pdu x ∧ leaves [p] x x') x.
Proof.
  intros Hs Hme Hins Hlen. destruct x as [[ss ns ck m] wh cc cs al qu c p0 g rel].
  eapply wp_server_to_client; [done..|]. intros m' Hh Hpl Ho.
  split_and!; [done..|]. by apply leaves_one.
Qed.

(** C15. The two directions are inverse on one connection: after the proxy forwarded
    the client's packet [p], a packet [q] of the server that continues it (its
    number is the one [p] acknowledged, and it acknowledges [k] beyond the
    number [p] carried, in the server's numbering) reaches the client's socket
    from the proxy's advertised socket, carrying the client's own numbers. *)
Theorem translation_roundtrip E cfg pf srv p q k x :
  payload_closure E cfg pf → server_ok cfg (server_index (x_con x)) (x_con x) srv →
  ins_ok (c2s_inserted_bytes (x_con x)) → sock_ok (x_con x) → me_ok cfg →
  wp (client_to_server cfg p) E (λ _ x1, ∀ x2,
    x_con x2 = x_con x1 → Z.of_nat (length (payload_in x2 q)) < 2 ^ 32 - 1 →
    v_seq (hdr_in x2 q) = v_ack (hdr_in x1 p) →
    v_ack (hdr_in x2 q) = wrapping_add32 (v_seq (hdr_in x1 p)) k →
    wp (server_to_client cfg q) E (λ _ x3,
      v_seq (hdr_in x3 q) = v_ack (hdr_in x p) ∧
      v_ack (hdr_in x3 q) = wrapping_add32 (v_seq (hdr_in x p)) k ∧
      (v_ip_dst (hdr_in x3 q), v_dport (hdr_in x3 q)) = (client_ip (x_con x), client_port (x_con x)) ∧
      (v_ip_src (hdr_in x3 q), v_sport (hdr_in x3 q)) = (l234_ip (me cfg), l234_port (me cfg)) ∧
      payload_in x3 q = payload_in x2 q) x2) x.
Proof.
  intros Hpf [Hi Hp Hc] Hins Hs Hme. destruct x as [[ss ns ck m] wh cc cs al qu c p0 g rel].
  eapply wp_client_to_server; [done..|]. intros ss' ns' ck' m' Hh Hpl Ho x2 Hcon Hlen Hseq Hack.
  destruct x2 as [[ss2 ns2 ck2 m2] wh2 cc2 cs2 al2 qu2 c2 p2 g2 rel2]. cbn [x_con] in Hcon. subst.
  rw /hdr_in /payload_in in Hseq Hack Hlen |- *. cbn [x_world w_mem x_con] in *.
  eapply wp_server_to_client; [|exact Hme| |exact Hlen|].
  1,2: by rw /con_c2s; destruct (v_fin _).
  intros m'' Hh2 Hpl2 _. cbn [x_world w_mem]. rw Hh2 Hpl2 /hdr_s2c. cbn [v_seq v_ack v_ip_dst v_dport v_ip_src v_sport].
  rw Hseq Hack Hh /hdr_c2s. rw con_c2s_c_seqn con_c2s_ins con_c2s_ip con_c2s_cport. cbn [v_seq v_ack v_to_server].
  change (v_ack (_ <| v_ack := ?a |>)) with a. split_and!; [|by apply shift_unshift|done..].
  apply wrapping_sub_add, hdr_ok.
Qed.

(** C29. The server's ACK of a forwarded client FIN: when the client has closed and the
    server acknowledges the FIN and the bytes it carries, [server_ack] recognises
    it (the states move as the event [SAckOfFin] says, and it is counted)
    exactly when the FIN was forwarded without payload; otherwise nothing
    happens, since the number kept for the FIN does not count the bytes. *)
Theorem fin_ack_recognised E cfg pf srv p x :
  payload_closure E cfg pf → server_ok cfg (server_index (x_con x)) (x_con x) srv →
  ins_ok (c2s_inserted_bytes (x_con x)) → v_fin (hdr_in x p) = true → quiet E (x_con x) →
  wp (client_to_server cfg p) E (λ _ x1, ∀ x2 tcp,
    let len := Z.of_nat (length (payload_in x1 p)) in len < 2 ^ 32 →
    x_con x2 = x_con x1 → tcp_get AckNum tcp = wrapping_add32 (v_seq (hdr_in x1 p)) (len + 1) →
    wp (server_ack tcp (client_state (x_con x2))) E (λ _ x3,
      if len =? 0 then
        states_of (x_con x3) = server_next SAckOfFin (states_of (x_con x2)) ∧
        x_counter_s x3 = counter_incr RecvAck4Fin (x_counter_s x2) ∧
        x_counter_c x3 = counter_incr SentAck4Fin (x_counter_c x2)
      else x3 = x2) x2) x.
Proof.
  intros Hpf [Hi Hp Hc] Hins Hfin Hq. destruct x as [[ss ns ck m] wh cc cs al qu c p0 g rel].
  eapply wp_client_to_server; [done..|]. intros ss' ns' ck' m' Hh Hpl Ho x2 tcp. cbv zeta.
  rw /hdr_in /payload_in in Hfin |- *. cbn [x_world w_mem x_con] in *. intros Hlen Hx2 Hack.
  assert (quiet E (x_con x2)) as Hq2 by (rw Hx2 /con_c2s /quiet; by destruct (v_fin _)).
  assert ((tcp_get AckNum tcp =? wrapping_add32 (seqn_fin_p2s (x_con x2)) 1)
    = (Z.of_nat (length (payload_of m' p)) =? 0)) as Hrec.
  { rw Hack Hx2 Hh /con_c2s Hfin /hdr_c2s. apply wrap_eqb. lia. }
  destruct x2 as [[ss2 ns2 ck2 m2] wh2 cc2 cs2 al2 qu2 c2 p2 g2 rel2]. cbn [x_con] in Hq2, Hrec |- *.
  destruct (Z.of_nat (length (payload_of m' p)) =? 0).
  - apply wp_server_ack; [done|]. rw Hrec. intros x3 [Hst _ _ Hcc Hcs _ _ _ _ _ _].
    by rw Hst Hcc Hcs.
  - rw /server_ack. px. rw Hrec. by px.
Qed.

(** C28. The ACK of a forwarded server FIN, with or without payload, is the number
    kept for it: the comparisons of nftcp.rs 575, 626 and 647 recognise it. *)
Theorem server_fin_ack_recognised E cfg p x :
  sock_ok (x_con x) → me_ok cfg → ins_ok (c2s_inserted_bytes (x_con x)) →
  Z.of_nat (length (payload_in x p)) < 2 ^ 32 - 1 → v_fin (hdr_in x p) = true →
  wp (server_to_client cfg p) E (λ _ x1,
    wrapping_add32 (v_seq (hdr_in x1 p)) (Z.of_nat (length (payload_in x1 p)) + 1)
    = ack_for_fin_p2c (x_con x1)) x.
Proof.
  intros Hs Hme Hins Hlen Hfin. destruct x as [[ss ns ck m] wh cc cs al qu c p0 g rel].
  eapply wp_server_to_client; [done..|]. intros m' Hh Hpl Ho.
  rw /hdr_in /payload_in in Hfin Hlen |- *. cbn [x_world w_mem x_con] in *.
  by rw Hh Hpl /con_s2c Hfin.
Qed.

(** C26. The SYN of a client is answered by the proxy itself: the packet becomes a
    SYN-ACK back to the client with the proxy's initial number, taken from the
    time stamp counter, and the connection keeps that number, the client's MAC
    address and the number the client will use next. *)
Theorem client_syn_answered E p x :
  wp (client_syn_received p) E (λ _ x',
    let isn := proxy_isn (tsc_reading (w_clock (x_world x))) in
    hdr_in x' p = v_reply isn 1 (hdr_in x p) ∧ 0 ≤ isn < 2 ^ 32 ∧
    v_ackf (hdr_in x' p) = true ∧
    x_con x' = (x_con x) <| client_mac := v_mac_src (hdr_in x p) |> <| c_seqn := isn |>
      <| ackn_p2c := v_ack (hdr_in x' p) |> ∧
    x_queue x' = x_queue x ∧ x_pdu x' = x_pdu x ∧ leaves [p] x x') x.
Proof.
  destruct x as [[ss ns ck m] wh cc cs al qu c p0 g rel].
  eapply wp_client_syn_received. intros m' Hh Ho. rw /hdr_in. cbn [x_world w_mem w_clock x_con].
  rw Hh. split_and!; [done|by apply wrap_range..|done|done|done|done|]. by apply leaves_one.
Qed.

(** C25. Delayed binding: the client's first payload packet, if the closure accepts
    its payload, selects the server by it and is kept; in its place a SYN goes to that server, from the
    proxy's address and the connection's port, with the number before the
    packet's own, without payload acknowledged and without ACK and PSH. *)
Theorem select_server_sends_syn E cfg sel srv syn x :
  let p := x_pdu x in let i := selects sel (server_index (x_con x)) (payload_in x p) in
  select_closure E cfg sel → accepts sel (payload_in x p) → headroom syn → ¬ same_buf p syn → server_ok cfg i (x_con x) srv →
  Z.of_nat (length (payload_in x p)) < 2 ^ 31 → Z.of_nat (length (rewrites sel (payload_in x p))) < 2 ^ 31 →
  wp (select_server cfg syn) E (λ _ x', ∃ pp,
    let v := v_to_server srv (port (x_con x)) (mac (me cfg)) (me_ip_s cfg) (hdr_in x p) in
    let ins := Z.of_nat (length (rewrites sel (payload_in x p))) - Z.of_nat (length (payload_in x p)) in
    x_pdu x' = syn ∧ hdr_in x' syn = hdr_syn v ∧
    same_buf pp p ∧ hdr_in x' pp = v ∧ payload_in x' pp = rewrites sel (payload_in x p) ∧
    x_con x' = (x_con x) <| payload_packet := Some pp |> <| server_index_u8 := i |>
      <| c2s_inserted_bytes := ins |> <| seqn := v_seq (hdr_in x' syn) |> ∧
    x_queue x' = x_queue x ∧ leaves [p; syn] x x') x.
Proof.
  intros p i Hsel Hacc Hroom Hd [Hi Hsp Hp] Hl Hl'.
  destruct x as [[ss ns ck m] wh cc cs al qu c p0 g rel].
  eapply wp_select_server; [done..|]. intros ss' ns' ck' m' pp v ins Hpp Hsyn Hhpp Hpl Href Ho.
  exists pp. rw /hdr_in /payload_in /i. cbn [x_world w_mem x_pdu x_con x_queue]. rw Hsyn.
  split_and!; [done..|]. do 6 (split; [done|]). intros q Hq.
  apply Ho; apply Hq; [by left|by right; left].
Qed.

(** C14. The two handshakes meet: [x] is the context of the client's first payload
    packet, numbered [n]. After the SYN to the server and its SYN-ACK numbered
    [s] (in a context that still holds the connection and the kept packet), an
    ACK and the kept packet are queued for the server, both numbered [n] and
    acknowledging [s + 1]; the offset of the connection then maps the number
    after the proxy's initial one to [s + 1] in the client's ACKs and back in
    the server's packets, and the client's next number is the one after the
    bytes the server got. *)
Theorem handshakes_meet E cfg sel srv syn p3 x :
  let p := x_pdu x in let i := selects sel (server_index (x_con x)) (payload_in x p) in
  select_closure E cfg sel → accepts sel (payload_in x p) → headroom syn → ¬ same_buf p syn → server_ok cfg i (x_con x) srv →
  Z.of_nat (length (payload_in x p)) < 2 ^ 31 → Z.of_nat (length (rewrites sel (payload_in x p))) < 2 ^ 31 →
  pdu_refcnt (w_mem (x_world x)) p = 1 →
  wp (select_server cfg syn) E (λ _ x1, ∀ x2,
    x_con x2 = x_con x1 → ¬ same_buf p3 p → hdr_in x2 p = hdr_in x1 p →
    payload_in x2 p = payload_in x1 p →
    pdu_refcnt (w_mem (x_world x2)) p = pdu_refcnt (w_mem (x_world x1)) p →
    wp (server_synack_received p3) E (λ _ x3, ∃ ack pp,
      let n := v_seq (hdr_in x p) in let s := v_seq (hdr_in x2 p3) in
      let c := x_con x3 in
      x_queue x3 = x_queue x2 ++ [ack; pp] ∧ same_buf ack p3 ∧ same_buf pp p ∧
      v_seq (hdr_in x3 ack) = n ∧ v_seq (hdr_in x3 pp) = n ∧
      v_ack (hdr_in x3 ack) = wrapping_add32 s 1 ∧ v_ack (hdr_in x3 pp) = wrapping_add32 s 1 ∧
      v_syn (hdr_in x3 ack) = false ∧ v_psh (hdr_in x3 pp) = true ∧
      (v_ip_dst (hdr_in x3 pp), v_mac_dst (hdr_in x3 pp)) = (l234_ip srv, mac srv) ∧
      rewrites sel (payload_in x p) `prefix_of` payload_in x3 pp ∧
      payload_packet c = None ∧ server_index c = i ∧
      wrapping_sub32 (wrapping_add32 (c_seqn (x_con x)) 1) (c_seqn c) = wrapping_add32 s 1 ∧
      wrapping_add32 (wrapping_add32 s 1) (c_seqn c) = wrapping_add32 (c_seqn (x_con x)) 1 ∧
      wrapping_add32 (wrapping_add32 n (Z.of_nat (length (payload_in x p)))) (c2s_inserted_bytes c)
      = wrapping_add32 n (Z.of_nat (length (rewrites sel (payload_in x p))))) x2) x.
Proof.
  intros p i Hsel Hacc Hroom Hd [Hi Hsp Hp] Hl Hl' Href.
  destruct x as [[ss ns ck m] wh cc cs al qu c p0 g rel].
  eapply wp_select_server; [done..|]. intros ss' ns' ck' m' pp v ins Hpp Hsyn Hhpp Hpl Href' Ho.
  intros x2 Hcon Hd3 Hh2 Hpl2 Href2. destruct x2 as [[ss2 ns2 ck2 m2] wh2 cc2 cs2 al2 qu2 c2 p2 g2 rel2].
  rw /hdr_in /payload_in /p /i in Hcon Hd3 Hh2 Hpl2 Href Href2 |- *.
  cbn [x_world w_mem x_pdu x_con x_queue] in *. subst c2.
  eapply wp_server_synack_received.
  { intros ? [= <-]. split; [by intros H; apply Hd3; etransitivity|].
    pose proof (refcnt_same m2 pp p0 Hpp). pose proof (refcnt_same m' pp p0 Hpp). congruence. }
  intros m3 ack a Hack Hha. 
  change (payload_packet (con_selected pp (selects sel (server_index c) (payload_of m p0)) ins c (hdr m p0))) with (Some pp).
  intros Hhpp3 Hpre Ho3. exists ack, pp. cbn [x_world w_mem x_con x_queue].
  assert (hdr m2 pp = v) as Hv by (rw (hdr_same_buf m2 pp p0) // Hh2 -(hdr_same_buf m' pp p0) //).
  assert (wrapping_add32 (wrapping_sub32 (v_seq (hdr m p0)) 1) 1 = v_seq (hdr m p0)) as Hn
    by apply wrapping_sub_add, hdr_ok.
  rw Hha Hhpp3 Hv. split_and!; [done|done|done|exact Hn|exact Hn|done|done|done|done|done| |done|done| | |].
  - assert (payload_of m2 pp = rewrites sel (payload_of m p0)) as <-; [|done].
    by rw (payload_of_same m2 pp p0) // Hpl2 -(payload_of_same m' pp p0).
  - apply offset_to_server.
  - apply offset_to_client.
  - apply inserted_shift.
Qed.
End translate_properties.

(** ** Witnesses *)
Import Sample SampleManager SampleEngine.

Lemma me_ok0 : me_ok cfg0.
Proof. by vm_compute. Qed.
Lemma headroom0 q : headroom (q : @Pdu _ packets).
Proof. by intros m. Qed.

(** A FIN with payload from the client, a packet of the server, a SYN-ACK of it *)
Definition wire : pmem := PMem {[
  1 := client_buf 200 7001 false true true false [65; 66];
  2 := server_buf 2001 202 false true true false [67];
  3 := server_buf 900 200 true true false false [] ]} 10.
Definition ctx_wire (cs ss : TcpState) : Ctx :=
  ctx_of (engine_in cs ss wire) (con_in cs ss) (1 : @Pdu _ packets).

Lemma sock_ok_con cs ss : sock_ok (con_in cs ss).
Proof. by destruct cs, ss; vm_compute. Qed.
Lemma server_ok0 cs ss : server_ok cfg0 0 (con_in cs ss) server0.
Proof. by split; [|destruct cs, ss; vm_compute..]. Qed.
Lemma ins_ok_con cs ss : ins_ok (c2s_inserted_bytes (con_in cs ss)).
Proof. by destruct cs, ss; vm_compute. Qed.

Lemma client_to_server_translates_witness :
  let x := ctx_wire Established Established in
  wp (client_to_server cfg0 (1 : @Pdu _ packets)) no_panic (λ _ x',
    v_seq (hdr_in x' (1 : @Pdu _ packets)) = 200 ∧ v_ack (hdr_in x' (1 : @Pdu _ packets)) = 2001) x.
Proof.
  eapply wp_mono; [|apply (client_to_server_translates no_panic cfg0 (λ pl _, pl) server0
    (1 : @Pdu _ packets) (ctx_wire Established Established) payload_closure0
    (server_ok0 Established Established) (ins_ok_con Established Established))].
  intros _ x' (-> & _). by vm_compute.
Defined.

Lemma server_to_client_translates_witness :
  let x := ctx_wire Established Established in
  wp (server_to_client cfg0 (2 : @Pdu _ packets)) no_panic (λ _ x',
    v_seq (hdr_in x' (2 : @Pdu _ packets)) = 7001 ∧ v_ack (hdr_in x' (2 : @Pdu _ packets)) = 202) x.
Proof.
  eapply wp_mono; [|apply (server_to_client_translates no_panic cfg0 (2 : @Pdu _ packets)
    (ctx_wire Established Established) (sock_ok_con Established Established) me_ok0
    (ins_ok_con Established Established))].
  - intros _ x' (-> & _). by vm_compute.
  - by vm_compute.
Defined.

Lemma translation_roundtrip_witness :
  let x := ctx_wire Established Established in
  wp (client_to_server cfg0 (1 : @Pdu _ packets)) no_panic (λ _ x1, ∀ x2,
    x_con x2 = x_con x1 → Z.of_nat (length (payload_in x2 (2 : @Pdu _ packets))) < 2 ^ 32 - 1 →
    v_seq (hdr_in x2 (2 : @Pdu _ packets)) = v_ack (hdr_in x1 (1 : @Pdu _ packets)) →
    v_ack (hdr_in x2 (2 : @Pdu _ packets)) = wrapping_add32 (v_seq (hdr_in x1 (1 : @Pdu _ packets))) 2 →
    wp (server_to_client cfg0 (2 : @Pdu _ packets)) no_panic (λ _ x3,
      v_seq (hdr_in x3 (2 : @Pdu _ packets)) = 7001 ∧ v_ack (hdr_in x3 (2 : @Pdu _ packets)) = 202) x2) x.
Proof.
  eapply wp_mono; [|apply (translation_roundtrip no_panic cfg0 (λ pl _, pl) server0
    (1 : @Pdu _ packets) (2 : @Pdu _ packets) 2 (ctx_wire Established Established) payload_closure0
    (server_ok0 Established Established) (ins_ok_con Established Established)
    (sock_ok_con Established Established) me_ok0)].
  intros [] x1 H x2 Hc Hl Hs Ha. eapply wp_mono; [|exact (H x2 Hc Hl Hs Ha)].
  intros [] x3 (-> & -> & _). by vm_compute.
Defined.

(** The FIN of [wire] has two bytes of payload, so its ACK is not recognised. *)
Lemma fin_ack_recognised_witness :
  let x := ctx_wire Established Established in
  wp (client_to_server cfg0 (1 : @Pdu _ packets)) no_panic (λ _ x1, ∀ x2 tcp,
    x_con x2 = x_con x1 → length (payload_in x1 (1 : @Pdu _ packets)) = 2%nat →
    tcp_get AckNum tcp = wrapping_add32 (v_seq (hdr_in x1 (1 : @Pdu _ packets))) 3 →
    wp (server_ack tcp (client_state (x_con x2))) no_panic (λ _ x3, x3 = x2) x2) x.
Proof.
  eapply wp_mono; [|apply (fin_ack_recognised no_panic cfg0 (λ pl _, pl) server0 (1 : @Pdu _ packets)
    (ctx_wire Established Established) payload_closure0 (server_ok0 Established Established)
    (ins_ok_con Established Established)); [by vm_compute|by left]].
  intros [] x1 H x2 tcp Hc Hlen Ha. specialize (H x2 tcp). cbv zeta in H. rw Hlen in H.
  exact (H ltac:(done) Hc Ha).
Defined.

Lemma server_fin_ack_recognised_witness :
  let x := ctx_wire Established Established in
  wp (server_to_client cfg0 (2 : @Pdu _ packets)) no_panic (λ _ x1,
    wrapping_add32 (v_seq (hdr_in x1 (2 : @Pdu _ packets)))
      (Z.of_nat (length (payload_in x1 (2 : @Pdu _ packets))) + 1)
    = ack_for_fin_p2c (x_con x1)) x.
Proof.
  apply (server_fin_ack_recognised no_panic cfg0 (2 : @Pdu _ packets)
    (ctx_wire Established Established) (sock_ok_con Established Established) me_ok0
    (ins_ok_con Established Established)); by vm_compute.
Defined.

Lemma select_server_sends_syn_witness :
  let x := ctx_wire Established Listen in
  wp (select_server cfg0 (9 : @Pdu _ packets)) no_panic (λ _ x',
    v_seq (hdr_in x' (9 : @Pdu _ packets)) = 199 ∧ v_syn (hdr_in x' (9 : @Pdu _ packets)) = true) x.
Proof.
  eapply wp_mono; [|apply (select_server_sends_syn no_panic cfg0 selector0 server0
    (9 : @Pdu _ packets) (ctx_wire Established Listen) select_closure0 I (headroom0 9))].
  - intros _ x' (pp & _ & -> & _). by vm_compute.
  - by vm_compute.
  - exact (server_ok0 Established Listen).
  - by vm_compute.
  - by vm_compute.
Defined.

Lemma handshakes_meet_witness :
  let x := ctx_wire Established Listen in
  wp (select_server cfg0 (9 : @Pdu _ packets)) no_panic (λ _ x1, ∀ x2,
    x_con x2 = x_con x1 → (3 : @Pdu _ packets) ≠ (1 : @Pdu _ packets) →
    hdr_in x2 (1 : @Pdu _ packets) = hdr_in x1 (1 : @Pdu _ packets) →
    payload_in x2 (1 : @Pdu _ packets) = payload_in x1 (1 : @Pdu _ packets) →
    pdu_refcnt (w_mem (x_world x2)) (1 : @Pdu _ packets)
    = pdu_refcnt (w_mem (x_world x1)) (1 : @Pdu _ packets) →
    wp (server_synack_received (3 : @Pdu _ packets)) no_panic (λ _ x3, ∃ ack pp,
      x_queue x3 = x_queue x2 ++ [ack; pp] ∧ v_seq (hdr_in x3 pp) = 200 ∧
      [65; 66] `prefix_of` payload_in x3 pp) x2) x.
Proof.
  eapply wp_mono; [|apply (handshakes_meet no_panic cfg0 selector0 server0
    (9 : @Pdu _ packets) (3 : @Pdu _ packets) (ctx_wire Established Listen) select_closure0 I (headroom0 9))].
  - intros [] x1 H x2 Hc Hd Hh Hp Hr. eapply wp_mono; [|exact (H x2 Hc Hd Hh Hp Hr)].
    intros [] x3 (ack & pp & Hq & _ & _ & _ & Hs & _ & _ & _ & _ & _ & Hpl & _).
    exists ack, pp. split_and!; [done| |exact Hpl]. rw Hs. by vm_compute.
  - by vm_compute.
  - exact (server_ok0 Established Listen).
  - by vm_compute.
  - by vm_compute.
  - by vm_compute.
Defined.

Lemma client_syn_answered_witness :
  let x := ctx_of (engine_in Closed Listen wire) (con_in Closed Listen) (1 : @Pdu _ packets) in
  wp (client_syn_received (1 : @Pdu _ packets)) no_panic (λ _ x',
    v_ack (hdr_in x' (1 : @Pdu _ packets)) = 201 ∧ v_ip_dst (hdr_in x' (1 : @Pdu _ packets)) = sock1.1) x.
Proof.
  eapply wp_mono; [|apply (client_syn_answered no_panic (1 : @Pdu _ packets)
    (ctx_of (engine_in Closed Listen wire) (con_in Closed Listen) (1 : @Pdu _ packets)))].
  intros [] x' (-> & _). by vm_compute.
Defined.
