(* ===== verification/Wiring.v ===== *)
(** * What the setup installs

    One pipeline: the calls on the scheduler, the messages to the run time and
    the closure, and the invariant the closure starts in. Several pipelines on a
    core keep apart: [routed]. *)
From Stdlib Require Import ZArith Lia ssreflect.
From stdpp Require Import strings.
From S2P Require Import Prelude Crates Sample Extension Connection Messages CManager ManagerInv.
From S2P Require Import NatTable Manager SampleManager Proxy Packets Translate Steady Handler.
From S2P Require Import Setup StateMachine Reach Counters Pipeline SampleEngine.
#[local] Open Scope string_scope.
#[local] Open Scope list_scope.
#[local] Open Scope Z_scope.
#[local] Open Scope general_if_scope.

Section conditions.
Context `{TC : TcpCommon} `{PF : Profile} `{RC : !RecordCrate} `{HC : HeaderCrate}
  `{PC : !PacketCrate} `{CL : Clock} `{WC : WheelCrate} `{DC : !PortCrate} `{WL : !WheelLaws}.

(** The flow director's port range: 2^k ports from a multiple of 2^k on *)
Record flow_ok (q : PortQueue) (base : Z) (k : Z) : Prop := {
  fo_k : 0 ≤ k ≤ 16;
  fo_port : 0 ≤ base < 65536;
  fo_aligned : base mod 2 ^ k = 0;
  fo_some : 0 < base + 2 ^ k - 1;
  fo_mask : tcp_dst_port_mask q = 65536 - 2 ^ k;
}.

(** The run configuration has a flow for the queue, and the kernel interface an
    address. *)
Definition port_ok (cfg : RunConfiguration) (pci : PortQueueTxBuffered) (kni : PortQueue) (k : Z) : Prop :=
  let q := port_queue pci in
  (∃ d, flowdirector_map cfg !! port_id q = Some d ∧ flow_ok q (get_flow d (rxq q)).2 k) ∧
  ∃ n, net_spec (port_of kni) = Some (Some n).

(** The wheel and the tick generator fit: the wheel's resolution is at least a
    tick. *)
Definition ticks_ok (tick_length : Z → Z) (clock : Z) : Prop :=
  0 ≤ clock * 10 < 2 ^ 64 ∧
  0 < tick_length (clock / 100)
  ≤ wheel_resolution (wheel_new TIMER_WHEEL_SLOTS (clock * 10 / 1000) TIMER_WHEEL_SLOT_CAPACITY).

Definition pipeline_of (core : Z) (pci : PortQueueTxBuffered) : PipelineId :=
  mkPipelineId (wrap 16 core) (wrap 16 (port_id (port_queue pci))) (rxq (port_queue pci)).

(** A closure as the setup installs it: in the invariant, without connections,
    with the servers and the functions of the caller and the address of the
    kernel interface *)
Record closure_ok (cfg : RunConfiguration) (srvs : list L234Data) (fs : FnSelectServer)
    (fp : FnPayload) (core : Z) (pci : PortQueueTxBuffered) (kni : PortQueue) (k : Z)
    (f : Closure) : Prop := {
  co_inv w : engine_inv (cl_engine f w);
  co_factor : 1 ≤ wheel_tick_reduction_factor (cl_config f);
  co_ports w p : 0 ≤ p < 65536 → owns_tcp_port (cm (e_cms (cl_engine f w))) p = true →
    tcp_min_port (cl_config f) ≤ p < tcp_min_port (cl_config f) + 2 ^ k;
  co_idle w p c : con_at (cm (e_cms (cl_engine f w))) p = Some c → in_use c = false ∧ detailed_c c = None;
  co_detailed w : detailed_records (cm (e_cms (cl_engine f w)))
    = default false (ec_detailed_records (engine (engine_configuration cfg)));
  co_timeout : ∃ wh, (∀ w, cm_wheel (e_cms (cl_engine f w)) = wh) ∧ timeouts_established (cl_config f)
    = Z.min (wheel_get_max_timeout_cycles wh) <$>
        established (default_or_some (ec_timeouts (engine (engine_configuration cfg))));
  co_clock : cpu_clock (cl_config f) = system_cpu_clock cfg;
  co_servers : servers (cl_config f) = srvs;
  co_select : f_select_server (cl_config f) = fs;
  co_process : f_process_payload_c_s (cl_config f) = fp;
  co_address : ∃ n, net_spec (port_of kni) = Some (Some n) ∧
    mac (me (cl_config f)) = mac n ∧ l234_ip (me (cl_config f)) = l234_ip n;
  co_port : l234_port (me (cl_config f)) = ec_port (engine (engine_configuration cfg));
  co_ip : me_ip_s (cl_config f) = pipeline_ip (cl_config f);
  co_id : pipeline_id (cl_config f) = pipeline_of core pci;
}.

(** The calls and messages for one pipeline, with [u] the next uuid and [n] the
    next queue pair *)
Definition group_by (f : Closure) (pci : PortQueueTxBuffered) (u n : nat) : SchedCall :=
  GroupBy 3 f "L4-Groups" (MergeAuto [SetUrgent (Consumer (S n)); ReceivePci pci]) (2 + u)%nat.
Definition calls_of (f : Closure) (target : L234Data) (length : Z) (pci : PortQueueTxBuffered)
    (kni : PortQueue) (u n : nat) : list SchedCall :=
  [AddRunnable u "Kni2Pci" (SendPci (ReceiveKni kni) pci) true;
   InstallTask "TickGenerator" (GenerateTicks (S n) target length) (1 + u)%nat;
   group_by f pci u n;
   InstallTask "Pipe2Kni" (SendKni (GetGroup (2 + u)%nat 2) kni) (3 + u)%nat;
   InstallTask "Pipe2Pci" (SendPci (MergeAuto [GetGroup (2 + u)%nat 1; DropAll (GetGroup (2 + u)%nat 0)]) pci) (4 + u)%nat;
   InstallTask "BypassPipe" (SendPci (Consumer n) pci) (5 + u)%nat].
Definition announced (id : PipelineId) (u : nat) : list MessageFrom :=
  [Channel id; Task id (1 + u)%nat TickGenerator; Task id (3 + u)%nat Pipe2Kni; Task id (4 + u)%nat Pipe2Pci;
   Task id (5 + u)%nat BypassPipe].
End conditions.

Section setup_one.
Context `{TC : TcpCommon} `{PF : Profile} `{RC : !RecordCrate} `{HC : HeaderCrate}
  `{PC : !PacketCrate} `{CL : Clock} `{WC : WheelCrate} `{SL : !StateLaws} `{HL : !HeaderLaws}
  `{PL : !PacketLaws} `{RL : !RefcntLaws} `{KL : !CounterLaws} `{DC : !PortCrate} `{WL : !WheelLaws}.
Context (shuffle : Z → Z → list Z) (tick_length : Z → Z).
Context (Hsh : ∀ lo hi, shuffle lo hi ≡ₚ seqZ lo (hi - lo + 1))
  (Hwh : ∀ n r c idx, wheel_entry (wheel_new n r c) idx = None).
Context (core : Z) (cfg : RunConfiguration) (srvs : list L234Data) (fs : FnSelectServer) (fp : FnPayload).
Context (Hopen : remote_open cfg = true) (Hticks : ticks_ok tick_length (system_cpu_clock cfg)).

(** The rules of the setup's own operations *)
Lemma wp_tx_send E msg w sc se u n (Q : unit → Install → Prop) :
  Q tt (mkInstall w sc (se ++ [msg]) u n) → wp (tx_send cfg msg) E Q (mkInstall w sc se u n).
Proof. intros HQ. apply wp_bind, wp_lift. by rw Hopen. Qed.

Lemma wp_sched E c w sc se u n (Q : unit → Install → Prop) :
  Q tt (mkInstall w (sc ++ [c]) se u n) → wp (sched c) E Q (mkInstall w sc se u n).
Proof. done. Qed.

Lemma wp_new_v4 E w sc se u n (Q : Uuid → Install → Prop) :
  Q u (mkInstall w sc se (S u) n) → wp new_v4 E Q (mkInstall w sc se u n).
Proof. done. Qed.

Lemma wp_install_task E name t w sc se u n (Q : Uuid → Install → Prop) :
  Q u (mkInstall w (sc ++ [InstallTask name t u]) se (S u) n) →
  wp (install_task name t) E Q (mkInstall w sc se u n).
Proof. done. Qed.

Lemma wp_queue_pair E w sc se u n (Q : nat → Install → Prop) :
  Q n (mkInstall w sc se u (S n)) → wp new_mpsc_queue_pair E Q (mkInstall w sc se u n).
Proof. done. Qed.

Lemma wp_allocator_new E w sc se u n (Q : option (list Pdu) → Install → Prop) :
  (∀ b w', Q b (mkInstall w' sc se u n)) → wp allocator_new E Q (mkInstall w sc se u n).
Proof. intros HQ. rw /allocator_new. apply wp_bind, wp_gets. cbv beta. destruct (new_pdu_array _). apply HQ. Qed.

Lemma wp_setup_delayed_proxy pci kni k w sc se u n :
  port_ok cfg pci kni k →
  wp (setup_delayed_proxy shuffle tick_length core pci kni cfg srvs fs fp) no_panic
    (λ _ i, ∃ f target, closure_ok cfg srvs fs fp core pci kni k f ∧
      in_sched i = sc ++ calls_of f target (system_cpu_clock cfg / 100) pci kni u n ∧
      in_sent i = se ++ announced (pipeline_of core pci) u ∧
      in_uuids i = (6 + u)%nat ∧ in_queues i = (2 + n)%nat)
    (mkInstall w sc se u n).
Proof.
  destruct Hticks as [Hclk Htick]. intros [(d & Hd & [Hk Hb Hmod Hpos Hmask]) [spec Hspec]].
  rw /setup_delayed_proxy Hd Hspec. do 3 (apply wp_bind, wp_ret). cbv zeta.
  pose proof (cm_new_eq shuffle (port_queue pci) (get_flow d (rxq (port_queue pci))).1
    (get_flow d (rxq (port_queue pci))).2
    (default false (ec_detailed_records (engine (engine_configuration cfg)))) w k Hk Hb Hmod Hpos Hmask) as Hrun.
  set (m := mkCM _ _ _ _ _ _ _ _) in Hrun. set (w1 := _ <| w_next_store := _ |>) in Hrun.
  apply wp_bind, wp_zoom, (wp_run_eq _ _ _ _ m w1 Hrun).
  apply wp_bind, wp_lift. rw /new_wheel arith_ok; [exact Hclk|]. cbn [res_bind mbind wpr].
  set (wh := wheel_new _ _ _) in *.
  apply wp_bind, wp_queue_pair, wp_bind, wp_tx_send, wp_bind, wp_new_v4, wp_bind, wp_sched, wp_bind,
    wp_allocator_new. intros pdus w2.
  apply wp_bind, wp_queue_pair, wp_bind, wp_assert; [intros _|intros Ha; apply Z.leb_gt in Ha; lia].
  apply wp_bind, wp_lift. destruct (Z.eqb_spec (tick_length (system_cpu_clock cfg / 100)) 0); [lia|]. cbn [wpr].
  do 2 (apply wp_bind; first [apply wp_install_task|apply wp_tx_send]).
  apply wp_bind, wp_new_v4. rw /install_outputs. apply wp_bind, wp_sched.
  do 5 (apply wp_bind; first [apply wp_install_task|apply wp_tx_send]). apply wp_tx_send.
  eexists _, _. split; [|by rw -!app_assoc].
  assert (∀ w', engine_inv (mkEngine (mkCmState m w' wh) counter_new counter_new pdus [] 0 [] [] true)) as Hinv.
  { intros w'. eapply engine_inv_new; [exact Hk|exact Hb|exact Hmod|exact Hpos|exact Hmask|exact Hsh|exact Hrun|].
    intros idx. apply Hwh. }
  split; cbn -[m wh]; try done.
  - apply Z.div_le_lower_bound; [lia|]. rw Z.mul_1_r. apply Htick.
  - intros _ p Hp Ho. apply (owns_range m p) in Ho; [|by destruct (Hinv w1) as [[[] ]]|done].
    revert Ho. cbn. rw length_replicate. lia.
  - intros _ p c. rw /con_at. destruct (_ <=? p); [|done]. by intros [-> _]%lookup_replicate.
  - exists wh. split; [done|]. rw /clamp_timeout. destruct (established _) as [t0|]; [|done]. cbn [fmap option_fmap option_map].
    destruct (Z.ltb_spec (wheel_get_max_timeout_cycles wh) t0); f_equal; lia.
  - by exists spec.
Qed.
End setup_one.

(** ** Several pipelines on a core *)
Section setup_many.
Context `{TC : TcpCommon} `{PF : Profile} `{RC : !RecordCrate} `{HC : HeaderCrate}
  `{PC : !PacketCrate} `{CL : Clock} `{WC : WheelCrate} `{DC : !PortCrate}.

(** Where a task sends the packets of a stream *)
Inductive Sink : Type := ToPci (q : PortQueueTxBuffered) | ToKni (q : PortQueue).
Definition task_sends (t : TaskBody) : option (Stream * Sink) :=
  match t with
  | SendPci s q => Some (s, ToPci q)
  | SendKni s q => Some (s, ToKni q)
  | _ => None
  end.
Definition sends (c : SchedCall) : option (Stream * Sink) :=
  match c with
  | AddRunnable _ _ t _ | InstallTask _ t _ => task_sends t
  | GroupBy _ _ _ _ _ => None
  end.

(** What the comments of the code (nftcp.rs 186-188) rely on e2d2 for:
    [carries s u g] if the packets that the group-by of uuid [u] puts into group
    [g] come out of the stream [s]. *)
Class Flows : Type := carries : Stream → Uuid → Z → Prop.
Class FlowLaws `{FL : Flows} : Prop := {
  carries_group u i v g : carries (GetGroup u i) v g ↔ u = v ∧ i = g;
  carries_merge ss v g : carries (MergeAuto ss) v g ↔ ∃ s, s ∈ ss ∧ carries s v g;
  carries_drop s v g : ¬ carries (DropAll s) v g;
  carries_queue q v g : ¬ carries (Consumer q) v g;
  carries_pci q v g : ¬ carries (ReceivePci q) v g;
  carries_kni q v g : ¬ carries (ReceiveKni q) v g;
}.
Definition reaches `{FL : Flows} (calls : list SchedCall) (u : Uuid) (g : Z) (k : Sink) : Prop :=
  ∃ c s, c ∈ calls ∧ sends c = Some (s, k) ∧ carries s u g.

(** Each closure gets the packets of one PCI port, and its packets leave as the
    comment says: group 1 by that port, group 2 by the kernel interface it was
    set up with, and no other way. [u] is the next uuid. *)
Record routed `{FL : Flows} (calls : list SchedCall) (u : nat) : Prop := {
  rt_groups n f name s v : GroupBy n f name s v ∈ calls → (v < u)%nat ∧
    ∃ q pci kni, s = MergeAuto [SetUrgent (Consumer q); ReceivePci pci] ∧
      ∀ g k, reaches calls v g k ↔ g = 1 ∧ k = ToPci pci ∨ g = 2 ∧ k = ToKni kni;
  rt_fresh v g k : (u ≤ v)%nat → ¬ reaches calls v g k;
}.

(** The closures and the request handlers among the calls *)
Definition closures (calls : list SchedCall) : list Closure :=
  omap (λ c, match c with GroupBy _ f _ _ _ => Some f | _ => None end) calls.
Definition kni_handlers (calls : list SchedCall) : list (PmdPort * bool) :=
  omap (λ c, match c with AddRunnable _ _ (KniHandleRequest p _) r => Some (p, r) | _ => None end) calls.

(** The ports of a core that have both queues *)
Definition queues (core : Z) (pmd_ports : gmap string PmdPort) (pmd_port : PmdPort) :
    option PortQueueTxBuffered * option PortQueue :=
  new_port_queues_for_core core pmd_port (name ← kni_name pmd_port; pmd_ports !! name).
Definition served (core : Z) (pmd_ports : gmap string PmdPort) (ports : list PmdPort) :
    list (PortQueueTxBuffered * PortQueue) :=
  omap (λ p, match queues core pmd_ports p with (Some pci, Some kni) => Some (pci, kni) | _ => None end) ports.

(** The native kernel interfaces served from queue 0 *)
Definition handled (l : list (PortQueueTxBuffered * PortQueue)) : list (PmdPort * bool) :=
  omap (λ x, if is_native_kni (port_of x.2) && (rxq (port_queue x.1) =? 0)
             then Some (port_of x.2, true) else None) l.

Definition task_name (t : TaskType) : string :=
  match t with
  | TickGenerator => "TickGenerator" | Pipe2Kni => "Pipe2Kni"
  | Pipe2Pci => "Pipe2Pci" | BypassPipe => "BypassPipe"
  end.
Definition announcement (m : MessageFrom) : option (PipelineId * option TaskType) :=
  match m with Channel id => Some (id, None) | Task id _ t => Some (id, Some t) | _ => None end.
Definition announcements (core : Z) (l : list (PortQueueTxBuffered * PortQueue)) :
    list (PipelineId * option TaskType) :=
  l ≫= λ x, pair (pipeline_of core x.1) <$>
    [None; Some TickGenerator; Some Pipe2Kni; Some Pipe2Pci; Some BypassPipe].
End setup_many.

Section routes.
Context `{TC : TcpCommon} `{PF : Profile} `{RC : !RecordCrate} `{HC : HeaderCrate}
  `{PC : !PacketCrate} `{CL : Clock} `{WC : WheelCrate} `{DC : !PortCrate}.
Context `{FL : !Flows} `{FW : !FlowLaws}.
Lemma reaches_app l1 l2 u g k : reaches (l1 ++ l2) u g k ↔ reaches l1 u g k ∨ reaches l2 u g k.
Proof.
  rw /reaches. setoid_rewrite elem_of_app. split.
  - intros (c & s & [H|H] & Hs); [left|right]; by exists c, s.
  - intros [(c & s & H & Hs)|(c & s & H & Hs)]; exists c, s; split; [by left|done|by right|done].
Qed.

Lemma reaches_nil u g k : ¬ reaches [] u g k.
Proof. by intros (c & s & []%not_elem_of_nil & _). Qed.

Lemma reaches_cons c l u g k :
  reaches (c :: l) u g k ↔ (∃ s, sends c = Some (s, k) ∧ carries s u g) ∨ reaches l u g k.
Proof.
  rw /reaches. setoid_rewrite elem_of_cons. split.
  - intros (d & s & [-> |H] & Hs); [left; by exists s|right; by exists d, s].
  - intros [(s & H)|(d & s & H & Hs)]; [exists c, s|exists d, s]; split; [by left|done|by right|done].
Qed.

Lemma reaches_calls_of f target len pci kni u n v g k :
  reaches (calls_of f target len pci kni u n) v g k ↔
  v = (2 + u)%nat ∧ (g = 1 ∧ k = ToPci pci ∨ g = 2 ∧ k = ToKni kni).
Proof.
  rw /calls_of !reaches_cons /= /group_by. split.
  - intros [(s & [= <- <-] & H)|[(s & [=] & _)|[(s & [=] & _)|[(s & [= <- <-] & H)|
      [(s & [= <- <-] & H)|[(s & [= <- <-] & H)|[]%reaches_nil]]]]]].
    + by apply carries_kni in H.
    + apply carries_group in H as [<- <-]. by split; [|right].
    + apply carries_merge in H as (s & Hs & H).
      apply elem_of_cons in Hs as [-> | ->%list_elem_of_singleton]; [|by apply carries_drop in H].
      apply carries_group in H as [<- <-]. by split; [|left].
    + by apply carries_queue in H.
  - intros [-> [[-> ->]|[-> ->]]].
    + do 4 right. left. eexists. split; [done|]. apply carries_merge. eexists. split; [left|by apply carries_group].
    + do 3 right. left. eexists. split; [done|]. by apply carries_group.
Qed.

(** Calls that send nothing and group nothing keep the routes. *)
Lemma routed_more calls u v : routed calls u → (u ≤ v)%nat → routed calls v.
Proof.
  intros [Hg Hf] Hle. split.
  - intros n f name s x Hx. destruct (Hg _ _ _ _ _ Hx) as [Hlt H]. split; [lia|done].
  - intros x g k Hx. apply Hf. lia.
Qed.

Lemma routed_silent calls u name p v r :
  routed calls u → routed (calls ++ [AddRunnable v name (KniHandleRequest p 0) r]) u.
Proof.
  intros [Hg Hf].
  assert (∀ x g k, reaches (calls ++ [AddRunnable v name (KniHandleRequest p 0) r]) x g k ↔ reaches calls x g k) as Heq.
  { intros. rw reaches_app reaches_cons /=. split; [|by left].
    intros [|[(? & ? & _)|[]%reaches_nil]]; done. }
  split; [|by setoid_rewrite Heq].
  intros n f name' s x [Hx|Hx%list_elem_of_singleton]%elem_of_app; [|done]. setoid_rewrite Heq. by eapply Hg.
Qed.

Lemma routed_pipeline calls u f target len pci kni n :
  routed calls u → routed (calls ++ calls_of f target len pci kni u n) (6 + u).
Proof.
  intros [Hg Hf]. split.
  - intros m f' name s v [Hv|Hv]%elem_of_app.
    + destruct (Hg _ _ _ _ _ Hv) as (Hlt & q & pci' & kni' & -> & Hr). split; [lia|].
      exists q, pci', kni'. split; [done|]. intros g k. rw reaches_app reaches_calls_of -Hr.
      split; [intros [|[-> _]]; [done|lia]|by left].
    + rw /calls_of /group_by in Hv. rw !elem_of_cons in Hv. destruct_or! Hv; try done.
      2: by apply elem_of_nil in Hv.
      injection Hv as -> -> -> -> ->. split; [lia|]. eexists _, pci, kni. split; [done|].
      intros g k. rw reaches_app reaches_calls_of. split; [intros [H|[_ ?]]; [|done]|by right].
      exfalso. by apply (Hf (2 + u)%nat g k); [lia|].
  - intros v g k Hv. rw reaches_app reaches_calls_of.
    intros [H|[-> _]]; [|lia]. apply (Hf v g k); [lia|done].
Qed.

End routes.

Section setup_ports.
Context `{TC : TcpCommon} `{PF : Profile} `{RC : !RecordCrate} `{HC : HeaderCrate}
  `{PC : !PacketCrate} `{CL : Clock} `{WC : WheelCrate} `{SL : !StateLaws} `{HL : !HeaderLaws}
  `{PL : !PacketLaws} `{RL : !RefcntLaws} `{KL : !CounterLaws} `{DC : !PortCrate} `{WL : !WheelLaws}.
Context (core : Z) (cfg : RunConfiguration) (srvs : list L234Data) (fs : FnSelectServer) (fp : FnPayload).

(** What setting up the pipelines of the ports with the queues [l] does *)
Definition installs (l : list (PortQueueTxBuffered * PortQueue)) (i i' : Install) : Prop :=
  ∃ new msgs, in_sched i' = in_sched i ++ new ∧ in_sent i' = in_sent i ++ msgs ∧
    Forall2 (λ x f, ∃ k, port_ok cfg x.1 x.2 k ∧ closure_ok cfg srvs fs fp core x.1 x.2 k f) l (closures new) ∧
    kni_handlers new = handled l ∧
    omap announcement msgs = announcements core l ∧
    (∀ id v t, Task id v t ∈ msgs → ∃ body, InstallTask (task_name t) body v ∈ new) ∧
    ∀ (FL : Flows) (FW : FlowLaws), routed (in_sched i) (in_uuids i) → routed (in_sched i') (in_uuids i').

Lemma installs_trans l1 l2 i1 i2 i3 : installs l1 i1 i2 → installs l2 i2 i3 → installs (l1 ++ l2) i1 i3.
Proof.
  intros (n1 & m1 & Hs1 & Hm1 & Hc1 & Hk1 & Ha1 & Ht1 & Hr1)
         (n2 & m2 & Hs2 & Hm2 & Hc2 & Hk2 & Ha2 & Ht2 & Hr2).
  exists (n1 ++ n2), (m1 ++ m2). split_and!.
  - by rw Hs2 Hs1 app_assoc.
  - by rw Hm2 Hm1 app_assoc.
  - rw /closures omap_app. by apply Forall2_app.
  - rw /kni_handlers in Hk1 Hk2 |- *. by rw omap_app Hk1 Hk2 /handled omap_app.
  - by rw omap_app Ha1 Ha2 /announcements bind_app.
  - intros id v t [H|H]%elem_of_app.
    + destruct (Ht1 _ _ _ H) as [body Hb]. exists body. apply elem_of_app. by left.
    + destruct (Ht2 _ _ _ H) as [body Hb]. exists body. apply elem_of_app. by right.
  - auto.
Qed.

Context (shuffle : Z → Z → list Z) (tick_length : Z → Z).
Context (Hsh : ∀ lo hi, shuffle lo hi ≡ₚ seqZ lo (hi - lo + 1))
  (Hwh : ∀ n r c idx, wheel_entry (wheel_new n r c) idx = None).
Context (Hopen : remote_open cfg = true) (Hticks : ticks_ok tick_length (system_cpu_clock cfg)).
Context (pmd_ports : gmap string PmdPort).

Lemma wp_setup_pipeline pci kni k i :
  port_ok cfg pci kni k →
  wp (setup_delayed_proxy shuffle tick_length core pci kni cfg srvs fs fp) no_panic
    (λ _ i', ∃ f target, closure_ok cfg srvs fs fp core pci kni k f ∧
      in_sched i' = in_sched i ++ calls_of f target (system_cpu_clock cfg / 100) pci kni (in_uuids i) (in_queues i) ∧
      in_sent i' = in_sent i ++ announced (pipeline_of core pci) (in_uuids i) ∧
      in_uuids i' = (6 + in_uuids i)%nat) i.
Proof.
  destruct i as [w sc se u n]. intros Hp. eapply wp_mono; [|by eapply wp_setup_delayed_proxy].
  intros [] i (f & target & Hf & H1 & H2 & H3 & _). by exists f, target.
Qed.

(** The request handler of the kernel interface comes first. *)
Lemma wp_kni_handler E pci kni u i (Q : unit → Install → Prop) :
  (∀ i', in_sched i' = in_sched i ++
       (if is_native_kni (port_of kni) && (rxq (port_queue pci) =? 0)
        then [AddRunnable u "KniHandleRequest" (KniHandleRequest (port_of kni) 0) true] else []) →
     in_sent i' = in_sent i → in_uuids i' = in_uuids i → Q tt i') →
  wp (when (is_native_kni (port_of kni) && (rxq (port_queue pci) =? 0))
        (add_runnable u "KniHandleRequest" (KniHandleRequest (port_of kni) 0) true)) E Q i.
Proof.
  destruct (_ && _); intros HQ; [by apply HQ|]. by apply HQ; [rw app_nil_r|..].
Qed.

Lemma wp_setup_port pmd_port i :
  (∀ x, x ∈ served core pmd_ports [pmd_port] → ∃ k, port_ok cfg x.1 x.2 k) →
  wp (setup_port shuffle tick_length core pmd_ports cfg srvs fs fp pmd_port) no_panic
    (λ _ i', installs (served core pmd_ports [pmd_port]) i i') i.
Proof.
  rw /setup_port /served /= /queues.
  destruct (new_port_queues_for_core _ _ _) as [[pci|] [kni|]]; intros Hok.
  2-4: apply wp_bind, wp_bind, wp_gets, wp_bind, wp_modify, wp_ret, wp_ret;
    exists [], []; split_and!; [by rw app_nil_r|by rw app_nil_r|constructor|done..| |];
      [by intros ? ? ? ?%elem_of_nil|intros FL FW Hr; eapply routed_more; [exact Hr|cbn; lia]].
  destruct (Hok (pci, kni)) as [k Hk]; [left|]. cbn [fst snd] in Hk.
  destruct i as [w sc se u n].
  apply wp_bind, wp_new_v4, wp_bind, wp_kni_handler. intros i1 Hs1 Hm1 Hu1. cbn in Hs1, Hm1, Hu1.
  eapply wp_mono; [|by eapply wp_setup_pipeline]. intros [] i2 (f & target & Hf & Hs2 & Hm2 & Hu2).
  rw Hs1 Hu1 -app_assoc in Hs2. rw Hm1 Hu1 in Hm2. rw Hu1 in Hu2.
  eexists _, _. split_and!; [exact Hs2|exact Hm2|..].
  - rw /closures omap_app. destruct (_ && _); cbn; (constructor; [by exists k|constructor]).
  - rw /kni_handlers /handled omap_app /=. by destruct (_ && _).
  - done.
  - intros id v t Hv. rw /announced !elem_of_cons in Hv.
    destruct Hv as [[=]|[[= -> -> ->]|[[= -> -> ->]|[[= -> -> ->]|[[= -> -> ->]|[]%elem_of_nil]]]]];
      eexists; apply elem_of_app; right; rw /calls_of !elem_of_cons; cbn; eauto 10.
  - cbn. intros FL FW Hr. rw Hu2 Hs2 app_assoc. apply routed_pipeline.
    apply (routed_more _ u); [|lia]. destruct (_ && _); [by apply routed_silent|by rw app_nil_r].
Qed.

Lemma wp_setup_ports ports : ∀ i,
  (∀ x, x ∈ served core pmd_ports ports → ∃ k, port_ok cfg x.1 x.2 k) →
  wp (setup_ports (setup_port shuffle tick_length core pmd_ports cfg srvs fs fp) ports) no_panic
    (λ _ i', installs (served core pmd_ports ports) i i') i.
Proof.
  induction ports as [|p ports IH]; intros i Hok.
  { apply wp_ret. exists [], []. split_and!; [by rw app_nil_r|by rw app_nil_r|constructor|done..| |done].
    by intros ? ? ? ?%elem_of_nil. }
  assert (served core pmd_ports (p :: ports) = served core pmd_ports [p] ++ served core pmd_ports ports) as Hs
    by apply (omap_app _ [p] ports).
  rw Hs in Hok |- *. cbn [setup_ports]. apply wp_bind. eapply wp_mono; [|apply wp_setup_port].
  - intros [] i1 H1. eapply wp_mono; [|apply IH].
    + intros [] i2 H2. by eapply installs_trans.
    + intros x Hx. apply Hok, elem_of_app. by right.
  - intros x Hx. apply Hok, elem_of_app. by left.
Qed.
End setup_ports.
