(* ===== verification/SetupProps.v ===== *)
(** * Properties of the setup and of the selection closures

    The initial state satisfies the invariant of the pipeline; what the program's
    closures select and what they leave alone. *)
From Stdlib Require Import ZArith Lia ssreflect.
From stdpp Require Import strings.
From S2P Require Import Prelude Crates Sample Extension Connection Messages CManager ManagerInv.
From S2P Require Import NatTable Manager SampleManager Proxy Packets Translate Steady Handler.
From S2P Require Import Setup StateMachine Reach Counters Pipeline SampleEngine Wiring.
#[local] Open Scope general_if_scope.

Section setup_properties.
Context `{TC : TcpCommon} `{PF : Profile} `{RC : !RecordCrate} `{HC : HeaderCrate}
  `{PC : !PacketCrate} `{CL : Clock} `{WC : WheelCrate} `{SL : !StateLaws} `{HL : !HeaderLaws}
  `{PL : !PacketLaws} `{RL : !RefcntLaws} `{KL : !CounterLaws} `{DC : !PortCrate} `{WL : !WheelLaws}.

Context (shuffle : Z → Z → list Z) (tick_length : Z → Z).

(** C9. Setting up a pipeline succeeds, panics nowhere, and installs one closure.
    Whatever the world it is called in, the closure starts in the invariant that
    its calls preserve; the ports of its manager all pass its port filter, the
    tick counter is never divided by zero, and the timeout is the configured one
    or the largest the wheel takes. *)
Theorem setup_establishes_inv core cfg srvs fs fp pci kni k i :
  port_ok cfg pci kni k → ticks_ok tick_length (system_cpu_clock cfg) → remote_open cfg = true →
  (∀ lo hi, shuffle lo hi ≡ₚ seqZ lo (hi - lo + 1)) →
  (∀ n r c idx, wheel_entry (wheel_new n r c) idx = None) →
  wp (setup_delayed_proxy shuffle tick_length core pci kni cfg srvs fs fp) no_panic
    (λ _ i', ∃ new f, in_sched i' = in_sched i ++ new ∧ closures new = [f] ∧
      closure_ok cfg srvs fs fp core pci kni k f) i.
Proof.
  intros Hp Ht Ho Hsh Hwh. eapply wp_mono; [|by eapply wp_setup_pipeline].
  intros [] i' (f & target & Hf & Hs & _). by exists (calls_of f target (system_cpu_clock cfg / 100) pci kni (in_uuids i) (in_queues i)), f.
Qed.

(** C10. All pipelines of a core: the function goes through its physical ports and
    sets up a pipeline for each port that has both a PCI and a kernel queue, in
    order: one closure each, in the invariant ([closure_ok]); the channel and
    the four tasks of each pipeline are announced to the run time under the
    pipeline's id, every task under the uuid it is installed with; and the
    request handler of the native kernel interfaces runs on queue 0, ready from
    the start. Nothing panics if each of these ports has a flow and an address. *)
Theorem setup_pipes_installs core pmd_ports cfg srvs fs fp i :
  let l := served core pmd_ports (physical_ports_for_core core pmd_ports) in
  (∀ x, x ∈ l → ∃ k, port_ok cfg x.1 x.2 k) →
  ticks_ok tick_length (system_cpu_clock cfg) → remote_open cfg = true →
  (∀ lo hi, shuffle lo hi ≡ₚ seqZ lo (hi - lo + 1)) →
  (∀ n r c idx, wheel_entry (wheel_new n r c) idx = None) →
  wp (setup_pipes_delayed_proxy shuffle tick_length core pmd_ports cfg srvs fs fp) no_panic
    (λ _ i', ∃ new msgs, in_sched i' = in_sched i ++ new ∧ in_sent i' = in_sent i ++ msgs ∧
      Forall2 (λ x f, ∃ k, port_ok cfg x.1 x.2 k ∧ closure_ok cfg srvs fs fp core x.1 x.2 k f) l (closures new) ∧
      kni_handlers new = handled l ∧
      omap announcement msgs = announcements core l ∧
      ∀ id v t, Task id v t ∈ msgs → ∃ body, InstallTask (task_name t) body v ∈ new) i.
Proof.
  intros l Hl Ht Ho Hsh Hwh. eapply wp_mono; [|by eapply wp_setup_ports].
  intros [] i' (new & msgs & H1 & H2 & H3 & H4 & H5 & H6 & _). by exists new, msgs.
Qed.

(** C11. The pipelines of a core keep apart: each closure gets the packets of one
    PCI port (and its timer ticks); what it puts into group 1 leaves by that
    port, group 2 by the kernel interface it was set up with, group 0 nowhere;
    none of its packets reaches a task of another pipeline. *)
Theorem setup_pipes_routed `{FL : !Flows} `{FW : !FlowLaws} core pmd_ports cfg srvs fs fp i :
  (∀ x, x ∈ served core pmd_ports (physical_ports_for_core core pmd_ports) → ∃ k, port_ok cfg x.1 x.2 k) →
  ticks_ok tick_length (system_cpu_clock cfg) → remote_open cfg = true →
  (∀ lo hi, shuffle lo hi ≡ₚ seqZ lo (hi - lo + 1)) →
  (∀ n r c idx, wheel_entry (wheel_new n r c) idx = None) →
  routed (in_sched i) (in_uuids i) →
  wp (setup_pipes_delayed_proxy shuffle tick_length core pmd_ports cfg srvs fs fp) no_panic
    (λ _ i', routed (in_sched i') (in_uuids i')) i.
Proof.
  intros Hl Ht Ho Hsh Hwh Hr. eapply wp_mono; [|by eapply wp_setup_ports].
  intros [] i' (new & msgs & _ & _ & _ & _ & _ & _ & H). by apply H.
Qed.

(** The check against an overflow of the wheel compares the configured timeout,
    in milliseconds, with cycles: what [setup] keeps is the smaller of the two
    numbers, and a timeout below the limit is scheduled (nftcp.rs 561) past it
    as soon as its cycles exceed the limit by a thousandth of the clock. *)
Theorem clamp_timeout_units wh t clock :
  clamp_timeout wh (Some t) = Some (Z.min t (wheel_get_max_timeout_cycles wh)) ∧
  (t ≤ wheel_get_max_timeout_cycles wh →
   (wheel_get_max_timeout_cycles wh + 1) * 1000 ≤ t * clock →
   clamp_timeout wh (Some t) = Some t ∧ wheel_get_max_timeout_cycles wh < t * clock / 1000).
Proof.
  assert (clamp_timeout wh (Some t) = Some (Z.min t (wheel_get_max_timeout_cycles wh))) as Hc.
  { rw /clamp_timeout. destruct (Z.ltb_spec (wheel_get_max_timeout_cycles wh) t); f_equal; lia. }
  split; [done|]. intros Hle Hbig. rw Hc. split; [f_equal; lia|].
  enough (wheel_get_max_timeout_cycles wh + 1 ≤ t * clock / 1000) by lia.
  apply Z.div_le_lower_bound; lia.
Qed.

(** *** The server list *)
Definition resolvable (get_mac : list Z → option MacAddress) (t : TargetConfig) : Prop :=
  ∃ m, tc_mac t = Some m ∨ tc_mac t = None ∧ (tc_linux_if t ≫= get_mac) = Some m.

Definition server_for (get_mac : list Z → option MacAddress) (i : Z) (t : TargetConfig)
    (s : L234Data) : Prop :=
  (tc_mac t = Some (mac s) ∨ tc_mac t = None ∧ (tc_linux_if t ≫= get_mac) = Some (mac s)) ∧
  l234_ip s = tc_ip t ∧ l234_port s = tc_port t ∧ server_id s = tc_id t ∧ l234_index s = i.

Lemma server_of_cases get_mac i t :
  (∃ s, server_of get_mac i t = Ok s ∧ server_for get_mac i t s) ∨
  server_of get_mac i t = Panic UnwrapNone ∧ ¬ resolvable get_mac t.
Proof.
  rw /server_of /server_for /resolvable. destruct (tc_mac t) as [m|].
  { left. eexists. split; [reflexivity|]. cbn. by split; [left|]. }
  destruct (tc_linux_if t) as [n|]; cbn; [destruct (get_mac n) as [m|]; cbn|].
  - left. eexists. split; [reflexivity|]. cbn. by split; [right|].
  - right. split; [done|]. by intros (? & [?|[_ ?]]).
  - right. split; [done|]. by intros (? & [?|[_ ?]]).
Qed.

Lemma servers_from_cases get_mac targets : ∀ i,
  (∃ l, servers_from get_mac i targets = Ok l ∧ Forall (resolvable get_mac) targets ∧
     length l = length targets ∧
     ∀ k t, targets !! k = Some t → ∃ s, l !! k = Some s ∧ server_for get_mac (i + Z.of_nat k) t s) ∨
  servers_from get_mac i targets = Panic UnwrapNone ∧ ¬ Forall (resolvable get_mac) targets.
Proof.
  induction targets as [|t ts IH]; intros i.
  { left. exists []. split_and!; [done|constructor|done|]. by intros k t. }
  cbn [servers_from]. destruct (server_of_cases get_mac i t) as [(s & -> & Hs)|[-> Hn]]; cycle 1.
  { right. split; [done|]. by intros [? ?]%Forall_cons_1. }
  cbn. destruct (IH (i + 1)) as [(l & -> & Hf & Hl & Hk)|[-> Hn]]; cbn; cycle 1.
  { right. split; [done|]. by intros [? ?]%Forall_cons_1. }
  left. exists (s :: l). split_and!; [done| |by cbn; f_equal|].
  - constructor; [|done]. exists (mac s). by destruct Hs.
  - intros [|k] t' Ht'; [injection Ht' as <-; exists s; rw Z.add_0_r; done|].
    destruct (Hk k t' Ht') as (s' & ? & ?). exists s'. split; [done|].
    by replace (i + Z.of_nat (S k)) with (i + 1 + Z.of_nat k) by lia.
Qed.

(** C40. The server list of the program: built from the configured targets in order
    (address, port, id, and the position as the index) if each of them names a
    MAC address or an interface that has one; otherwise the program panics. *)
Theorem servers_of_spec get_mac targets :
  (Forall (resolvable get_mac) targets →
   ∃ l, servers_of get_mac targets = Ok l ∧ length l = length targets ∧
     ∀ k t, targets !! k = Some t →
       ∃ s, index l (Z.of_nat k) = Ok s ∧ server_for get_mac (Z.of_nat k) t s) ∧
  (¬ Forall (resolvable get_mac) targets → servers_of get_mac targets = Panic UnwrapNone).
Proof.
  rw /servers_of. destruct (servers_from_cases get_mac targets 0) as [(l & -> & Hf & Hl & Hk)|[-> Hn]].
  - split; [|done]. intros _. exists l. split_and!; [done..|]. intros k t Ht.
    destruct (Hk k t Ht) as (s & Hs & Hfor). exists s. split; [|done].
    rw /index. destruct (Z.leb_spec 0 (Z.of_nat k)); [|lia]. by rw Nat2Z.id Hs.
  - by split.
Qed.

(** *** The selection by payload *)
Definition answers (reply_socket : Z * Z) (s : L234Data) : Prop :=
  (l234_ip s, l234_port s) = reply_socket.
#[global] Instance answers_dec rs s : Decision (answers rs s).
Proof. rw /answers. apply _. Defined.

Lemma select_loop_spec rs l c : ∀ i,
  (∃ k s, l !! k = Some s ∧ answers rs s ∧ (∀ j s', (j < k)%nat → l !! j = Some s' → ¬ answers rs s') ∧
     select_loop rs i l c = set_server_index (wrap 8 (i + Z.of_nat k)) c) ∨
  (∀ s, s ∈ l → ¬ answers rs s) ∧ select_loop rs i l c = c.
Proof.
  destruct rs as [ip pt]. induction l as [|s l IH]; intros i.
  { right. split; [|done]. by intros s []%not_elem_of_nil. }
  cbn [select_loop fst snd]. destruct (_ && _) eqn:Hm.
  { left. exists 0%nat, s. rw Z.add_0_r. split_and!; [done| |by intros; lia|done].
    apply andb_prop in Hm as [?%Z.eqb_eq ?%Z.eqb_eq]. by rw /answers; f_equal. }
  assert (¬ answers (ip, pt) s) as Hs.
  { intros [= H1 H2]. by rw H1 H2 !Z.eqb_refl in Hm. }
  destruct (IH (i + 1)) as [(k & s' & Hk & Ha & Hfirst & Heq)|[Hno Heq]].
  - left. exists (S k), s'. split_and!; [done|done| |].
    + intros [|j] s0 Hj; [by intros [= <-]|]. apply Hfirst. lia.
    + rw Heq. do 2 f_equal. lia.
  - right. split; [|done]. intros s0 [->|H]%elem_of_cons; [done|by apply Hno].
Qed.

(** C30. Selection by payload: the first server of the list whose socket is the
    reply socket read from the payload, and the connection as it was if there
    is none; with at most 256 servers the index selected designates that
    server, so the access to the list in [select_server] cannot fail. *)
Theorem f_by_payload_selects deserialize l c w pp rs :
  payload_packet c = Some pp → deserialize (payload_of (w_mem w) pp) = Some rs →
  Z.of_nat (length l) ≤ 256 →
  ∃ c', f_by_payload deserialize l c w = Ok (c', w) ∧
    ((∃ k s, l !! k = Some s ∧ answers rs s ∧
        (∀ j s', (j < k)%nat → l !! j = Some s' → ¬ answers rs s') ∧
        c' = c <| server_index_u8 := Z.of_nat k |> ∧ index l (server_index c') = Ok s) ∨
     (∀ s, s ∈ l → ¬ answers rs s) ∧ c' = c).
Proof.
  intros Hp Hd Hlen. exists (select_loop rs 0 l c). split.
  { rw /f_by_payload Hp /mbind /M_bind /=. by rw Hd. }
  destruct (select_loop_spec rs l c 0) as [(k & s & Hk & Ha & Hf & Heq)|[Hno Heq]]; [left|by right].
  pose proof (lookup_lt_Some _ _ _ Hk). rw wrap_small in Heq; [lia|]. rw Z.add_0_l in Heq.
  exists k, s. rw Heq. split_and!; [done..|].
  rw /index /server_index /=. destruct (Z.leb_spec 0 (Z.of_nat k)); [|lia]. by rw Nat2Z.id Hk.
Qed.

(** What the closures of the program leave alone *)
Lemma main_closures cfg deserialize l :
  f_select_server cfg = f_by_payload deserialize l →
  f_process_payload_c_s cfg = main_process_payload_c_s →
  closures_ok cfg.
Proof.
  intros Hs Hp. split.
  - intros c w c' w'. rw Hs /f_by_payload /mbind /M_bind.
    destruct (payload_packet c) as [pp|] eqn:Hpp; [|done]. cbn.
    destruct (deserialize _) as [rs|]; [|done]. intros [= <- <-].
    destruct (select_loop_spec rs l c 0) as [(k & s & _ & _ & _ & ->)|[_ ->]];
      [exists (payload_packet c), (wrap 8 (0 + Z.of_nat k))|exists (payload_packet c), (server_index_u8 c)];
      by destruct c.
  - intros c pl t w c' pl' w'. rw Hp. intros [= <- _ _].
    exists (payload_packet c), (server_index_u8 c). by destruct c.
Qed.

(** *** Round robin *)
Fixpoint round_robbin_calls (n : Z) (c : ProxyConnection) (k : nat) : M Z (list Z) :=
  match k with
  | O => mret []
  | S k => c' ← f_round_robbin n c; l ← round_robbin_calls n c k; mret (server_index c' :: l)
  end.

Lemma round_robbin_step n c last :
  1 ≤ n ≤ 256 → 0 ≤ last < n →
  f_round_robbin n c last = Ok (set_server_index ((last + 1) mod n) c, (last + 1) mod n).
Proof.
  intros Hn Hl. rw /f_round_robbin /mbind /M_bind /= arith_ok; [lia|]. cbn. rw /id.
  destruct (Z.ltb_spec last (n - 1)).
  - rw arith_ok; [lia|]. cbn. by rw Z.mod_small; [lia|].
  - replace (last + 1) with n by lia. by rw Z.mod_same; [lia|].
Qed.

(** Round robin: with 1 to 256 servers, [k] calls from the initial state select
    the servers 1, 2, .. modulo their number, so [n] successive calls select
    each server once; without a server the first call panics when overflow is
    checked. *)
Theorem round_robbin_cycles n c k :
  (1 ≤ n ≤ 256 →
   round_robbin_calls n c k 0 = Ok ((λ i, Z.of_nat i mod n) <$> seq 1 k, Z.of_nat k mod n)) ∧
  (overflow_checks = true → f_round_robbin 0 c 0 = Panic Overflow).
Proof.
  split.
  - intros Hn. enough (∀ a, round_robbin_calls n c k (Z.of_nat a mod n)
      = Ok ((λ i, Z.of_nat i mod n) <$> seq (S a) k, Z.of_nat (a + k) mod n)) as H.
    { specialize (H 0%nat). by rw Z.mod_0_l in H; [lia|]. }
    induction k as [|k IH]; intros a; [by rw Nat.add_0_r|].
    cbn [round_robbin_calls seq]. rw {1}/mbind /M_bind round_robbin_step;
      [lia|by apply Z.mod_pos_bound; lia|].
    rw Zplus_mod_idemp_l. replace (Z.of_nat a + 1) with (Z.of_nat (S a)) by lia.
    rw /mbind /M_bind IH. cbn. by replace (a + S k)%nat with (S a + k)%nat by lia.
  - intros Hov. rw /f_round_robbin /mbind /M_bind /= /arith /=. by rw Hov.
Qed.
End setup_properties.

(** ** Witnesses *)
Import Sample SampleManager SampleEngine.

Definition run_cfg : RunConfiguration := {|
  flowdirector_map := {[ 1 := (167772161, 4096) : @FlowDirector _ ports ]};
  engine_configuration := mkConfiguration [] (mkEngineConfig None 8080 None None) None;
  system_cpu_clock := 2000000; remote_open := true |}.
Definition pmd_ports0 : gmap string (@PmdPort _ ports) :=
  {[ "kni"%string := 2; "nic"%string := 1 ]}.
Definition install0 : Install := mkInstall world0 [] [] 0 0.

Lemma port_ok0 : port_ok run_cfg (65532 : @PortQueueTxBuffered _ ports) (0 : @PortQueue headers) 2.
Proof. split; [by exists (167772161, 4096)|by eexists]. Qed.
Lemma ticks0 : ticks_ok (λ _, 2) (system_cpu_clock run_cfg).
Proof. by vm_compute. Qed.
Lemma served_list x :
  x ∈ served 3 pmd_ports0 (physical_ports_for_core 3 pmd_ports0) →
  x = ((65532 : @PortQueueTxBuffered _ ports), (0 : @PortQueue headers)).
Proof.
  assert (served 3 pmd_ports0 (physical_ports_for_core 3 pmd_ports0) =
    [((65532 : @PortQueueTxBuffered _ ports), (0 : @PortQueue headers))]) as -> by by vm_compute.
  apply list_elem_of_singleton.
Qed.
Lemma served0 x :
  x ∈ served 3 pmd_ports0 (physical_ports_for_core 3 pmd_ports0) → ∃ k, port_ok run_cfg x.1 x.2 k.
Proof. intros ->%served_list. exists 2. exact port_ok0. Qed.

Lemma setup_establishes_inv_witness :
  wp (setup_delayed_proxy (λ lo hi, seqZ lo (hi - lo + 1)) (λ _, 2) 3
        (65532 : @PortQueueTxBuffered _ ports) (0 : @PortQueue headers) run_cfg [server0]
        (f_by_payload (λ _, None) [server0]) main_process_payload_c_s) no_panic
    (λ _ i', ∃ new f, in_sched i' = new ∧ closures new = [f] ∧ engine_inv (cl_engine f world0)) install0.
Proof.
  eapply wp_mono; [|apply (setup_establishes_inv (λ lo hi, seqZ lo (hi - lo + 1)) (λ _, 2) 3 run_cfg
    [server0] (f_by_payload (λ _, None) [server0]) main_process_payload_c_s
    (65532 : @PortQueueTxBuffered _ ports) (0 : @PortQueue headers) 2 install0 port_ok0 ticks0)].
  - intros [] i (new & f & H1 & H2 & H3). exists new, f. split_and!; [exact H1|exact H2|apply H3].
  - done.
  - done.
  - done.
Defined.

Lemma setup_pipes_installs_witness :
  wp (setup_pipes_delayed_proxy (λ lo hi, seqZ lo (hi - lo + 1)) (λ _, 2) 3 pmd_ports0 run_cfg [server0]
        (f_by_payload (λ _, None) [server0]) main_process_payload_c_s) no_panic
    (λ _ i', ∃ new msgs, in_sched i' = new ∧ in_sent i' = msgs ∧ length (closures new) = 1%nat ∧
       kni_handlers new = [((2 : @PmdPort _ ports), true)] ∧ length (omap announcement msgs) = 5%nat) install0.
Proof.
  eapply wp_mono; [|apply (setup_pipes_installs (λ lo hi, seqZ lo (hi - lo + 1)) (λ _, 2) 3 pmd_ports0
    run_cfg [server0] (f_by_payload (λ _, None) [server0]) main_process_payload_c_s install0 served0 ticks0)].
  - intros [] i (new & msgs & H1 & H2 & H3 & H4 & H5 & _). exists new, msgs.
    split_and!; [exact H1|exact H2| |rw H4; by vm_compute|rw H5; by vm_compute].
    apply Forall2_length in H3. by rw -H3.
  - done.
  - done.
  - done.
Defined.

(** Which packets a stream carries, as an executable sample *)
Fixpoint flow_sample (s : @Stream _ ports) (v : Uuid) (g : Z) : Prop :=
  match s with
  | GetGroup u i => u = v ∧ i = g
  | SetUrgent s => flow_sample s v g
  | MergeAuto ss => (fix any l := match l with [] => False | s :: l => flow_sample s v g ∨ any l end) ss
  | _ => False
  end.
#[local] Instance sample_flows : Flows := flow_sample.
#[local] Instance sample_flow_laws : FlowLaws.
Proof.
  split; [done| |by intros ? ? ? []..].
  intros ss v g. rw /carries /sample_flows /=. induction ss as [|s ss IH].
  - split; [done|]. by intros (s & []%not_elem_of_nil & _).
  - rw IH. setoid_rewrite elem_of_cons. split.
    + intros [H|(t & Ht & H)]; [by exists s; split; [left|]|by exists t; split; [right|]].
    + intros (t & [-> |Ht] & H); [by left|right; by exists t].
Qed.

Lemma setup_pipes_routed_witness :
  wp (setup_pipes_delayed_proxy (λ lo hi, seqZ lo (hi - lo + 1)) (λ _, 2) 3 pmd_ports0 run_cfg [server0]
        (f_by_payload (λ _, None) [server0]) main_process_payload_c_s) no_panic
    (λ _ i', routed (in_sched i') (in_uuids i')) install0.
Proof.
  apply (setup_pipes_routed (λ lo hi, seqZ lo (hi - lo + 1)) (λ _, 2) 3 pmd_ports0
    run_cfg [server0] (f_by_payload (λ _, None) [server0]) main_process_payload_c_s install0 served0 ticks0);
    [done|done|done|].
  split; [by intros ? ? ? ? ? []%not_elem_of_nil|]. intros v g k _ (c & s & []%not_elem_of_nil & _).
Defined.

Lemma clamp_timeout_units_witness :
  let wh : TimerWheel := wheel_new 1002 20000 2500 in
  clamp_timeout wh (Some 200) = Some 200 ∧ wheel_get_max_timeout_cycles wh < 200 * 2000000 / 1000.
Proof.
  apply (clamp_timeout_units (wheel_new 1002 20000 2500 : TimerWheel) 200 2000000); by vm_compute.
Defined.

Definition targets0 : list TargetConfig :=
  [mkTarget [83; 49] 167837953 (Some 170) None 80; mkTarget [83; 50] 167837954 None (Some [101]) 80].

Lemma servers_of_spec_witness :
  ∃ l, servers_of (λ _, Some (171 : @MacAddress headers)) targets0 = Ok l ∧ length l = 2%nat.
Proof.
  destruct (servers_of_spec (λ _, Some (171 : @MacAddress headers)) targets0) as [H _].
  destruct H as (l & Hl & Hlen & _).
  - repeat constructor; [exists 170; by left|exists 171; by right].
  - by exists l.
Defined.

Lemma f_by_payload_selects_witness :
  let c := (con_in Established Listen) <| payload_packet := Some (1 : @Pdu _ packets) |> in
  ∃ c', f_by_payload (λ _, Some (167837953, 80)) [server0] c world0 = Ok (c', world0) ∧
    (server_index c' = 0 ∨ c' = c).
Proof.
  destruct (f_by_payload_selects (λ _, Some (167837953, 80)) [server0]
    ((con_in Established Listen) <| payload_packet := Some (1 : @Pdu _ packets) |>) world0
    (1 : @Pdu _ packets) (167837953, 80)) as (c' & Hr & Hc).
  - done.
  - done.
  - by vm_compute.
  - exists c'. split; [exact Hr|]. destruct Hc as [(k & s & Hk & _ & _ & -> & _)|[_ ->]]; [left|by right].
    destruct k as [|k]; [done|by destruct k].
Defined.

Lemma round_robbin_cycles_witness :
  round_robbin_calls 3 pc_new 5 0 = Ok ([1; 2; 0; 1; 2], 2).
Proof. apply (round_robbin_cycles 3 pc_new 5). lia. Defined.
