(* ===== verification/Runs.v ===== *)
(** * Runs of the pipelines

    A run of a pipeline alternates calls of its closure with what the rest of
    the program does between them. From the closures that the setup installs
    for the program of [bin.rs], every run stays calm, its sessions follow the
    specification, and the next call returns. *)
From Stdlib Require Import ZArith Lia ssreflect.
From stdpp Require Import relations strings.
From S2P Require Import Prelude Crates Sample Extension Connection Messages CManager ManagerInv.
From S2P Require Import NatTable Manager SampleManager Proxy Packets Translate Steady Handler.
From S2P Require Import Setup StateMachine Reach Counters Pipeline SampleEngine Safety Calm Wiring SetupProps.
#[local] Open Scope general_if_scope.

Section runs.
Context `{TC : TcpCommon} `{PF : Profile} `{RC : !RecordCrate} `{HC : HeaderCrate}
  `{PC : !PacketCrate} `{CL : Clock} `{WC : WheelCrate} `{WL : !WheelLaws} `{SL : !StateLaws}
  `{PL : !PacketLaws}.

(** Between two calls: packets and the record stores change, but nobody frees or
    shares a packet a connection keeps; the bypass pipe sends from the front of
    the queue, the run time reads and writes messages, time passes. What the
    closure owns stays. *)
Record env_step (e e' : Engine) : Prop := {
  en_cm : cm (e_cms e') = cm (e_cms e);
  en_wheel : cm_wheel (e_cms e') = cm_wheel (e_cms e);
  en_counter_c : e_counter_c e' = e_counter_c e;
  en_counter_s : e_counter_s e' = e_counter_s e;
  en_alloc : e_alloc e' = e_alloc e;
  en_ticks : e_ticks e' = e_ticks e;
  en_queue : ∃ sent, e_queue e = sent ++ e_queue e';
  en_rx : ∃ msgs, e_rx e' = e_rx e ++ msgs;
  en_tx : ∃ read, e_tx e = read ++ e_tx e';
  en_held q : held (cm (e_cms e)) q → pdu_refcnt (e_mem e') q = pdu_refcnt (e_mem e) q;
}.

(** One step of a run; the calls are those the outside serves. *)
Inductive pipeline_step (cfg : Config) (sel : Selector) : Engine → Engine → Prop :=
| step_env e e' : env_step e e' → pipeline_step cfg sel e e'
| step_call fuel p o e e' :
    serves cfg sel e p → (∀ now, (wheel_lag now (cm_wheel (e_cms e)) < fuel)%nat) →
    delayed_binding fuel cfg p e = Ok (o, e') → pipeline_step cfg sel e e'.

(** The specification: a packet moves the session of one port, a tick closes
    some sessions. *)
Definition sessions (e : Engine) : Z → option (TcpState * TcpState) := session (cm (e_cms e)).
Inductive session_step (s s' : Z → option (TcpState * TcpState)) : Prop :=
| session_packet p : packet_move (s p) (s' p) → (∀ q, q ≠ p → s' q = s q) → session_step s s'
| session_tick : (∀ q, s' q = s q ∨ s' q = None) → session_step s s'.

(** A pipeline without connections, as it is installed *)
Lemma calm_idle cfg e :
  engine_inv e → detailed_records (cm (e_cms e)) = false →
  (∀ p c, con_at (cm (e_cms e)) p = Some c → in_use c = false ∧ detailed_c c = None) →
  calm cfg e ∧ ∀ q, sessions e q = None.
Proof.
  intros Hinv Hd Hidle. split.
  - split; [done|]. split; [split; [done|]|]; intros p c Hc; destruct (Hidle p c Hc) as [Hu Hn]; [done|].
    by rw Hu.
  - intros q. rw /sessions /session. destruct (con_at _ q) as [c|] eqn:Hc; [|done].
    by destruct (Hidle q c Hc) as [-> _].
Qed.

Lemma calm_env cfg e e' : calm cfg e → env_step e e' → calm cfg e'.
Proof.
  intros [[Hcms Hct] Htab] [Hcm Hwh Hcc Hcs _ _ _ _ _ Hheld].
  destruct e as [[m w wh] cc cs al qu tk rx tx op], e' as [[m' w' wh'] cc' cs' al' qu' tk' rx' tx' op'].
  cbn in *. subst. split; [split; [by eapply cms_inv_world|done]|].
  by eapply calm_tab_mem.
Qed.

Lemma moves_step cfg p e e' : call_moves cfg p e e' → session_step (sessions e) (sessions e').
Proof.
  rw /call_moves. destruct (dispatch_of cfg e p); intros H.
  1-2: apply session_tick; intros q; left; apply H.
  { by apply session_tick. }
  destruct (concerned cfg e p) as [pt|] eqn:Hc.
  - apply (session_packet _ _ pt); [by apply H|]. intros q Hq. apply H. congruence.
  - apply session_tick. intros q. left. by apply H; rw Hc.
Qed.

(** Every session of such a run has taken the events of a connection. *)
Lemma sessions_reachable s s' :
  rtc session_step s s' → (∀ q, s q = None) →
  ∀ q cs, s' q = Some cs → rtc con_step (Closed, Listen) cs.
Proof.
  intros Hr Hs. revert s' Hr.
  refine (rtc_ind_r (λ s', ∀ q cs, s' q = Some cs → rtc con_step (Closed, Listen) cs) s _ _).
  - intros q cs. by rw Hs.
  - intros s1 s2 _ Hstep IH q cs Hq. destruct Hstep as [p Hp Ho|Ht].
    + destruct (decide (q = p)) as [-> |Hne]; [|apply (IH q); by rw -Ho].
      rw Hq in Hp. inversion Hp as [x Hx|Hx|c1 c2 Hstep Hb Hx| |]; subst.
      * by apply (IH p).
      * apply rtc_once. by apply (step_client CSyn (Closed, Listen)); [|apply (proj2 live_pair_new)|apply is_state_refl].
      * eapply rtc_r; [apply (IH p)|]; done.
    + destruct (Ht q) as [He|He]; [apply (IH q); by rw -He|by rw He in Hq].
Qed.
End runs.

Section calm_runs.
Context `{TC : TcpCommon} `{PF : Profile} `{RC : !RecordCrate} `{HC : HeaderCrate}
  `{PC : !PacketCrate} `{CL : Clock} `{WC : WheelCrate} `{WL : !WheelLaws} `{SL : !StateLaws}
  `{HL : !HeaderLaws} `{PL : !PacketLaws} `{RL : !RefcntLaws} `{KL : !CounterLaws}.
Context (cfg : Config) (sel : Selector) (pf : list Z → Z → list Z).
Context (Hcfg : cfg_total cfg sel pf) (Hcl : closures_ok cfg).

(** A served call returns, stays calm and moves the sessions. *)
Lemma calm_call fuel p e :
  calm cfg e → serves cfg sel e p → (∀ now, (wheel_lag now (cm_wheel (e_cms e)) < fuel)%nat) →
  ∃ p' g e', delayed_binding fuel cfg p e = Ok (Some (p', g), e') ∧ (g = 0 ∨ g = 1 ∨ g = 2) ∧
    calm cfg e' ∧ session_step (sessions e) (sessions e').
Proof.
  intros Hcalm Hsv Hlag.
  assert (wp (delayed_binding fuel cfg p) no_panic (λ o e', (calm cfg e' ∧
    ∃ p' g, o = Some (p', g) ∧ (g = 0 ∨ g = 1 ∨ g = 2)) ∧ call_moves cfg p e e') e) as Hwp.
  { eapply wp_conj; [by eapply wp_delayed_binding_calm| |].
    - apply (wp_delayed_binding any_panic _ _ _ _ (λ _ e', call_moves cfg p e e')); [done|done|apply Hcalm| | |done|done].
      + apply no_details_fetch, Hcalm.
      + intros Hd. rw /serves Hd in Hsv. pose proof (sv_src _ _ (proj1 Hsv)) as Hsrc.
        rw (same_ip _ _ _ (same_hdrs _ _ _ (offloaded_same cfg p e))) in Hsrc. lia.
    - by intros o e' H1 H2. }
  apply wp_total in Hwp as (o & e' & Hrun & (Hc & p' & g & -> & Hg) & Hm).
  exists p', g, e'. split_and!; [done..|]. by eapply moves_step.
Qed.

Lemma calm_step e e' :
  calm cfg e → pipeline_step cfg sel e e' → calm cfg e' ∧ session_step (sessions e) (sessions e').
Proof.
  intros Hcalm Hstep. revert Hcalm. destruct Hstep as [e1 e2 Henv|fuel p o e1 e2 Hsv Hlag Hrun]; intros Hcalm.
  - split; [by eapply calm_env|]. apply session_tick. intros q. left. by rw /sessions (en_cm _ _ Henv).
  - destruct (calm_call fuel p e1) as (p' & g & e3 & Hrun' & _ & H); [done..|].
    rw Hrun in Hrun'. by injection Hrun' as _ ->.
Qed.

Lemma calm_run e e' :
  calm cfg e → rtc (pipeline_step cfg sel) e e' → calm cfg e' ∧ rtc session_step (sessions e) (sessions e').
Proof.
  intros Hcalm Hr. revert Hcalm. induction Hr as [e|e1 e2 e3 Hstep _ IH]; intros Hcalm; [by split|].
  destruct (calm_step e1 e2) as [H1 H2]; [done..|]. destruct (IH H1) as [H3 H4].
  split; [done|by econstructor].
Qed.
End calm_runs.

(** ** The closures of the program *)
Section program.
Context `{TC : TcpCommon} `{PF : Profile} `{RC : !RecordCrate} `{HC : HeaderCrate}
  `{PC : !PacketCrate} `{CL : Clock} `{WC : WheelCrate} `{SL : !StateLaws} `{HL : !HeaderLaws}
  `{PL : !PacketLaws} `{RL : !RefcntLaws} `{KL : !CounterLaws} `{DC : !PortCrate} `{WL : !WheelLaws}.

(** [f_by_payload] accepts the payloads it can read, selects the first server
    that answers the socket they name (and none if there is none), and leaves
    the payload alone. *)
Definition program_selector (deserialize : list Z → option (Z * Z)) (l : list L234Data) : Selector :=
  mkSelector (λ pl, is_Some (deserialize pl))
    (λ i pl, match reply_socket ← deserialize pl; list_find (answers reply_socket) l with
             | Some (k, _) => Z.of_nat k
             | None => i
             end)
    (λ pl, pl).

(** The loop finds that server; its index fits into a byte. *)
Lemma select_loop_finds rs l c : Z.of_nat (length l) ≤ 256 →
  select_loop rs 0 l c
  = c <| server_index_u8 := match list_find (answers rs) l with
                            | Some (k, _) => Z.of_nat k | None => server_index c end |>.
Proof.
  intros Hlen. destruct (select_loop_spec rs l c 0) as [(k & s & Hk & Ha & Hf & ->)|[Hno ->]].
  - pose proof (lookup_lt_Some _ _ _ Hk). rw wrap_small; [lia|]. rw Z.add_0_l.
    assert (list_find (answers rs) l = Some (k, s)) as ->; [|done].
    apply list_find_Some. split_and!; [done..|]. intros j s' Hj Hlt. by apply (Hf j).
  - assert (list_find (answers rs) l = None) as ->; [|by destruct c].
    apply list_find_None, Forall_forall. exact Hno.
Qed.

Lemma program_select cfg deserialize l :
  f_select_server cfg = f_by_payload deserialize l → Z.of_nat (length l) ≤ 256 →
  select_closure no_panic cfg (program_selector deserialize l).
Proof.
  intros Hf Hlen c pp w Hpp [rs Hrs]. rw Hf /f_by_payload Hpp /=.
  apply wp_bind, wp_ret, wp_bind, wp_gets, wp_bind, wp_lift. cbv beta. rw /id Hrs. apply wp_ret.
  by rw select_loop_finds.
Qed.

Lemma program_payload cfg :
  f_process_payload_c_s cfg = main_process_payload_c_s → payload_closure no_panic cfg (λ pl _, pl).
Proof. intros Hp c pl t w. by rw Hp. Qed.

Lemma program_total cfg deserialize l :
  f_select_server cfg = f_by_payload deserialize l →
  f_process_payload_c_s cfg = main_process_payload_c_s → servers cfg = l →
  l ≠ [] → Z.of_nat (length l) ≤ 256 → (∀ s, s ∈ l → 0 ≤ l234_port s < 2 ^ 16) →
  me_ok cfg → timeouts_ok cfg → wheel_tick_reduction_factor cfg ≠ 0 →
  cfg_total cfg (program_selector deserialize l) (λ pl _, pl).
Proof.
  intros Hf Hp Hs Hne Hlen Hports Hme Ht Hfac. split.
  - by apply program_select.
  - by apply program_payload.
  - intros i pl Hi [rs Hrs]. rw Hs in Hi |- *. cbn. rw Hrs /=.
    destruct (list_find (answers rs) l) as [[k s]|] eqn:Hk; [|done].
    apply list_find_Some in Hk as [Hk _]. exists s.
    rw /index. destruct (Z.leb_spec 0 (Z.of_nat k)); [|lia]. by rw Nat2Z.id Hk.
  - rw Hs. destruct l as [|s l]; [done|]. by exists s.
  - intros i s. rw Hs /index. destruct (Z.leb_spec 0 i); [|done].
    destruct (l !! Z.to_nat i) as [s'|] eqn:Hi; [|done]. intros [= <-]. by eapply Hports, list_elem_of_lookup_2.
  - intros pl _. cbn. lia.
  - done.
  - done.
  - done.
Qed.

(** What the configuration has to be, for the pipelines with the queues [l] *)
Record config_ok (cfg : RunConfiguration) (srvs : list L234Data)
    (l : list (PortQueueTxBuffered * PortQueue)) : Prop := {
  cf_quiet : default false (ec_detailed_records (engine (engine_configuration cfg))) = false;
  cf_some : srvs ≠ [];
  cf_few : Z.of_nat (length srvs) ≤ 256;
  cf_server s : s ∈ srvs → 0 ≤ l234_port s < 2 ^ 16;
  cf_port : 0 ≤ ec_port (engine (engine_configuration cfg)) < 2 ^ 16;
  cf_address x n : x ∈ l → net_spec (port_of x.2) = Some (Some n) → 0 ≤ l234_ip n < 2 ^ 32;
  cf_clock : 0 ≤ system_cpu_clock cfg;
  cf_timeout : ∃ t, established (default_or_some (ec_timeouts (engine (engine_configuration cfg)))) = Some t ∧
    0 ≤ t ∧ t * system_cpu_clock cfg < 2 ^ 64;
}.

(** A closure of the program can be called. *)
Lemma closure_total cfg srvs deserialize core l x k f :
  config_ok cfg srvs l → x ∈ l →
  closure_ok cfg srvs (f_by_payload deserialize srvs) main_process_payload_c_s core x.1 x.2 k f →
  cfg_total (cl_config f) (program_selector deserialize srvs) (λ pl _, pl) ∧ closures_ok (cl_config f) ∧
  ∀ w, calm (cl_config f) (cl_engine f w) ∧ ∀ q, sessions (cl_engine f w) q = None.
Proof.
  intros [Hquiet Hsome Hfew Hsrv Hport Haddr Hclk (t & Ht & Ht0 & Htc)] Hx Hf.
  split_and!.
  - apply program_total; [apply Hf|apply Hf|apply Hf|done..| | |].
    + destruct (co_address _ _ _ _ _ _ _ _ _ Hf) as (n & Hn & _ & Hip). split; [rw Hip; by eapply Haddr|].
      by rw (co_port _ _ _ _ _ _ _ _ _ Hf).
    + destruct (co_timeout _ _ _ _ _ _ _ _ _ Hf) as (wh & _ & Hto). rw Ht in Hto.
      eexists. split; [exact Hto|]. rw (co_clock _ _ _ _ _ _ _ _ _ Hf).
      pose proof (wheel_max_nonneg wh). nia.
    + pose proof (co_factor _ _ _ _ _ _ _ _ _ Hf). lia.
  - apply (main_closures _ deserialize srvs); apply Hf.
  - intros w. apply calm_idle; [apply Hf| |apply Hf]. by rw (co_detailed _ _ _ _ _ _ _ _ _ Hf).
Qed.
End program.

Section run_properties.
Context `{TC : TcpCommon} `{PF : Profile} `{RC : !RecordCrate} `{HC : HeaderCrate}
  `{PC : !PacketCrate} `{CL : Clock} `{WC : WheelCrate} `{SL : !StateLaws} `{HL : !HeaderLaws}
  `{PL : !PacketLaws} `{RL : !RefcntLaws} `{KL : !CounterLaws} `{DC : !PortCrate} `{WL : !WheelLaws}.

(** C1. The program runs: set up on a core with the closures of the program,
    without detailed records, each of its pipelines can run for ever. Whatever
    calls and whatever else has happened since the installation, its sessions
    have followed the specification from no session on, each has taken a path of
    the state machine from (Closed, Listen), and the next call that the outside
    serves returns one of the three groups. *)
Theorem pipelines_run shuffle tick_length core pmd_ports cfg srvs deserialize i :
  let l := served core pmd_ports (physical_ports_for_core core pmd_ports) in
  let sel := program_selector deserialize srvs in
  (∀ x, x ∈ l → ∃ k, port_ok cfg x.1 x.2 k) → config_ok cfg srvs l →
  ticks_ok tick_length (system_cpu_clock cfg) → remote_open cfg = true →
  (∀ lo hi, shuffle lo hi ≡ₚ seqZ lo (hi - lo + 1)) →
  (∀ n r c idx, wheel_entry (wheel_new n r c) idx = None) →
  wp (setup_pipes_delayed_proxy shuffle tick_length core pmd_ports cfg srvs
        (f_by_payload deserialize srvs) main_process_payload_c_s) no_panic
    (λ _ i', ∃ new, in_sched i' = in_sched i ++ new ∧ length (closures new) = length l ∧
      ∀ f w e, f ∈ closures new → rtc (pipeline_step (cl_config f) sel) (cl_engine f w) e →
        (∀ q, sessions (cl_engine f w) q = None) ∧
        rtc session_step (sessions (cl_engine f w)) (sessions e) ∧
        (∀ q cs, sessions e q = Some cs → rtc con_step (Closed, Listen) cs) ∧
        ∀ p fuel, serves (cl_config f) sel e p →
          (∀ now, (wheel_lag now (cm_wheel (e_cms e)) < fuel)%nat) →
          ∃ p' g e', delayed_binding fuel (cl_config f) p e = Ok (Some (p', g), e') ∧
            (g = 0 ∨ g = 1 ∨ g = 2)) i.
Proof.
  intros l sel Hl Hcfg Ht Ho Hsh Hwh. eapply wp_mono; [|by eapply wp_setup_ports].
  intros [] i' (new & msgs & H1 & _ & H3 & _). exists new. split_and!; [done|by apply Forall2_length in H3|].
  intros f w e Hf Hrun. apply list_elem_of_lookup in Hf as [j Hf].
  destruct (Forall2_lookup_r _ _ _ _ _ H3 Hf) as (x & Hx & k & _ & Hok).
  destruct (closure_total cfg srvs deserialize core l x k f Hcfg) as (Htot & Hcl & Hstart);
    [by eapply list_elem_of_lookup_2|done|].
  destruct (Hstart w) as [Hcalm Hnone].
  destruct (calm_run _ _ _ Htot Hcl _ _ Hcalm Hrun) as [Hcalm' Hsess].
  split_and!; [done|done|by eapply sessions_reachable|]. intros p fuel Hsv Hlag.
  destruct (calm_call _ _ _ Htot Hcl fuel p e Hcalm' Hsv Hlag) as (p' & g & e' & Hr & Hg & _).
  by exists p', g, e'.
Qed.

(** C31. The closures of the program satisfy what the properties of the pipeline
    assume of a configuration's closures: the selection changes nothing but the
    server of the connection, which becomes the first of the list that answers
    the socket named in the payload, and stays if there is none; the payload
    closure changes nothing; neither panics on a payload that can be read. With
    such closures a configuration is total, if its other parts are in range. *)
Theorem main_closures_ok cfg deserialize l :
  f_select_server cfg = f_by_payload deserialize l →
  f_process_payload_c_s cfg = main_process_payload_c_s → Z.of_nat (length l) ≤ 256 →
  let sel := program_selector deserialize l in
  closures_ok cfg ∧ select_closure no_panic cfg sel ∧ payload_closure no_panic cfg (λ pl _, pl) ∧
  (servers cfg = l → l ≠ [] → (∀ s, s ∈ l → 0 ≤ l234_port s < 2 ^ 16) →
   me_ok cfg → timeouts_ok cfg → wheel_tick_reduction_factor cfg ≠ 0 →
   cfg_total cfg sel (λ pl _, pl)).
Proof.
  intros Hs Hp Hlen sel. split_and!.
  - by apply (main_closures cfg deserialize l).
  - by apply program_select.
  - by apply program_payload.
  - intros Hl Hne Hports Hme Ht Hf. by apply program_total.
Qed.
End run_properties.

(** ** Witness *)
Import Sample SampleManager SampleEngine.

(** The setup of the sample, the closure it installs, and a SYN for it *)
Definition setup0 : M Install unit :=
  setup_pipes_delayed_proxy (λ lo hi, seqZ lo (hi - lo + 1)) (λ _, 2) 3 pmd_ports0 run_cfg [server0]
    (f_by_payload (λ _, Some (167837953, 80)) [server0]) main_process_payload_c_s.
Definition syn_world : World :=
  mkWorld ∅ 0 0 (PMem {[ 5 := client_buf 100 0 true false false false [] ]} 10).

Lemma config_ok0 :
  config_ok run_cfg [server0] (served 3 pmd_ports0 (physical_ports_for_core 3 pmd_ports0)).
Proof.
  split; [done|done|by vm_compute| |by vm_compute| |by vm_compute|by exists 200; vm_compute].
  - intros s ->%list_elem_of_singleton. by vm_compute.
  - intros x n ->%served_list [= <-]. by vm_compute.
Qed.

Definition closure0 : Closure :=
  match closures (in_sched (final setup0 install0)) with
  | f :: _ => f
  | [] => mkClosure cfg0 (λ w, engine_in Closed Listen (w_mem w))
  end.

Lemma setup0_run : setup0 install0 = Ok (tt, final setup0 install0).
Proof. apply final_run. by vm_compute. Qed.
Lemma closure0_installed : closures (in_sched (final setup0 install0)) = [closure0].
Proof.
  assert (length (closures (in_sched (final setup0 install0))) = 1%nat) as Hl by by vm_compute.
  rw /closure0. by destruct (closures _) as [|f [|] ].
Qed.

Lemma wheel0_empty n r c idx : wheel_entry (wheel_new n r c) idx = None.
Proof. done. Qed.

Lemma closure0_idle w q : ¬ held (cm (e_cms (cl_engine closure0 w))) q.
Proof.
  pose proof (wp_setup_ports 3 run_cfg [server0] (f_by_payload (λ _, Some (167837953, 80)) [server0])
    main_process_payload_c_s (λ lo hi, seqZ lo (hi - lo + 1)) (λ _, 2) (λ _ _, reflexivity _)
    wheel0_empty eq_refl ticks0 pmd_ports0 _ install0 served0) as Hwp.
  destruct (wp_elim _ _ _ _ _ _ Hwp setup0_run) as (new & msgs & H1 & _ & H3 & _). rw app_nil_l in H1. rw -H1 closure0_installed in H3.
  apply Forall2_cons_inv_r in H3 as (x & l & (k & _ & Hok) & _).
  intros (pt & c & Hc & Hin & _). apply (co_idle _ _ _ _ _ _ _ _ _ Hok) in Hc as [Hout _].
  by rw Hout in Hin.
Qed.

(** The first SYN after the setup *)
Lemma serves0 : serves (cl_config closure0) (program_selector (λ _, Some (167837953, 80)) [server0])
  (cl_engine closure0 syn_world) (5 : @Pdu _ packets).
Proof.
  assert (dispatch_of (cl_config closure0) (cl_engine closure0 syn_world) (5 : @Pdu _ packets) = Tcp) as Hd
    by by vm_compute.
  rw /serves Hd. split; [|by intros _; eexists].
  clear Hd. set (e := offloaded _ _ _). assert (cm (e_cms e) = cm (e_cms (cl_engine closure0 syn_world))) as Hcm
    by apply offloaded_rest.
  assert (∀ q, ¬ held (cm (e_cms e)) q) as Hno by (rw Hcm; apply closure0_idle). clear Hcm.
  assert (e_alloc e = Some [0; 1]) as Hal by (clear Hno; vm_compute; reflexivity).
  split.
  1-3: clear Hno Hal; vm_compute; repeat split.
  - intros q Hq. destruct (Hno q Hq).
  - rw /alloc_ok Hal. clear Hal. exists 1, [0]. split_and!; [done|by intros m'|].
    intros r [-> |Hr]; [discriminate|destruct (Hno r Hr)].
Qed.

Lemma pipelines_run_witness :
  closures (in_sched (final setup0 install0)) = [closure0] ∧
  ∃ p' g e', delayed_binding 1 (cl_config closure0) (5 : @Pdu _ packets) (cl_engine closure0 syn_world)
    = Ok (Some (p', g), e') ∧ (g = 0 ∨ g = 1 ∨ g = 2).
Proof.
  split; [exact closure0_installed|].
  pose proof setup0_run as Hrun. unfold setup0 at 1 in Hrun.
  pose proof (pipelines_run (λ lo hi, seqZ lo (hi - lo + 1)) (λ _, 2) 3 pmd_ports0
    run_cfg [server0] (λ _, Some (167837953, 80)) install0 served0 config_ok0 ticks0 eq_refl
    (λ _ _, reflexivity _) wheel0_empty) as Hwp.
  destruct (wp_elim _ _ _ _ _ _ Hwp Hrun) as (new & H1 & _ & H). clear Hrun Hwp.
  rw app_nil_l in H1. subst new. assert (closure0 ∈ closures (in_sched (final setup0 install0))) as Hf.
  { rw closure0_installed. left. }
  destruct (H closure0 syn_world (cl_engine closure0 syn_world) Hf (rtc_refl _ _)) as (_ & _ & _ & Hcall).
  apply (Hcall (5 : @Pdu _ packets) 1%nat serves0). by intros now; vm_compute.
Defined.

Definition cfg_main : Config := {|
  me := mkL234 187 167772162 8080 [] 0; me_ip_s := 167772163; servers := [server0];
  pipeline_ip := 167772161; tcp_min_port := 4096; csum_offload := true;
  timeouts_established := Some 200; cpu_clock := 2000000; wheel_tick_reduction_factor := 1; pipeline_id := mkPipelineId 1 0 0;
  f_select_server := f_by_payload (λ _, Some (167837953, 80)) [server0];
  f_process_payload_c_s := main_process_payload_c_s |}.

Lemma main_closures_ok_witness :
  let sel := program_selector (λ _, Some (167837953, 80)) [server0] in
  closures_ok cfg_main ∧ cfg_total cfg_main sel (λ pl _, pl) ∧ selects sel 7 [] = 0.
Proof.
  destruct (main_closures_ok cfg_main (λ _, Some (167837953, 80)) [server0]) as (H1 & _ & _ & H4); [done..|].
  split_and!; [exact H1| |by vm_compute].
  apply H4; [done|done| |by vm_compute|by exists 200; vm_compute|done].
  intros s ->%list_elem_of_singleton. by vm_compute.
Defined.
