(* ===== verification/Report.v ===== *)
(** * The evaluation of records (bin.rs 47-116, cmanager.rs 117-130)

    At its end the program writes the records of all pipelines to a file and
    logs how many connections were completed and how many cycles they took. *)
From Stdlib Require Import ZArith Lia Ascii.
From stdpp Require Import strings pretty.
From S2P Require Import Prelude Crates Extension Connection Messages.
#[local] Open Scope string_scope.
#[local] Open Scope list_scope.
#[local] Open Scope Z_scope.

(** ** Formatting of the standard library *)

(** [format!("{:?}", s)] of a string: in quotes, with quotes and backslashes
    escaped (a formatted number has no other character that is) *)
Definition quote : ascii := ascii_of_nat 34.
Definition backslash : ascii := ascii_of_nat 92.
Fixpoint escape (s : string) : string :=
  match s with
  | EmptyString => EmptyString
  | String c s =>
      if decide (c = quote ∨ c = backslash) then String backslash (String c (escape s))
      else String c (escape s)
  end.
Definition debug_str (s : string) : string := String quote (escape s +:+ String quote EmptyString).

(** [format!("{:?}", v)] of a vector, its elements formatted *)
Definition debug_vec (l : list string) : string := "[" +:+ String.concat ", " l +:+ "]".

(** [format!("{:6}", i)] of a [usize] *)
Fixpoint spaces (n : nat) : string :=
  match n with O => "" | S n => String (ascii_of_nat 32) (spaces n) end.
Definition format_6 (i : Z) : string :=
  let s := pretty (Z.to_N i) in spaces (6 - String.length s) +:+ s.

Definition newline : string := String (ascii_of_nat 10) EmptyString.

Section report.
Context `{TC : TcpCommon} `{PF : Profile} `{RC : !RecordCrate} `{RP : !ReportCrate}.

(** [impl fmt::Display for Extension] *)
Definition ext_display (e : Extension) : res string :=
  states ← states e;
  deltas ← deltas_to_base_stamp e;
  Ok ("(Server, " +:+ debug_vec (state_debug <$> states) +:+ ", " +:+
      cause_debug (release_cause e) +:+ ", " +:+
      debug_vec (debug_str <$> (separated_string <$> deltas)) +:+ ")").

(** What the operating system makes of the file operations: whether the file
    can be created, the n-th write and the flush succeed *)
Record Files : Type := mkFiles {
  file_create : bool;
  file_write : nat → bool;
  file_flush : bool;
}.

(** The lines logged at level info *)
Inductive Info : Type :=
| CompletedConnections (c s : Z)
| PipelineInfo (id : PipelineId)
| TotalUsedCycles (total per_connection : Z).

(** What has been written to the file, and logged *)
Record Out : Type := mkOut {
  o_file : list string;
  o_log : list Info;
}.
#[global] Instance eta_Out : Eta Out := λ r, mkOut (o_file r) (o_log r).

Definition info (l : Info) : M Out unit := modify (λ o, o <| o_log := o_log o ++ [l] |>).

Context (pipeline_display : PipelineId → string) (files : Files).

(** [f.write_all(line.as_bytes()).expect(..)] *)
Definition write_all (line : string) : M Out unit :=
  o ← gets id;
  lift (if file_write files (length (o_file o)) then Ok tt else Panic UnwrapNone);;
  modify (λ o, o <| o_file := o_file o ++ [line] |>).

Definition closed_by_fin (c : ReleaseCause) : bool :=
  bool_decide (c = PassiveClose) || bool_decide (c = ActiveClose).

(** bin.rs 51-57 and 58-64: the counters are [i32]s *)
Fixpoint count_completed_c (l : list ConRecord) (n : Z) : res Z :=
  match l with
  | [] => Ok n
  | c :: l =>
      n ← (if closed_by_fin (cr_release_cause c) && bool_decide (cr_last_state c = Closed)
           then arith_i32 (n + 1) else Ok n);
      count_completed_c l n
  end.
Fixpoint count_completed_s (l : list Extension) (n : Z) : res Z :=
  match l with
  | [] => Ok n
  | c :: l =>
      b ← (if closed_by_fin (release_cause c)
           then last ← last_state c; Ok (bool_decide (last = Closed)) else Ok false);
      n ← (if (b : bool) then arith_i32 (n + 1) else Ok n);
      count_completed_s l n
  end.

(** bin.rs 50-65 *)
Fixpoint count_completed (con_records : list (PipelineId * ProxyRecStore)) (c s : Z) : res (Z * Z) :=
  match con_records with
  | [] => Ok (c, s)
  | (_, con_recs) :: rest =>
      c ← count_completed_c (store_iter_0 con_recs) c;
      s ← count_completed_s (store_iter_1 con_recs) s;
      count_completed rest c s
  end.

Definition first_or_max (c : ConRecord) : Z := default (2 ^ 64 - 1) (cr_get_first_stamp c).
Definition last_or_0 (c : ConRecord) : Z := default 0 (cr_get_last_stamp c).

(** bin.rs 103-110: the line that sums up a pipeline, at its last record *)
Definition sum_up (len i : Z) (min max : ConRecord) : M Out unit :=
  last ← lift (arith 64 (len - 1));
  match cr_get_first_stamp min, cr_get_last_stamp max with
  | Some first, Some last_stamp =>
      when (i =? last) (
        total ← lift (arith 64 (last_stamp - first));
        n ← lift (arith 64 (i + 1));
        per ← lift (if n =? 0 then Panic DivByZero else Ok (total / n));
        info (TotalUsedCycles total per))
  | _, _ => mret tt
  end.

(** bin.rs 86-111: the loop over the enumerated pairs of records *)
Fixpoint write_rows (len i : Z) (rows : list (ConRecord * Extension)) (completed_count : Z)
    (min max : ConRecord) : M Out unit :=
  match rows with
  | [] => mret tt
  | (c, s) :: rows =>
      write_all (format_6 i +:+ ": " +:+ cr_display c +:+ newline);;
      shown ← lift (ext_display s);
      write_all ("        " +:+ shown +:+ newline);;
      b ← lift (if closed_by_fin (cr_release_cause c)
                then last ← unwrap (last (cr_states c)); Ok (bool_decide (last = Closed)) else Ok false);
      completed_count ← lift (if (b : bool) then arith_i32 (completed_count + 1) else Ok completed_count);
      let min := if first_or_max c <? first_or_max min then c else min in
      let max := if last_or_0 max <? last_or_0 c then c else max in
      sum_up len i min max;;
      write_rows len (i + 1) rows completed_count min max
  end.

(** bin.rs 77-112: one pipeline; its store is sorted in place *)
Definition write_pipeline (p : PipelineId) (c_records : ProxyRecStore) : M Out ProxyRecStore :=
  info (PipelineInfo p);;
  write_all ("Pipeline " +:+ pipeline_display p +:+ ":" +:+ newline);;
  if 0 <? store_len c_records then
    min ← lift (unwrap (last (store_iter_0 c_records)));
    let max := min in
    let c_records := store_sort_0_by (λ a b, (cr_sock a).2 ?= (cr_sock b).2) c_records in
    write_rows (store_len c_records) 0 (store_iter c_records) 0 min max;;
    mret c_records
  else mret c_records.

Fixpoint write_pipelines (con_records : list (PipelineId * ProxyRecStore)) :
    M Out (list (PipelineId * ProxyRecStore)) :=
  match con_records with
  | [] => mret []
  | (p, c_records) :: rest =>
      s ← write_pipeline p c_records;
      l ← write_pipelines rest;
      mret ((p, s) :: l)
  end.

(** [con_records]: the entries of the map in the order it iterates over them *)
Definition write_and_evaluate_records (con_records : list (PipelineId * ProxyRecStore)) :
    M Out (list (PipelineId * ProxyRecStore)) :=
  '(completed_count_c, completed_count_s) ← lift (count_completed con_records 0 0);
  info (CompletedConnections completed_count_c completed_count_s);;
  lift (if file_create files then Ok tt else Panic PanicCall);;
  l ← write_pipelines con_records;
  lift (if file_flush files then Ok tt else Panic UnwrapNone);;
  mret l.
End report.
