(* ===== verification/ReportProps.v ===== *)
(** * Properties of the evaluation of records *)
From Stdlib Require Import ZArith Lia ssreflect.
From stdpp Require Import strings pretty sorting.
From S2P Require Import Prelude Crates Sample Extension Connection Messages Report.
#[local] Open Scope string_scope.
#[local] Open Scope list_scope.
#[local] Open Scope Z_scope.
#[local] Open Scope general_if_scope.

(** ** What is written and logged, as expressions *)
Section expected.
Context `{TC : TcpCommon} `{PF : Profile} `{RC : !RecordCrate} `{RP : !ReportCrate}.
Context (pipeline_display : PipelineId → string).

Definition server_text (e : Extension) : string :=
  "(Server, " +:+ debug_vec (state_debug <$> shown e) +:+ ", " +:+
  cause_debug (release_cause e) +:+ ", " +:+
  debug_vec (debug_str <$> (separated_string <$> take (Z.to_nat (s_state_count e)) (s_stamps e))) +:+ ")".

Definition row_lines (i : Z) (x : ConRecord * Extension) : list string :=
  [format_6 i +:+ ": " +:+ cr_display x.1 +:+ newline; "        " +:+ server_text x.2 +:+ newline].
Fixpoint rows_lines (i : Z) (rows : list (ConRecord * Extension)) : list string :=
  match rows with [] => [] | x :: rows => row_lines i x ++ rows_lines (i + 1) rows end.

Definition by_port (s : ProxyRecStore) : ProxyRecStore :=
  store_sort_0_by (λ a b, (cr_sock a).2 ?= (cr_sock b).2) s.
Definition sorted_if_any (s : ProxyRecStore) : ProxyRecStore :=
  if 0 <? store_len s then by_port s else s.
Definition pipeline_lines (x : PipelineId * ProxyRecStore) : list string :=
  ("Pipeline " +:+ pipeline_display x.1 +:+ ":" +:+ newline) :: rows_lines 0 (store_iter (sorted_if_any x.2)).

(** Completed: closed by FINs, and gone through to the end *)
Definition completed_c (c : ConRecord) : Prop :=
  (cr_release_cause c = PassiveClose ∨ cr_release_cause c = ActiveClose) ∧ cr_last_state c = Closed.
Definition completed_s (e : Extension) : Prop :=
  (release_cause e = PassiveClose ∨ release_cause e = ActiveClose) ∧ last_state e = Ok Closed.
#[global] Instance completed_c_dec c : Decision (completed_c c).
Proof. apply _. Defined.
#[global] Instance res_state_eq_dec : EqDecision (res TcpState).
Proof. solve_decision. Defined.
#[global] Instance completed_s_dec e : Decision (completed_s e).
Proof. apply _. Defined.

(** The span of a pipeline: from the first stamp of its records to the last *)
Definition first_stamp (l : list ConRecord) : Z := foldr (λ c m, Z.min (first_or_max c) m) (2 ^ 64 - 1) l.
Definition last_stamp (l : list ConRecord) : Z := foldr (λ c m, Z.max (last_or_0 c) m) 0 l.
Definition stamped (c : ConRecord) : bool := bool_decide (is_Some (cr_get_first_stamp c)).
Definition summary (s : ProxyRecStore) : list Info :=
  let l := store_iter_0 s in
  if existsb stamped l
  then [TotalUsedCycles (last_stamp l - first_stamp l) ((last_stamp l - first_stamp l) / store_len s)]
  else [].

(** A record as the proxy leaves it: it has a state, and a first stamp before a
    last one or none *)
Record record_ok (c : ConRecord) : Prop := {
  ro_states : cr_states c ≠ [];
  ro_stamps v : cr_get_first_stamp c = Some v →
    v < 2 ^ 64 - 1 ∧ ∃ u, cr_get_last_stamp c = Some u ∧ v ≤ u ∧ 0 < u;
}.
Definition store_ok (s : ProxyRecStore) : Prop :=
  Forall record_ok (store_iter_0 s) ∧ Forall ext_wf (store_iter_1 s).
End expected.

Section lemmas.
Context `{TC : TcpCommon} `{PF : Profile} `{RC : !RecordCrate} `{RP : !ReportCrate} `{RPL : !ReportLaws}.
Context (pipeline_display : PipelineId → string) (files : Files).

Lemma ext_display_eq e : ext_wf e → ext_display e = Ok (server_text e).
Proof.
  intros Hw. rw /ext_display states_eq; [done|]. destruct Hw as [Hs Ht Hc].
  rw /server_text /mbind /res_bind /deltas_to_base_stamp Hs.
  destruct (Z.leb_spec 1 (s_state_count e)).
  - by destruct (Z.leb_spec (s_state_count e) (Z.of_nat 7)); [|lia].
  - by replace (s_state_count e) with 0 by lia.
Qed.

(** *** Counting *)
Lemma closed_by_fin_spec c : closed_by_fin c = true ↔ c = PassiveClose ∨ c = ActiveClose.
Proof. rw /closed_by_fin. by rw orb_true_iff !bool_decide_eq_true. Qed.

Lemma count_completed_c_eq l : ∀ n,
  0 ≤ n → n + Z.of_nat (length l) < 2 ^ 31 →
  count_completed_c l n = Ok (n + Z.of_nat (length (filter completed_c l))).
Proof.
  induction l as [|c l IH]; intros n Hn Hlen; [by rw Z.add_0_r|]. cbn [count_completed_c length] in *.
  destruct (closed_by_fin (cr_release_cause c) && bool_decide (cr_last_state c = Closed)) eqn:Hb.
  - apply andb_prop in Hb as [H1%closed_by_fin_spec H2%bool_decide_eq_true].
    rw filter_cons_True; [done|]. rw arith_i32_ok; [lia|]. cbn [mbind res_bind length]. rw IH; [lia..|]. f_equal. lia.
  - rw filter_cons_False; [|cbn [mbind res_bind]; apply IH; lia].
    intros [H1%closed_by_fin_spec H2]. by rw H1 (bool_decide_true _ H2) in Hb.
Qed.

Lemma count_completed_s_eq l : ∀ n,
  Forall ext_wf l → 0 ≤ n → n + Z.of_nat (length l) < 2 ^ 31 →
  count_completed_s l n = Ok (n + Z.of_nat (length (filter completed_s l))).
Proof.
  induction l as [|e l IH]; intros n Hw Hn Hlen; [by rw Z.add_0_r|]. cbn [count_completed_s length] in *.
  inversion_clear Hw as [|? ? He Hl].
  assert ((if closed_by_fin (release_cause e) then last ← last_state e; Ok (bool_decide (last = Closed)) else Ok false)
    = Ok (bool_decide (completed_s e))) as ->.
  { destruct (last_state e) as [ls|] eqn:Hls; [|by rw last_state_shown in Hls]. destruct (closed_by_fin (release_cause e)) eqn:Hc.
    - apply closed_by_fin_spec in Hc. cbn [mbind res_bind]. f_equal. apply bool_decide_ext.
      rw /completed_s Hls. split; [by intros -> |by intros [_ [= ->]]].
    - rw bool_decide_false; [|done]. intros [H%closed_by_fin_spec _]. by rw H in Hc. }
  cbn [mbind res_bind]. case_bool_decide as Hb; cbn [mbind res_bind].
  - rw filter_cons_True; [done|]. rw arith_i32_ok; [lia|]. cbn [mbind res_bind length]. rw IH; [done|lia..|]. f_equal. lia.
  - rw filter_cons_False; [done|]. apply IH; [done|lia..].
Qed.

Definition all_c (l : list (PipelineId * ProxyRecStore)) : list ConRecord := l ≫= λ x, store_iter_0 x.2.
Definition all_s (l : list (PipelineId * ProxyRecStore)) : list Extension := l ≫= λ x, store_iter_1 x.2.

Lemma iter_lengths (s : ProxyRecStore) : length (store_iter_0 s) = length (store_iter_1 s).
Proof. by rw -store_iter_fst -store_iter_snd !length_fmap. Qed.

Lemma count_completed_eq l : ∀ c s,
  Forall (λ x, store_ok x.2) l → 0 ≤ c → 0 ≤ s →
  c + Z.of_nat (length (all_c l)) < 2 ^ 31 → s + Z.of_nat (length (all_c l)) < 2 ^ 31 →
  count_completed l c s = Ok (c + Z.of_nat (length (filter completed_c (all_c l))),
                              s + Z.of_nat (length (filter completed_s (all_s l)))).
Proof.
  induction l as [|[p st] l IH]; intros c s Hok Hc Hs Hlc Hls; [by rw !Z.add_0_r|].
  inversion_clear Hok as [|? ? [Hr He] Hl]. cbn [snd] in Hr, He.
  change (all_c ((p, st) :: l)) with (store_iter_0 st ++ all_c l) in *.
  change (all_s ((p, st) :: l)) with (store_iter_1 st ++ all_s l).
  rw length_app in Hlc Hls. pose proof (iter_lengths st).
  pose proof (length_filter completed_c (store_iter_0 st)).
  pose proof (length_filter completed_s (store_iter_1 st)).
  cbn [count_completed]. rw count_completed_c_eq; [lia..|]. cbn [mbind res_bind].
  rw count_completed_s_eq; [done|lia..|]. cbn [mbind res_bind].
  rw IH; [done|lia..|]. rw !filter_app !length_app. f_equal. f_equal; lia.
Qed.

(** *** The loop over the records of a pipeline *)
Definition min_of (l : list ConRecord) (m : ConRecord) : ConRecord :=
  foldl (λ m c, if first_or_max c <? first_or_max m then c else m) m l.
Definition max_of (l : list ConRecord) (m : ConRecord) : ConRecord :=
  foldl (λ m c, if last_or_0 m <? last_or_0 c then c else m) m l.

Lemma min_of_spec l : ∀ m,
  min_of l m ∈ m :: l ∧ ∀ c, c ∈ m :: l → first_or_max (min_of l m) ≤ first_or_max c.
Proof.
  induction l as [|d l IH]; intros m.
  { split; [left|]. by intros c ->%list_elem_of_singleton. }
  change (min_of (d :: l) m) with (min_of l (if first_or_max d <? first_or_max m then d else m)).
  destruct (IH (if first_or_max d <? first_or_max m then d else m)) as [Hin Hle].
  split.
  - move: Hin. case_match; rw !elem_of_cons; tauto.
  - pose proof (Hle _ (list_elem_of_here _ _)) as H0. intros c. rw !elem_of_cons.
    intros [-> |[-> |Hc]]; [..|apply Hle; by right].
    all: revert H0; destruct (Z.ltb_spec (first_or_max d) (first_or_max m)); lia.
Qed.

Lemma max_of_spec l : ∀ m,
  max_of l m ∈ m :: l ∧ ∀ c, c ∈ m :: l → last_or_0 c ≤ last_or_0 (max_of l m).
Proof.
  induction l as [|d l IH]; intros m.
  { split; [left|]. by intros c ->%list_elem_of_singleton. }
  change (max_of (d :: l) m) with (max_of l (if last_or_0 m <? last_or_0 d then d else m)).
  destruct (IH (if last_or_0 m <? last_or_0 d then d else m)) as [Hin Hle].
  split.
  - move: Hin. case_match; rw !elem_of_cons; tauto.
  - pose proof (Hle _ (list_elem_of_here _ _)) as H0. intros c. rw !elem_of_cons.
    intros [-> |[-> |Hc]]; [..|apply Hle; by right].
    all: revert H0; destruct (Z.ltb_spec (last_or_0 m) (last_or_0 d)); lia.
Qed.

(** The line at the last record *)
Definition sum_line (len : Z) (min max : ConRecord) : list Info :=
  match cr_get_first_stamp min, cr_get_last_stamp max with
  | Some a, Some b => [TotalUsedCycles (b - a) ((b - a) / len)]
  | _, _ => []
  end.
Definition in_order (min max : ConRecord) : Prop :=
  ∀ a b, cr_get_first_stamp min = Some a → cr_get_last_stamp max = Some b → a ≤ b.

Lemma wp_sum_up len i min max o (Q : unit → Out → Prop) :
  0 ≤ i < len → len < 2 ^ 31 → (i = len - 1 → in_order min max) →
  Q tt (o <| o_log := o_log o ++ if i =? len - 1 then sum_line len min max else [] |>) →
  wp (sum_up len i min max) no_panic Q o.
Proof.
  intros Hi Hlen Hord HQ. assert (o = o <| o_log := o_log o ++ [] |>) as Ho by (destruct o; cbn; by rw app_nil_r).
  apply wp_bind, wp_lift. rw arith_ok; [lia|]. cbn [wpr].
  rw /sum_line in HQ.
  destruct (cr_get_first_stamp min) as [a|] eqn:Ha; [destruct (cr_get_last_stamp max) as [b|] eqn:Hb|].
  2-3: apply wp_ret; rw Ho; by destruct (i =? len - 1).
  apply wp_when; intros Hl; rw Hl in HQ; [|by rw Ho].
  apply Z.eqb_eq in Hl. pose proof (Hord Hl a b Ha Hb).
  pose proof (cr_stamp_range min a (or_introl Ha)). pose proof (cr_stamp_range max b (or_intror Hb)).
  apply wp_bind, wp_lift. rw arith_ok; [lia|]. cbn [wpr].
  apply wp_bind, wp_lift. rw arith_ok; [lia|]. cbn [wpr].
  apply wp_bind, wp_lift. destruct (Z.eqb_spec (i + 1) 0); [lia|]. cbn [wpr].
  apply wp_modify. by replace (i + 1) with len by lia.
Qed.

Context (Hwrite : ∀ n, file_write files n = true).

Lemma wp_write_all line o (Q : unit → Out → Prop) :
  Q tt (o <| o_file := o_file o ++ [line] |>) → wp (write_all files line) no_panic Q o.
Proof. intros HQ. apply wp_bind, wp_gets, wp_bind, wp_lift. by rw Hwrite. Qed.

Lemma wp_write_rows len rows : ∀ i n min max o (Q : unit → Out → Prop),
  0 ≤ i → i + Z.of_nat (length rows) = len → len < 2 ^ 31 → 0 ≤ n ≤ i →
  Forall (λ x, cr_states x.1 ≠ []) rows → Forall (λ x, ext_wf x.2) rows →
  in_order (min_of rows.*1 min) (max_of rows.*1 max) →
  Q tt {| o_file := o_file o ++ rows_lines i rows;
          o_log := o_log o ++ if decide (rows = []) then []
                              else sum_line len (min_of rows.*1 min) (max_of rows.*1 max) |} →
  wp (write_rows files len i rows n min max) no_panic Q o.
Proof.
  induction rows as [|[c s] rows IH]; intros i n min max o Q Hi Hlen Hmax Hn Hst Hw Hord HQ.
  { apply wp_ret. destruct o. cbn in HQ. by rw !app_nil_r in HQ. }
  inversion_clear Hst as [|? ? Hc Hst']. inversion_clear Hw as [|? ? Hs Hw']. cbn [fst snd length] in *.
  cbn [write_rows]. apply wp_bind, wp_write_all, wp_bind, wp_lift. rw ext_display_eq; [done|]. cbn [wpr].
  apply wp_bind, wp_write_all, wp_bind, wp_lift.
  destruct (last (cr_states c)) as [l|] eqn:Hl; [|by apply last_None in Hl].
  assert (∀ b : bool, wp (
    completed_count ← lift (if b then arith_i32 (n + 1) else Ok n);
    let min' := if first_or_max c <? first_or_max min then c else min in
    let max' := if last_or_0 max <? last_or_0 c then c else max in
    sum_up len i min' max';; write_rows files len (i + 1) rows completed_count min' max') no_panic Q
    (o <| o_file := (o_file o ++ [format_6 i +:+ ": " +:+ cr_display c +:+ newline])
            ++ ["        " +:+ server_text s +:+ newline] |>)) as Hrest.
  { intros b. apply wp_bind, wp_lift.
    assert (wpr (if b then arith_i32 (n + 1) else Ok n) no_panic (λ m, 0 ≤ m ≤ i + 1)) as Hcount.
    { destruct b; cbn; [|lia]. rw arith_i32_ok; [lia|]. cbn. lia. }
    eapply wpr_mono; [|exact Hcount]. intros m Hm. cbv beta in Hm. cbv zeta.
    apply wp_bind, wp_sum_up; [lia|done|..].
    - intros Hlast. destruct rows; [exact Hord|cbn in Hlen; lia].
    - apply IH; [lia..|done|done|exact Hord|].
      revert HQ. cbn -[sum_line]. rw -!app_assoc /=.
      destruct rows as [|x rows]; cbn -[sum_line].
      + cbn in Hlen. rw (proj2 (Z.eqb_eq i (len - 1))); [lia|]. by rw app_nil_r.
      + cbn in Hlen. rw (proj2 (Z.eqb_neq i (len - 1))); [lia|]. done. }
  destruct (closed_by_fin _); cbn [unwrap mbind res_bind wpr]; [exact (Hrest _)|exact (Hrest false)].
Qed.

(** *** The span of a pipeline *)
Lemma first_or_max_le c : first_or_max c ≤ 2 ^ 64 - 1.
Proof.
  rw /first_or_max. destruct (cr_get_first_stamp c) as [v|] eqn:Hv; cbn; [|lia].
  pose proof (cr_stamp_range c v (or_introl Hv)). lia.
Qed.

Lemma last_or_0_ge c : 0 ≤ last_or_0 c.
Proof.
  rw /last_or_0. destruct (cr_get_last_stamp c) as [v|] eqn:Hv; cbn; [|lia].
  pose proof (cr_stamp_range c v (or_intror Hv)). lia.
Qed.

Lemma first_stamp_eq l m : m ∈ l → (∀ c, c ∈ l → first_or_max m ≤ first_or_max c) → first_stamp l = first_or_max m.
Proof.
  intros Hm Hle.
  assert (∀ l', (∀ c, c ∈ l' → c ∈ l) → first_or_max m ≤ first_stamp l' ∧
    (m ∈ l' → first_stamp l' ≤ first_or_max m)) as H.
  { induction l' as [|c l' IH]; intros Hl.
    - split; [apply first_or_max_le|by intros []%not_elem_of_nil].
    - change (first_stamp (c :: l')) with (Z.min (first_or_max c) (first_stamp l')).
      destruct IH as [H1 H2]; [intros; apply Hl; by right|].
      pose proof (Hle c (Hl c (list_elem_of_here _ _))). split; [lia|].
      intros [-> |Hc]%elem_of_cons; [lia|]. specialize (H2 Hc). lia. }
  destruct (H l (λ _ h, h)) as [H1 H2]. specialize (H2 Hm). lia.
Qed.

Lemma last_stamp_eq l m : m ∈ l → (∀ c, c ∈ l → last_or_0 c ≤ last_or_0 m) → last_stamp l = last_or_0 m.
Proof.
  intros Hm Hle.
  assert (∀ l', (∀ c, c ∈ l' → c ∈ l) → last_stamp l' ≤ last_or_0 m ∧
    (m ∈ l' → last_or_0 m ≤ last_stamp l')) as H.
  { induction l' as [|c l' IH]; intros Hl.
    - split; [apply last_or_0_ge|by intros []%not_elem_of_nil].
    - change (last_stamp (c :: l')) with (Z.max (last_or_0 c) (last_stamp l')).
      destruct IH as [H1 H2]; [intros; apply Hl; by right|].
      pose proof (Hle c (Hl c (list_elem_of_here _ _))). split; [lia|].
      intros [-> |Hc]%elem_of_cons; [lia|]. specialize (H2 Hc). lia. }
  destruct (H l (λ _ h, h)) as [H1 H2]. specialize (H2 Hm). lia.
Qed.

Section extremes.
Context (l : list ConRecord) (rmin rmax : ConRecord) (Hok : Forall record_ok l)
  (Hmin : rmin ∈ l) (Hmax : rmax ∈ l)
  (Hle : ∀ c, c ∈ l → first_or_max rmin ≤ first_or_max c)
  (Hge : ∀ c, c ∈ l → last_or_0 c ≤ last_or_0 rmax).

Lemma extremes_in_order : in_order rmin rmax.
Proof.
  intros a b Ha Hb. destruct (ro_stamps _ (proj1 (Forall_forall _ _) Hok _ Hmin) a Ha) as (_ & u & Hu & ? & _).
  pose proof (Hge rmin Hmin) as Hlu. rw /last_or_0 Hu Hb /= in Hlu. lia.
Qed.

Lemma extremes_summary len :
  sum_line len rmin rmax =
    if existsb stamped l
    then [TotalUsedCycles (last_stamp l - first_stamp l) ((last_stamp l - first_stamp l) / len)] else [].
Proof.
  rw (first_stamp_eq l rmin Hmin Hle) (last_stamp_eq l rmax Hmax Hge).
  pose proof (proj1 (Forall_forall _ _) Hok) as Hall. rw /sum_line. destruct (existsb stamped l) eqn:Hs.
  - apply existsb_exists in Hs as (c & Hc & [v Hv]%bool_decide_eq_true). apply list_elem_of_In in Hc.
    destruct (ro_stamps _ (Hall c Hc) v Hv) as (Hv' & u & Hu & _ & Hpos).
    pose proof (Hle c Hc) as H1. pose proof (Hge c Hc) as H2.
    rw /first_or_max Hv /= in H1. rw /last_or_0 Hu /= in H2. rw /first_or_max /last_or_0.
    destruct (cr_get_first_stamp rmin) as [a|]; cbn in *; [|lia].
    by destruct (cr_get_last_stamp rmax) as [b|]; cbn in *; [|lia].
  - destruct (cr_get_first_stamp rmin) as [a|] eqn:Ha; [|done]. exfalso.
    assert (existsb stamped l = true) as H; [|by rw H in Hs].
    apply existsb_exists. exists rmin. split; [by apply list_elem_of_In|].
    apply bool_decide_eq_true. by exists a.
Qed.
End extremes.

(** *** One pipeline, and all of them *)
Lemma wp_write_pipeline x o (Q : ProxyRecStore → Out → Prop) :
  store_ok x.2 → Z.of_nat (length (store_iter_0 x.2)) < 2 ^ 31 →
  Q (sorted_if_any x.2) {| o_file := o_file o ++ pipeline_lines pipeline_display x;
                           o_log := o_log o ++ PipelineInfo x.1 :: summary x.2 |} →
  wp (write_pipeline pipeline_display files x.1 x.2) no_panic Q o.
Proof.
  destruct x as [p st]. cbn [fst snd]. intros [Hrec Hext] Hlen HQ.
  assert (store_len st = Z.of_nat (length (store_iter_0 st))) as Hl by by rw store_len_iter -store_iter_fst length_fmap.
  apply wp_bind, wp_modify, wp_bind, wp_write_all.
  revert HQ. rw /pipeline_lines /summary /sorted_if_any Hl. cbn [fst snd].
  destruct (Z.ltb_spec 0 (Z.of_nat (length (store_iter_0 st)))) as [Hpos|Hz]; intros HQ; cycle 1.
  { apply wp_ret. revert HQ.
    assert (store_iter_0 st = []) as He by (apply length_zero_iff_nil; lia).
    assert (store_iter st = []) as -> by (apply (fmap_nil_inv fst); by rw store_iter_fst). by rw He. }
  destruct (last (store_iter_0 st)) as [r0|] eqn:Hlast; cycle 1.
  { apply last_None in Hlast. by rw Hlast in Hpos. }
  assert (r0 ∈ store_iter_0 st) as Hr0 by (by apply last_Some_elem_of).
  rw /unwrap. apply wp_bind, wp_lift. cbn [wpr]. cbv zeta. fold (by_port st).
  assert (Permutation (store_iter_0 (by_port st)) (store_iter_0 st)) as Hperm by apply store_sort_perm.
  assert (∀ c, c ∈ r0 :: store_iter_0 (by_port st) ↔ c ∈ store_iter_0 st) as Hin.
  { intros c. rw elem_of_cons Hperm. split; [by intros [-> |]|by right]. }
  destruct (min_of_spec (store_iter_0 (by_port st)) r0) as [Hm1 Hm2].
  destruct (max_of_spec (store_iter_0 (by_port st)) r0) as [Hx1 Hx2].
  setoid_rewrite Hin in Hm1. setoid_rewrite Hin in Hm2. setoid_rewrite Hin in Hx1. setoid_rewrite Hin in Hx2.
  assert (Z.of_nat (length (store_iter (by_port st))) = Z.of_nat (length (store_iter_0 st))) as Hlen'.
  { by rw -(length_fmap fst) store_iter_fst Hperm. }
  apply wp_bind, wp_write_rows; [lia| |rw store_len_iter; lia|lia|..].
  - by rw store_len_iter Z.add_0_l.
  - apply (Forall_fmap fst (λ c, cr_states c ≠ [])). rw store_iter_fst Hperm.
    eapply Forall_impl; [exact Hrec|]. by intros c [].
  - apply (Forall_fmap snd ext_wf). rw store_iter_snd. by rw (store_sort_perm_1 _ st).
  - rw store_iter_fst. by eapply extremes_in_order.
  - apply wp_ret. revert HQ. rw store_iter_fst -(extremes_summary (store_iter_0 st) _ _ Hrec Hm1 Hx1 Hm2 Hx2).
    rw decide_False; [intros He; rw He in Hlen'; cbn in Hlen'; lia|].
    rw store_len_iter Hlen'. cbn -[sum_line]. by rw -!app_assoc.
Qed.

Lemma wp_write_pipelines l : ∀ o (Q : list (PipelineId * ProxyRecStore) → Out → Prop),
  Forall (λ x, store_ok x.2) l → Z.of_nat (length (all_c l)) < 2 ^ 31 →
  Q ((λ x, (x.1, sorted_if_any x.2)) <$> l)
    {| o_file := o_file o ++ (l ≫= pipeline_lines pipeline_display);
       o_log := o_log o ++ (l ≫= λ x, PipelineInfo x.1 :: summary x.2) |} →
  wp (write_pipelines pipeline_display files l) no_panic Q o.
Proof.
  induction l as [|[p st] l IH]; intros o Q Hok Hlen HQ.
  { apply wp_ret. destruct o. by rw /= !app_nil_r in HQ. }
  inversion_clear Hok as [|? ? Hst Hl].
  change (all_c ((p, st) :: l)) with (store_iter_0 st ++ all_c l) in Hlen. rw length_app in Hlen.
  cbn [write_pipelines]. apply wp_bind, (wp_write_pipeline (p, st)); [done|cbn; lia|].
  apply wp_bind, IH; [done|lia|]. apply wp_ret. by rw /= -!app_assoc in HQ |- *.
Qed.
End lemmas.

Section report_properties.
Context `{TC : TcpCommon} `{PF : Profile} `{RC : !RecordCrate} `{RP : !ReportCrate} `{RPL : !ReportLaws}.
Context (pipeline_display : PipelineId → string) (files : Files).

(** The file can be created, written and flushed. *)
Record files_ok : Prop := {
  fi_create : file_create files = true;
  fi_write n : file_write files n = true;
  fi_flush : file_flush files = true;
}.

(** What is written and logged *)
Lemma wp_write_and_evaluate l o (Q : list (PipelineId * ProxyRecStore) → Out → Prop) :
  files_ok → Forall (λ x, store_ok x.2) l → Z.of_nat (length (all_c l)) < 2 ^ 31 →
  (∀ o', o_file o' = o_file o ++ (l ≫= pipeline_lines pipeline_display) →
    o_log o' = o_log o ++
      CompletedConnections (Z.of_nat (length (filter completed_c (all_c l))))
                           (Z.of_nat (length (filter completed_s (all_s l)))) ::
      (l ≫= λ x, PipelineInfo x.1 :: summary x.2) →
    Q ((λ x, (x.1, sorted_if_any x.2)) <$> l) o') →
  wp (write_and_evaluate_records pipeline_display files l) no_panic Q o.
Proof.
  intros [Hc Hw Hf] Hok Hlen HQ. apply wp_bind, wp_lift. rw count_completed_eq; [done|lia..|]. cbn [wpr].
  apply wp_bind, wp_modify, wp_bind, wp_lift. rw Hc. cbn [wpr].
  apply wp_bind, wp_write_pipelines; [done..|]. apply wp_bind, wp_lift. rw Hf. cbn [wpr].
  apply wp_ret, HQ; [done|]. cbn. by rw -app_assoc.
Qed.

(** C13. The evaluation of the records is total and writes what it should: with a
    file that can be written, records as the proxy leaves them ([store_ok]) and
    fewer than 2^31 of them, no counter overflows, no subtraction of stamps
    wraps and no [unwrap] fails. The file has one section per pipeline, with the
    two lines of every record in ascending order of the client's port; the log
    has the exact numbers of completed connections of both sides and, for each
    pipeline with a stamped record, the cycles from the first stamp of all its
    records to the last, and that span divided by the number of records. *)
Theorem report_evaluates l o :
  files_ok → Forall (λ x, store_ok x.2) l → Z.of_nat (length (all_c l)) < 2 ^ 31 →
  wp (write_and_evaluate_records pipeline_display files l) no_panic (λ l' o',
    l' = (λ x, (x.1, sorted_if_any x.2)) <$> l ∧
    o_file o' = o_file o ++ (l ≫= pipeline_lines pipeline_display) ∧
    o_log o' = o_log o ++
      CompletedConnections (Z.of_nat (length (filter completed_c (all_c l))))
                           (Z.of_nat (length (filter completed_s (all_s l)))) ::
      (l ≫= λ x, PipelineInfo x.1 :: summary x.2) ∧
    ∀ x, x ∈ l → Sorted (λ a b, (cr_sock a).2 ≤ (cr_sock b).2) (store_iter_0 (by_port x.2))) o.
Proof.
  intros Hf Hok Hlen. apply wp_write_and_evaluate; [done..|]. intros o' Hfile Hlog.
  split_and!; [done..|]. intros x _. apply (store_sort_key (λ c, (cr_sock c).2)).
Qed.
End report_properties.

(** ** Witness *)
Import Sample.

Definition ext0 : Extension := mkExtension [5; 6; 0; 0; 0; 0; 0] [3; 9; 0; 0; 0; 0; 0] 2 2.
Definition records0 : ProxyRecStore := RStore 10 storable_new
  [(ConRec 7000 [sClosed; sEstablished; sClosed] cPassiveClose, ext0);
   (ConRec 5000 [sClosed; sEstablished] cUnknown, storable_new)].
Definition files0 : Files := mkFiles true (λ _, true) true.

Lemma records0_ok : store_ok records0.
Proof.
  split; [|by repeat constructor]. constructor; [|constructor; [|constructor]].
  all: split; [done|]; intros v [= <-]; split; [by vm_compute|eexists; split; [done|by vm_compute]].
Qed.

Lemma report_evaluates_witness :
  wp (write_and_evaluate_records (λ _, "p") files0 [(mkPipelineId 1 0 0, records0)]) no_panic
    (λ _ o', o_log o' = [CompletedConnections 1 1; PipelineInfo (mkPipelineId 1 0 0); TotalUsedCycles 2003 1001] ∧
       length (o_file o') = 5%nat) (mkOut [] []).
Proof.
  eapply wp_mono; [|apply (report_evaluates (λ _, "p") files0 [(mkPipelineId 1 0 0, records0)] (mkOut [] []))].
  - intros l' o' (_ & Hf & Hl & _). rw Hf Hl. split; by vm_compute.
  - by split.
  - constructor; [exact records0_ok|constructor].
  - by vm_compute.
Defined.
