(* ===== verification/Main.v ===== *)
(** * The main program (bin.rs 118-290)

    [main] reads the configuration, installs the pipelines, waits until the
    running flag drops, asks the pipelines for their counters and records,
    collects the replies and writes the report. Its environment (run time,
    operating system, the replies that arrive) is a record of arguments; what it
    does, in order, is a list of actions, the lines it prints and logs included
    (those of [debug!] and of the signal handler are not). *)
From Stdlib Require Import ZArith Lia.
From stdpp Require Import strings.
From S2P Require Import Prelude Crates Extension Connection Messages CManager Proxy Handler Setup.
From S2P Require Import Report.
#[local] Open Scope string_scope.
#[local] Open Scope list_scope.
#[local] Open Scope Z_scope.

Section main.
Context `{TC : TcpCommon} `{PF : Profile} `{RC : !RecordCrate} `{HC : HeaderCrate}
  `{PC : !PacketCrate} `{CL : Clock} `{WC : WheelCrate} `{DC : !PortCrate} `{RP : !ReportCrate}.

(** ** What main does *)
Inductive Action : Type :=
| InstallPipelines (on_core : Z → gmap string PmdPort → M Install unit)
| StartRunTime
| Send (m : MessageFrom)
| Sleep (ms : Z)
| LogMbufs                                      (* info! with the number of free buffers *)
| LogInfo (s : string)
| LogError (s : string)
| PrintLine (s : string)
| PrintTcpCounters (id : PipelineId) (c s : TcpCounter)
| Report (o : Out)
| ExitProcess (code : Z).

Definition act (a : Action) : M (list Action) unit := modify (λ l, l ++ [a]).

(** ** Collecting the replies (bin.rs 255-281) *)

(** [reply_mrx.recv_timeout(..)] *)
Inductive Received : Type :=
| RecvOk (m : MessageTo)
| RecvTimeout
| RecvDisconnected.

Record Collected : Type := mkCollected {
  tcp_counters_c : gmap PipelineId TcpCounter;
  tcp_counters_s : gmap PipelineId TcpCounter;
  con_records : gmap PipelineId ProxyRecStore;
}.
#[global] Instance eta_Collected : Eta Collected := λ r,
  mkCollected (tcp_counters_c r) (tcp_counters_s r) (con_records r).

(** One reply of the loop *)
Definition collect (m : MessageTo) (s : Collected) : M (list Action) Collected :=
  match m with
  | CounterTo pipeline_id c_c c_s =>
      act (PrintTcpCounters pipeline_id c_c c_s);;
      mret (s <| tcp_counters_c := <[pipeline_id := c_c]> (tcp_counters_c s) |>
              <| tcp_counters_s := <[pipeline_id := c_s]> (tcp_counters_s s) |>)
  | CRecordsTo pipeline_id (Some recv_con_records) =>
      mret (s <| con_records := <[pipeline_id := recv_con_records]> (con_records s) |>)
  | _ =>
      act (LogError "illegal MessageTo received from reply_to_main channel");;
      mret s
  end.

(** The loop, on the results that [recv_timeout] will have; [None] if it is
    still going on after them. The error logged is the [Display] of
    [RecvTimeoutError::Disconnected]. *)
Fixpoint reply_loop (received : list Received) (s : Collected) : M (list Action) (option Collected) :=
  match received with
  | [] => mret None
  | RecvOk m :: rest => s ← collect m s; reply_loop rest s
  | RecvTimeout :: _ => mret (Some s)
  | RecvDisconnected :: _ =>
      act (LogError ("error receiving from reply_to_main channel (reply_mrx): " +:+
                     "channel is empty and sending half is closed"));;
      mret (Some s)
  end.

(** ** main *)
Record MainEnv : Type := mkMainEnv {
  run_configuration : option RunConfiguration;  (* of RunTime::init() *)
  setup_flowdirector : bool;
  set_handler : bool;
  get_mac_from_ifname : list Z → option MacAddress;
  deserialize_cdata : list Z → option (Z * Z);
  start_schedulers : bool;
  install_pipelines : bool;
  active_cores : option (list Z);               (* of its context *)
  get_main_channel : bool;
  main_receiver : bool;                         (* the receiver of mtx is alive *)
  running : nat → bool;                         (* the n-th load of the flag *)
  replies : list Received;
  files : Files;
  pipeline_display : PipelineId → string;
  hash_order : gmap PipelineId ProxyRecStore → list (PipelineId * ProxyRecStore);
  shuffle_ports : Z → Z → list Z;
  tick_length : Z → Z;
}.

Context (env : MainEnv).

Definition expect (b : bool) : M (list Action) unit := lift (if b then Ok tt else Panic UnwrapNone).
(** [mtx.send(..).unwrap()] *)
Definition mtx_send (m : MessageFrom) : M (list Action) unit :=
  expect (main_receiver env);; act (Send m).

(** bin.rs 236-244; [n] loads of the flag have been made. *)
Fixpoint run_loop (fuel : nat) (n : nat) (loops : Z) : M (list Action) (option unit) :=
  match fuel with
  | O => mret None
  | S fuel =>
      if running env n then
        when (loops =? 300) (act LogMbufs);;
        let loops := if loops =? 300 then 0 else loops in
        act (Sleep 200);;
        loops ← lift (arith 64 (loops + 1));
        run_loop fuel (S n) loops
      else mret (Some tt)
  end.

(** bin.rs 283-285 *)
Definition report_records (detailed : bool) (recs : gmap PipelineId ProxyRecStore) : M (list Action) unit :=
  if detailed then
    '(_, o) ← lift (write_and_evaluate_records (pipeline_display env) (files env)
                      (hash_order env recs) (mkOut [] []));
    act (Report o)
  else mret tt.

(** bin.rs 199-210: what the run time calls on each core *)
Definition on_core (cfg : RunConfiguration) (l234data : list L234Data) (core : Z)
    (pmd_ports : gmap string PmdPort) : M Install unit :=
  setup_pipes_delayed_proxy (shuffle_ports env) (tick_length env) core pmd_ports cfg l234data
    (f_by_payload (deserialize_cdata env) l234data) main_process_payload_c_s.

(** bin.rs 189-216 *)
Definition install (cfg : RunConfiguration) (l234data : list L234Data) : M (list Action) unit :=
  let mode := default Delayed (ec_mode (engine (engine_configuration cfg))) in
  if bool_decide (mode = Delayed) then
    act (InstallPipelines (on_core cfg l234data));; expect (install_pipelines env)
  else act (LogError "simple proxy still not implemented").

(** The results of the loops are [None] while they go on. *)
Definition main (fuel : nat) : M (list Action) (option unit) :=
  cfg ← lift (match run_configuration env with Some cfg => Ok cfg | None => Panic PanicCall end);
  act (LogInfo "Starting ProxyEngine ..");;
  expect (setup_flowdirector env);;
  let configuration := engine_configuration cfg in
  expect (set_handler env);;
  l234data ← lift (servers_of (get_mac_from_ifname env) (targets configuration));
  expect (start_schedulers env);;
  install cfg l234data;;
  cores ← lift (unwrap (active_cores env));
  act StartRunTime;;
  expect (get_main_channel env);;
  mtx_send StartEngine;;
  act (Sleep 2000);;
  act (PrintLine "press ctrl-c to terminate proxy ...");;
  stopped ← run_loop fuel 0 300;
  match stopped with
  | None => mret None
  | Some _ =>
      act (PrintLine (newline +:+ "Task Performance Data:" +:+ newline));;
      mtx_send (PrintPerformance cores);;
      act (Sleep 1000);;
      mtx_send FetchCounterFrom;;
      let detailed := default false (ec_detailed_records (engine configuration)) in
      when detailed (mtx_send FetchCRecordsFrom);;
      collected ← reply_loop (replies env) (mkCollected ∅ ∅ ∅);
      match collected with
      | None => mret None
      | Some s =>
          report_records detailed (con_records s);;
          mtx_send Exit;;
          act (Sleep 200);;
          act (LogInfo "terminating ProxyEngine ...");;
          act (ExitProcess 0);;
          mret (Some tt)
      end
  end.
End main.
