(* ===== verification/MainProps.v ===== *)
(** * Properties of the main program *)
From Stdlib Require Import ZArith Lia ssreflect.
From stdpp Require Import strings.
From S2P Require Import Prelude Crates Sample Extension Connection Messages CManager ManagerInv.
From S2P Require Import NatTable Manager SampleManager Proxy Packets Translate Steady Handler.
From S2P Require Import Setup StateMachine Reach Counters Pipeline SampleEngine Wiring SetupProps.
From S2P Require Import Report ReportProps Main.
#[local] Open Scope string_scope.
#[local] Open Scope list_scope.
#[local] Open Scope Z_scope.
#[local] Open Scope general_if_scope.

Section replies.
Context `{TC : TcpCommon} `{PF : Profile} `{RC : !RecordCrate} `{HC : HeaderCrate}
  `{PC : !PacketCrate} `{CL : Clock} `{WC : WheelCrate} `{DC : !PortCrate} `{RP : !ReportCrate}.

(** What a reply says of a pipeline *)
Definition counter_c_of (id : PipelineId) (m : MessageTo) : option TcpCounter :=
  match m with CounterTo i c _ => if decide (i = id) then Some c else None | _ => None end.
Definition counter_s_of (id : PipelineId) (m : MessageTo) : option TcpCounter :=
  match m with CounterTo i _ s => if decide (i = id) then Some s else None | _ => None end.
Definition records_of (id : PipelineId) (m : MessageTo) : option ProxyRecStore :=
  match m with CRecordsTo i r => if decide (i = id) then r else None | _ => None end.

Definition nothing_collected : Collected := mkCollected ∅ ∅ ∅.

(** What the loop prints and logs for a reply, and at its end *)
Definition reply_actions (m : MessageTo) : list Action :=
  match m with
  | CounterTo id c s => [PrintTcpCounters id c s]
  | CRecordsTo _ (Some _) => []
  | _ => [LogError "illegal MessageTo received from reply_to_main channel"]
  end.
Definition end_actions (e : Received) : list Action :=
  if e is RecvDisconnected then
    [LogError ("error receiving from reply_to_main channel (reply_mrx): " +:+
               "channel is empty and sending half is closed")]
  else [].

(** The maps hold the latest of every pipeline. *)
Definition latest (ms : list MessageTo) (s : Collected) : Prop := ∀ id,
  tcp_counters_c s !! id = last (omap (counter_c_of id) ms) ∧
  tcp_counters_s s !! id = last (omap (counter_s_of id) ms) ∧
  con_records s !! id = last (omap (records_of id) ms).

Definition ends (r : Received) : Prop := ∀ m, r ≠ RecvOk m.

Lemma wp_collect E ms m s l (Q : Collected → list Action → Prop) :
  latest ms s → (∀ s', latest (ms ++ [m]) s' → Q s' (l ++ reply_actions m)) →
  wp (collect m s) E Q l.
Proof.
  intros Hs HQ.
  destruct m as [| |i c c'|i [rs|]|]; cbn [collect reply_actions] in *;
    first [apply wp_bind, wp_modify, wp_ret, HQ|rw app_nil_r in HQ; apply wp_ret, HQ].
  all: intros id; destruct (Hs id) as (H1 & H2 & H3); rw !omap_app; cbn; rw ?app_nil_r ?lookup_insert.
  all: repeat case_decide; cbn; rw ?app_nil_r ?last_snoc; by split_and!.
Qed.

Lemma wp_reply_loop E e rest : ends e → ∀ more ms s l (Q : option Collected → list Action → Prop),
  latest ms s →
  (∀ s', latest (ms ++ more) s' → Q (Some s') (l ++ (more ≫= reply_actions) ++ end_actions e)) →
  wp (reply_loop ((RecvOk <$> more) ++ e :: rest) s) E Q l.
Proof.
  intros He. induction more as [|m more IH]; intros ms s l Q Hs HQ.
  - rw app_nil_r in HQ. cbn. destruct e as [m| |]; [by destruct (He m)| |].
    + apply wp_ret. rw -(app_nil_r l). by apply HQ.
    + apply wp_bind, wp_modify, wp_ret. by apply HQ.
  - apply wp_bind, (wp_collect _ ms); [done|]. intros s' Hs'. apply (IH (ms ++ [m])); [done|].
    intros s2 H2. rw -!app_assoc in H2 |- *. rw (app_assoc (reply_actions m)). by apply HQ.
Qed.

(** C35. Collecting the replies terminates with the first time-out or disconnection,
    whatever arrives before and would arrive after. The maps then hold, for
    every pipeline, the counters of its latest [Counter] message and the records
    of its latest [CRecords] message that carries any; each [Counter] message has
    been printed, and each message that is neither, and a disconnection, logged
    as an error, in the order of arrival. Without a time-out or disconnection the
    loop goes on. *)
Theorem reply_loop_collects ms l :
  (∀ e rest, ends e →
    ∃ s, reply_loop ((RecvOk <$> ms) ++ e :: rest) nothing_collected l
         = Ok (Some s, l ++ (ms ≫= reply_actions) ++ end_actions e) ∧
      ∀ id, tcp_counters_c s !! id = last (omap (counter_c_of id) ms) ∧
            tcp_counters_s s !! id = last (omap (counter_s_of id) ms) ∧
            con_records s !! id = last (omap (records_of id) ms)) ∧
  ∃ l', reply_loop (RecvOk <$> ms) nothing_collected l = Ok (None, l').
Proof.
  split.
  - intros e rest He.
    assert (wp (reply_loop ((RecvOk <$> ms) ++ e :: rest) nothing_collected) no_panic (λ o l',
      ∃ s, o = Some s ∧ l' = l ++ (ms ≫= reply_actions) ++ end_actions e ∧ latest ms s) l) as Hwp.
    { apply (wp_reply_loop _ e rest He ms []); [done|]. intros s Hs. by exists s. }
    apply wp_total in Hwp as (o & l' & Hrun & s & -> & -> & Hs). by exists s.
  - enough (wp (reply_loop (RecvOk <$> ms) nothing_collected) no_panic (λ o _, o = None) l) as Hwp
      by (apply wp_total in Hwp as (o & l' & Hrun & ->); by exists l').
    assert (latest [] nothing_collected) as H by done. revert H l. generalize nothing_collected, (@nil MessageTo).
    induction ms as [|m ms IH]; intros s ms' Hs l; [by apply wp_ret|].
    apply wp_bind, (wp_collect _ ms'); [done|]. intros s' Hs'. by apply (IH s' (ms' ++ [m])).
Qed.
End replies.

Section main_properties.
Context `{TC : TcpCommon} `{PF : Profile} `{RC : !RecordCrate} `{HC : HeaderCrate}
  `{PC : !PacketCrate} `{CL : Clock} `{WC : WheelCrate} `{DC : !PortCrate} `{RP : !ReportCrate}
  `{RPL : !ReportLaws}.
Context (env : MainEnv).

(** The run time and the operating system do what [main] expects of them. *)
Record env_ok (cfg : RunConfiguration) (cores : list Z) : Prop := {
  ev_cfg : run_configuration env = Some cfg;
  ev_flow : setup_flowdirector env = true;
  ev_handler : set_handler env = true;
  ev_schedulers : start_schedulers env = true;
  ev_install : install_pipelines env = true;
  ev_cores : active_cores env = Some cores;
  ev_channel : get_main_channel env = true;
  ev_receiver : main_receiver env = true;
  ev_files : files_ok (files env);
}.

Lemma wp_act E a l (Q : unit → list Action → Prop) : Q tt (l ++ [a]) → wp (act a) E Q l.
Proof. done. Qed.

Lemma wp_expect E b l (Q : unit → list Action → Prop) : b = true → Q tt l → wp (expect b) E Q l.
Proof. by intros ->. Qed.

Lemma wp_mtx_send E m l (Q : unit → list Action → Prop) :
  main_receiver env = true → Q tt (l ++ [Send m]) → wp (mtx_send env m) E Q l.
Proof. intros Hr HQ. apply wp_bind, wp_expect; [done|exact HQ]. Qed.

(** *** Waiting *)
(** What the n-th round of the loop does *)
Definition round (n : nat) : list Action :=
  (if Z.of_nat n mod 300 =? 0 then [LogMbufs] else []) ++ [Sleep 200].
(** The value of [loops] before it *)
Definition loops_at (n : nat) : Z := if decide (n = 0%nat) then 300 else (Z.of_nat n - 1) mod 300 + 1.

Lemma loops_at_next n :
  (if loops_at n =? 300 then 0 else loops_at n) + 1 = loops_at (S n) ∧
  (loops_at n =? 300) = (Z.of_nat n mod 300 =? 0) ∧ 0 ≤ loops_at n ≤ 300.
Proof.
  assert (loops_at (S n) = Z.of_nat n mod 300 + 1) as ->.
  { change (loops_at (S n)) with ((Z.of_nat (S n) - 1) mod 300 + 1).
    by replace (Z.of_nat (S n) - 1) with (Z.of_nat n) by lia. }
  rw /loops_at.
  destruct (decide (n = 0%nat)) as [->|Hn]; [by vm_compute|].
  pose proof (Z.mod_pos_bound (Z.of_nat n - 1) 300 eq_refl).
  pose proof (Z.mod_pos_bound (Z.of_nat n) 300 eq_refl).
  pose proof (Z.div_mod (Z.of_nat n - 1) 300 ltac:(lia)).
  pose proof (Z.div_mod (Z.of_nat n) 300 ltac:(lia)).
  destruct (Z.eqb_spec ((Z.of_nat n - 1) mod 300 + 1) 300), (Z.eqb_spec (Z.of_nat n mod 300) 0);
    split_and!; nia.
Qed.

Lemma wp_run_loop fuel : ∀ n k l (Q : option unit → list Action → Prop),
  (∀ j, (j < k)%nat → running env (n + j) = true) → running env (n + k) = false → (k < fuel)%nat →
  Q (Some tt) (l ++ (seq n k ≫= round)) → wp (run_loop env fuel n (loops_at n)) no_panic Q l.
Proof.
  induction fuel as [|fuel IH]; intros n k l Q Hrun Hstop Hk HQ; [lia|]. cbn [run_loop].
  destruct (loops_at_next n) as (Hnext & Hlog & Hrange).
  destruct k as [|k]; [rw Nat.add_0_r in Hstop; rw Hstop; apply wp_ret; by rw app_nil_r in HQ|].
  pose proof (Hrun 0%nat ltac:(lia)) as H0. rw Nat.add_0_r in H0. rw H0.
  assert (∀ l', l' = l ++ (if Z.of_nat n mod 300 =? 0 then [LogMbufs] else []) →
    wp (act (Sleep 200);; loops ← lift (arith 64 ((if loops_at n =? 300 then 0 else loops_at n) + 1));
        run_loop env fuel (S n) loops) no_panic Q l') as Hrest.
  { intros l' ->. apply wp_bind, wp_act, wp_bind, wp_lift. rw Hnext arith_ok; [|cbn [wpr]].
    { destruct (loops_at_next (S n)) as (_ & _ & ?). lia. }
    apply (IH (S n) k); [|by rw Nat.add_succ_l -Nat.add_succ_r|lia|].
    - intros j Hj. rw Nat.add_succ_l -Nat.add_succ_r. apply Hrun. lia.
    - move: HQ. cbn [seq mbind list_bind]. by rw /round -!app_assoc. }
  apply wp_bind, wp_when; intros Hl; rw Hlog in Hl.
  - apply wp_act, Hrest. by rw Hl.
  - apply Hrest. by rw Hl app_nil_r.
Qed.

(** *** main *)
(** The report that is written of the collected records *)
Definition report_of (recs : gmap PipelineId ProxyRecStore) (o : Out) : Prop :=
  let l := hash_order env recs in
  o_file o = (l ≫= pipeline_lines (pipeline_display env)) ∧
  o_log o = CompletedConnections (Z.of_nat (length (filter completed_c (all_c l))))
                                 (Z.of_nat (length (filter completed_s (all_s l)))) ::
            (l ≫= λ x, PipelineInfo x.1 :: summary x.2).

(** The records that were received *)
Record received_ok (ms : list MessageTo) : Prop := {
  rv_stores id r : CRecordsTo id (Some r) ∈ ms → store_ok r;
  rv_order m : hash_order env m ≡ₚ map_to_list m;
  rv_count s : latest ms s → Z.of_nat (length (all_c (hash_order env (con_records s)))) < 2 ^ 31;
}.

Lemma received_stores_ok ms s :
  received_ok ms → latest ms s → Forall (λ x, store_ok x.2) (hash_order env (con_records s)).
Proof.
  intros [Hst Hord _] Hs. apply Forall_forall. intros [id r] Hx. rw Hord in Hx.
  apply elem_of_map_to_list in Hx. destruct (Hs id) as (_ & _ & H3).
  rw H3 in Hx. apply last_Some_elem_of in Hx. apply list_elem_of_omap in Hx as (m & Hm & Hr).
  destruct m as [| | |i r'|]; cbn in Hr; try done. case_decide; [|done]. subst. by apply (Hst id).
Qed.

Lemma wp_report_records E (detailed : bool) ms s l (Q : unit → list Action → Prop) :
  files_ok (files env) → received_ok ms → latest ms s →
  (∀ acts, (if detailed then ∃ o, acts = [Report o] ∧ report_of (con_records s) o
            else acts = []) → Q tt (l ++ acts)) →
  wp (report_records env detailed (con_records s)) E Q l.
Proof.
  intros Hf Hr Hs HQ. rw /report_records. destruct detailed; [|apply wp_ret; rw -(app_nil_r l); by apply HQ].
  assert (wp (write_and_evaluate_records (pipeline_display env) (files env) (hash_order env (con_records s)))
    no_panic (λ _ o, report_of (con_records s) o) (mkOut [] [])) as Hrep.
  { apply wp_write_and_evaluate; [done|by eapply received_stores_ok|by apply (rv_count ms)|]. by split. }
  apply wp_total in Hrep as (l' & o & Hrun & Ho). apply wp_bind, wp_lift. rw Hrun. cbn [wpr].
  apply wp_act, HQ. by exists o.
Qed.

(** Whether [main] installs pipelines, and asks for records *)
Definition delayed (cfg : RunConfiguration) : bool :=
  bool_decide (default Delayed (ec_mode (engine (engine_configuration cfg))) = Delayed).
Definition detailed (cfg : RunConfiguration) : bool :=
  default false (ec_detailed_records (engine (engine_configuration cfg))).

(** What [main] does when the flag drops at the [n]-th load and the replies [ms]
    arrive before the end [e] *)
Definition main_trace (cfg : RunConfiguration) (cores : list Z) (n : nat) (l234data : list L234Data)
    (ms : list MessageTo) (e : Received) (reports : list Action) : list Action :=
  [LogInfo "Starting ProxyEngine ..";
   if delayed cfg then InstallPipelines (on_core env cfg l234data)
   else LogError "simple proxy still not implemented";
   StartRunTime; Send StartEngine; Sleep 2000; PrintLine "press ctrl-c to terminate proxy ..."] ++
  (seq 0 n ≫= round) ++
  [PrintLine (newline +:+ "Task Performance Data:" +:+ newline); Send (PrintPerformance cores);
   Sleep 1000; Send FetchCounterFrom] ++
  (if detailed cfg then [Send FetchCRecordsFrom] else []) ++
  (ms ≫= reply_actions) ++ end_actions e ++ reports ++
  [Send Exit; Sleep 200; LogInfo "terminating ProxyEngine ..."; ExitProcess 0].

Lemma wp_install E cfg srvs l (Q : unit → list Action → Prop) :
  install_pipelines env = true →
  Q tt (l ++ [if delayed cfg then InstallPipelines (on_core env cfg srvs)
              else LogError "simple proxy still not implemented"]) →
  wp (install env cfg srvs) E Q l.
Proof.
  intros Hi HQ. rw /install. fold (delayed cfg). destruct (delayed cfg); [|exact HQ].
  apply wp_bind, wp_act, wp_expect; [done|exact HQ].
Qed.

Lemma wp_ask E (b : bool) m l (Q : unit → list Action → Prop) :
  main_receiver env = true → Q tt (l ++ if b then [Send m] else []) →
  wp (when b (mtx_send env m)) E Q l.
Proof.
  intros Hr HQ. destruct b; [by apply wp_mtx_send|]. apply wp_ret. by rw app_nil_r in HQ.
Qed.

(** C12. The whole run of the program: if the run time and the operating system do
    what is expected, every target has a MAC address, the running flag drops at
    its [n]-th load and the replies end, then [main] does not panic and does
    exactly this, in this order: it installs the pipelines (unless another mode
    is configured) with the server list and its own closures, starts the engine,
    waits for [n] rounds of 200 ms (a look at the buffers every 300), prints the
    performance, asks for the counters, asks for the records if they are
    detailed, prints the counters of each reply that carries some (and logs an
    error for a reply of another kind and for a disconnection) up to the first
    time-out or disconnection, writes the report of the latest records of every
    pipeline if they are detailed, and exits. *)
Theorem main_protocol fuel cfg cores n ms e rest :
  env_ok cfg cores → Forall (resolvable (get_mac_from_ifname env)) (targets (engine_configuration cfg)) →
  (∀ j, (j < n)%nat → running env j = true) → running env n = false → (n < fuel)%nat →
  replies env = (RecvOk <$> ms) ++ e :: rest → ends e → received_ok ms →
  ∃ l234data s reports,
    servers_of (get_mac_from_ifname env) (targets (engine_configuration cfg)) = Ok l234data ∧ latest ms s ∧
    (if detailed cfg then ∃ o, reports = [Report o] ∧ report_of (con_records s) o
     else reports = []) ∧
    main env fuel [] = Ok (Some tt, main_trace cfg cores n l234data ms e reports).
Proof.
  intros [Hcfg Hflow Hhan Hsch Hins Hcores Hch Hrecv Hfiles] Hres Hrun Hstop Hfuel Hrep He Hok.
  destruct (servers_from_cases (get_mac_from_ifname env) (targets (engine_configuration cfg)) 0)
    as [(l234data & Hl & _)|[_ Hn]]; [|by destruct Hn].
  enough (wp (main env fuel) no_panic (λ o acts, o = Some tt ∧ ∃ s reports, latest ms s ∧
    (if detailed cfg then ∃ o, reports = [Report o] ∧ report_of (con_records s) o
     else reports = []) ∧ acts = main_trace cfg cores n l234data ms e reports) []) as Hwp.
  { apply wp_total in Hwp as (o & acts & Hm & -> & s & reports & Hs & Hr & ->). by exists l234data, s, reports. }
  apply wp_bind, wp_lift. rw Hcfg. cbn [wpr]. apply wp_bind, wp_act.
  apply wp_bind, wp_expect; [done|]. apply wp_bind, wp_expect; [done|].
  apply wp_bind, wp_lift. rw /servers_of Hl. cbn [wpr]. apply wp_bind, wp_expect; [done|].
  apply wp_bind, wp_install; [done|]. fold (delayed cfg).
  apply wp_bind, wp_lift. rw Hcores. cbn [wpr].
  apply wp_bind, wp_act, wp_bind, wp_expect; [done|]. apply wp_bind, wp_mtx_send; [done|].
  apply wp_bind, wp_act, wp_bind, wp_act, wp_bind.
  apply (wp_run_loop fuel 0 n); [done..|].
  apply wp_bind, wp_act, wp_bind, wp_mtx_send; [done|]. apply wp_bind, wp_act, wp_bind, wp_mtx_send; [done|].
  apply wp_bind, wp_ask; [done|]. rw Hrep. apply wp_bind.
  apply (wp_reply_loop _ e rest He ms []); [done|]. intros s Hs.
  fold (detailed cfg). apply wp_bind, (wp_report_records _ _ ms); [done..|]. intros acts Hacts.
  apply wp_bind, wp_mtx_send; [done|]. do 3 apply wp_bind, wp_act. apply wp_ret.
  split; [done|]. exists s, acts. split_and!; [done..|]. by rw /main_trace -!app_assoc.
Qed.
End main_properties.

(** ** Witnesses *)
Import Sample SampleManager SampleEngine.

Definition id0 : PipelineId := mkPipelineId 1 0 0.
Definition replies0 : list MessageTo :=
  [CounterTo id0 counter_new counter_new; CRecordsTo id0 None;
   CRecordsTo id0 (Some records0); OtherMessageTo].

Lemma reply_loop_collects_witness :
  ∃ s acts, reply_loop ((RecvOk <$> replies0) ++ RecvTimeout :: [RecvDisconnected]) nothing_collected []
    = Ok (Some s, acts) ∧ con_records s !! id0 = Some records0 ∧ length acts = 3%nat.
Proof.
  destruct (reply_loop_collects replies0 []) as [H _].
  destruct (H RecvTimeout [RecvDisconnected] ltac:(done)) as (s & Hs & Hid).
  exists s, ([] ++ (replies0 ≫= reply_actions) ++ end_actions RecvTimeout).
  split; [exact Hs|]. split; [|reflexivity]. destruct (Hid id0) as (_ & _ & ->). reflexivity.
Defined.

Definition main_cfg : RunConfiguration := {|
  flowdirector_map := {[ 1 := (167772161, 4096) : @FlowDirector _ ports ]};
  engine_configuration := mkConfiguration targets0 (mkEngineConfig None 8080 (Some true) None) None;
  system_cpu_clock := 2000000; remote_open := true |}.
Definition main_env : MainEnv := {|
  run_configuration := Some main_cfg; setup_flowdirector := true; set_handler := true;
  get_mac_from_ifname := λ _, Some (171 : @MacAddress headers); deserialize_cdata := λ _, None;
  start_schedulers := true; install_pipelines := true; active_cores := Some [3];
  get_main_channel := true; main_receiver := true; running := λ n, (n <? 2)%nat;
  replies := (RecvOk <$> replies0) ++ RecvTimeout :: []; files := files0;
  pipeline_display := λ _, "p"; hash_order := map_to_list;
  shuffle_ports := λ lo hi, seqZ lo (hi - lo + 1); tick_length := λ _, 2 |}.

Lemma received0 : received_ok main_env replies0.
Proof.
  split; [|done|].
  - intros id r. rw !elem_of_cons. intros [[=]|[[=]|[[= -> ->]|[[=]|[]%not_elem_of_nil]]]]. exact records0_ok.
  - intros s Hs. assert (con_records s = {[ id0 := records0 ]}) as ->; [|by vm_compute].
    apply map_eq. intros id. destruct (Hs id) as (_ & _ & ->). rw lookup_singleton. cbn.
    by repeat case_decide.
Qed.

Lemma main_protocol_witness :
  ∃ acts, main main_env 5 [] = Ok (Some tt, acts) ∧
    omap (λ a, match a with Send m => Some m | _ => None end) acts =
      [StartEngine; PrintPerformance [3]; FetchCounterFrom; FetchCRecordsFrom; Exit] ∧
    PrintTcpCounters id0 counter_new counter_new ∈ acts.
Proof.
  destruct (main_protocol main_env 5 main_cfg [3] 2 replies0 RecvTimeout [])
    as (srvs & s & reports & _ & _ & (o & -> & _) & Hm).
  - by split.
  - repeat constructor; [exists 170; by left|exists 171; by right].
  - intros j Hj. apply Nat.ltb_lt. lia.
  - done.
  - lia.
  - done.
  - done.
  - exact received0.
  - exists (main_trace main_env main_cfg [3] 2 srvs replies0 RecvTimeout [Report o]).
    split; [exact Hm|]. split; [reflexivity|]. rw /main_trace. cbn. rw !elem_of_cons. tauto.
Defined.
